(* ===== verification/_CoqProject ===== *)
-Q . S2P
Prelude.v
Buffers.v
SendEvents.v
Framing.v
JobQueues.v
JobTimers.v
Wire.v
Protocol.v
Messages.v
Accessors.v
Packets.v
Runtime.v
Config.v
Accounts.v
Rooms.v
Sessions.v
SessionSafety.v
SessionTheorems.v
Managers.v
Handlers.v
Users.v
ServerSafety.v
ServerTheorems.v
ServerDemo.v
ServerShutdown.v
ServerProcess.v
ServerService.v
Interleaving.v
Listener.v
ClientEvents.v
Clients.v
ClientSafety.v
ClientTheorems.v
ClientDemo.v
ClientMain.v
Connections.v
UserPrograms.v
UserSafety.v
UserTheorems.v
ConnectionSafety.v
ConnectionTheorems.v
ConnectionDemo.v
ConnectionRefinement.v
