(* ===== verification/Prelude.v ===== *)
(** * Verification of the IOCP chat server and its test client

    ** The program

    The repository holds a game server for Windows on I/O completion ports and a client that
    tests it.  The server (src/Server) is a network core (ServerCore: completion port, listener,
    sessions, buffers, job queues, timers) and a game part (GameServer: accounts, rooms, packet
    handlers).  Worker threads take completions from the port; a receive completion cuts the byte
    stream into packets and posts one job per packet to the logic queue of its session; the jobs
    run the packet handlers, which change accounts, rooms and the session manager and send
    answers; sends are gathered in one overlapped send per session.  The client (src/TestClient)
    runs sessions against the server, from a console or as a load test with many bots.  Both
    speak the protocol buffer messages of src/Server/Common/protoc-21.12-win64/bin.

    ** The files, and the code they model

    Shared: [Prelude] (machine integers, byte lists, record update, lemmas, tactics, hints) and
    [Interleaving] (programs of atomic actions, thread pools, ownership, termination of pools).

    Network core of the server:
    - [Buffers]: RecvBuffer and SendBuffer; [SendEvents]: SendEvent of IocpEvent.{h,cpp};
    - [Framing]: PacketHeader, Session::on_recv and the buffer part of Session::process_recv;
    - [JobQueues]: LockQueue, JobQueue, GlobalQueue, and the loop of ThreadManager, as a step
      relation at the granularity of the atomic operations; [JobTimers]: JobTimer;
    - [Listener]: Listener.{h,cpp} and ServerService::start, over [Interleaving] and [JobTimers];
    - [Sessions]: Session.{h,cpp}, IocpObject, the network part of GameSession, and the dispatch
      of IocpCore, a method at a time; [SessionSafety] and [SessionTheorems]: invariant, theorems;
    - [Connections]: the same methods as programs over [Interleaving], with the operations in
      flight, the worker that runs a job and the history of the session; [ConnectionSafety] and
      [ConnectionTheorems]: the ownership invariant and what holds in every run; [ConnectionDemo]:
      runs of it; [ConnectionRefinement]: a method of [Sessions] does what its program does alone.

    Protocol:
    - [Wire]: the inline functions of the protocol buffer headers the generated code calls;
    - [Protocol]: message records, packet ids and the interface [PacketCodec] with its laws;
    - [Messages], [Accessors]: the generated classes of Protocol.pb.{h,cc} and Struct.pb.{h,cc};
    - [Packets]: MakeSendBuffer and StringUtil; [Runtime]: instances of the parameters, for
      witnesses.

    Game server:
    - [Accounts]: Login; [Rooms]: Room and RoomManager; [Managers]: SessionManager and the state
      of the whole server; [Handlers]: ServerPacketHandler.cpp, the cleanup job, accepting and
      closing; [Users]: the invariant that joins them; [ServerSafety], [ServerTheorems],
      [ServerDemo]: the theorems about the whole server and runs of it; [ServerShutdown]: what
      happens to it after Service::close_service;
    - [UserPrograms]: the packet handlers, the cleanup job and accepting once more, as programs
      over [Interleaving] with one action for each section under a lock of Login, Room or
      SessionManager and each access to a member of a session; [UserSafety]: what each session
      claims of the shared tables while a job of it runs, and the invariant; [UserTheorems]: the
      handlers of different sessions in every interleaving;
    - [ServerProcess]: main of GameServer.cpp from the start of the service on, its worker and
      background threads, and ThreadManager, against the interface [ServiceOps] with the laws
      [ServiceLaws]; [ServerService]: the server model as an instance of them.

    Configuration and client:
    - [Config]: ConfigReader of server and client, ClientConfig, the settings of the server main;
    - [ClientEvents]: SendEvent of the client; [Clients]: TestSession and ClientPacketHandler as
      programs over [Interleaving]; [ClientSafety], [ClientTheorems], [ClientDemo]: invariant,
      theorems and runs; [ClientMain]: ClientServer and main.cpp.

    The state of a component is a record with the members of its class; an operation is a
    function of the name of the method.  Code that can fail an assertion, read out of range or
    reuse an OVERLAPPED in flight returns an option or ends in [Crash].

    ** What the theorems show

    - The server as a whole: in every reachable state every operation runs to its end; an account
      is logged in once; rooms, accounts, sessions and the indexes of the session manager agree;
      the session limit holds; a chat request (to a room, to all rooms, whispered) reaches exactly
      the sessions it names and the answer has their number; the cleanup of a session leaves
      nothing behind, in the login list neither; a full server turns a connection away; once it
      begins to close it drains, and then nobody is logged in, in a room or registered.
    - Handlers of different sessions on different workers, interleaving: a session that has no job
      running has exactly the entries in login list, indexes and rooms that its members say,
      whatever the others are doing, and the counts are exact.  This needs the order in which a
      handler leaves the room, logs out and gives up its entries, and the owner that the session
      manager compares before it gives one up.
    - The process: workers outlive the closing of the service, background threads do not, no
      thread outlives main, from every state main can come to its end, and a thread that was told to
      stop does so within a few steps.
    - Sessions of the server, with all their threads interleaving: no assertion fails and no
      event in flight is touched; packets are sent in the order of [send] and none is stranded;
      the packets received are handed on in order and a receive is always in flight; handlers run
      in order and before the cleanup, which is never forgotten; shutting down ends.  A gap in the
      stream that a refused send leaves is shown by a run.
    - The two translations of a session: each method as one step does what its program does when
      it runs uninterrupted.
    - Streams: the framing delivers the same packets however the stream is cut into completions of
      at most the length register_recv offers, and stops where the session disconnects; the receive
      buffer refines a queue; a send event consumes exactly the bytes the system took.
    - Jobs and timers: one thread at a time per queue, first in first out, nothing stranded; the
      timer releases exactly what is due.
    - Listener: each accept event is in one place at any time, none is lost or submitted twice,
      and closing ends.
    - Messages: parse after serialise is the identity, parsing terminates, MakeSendBuffer on
      packets that fit and on packets of every size that does not.
    - Accounts: the tables stay consistent; the life of an account from its creation to its next
      login.
    - Configuration: printing and reading back is the identity; which settings are accepted.
    - Client: no interleaving of its threads crashes a session; the accounting of overlapped
      operations is exact; packets are sent and handled in order; members keep their types;
      a disconnected session drains; the worker pool releases a session last; bots and commands.
    - Client and server: whatever the interleaving in the client and however TCP cuts the bytes
      into completions that the receive buffer has room for, a connected server session with
      nothing in its receive buffer queues the client's requests, decoded and in order.

    ** Abstractions, bounds and fuel

    - In the model of the whole server a method or job of a session is one step.  In
      [Connections], [UserPrograms], [Clients] and [Listener] the critical sections and atomic
      accesses are the steps and everything between them interleaves, and [JobQueues] does so for
      the job queues.
    - [UserPrograms] has the sessions without their connections: whether one is connected is
      answered by an oracle each time, the calls of send and disconnect are recorded ([Connections]
      shows what becomes of any such calls), at most one job of a session runs at a time and its
      cleanup is the last (what [JobQueues] and [Connections] prove), and a session that is being
      opened is not shut down.  The loop of normal_chat does not exclude other threads there,
      which allows more than the code does.  The limit on it is the 64-bit counter of accounts.
    - In [Connections] a section under [_io_lock] is split where it reads [_is_connect] and after
      a failed system call, a handler is given by the calls it makes on the session, at most one
      job of a session runs at a time (what [JobQueues] proves), and the listener opens a session
      once and is stopped before the sessions are shut down, as Service::close_service does.
    - Answers of the operating system are arguments or an oracle, with no assumption on them.
    - Loops that are not structural take fuel, and the theorems say that it is enough: [on_recv]
      and [process_loop] the number of bytes (each packet takes at least four), [distribute_loop]
      the number of items, the parse loops the number of bytes, [bot_indices] the number of
      sessions.
    - Client theorems hold up to 2^40 queued packets and 256 workers, the limit of
      start_worker_thread; listener theorems up to 2^30 threads; those on the interleaving of a
      server session up to 2^30 workers and 2^31 jobs of one session.
    - [ServerProcess] represents a service by a relation for each call the process makes; in
      [ServerService] the listener is the number of its accepts in flight.  Worker counts are those
      the settings accept, 1 to 2^31 - 1.  That the process can end is a statement about what
      its threads can do; it does not assume or show a fair scheduler.
    - Protocol buffer functions that are only declared in the headers, and the string tables of
      Windows, are parameters; [PbRuntimeLaws], [PacketCodecLaws] and [StringApiLaws] state what
      the code relies on, and [Runtime] shows that they can hold.

    ** Not modelled

    Logging, the database wrapper (its calls are commented out), console output and the rates of
    the client's statistics (floating point), thin wrappers of Winsock and of the completion port
    (SocketUtils, NetAddress, IocpCore::Register), destructors, descriptors and reflection of
    protocol buffers, the Python packet generator and the tests: they only call the operating
    system or a library, or are not part of the running program.  There is no
    single model in which the connections and the tables of all sessions interleave action by
    action: [Connections] has one session with all its threads, [UserPrograms] all sessions with
    the tables they share. *)

From stdpp Require Import base list numbers option.
From Stdlib Require Import ZArith Lia.

#[global] Open Scope Z_scope.
#[global] Set Default Goal Selector "!".
#[global] Unset Mangle Names.

(** ** Machine integers

    The C++ integer types of [Utils/Types.h] are [Z] with their wrap-around
    written out: [u8], [u16], [u32], [u64] reduce modulo the width, [i32] and
    [i64] reduce to the two's complement representative. *)

Definition u8 (z : Z) : Z := z mod 2 ^ 8.
Definition u16 (z : Z) : Z := z mod 2 ^ 16.
Definition u32 (z : Z) : Z := z mod 2 ^ 32.
Definition u64 (z : Z) : Z := z mod 2 ^ 64.
Definition i32 (z : Z) : Z := (z + 2 ^ 31) mod 2 ^ 32 - 2 ^ 31.
Definition i64 (z : Z) : Z := (z + 2 ^ 63) mod 2 ^ 64 - 2 ^ 63.

Definition UINT16_MAX : Z := 65535.
Definition INT32_MAX : Z := 2147483647.
Definition INT32_MIN : Z := -2147483648.

(** A byte of a buffer is a [Z] in [0, 255]. *)
Definition is_byte (b : Z) : Prop := 0 <= b < 256.
Abbreviation bytes := (list Z).

(** A UTF-16 [wstring] of the server. *)
Abbreviation wstring := (list Z).

(** Length of a list as the [int32]/[size_t] the code computes with. *)
Definition zlen {A} (l : list A) : Z := Z.of_nat (length l).

(** [&l[off]] read for [n] elements. *)
Definition slice {A} (off n : Z) (l : list A) : list A :=
  take (Z.to_nat n) (drop (Z.to_nat off) l).

(** ** Record update

    [r <| f := v |>] is [r] with field [f] set to [v].  A record opts in with
    one [Settable] instance, its eta-expansion; the updater of a field is then
    computed from that instance. *)

Class Settable (R : Type) := settable_eta : R -> R.

Class Updater {R T : Type} (proj : R -> T) := updater : (T -> T) -> R -> R.

Ltac derive_updater :=
  match goal with
  | |- @Updater ?R ?T ?proj =>
      let inst := constr:(_ : Settable R) in
      let e := eval hnf in (inst : R -> R) in
      match eval pattern proj in e with
      | ?g proj =>
          let s := eval cbv beta in (fun (f : T -> T) => g (fun r => f (proj r))) in
          exact s
      end
  end.

#[export] Hint Extern 1 (@Updater _ _ _) => derive_updater : typeclass_instances.

Definition upd {R T} (proj : R -> T) {U : Updater proj} (f : T -> T) (r : R) : R := U f r.
Arguments upd {_ _} proj {_} f r /.

Declare Scope server_scope.
Delimit Scope server_scope with server.
Notation "r <| f := v |>" := (upd f (fun _ => v) r)
  (at level 12, left associativity, v at level 200) : server_scope.
Notation "r <| f ::= g |>" := (upd f g r)
  (at level 12, left associativity, g at level 200) : server_scope.
#[global] Open Scope server_scope.

(** ** Automation *)

Create HintDb server.

(** Splits every boolean test of the goal and the context into arithmetic. *)
Ltac bool_lia :=
  repeat match goal with
  | H : (_ =? _) = true |- _ => apply Z.eqb_eq in H
  | H : (_ =? _) = false |- _ => apply Z.eqb_neq in H
  | H : (_ <? _) = true |- _ => apply Z.ltb_lt in H
  | H : (_ <? _) = false |- _ => apply Z.ltb_ge in H
  | H : (_ <=? _) = true |- _ => apply Z.leb_le in H
  | H : (_ <=? _) = false |- _ => apply Z.leb_gt in H
  | H : (_ >? _) = _ |- _ => rewrite Z.gtb_ltb in H
  | H : (_ >=? _) = _ |- _ => rewrite Z.geb_leb in H
  | H : (_ || _)%bool = true |- _ => apply orb_true_iff in H
  | H : (_ || _)%bool = false |- _ => apply orb_false_iff in H; destruct H
  | H : (_ && _)%bool = true |- _ => apply andb_true_iff in H; destruct H
  | H : negb _ = true |- _ => apply negb_true_iff in H
  | H : negb _ = false |- _ => apply negb_false_iff in H
  end.

(** Case split on the innermost [if]/[match] scrutinee of the goal, keeping its equation. *)
Ltac split_match :=
  match goal with
  | |- context [ match ?x with _ => _ end ] =>
      lazymatch x with
      | context [ match _ with _ => _ end ] => fail
      | _ => let E := fresh "E" in destruct x eqn:E
      end
  end.

Ltac split_match_in H :=
  match type of H with
  | context [ match ?x with _ => _ end ] =>
      lazymatch x with
      | context [ match _ with _ => _ end ] => fail
      | _ => let E := fresh "E" in destruct x eqn:E
      end
  end.

(** ** Integer lemmas *)

Lemma i32_small z : -2 ^ 31 <= z < 2 ^ 31 -> i32 z = z.
Proof. intros H. unfold i32. rewrite Z.mod_small; lia. Qed.

Lemma i64_small z : -2 ^ 63 <= z < 2 ^ 63 -> i64 z = z.
Proof. intros H. unfold i64. rewrite Z.mod_small; lia. Qed.

Lemma i32_range z : -2 ^ 31 <= i32 z < 2 ^ 31.
Proof. unfold i32. pose proof (Z.mod_pos_bound (z + 2 ^ 31) (2 ^ 32)). lia. Qed.

Lemma u8_small z : 0 <= z < 2 ^ 8 -> u8 z = z.
Proof. intros; unfold u8; apply Z.mod_small; lia. Qed.

Lemma u16_small z : 0 <= z < 2 ^ 16 -> u16 z = z.
Proof. intros; unfold u16; apply Z.mod_small; lia. Qed.

Lemma u32_small z : 0 <= z < 2 ^ 32 -> u32 z = z.
Proof. intros; unfold u32; apply Z.mod_small; lia. Qed.

Lemma u64_small z : 0 <= z < 2 ^ 64 -> u64 z = z.
Proof. intros; unfold u64; apply Z.mod_small; lia. Qed.

Lemma u8_range z : 0 <= u8 z < 2 ^ 8.
Proof. apply Z.mod_pos_bound; lia. Qed.

Lemma u16_range z : 0 <= u16 z < 2 ^ 16.
Proof. apply Z.mod_pos_bound; lia. Qed.

Lemma u32_range z : 0 <= u32 z < 2 ^ 32.
Proof. apply Z.mod_pos_bound; lia. Qed.

Lemma u64_range z : 0 <= u64 z < 2 ^ 64.
Proof. apply Z.mod_pos_bound; lia. Qed.

Lemma Z_gtb_false n m : n <= m -> (n >? m) = false.
Proof. rewrite Z.gtb_ltb. apply Z.ltb_ge. Qed.

Lemma Z_gtb_true n m : m < n -> (n >? m) = true.
Proof. rewrite Z.gtb_ltb. apply Z.ltb_lt. Qed.

Lemma Z_ltb_false n m : m <= n -> (n <? m) = false.
Proof. apply Z.ltb_ge. Qed.

Lemma Z_ltb_true n m : n < m -> (n <? m) = true.
Proof. apply Z.ltb_lt. Qed.

(** A decidable claim about the integers below [n], by evaluation. *)
Lemma forall_below (P : Z -> bool) (n : nat) :
  forallb (fun k => P (Z.of_nat k)) (seq 0 n) = true -> forall z, 0 <= z < Z.of_nat n -> P z = true.
Proof.
  intros H z Hz. rewrite forallb_forall in H. specialize (H (Z.to_nat z)).
  rewrite Z2Nat.id in H by lia. apply H. apply in_seq. lia.
Qed.

#[export] Hint Resolve i32_range u8_range u16_range u32_range u64_range : server.

(** ** List lemmas *)

Lemma zlen_nil {A} : zlen (@nil A) = 0.
Proof. reflexivity. Qed.

Lemma zlen_cons {A} (x : A) l : zlen (x :: l) = zlen l + 1.
Proof. unfold zlen; simpl length; lia. Qed.

Lemma zlen_app {A} (l k : list A) : zlen (l ++ k) = zlen l + zlen k.
Proof. unfold zlen; rewrite length_app; lia. Qed.

Lemma zlen_nonneg {A} (l : list A) : 0 <= zlen l.
Proof. unfold zlen; lia. Qed.

Lemma zlen_drop {A} n (l : list A) : 0 <= n <= zlen l -> zlen (drop (Z.to_nat n) l) = zlen l - n.
Proof. unfold zlen; rewrite length_drop; lia. Qed.

Lemma zlen_take {A} n (l : list A) : 0 <= n <= zlen l -> zlen (take (Z.to_nat n) l) = n.
Proof. unfold zlen; rewrite length_take; lia. Qed.

#[export] Instance zlen_proper {A} : Proper ((≡ₚ) ==> (=)) (@zlen A).
Proof. intros l k H. unfold zlen. by rewrite H. Qed.

#[export] Hint Rewrite @zlen_nil @zlen_cons @zlen_app : zlen.
#[export] Hint Resolve zlen_nonneg : server.

Lemma zlen_slice {A} off n (l : list A) :
  0 <= off -> 0 <= n -> off + n <= zlen l -> zlen (slice off n l) = n.
Proof.
  intros. unfold slice. rewrite zlen_take; [done|]. rewrite zlen_drop; lia.
Qed.

Lemma slice_all {A} (l : list A) : slice 0 (zlen l) l = l.
Proof.
  unfold slice, zlen. rewrite Nat2Z.id. simpl. apply take_ge. lia.
Qed.

Lemma slice_empty {A} off (l : list A) : slice off 0 l = [].
Proof. reflexivity. Qed.

Lemma slice_app_split {A} off n m (l : list A) :
  0 <= off -> 0 <= n -> 0 <= m -> slice off (n + m) l = slice off n l ++ slice (off + n) m l.
Proof.
  intros. unfold slice. rewrite !Z2Nat.inj_add by lia.
  rewrite <- drop_drop, take_take_drop. done.
Qed.

Lemma slice_of_slice {A} o1 n1 o2 n2 (l : list A) :
  0 <= o1 -> 0 <= o2 -> 0 <= n2 -> o2 + n2 <= n1 ->
  slice o2 n2 (slice o1 n1 l) = slice (o1 + o2) n2 l.
Proof.
  intros. unfold slice.
  replace (Z.to_nat n1) with (Z.to_nat o2 + Z.to_nat (n1 - o2))%nat by lia.
  rewrite <- take_drop_commute, drop_drop, take_take.
  rewrite Z2Nat.inj_add by lia. f_equal. lia.
Qed.

Lemma slice_app_l {A} off n (l k : list A) :
  0 <= off -> 0 <= n -> off + n <= zlen l -> slice off n (l ++ k) = slice off n l.
Proof.
  intros. unfold slice, zlen in *. rewrite drop_app_le by lia.
  rewrite take_app_le; [done|]. rewrite length_drop. lia.
Qed.

Lemma slice_app_r {A} off n (l k : list A) :
  zlen l <= off -> slice off n (l ++ k) = slice (off - zlen l) n k.
Proof.
  intros. unfold slice, zlen in *. rewrite drop_app_ge by lia. do 2 f_equal. lia.
Qed.

Lemma Forall_slice {A} (P : A -> Prop) off n l : Forall P l -> Forall P (slice off n l).
Proof. intros. unfold slice. by apply Forall_take, Forall_drop. Qed.

Lemma zlen_zero {A} (l : list A) : zlen l = 0 -> l = [].
Proof. intros H. apply length_zero_iff_nil. unfold zlen in H. lia. Qed.

Lemma nil_proper {A} (l k : list A) : l ≡ₚ k -> k = [] -> l = [].
Proof. intros H ->. by apply Permutation_nil_r in H. Qed.

Lemma concat_snoc (l : list bytes) p : concat (l ++ [p]) = concat l ++ p.
Proof. rewrite concat_app. simpl. by rewrite app_nil_r. Qed.

Lemma u32_i32 n : 0 <= n < 2 ^ 32 -> u32 (i32 n) = n.
Proof.
  intros H. unfold u32, i32. destruct (decide (n < 2 ^ 31)).
  - rewrite (Z.mod_small (n + 2 ^ 31)) by lia. rewrite Z.mod_small; lia.
  - replace ((n + 2 ^ 31) mod 2 ^ 32) with (n - 2 ^ 31) by (apply (Z.mod_unique _ _ 1); lia).
    symmetry. apply (Z.mod_unique _ _ (-1)); lia.
Qed.
