(* ===== verification/Buffers.v ===== *)
(** * Receive and send buffers

    [RecvBuffer] (ServerCore/NetWork/RecvBuffer.{h,cpp}) and [SendBuffer]
    (ServerCore/NetWork/SendBuffer.{h,cpp}).  The storage of both is the
    [vector<BYTE>] of the source, cursors are [int32].  The abstract view of a
    receive buffer is the byte queue [RecvBuffer_data]; the refinement theorem
    says that every operation acts on that queue. *)

From stdpp Require Import base list numbers option.
From Stdlib Require Import ZArith Lia.
From S2P Require Import Prelude.

(** ** RecvBuffer *)

Record RecvBuffer := mkRecvBuffer {
  rb_capacity : Z;
  rb_Buffer_size : Z;
  rb_read_pos : Z;
  rb_write_pos : Z;
  rb_buffer : bytes
}.

#[export] Instance RecvBuffer_settable : Settable RecvBuffer :=
  fun r => mkRecvBuffer (rb_capacity r) (rb_Buffer_size r) (rb_read_pos r)
                        (rb_write_pos r) (rb_buffer r).

(** The constructor: ten times the requested size, zero filled. *)
Definition RecvBuffer_new (BufferSize : Z) : RecvBuffer :=
  let capacity := i32 (BufferSize * 10) in
  mkRecvBuffer capacity BufferSize 0 0 (replicate (Z.to_nat capacity) 0).

Definition RecvBuffer_data_size (rb : RecvBuffer) : Z :=
  i32 (rb_write_pos rb - rb_read_pos rb).

Definition RecvBuffer_free_size (rb : RecvBuffer) : Z :=
  i32 (rb_capacity rb - rb_write_pos rb).

(** [memmove(&dst[0], &src[from], n)] inside one vector. *)
Definition memmove_front (from n : Z) (buf : bytes) : bytes :=
  slice from n buf ++ drop (Z.to_nat n) buf.

Definition RecvBuffer_clean (rb : RecvBuffer) : RecvBuffer :=
  let dataSize := RecvBuffer_data_size rb in
  if dataSize =? 0 then
    rb <| rb_read_pos := 0 |> <| rb_write_pos := 0 |>
  else if RecvBuffer_free_size rb <? rb_Buffer_size rb then
    rb <| rb_buffer := memmove_front (rb_read_pos rb) dataSize (rb_buffer rb) |>
       <| rb_read_pos := 0 |>
       <| rb_write_pos := dataSize |>
  else rb.

Definition RecvBuffer_on_read (numOfBytes : Z) (rb : RecvBuffer) : bool * RecvBuffer :=
  if numOfBytes >? RecvBuffer_data_size rb then (false, rb)
  else (true, rb <| rb_read_pos := i32 (rb_read_pos rb + numOfBytes) |>).

Definition RecvBuffer_on_write (numOfBytes : Z) (rb : RecvBuffer) : bool * RecvBuffer :=
  if numOfBytes >? RecvBuffer_free_size rb then (false, rb)
  else (true, rb <| rb_write_pos := i32 (rb_write_pos rb + numOfBytes) |>).

(** [read_pos()]: the bytes readable from the read cursor. *)
Definition RecvBuffer_read_pos (rb : RecvBuffer) : bytes :=
  drop (Z.to_nat (rb_read_pos rb)) (rb_buffer rb).

(** What the operating system does between the [WSARecv] registered on
    [write_pos()] and its completion: the received bytes are stored at the
    write cursor. *)
Definition RecvBuffer_os_store (bs : bytes) (rb : RecvBuffer) : RecvBuffer :=
  rb <| rb_buffer := take (Z.to_nat (rb_write_pos rb)) (rb_buffer rb) ++ bs ++
                     drop (Z.to_nat (rb_write_pos rb + zlen bs)) (rb_buffer rb) |>.

(** ** SendBuffer *)

Record SendBuffer := mkSendBuffer {
  sb_buffer : bytes;
  sb_write_size : Z
}.

#[export] Instance SendBuffer_settable : Settable SendBuffer :=
  fun r => mkSendBuffer (sb_buffer r) (sb_write_size r).

Definition SendBuffer_new (BufferSize : Z) : SendBuffer :=
  mkSendBuffer (replicate (Z.to_nat BufferSize) 0) 0.

Definition SendBuffer_get_write_size (sb : SendBuffer) : Z := sb_write_size sb.

Definition SendBuffer_capacity (sb : SendBuffer) : Z := i32 (zlen (sb_buffer sb)).

(** [copy_data] returns [None] when its [assert] fails. *)
Definition SendBuffer_copy_data (data : bytes) (len : Z) (sb : SendBuffer) : option SendBuffer :=
  if SendBuffer_capacity sb >=? len then
    Some (sb <| sb_buffer := take (Z.to_nat len) data ++ drop (Z.to_nat len) (sb_buffer sb) |>
             <| sb_write_size := len |>)
  else None.

Definition SendBuffer_close (writeSize : Z) (sb : SendBuffer) : SendBuffer :=
  sb <| sb_write_size := i32 writeSize |>.

(** The bytes a send buffer puts on the wire. *)
Definition SendBuffer_payload (sb : SendBuffer) : bytes :=
  slice 0 (sb_write_size sb) (sb_buffer sb).

Definition SendBuffer_wf (sb : SendBuffer) : Prop :=
  0 <= sb_write_size sb <= zlen (sb_buffer sb) /\ sb_write_size sb < 2 ^ 31.

(** ** Abstract view and invariant of the receive buffer *)

Definition RecvBuffer_data (rb : RecvBuffer) : bytes :=
  slice (rb_read_pos rb) (rb_write_pos rb - rb_read_pos rb) (rb_buffer rb).

Record RecvBuffer_wf (rb : RecvBuffer) : Prop := {
  rbw_size : 0 < rb_Buffer_size rb;
  rbw_cap : rb_capacity rb = rb_Buffer_size rb * 10;
  rbw_fits : rb_capacity rb < 2 ^ 31;
  rbw_len : zlen (rb_buffer rb) = rb_capacity rb;
  rbw_read : 0 <= rb_read_pos rb <= rb_write_pos rb;
  rbw_write : rb_write_pos rb <= rb_capacity rb
}.

(** ** Lemmas *)

Section RecvBufferLemmas.
Context (rb : RecvBuffer) (Hwf : RecvBuffer_wf rb).

Lemma data_size_eq : RecvBuffer_data_size rb = zlen (RecvBuffer_data rb).
Proof using Hwf.
  destruct Hwf. unfold RecvBuffer_data_size, RecvBuffer_data.
  rewrite i32_small by lia. rewrite zlen_slice; lia.
Qed.

Lemma free_size_eq : RecvBuffer_free_size rb = rb_capacity rb - rb_write_pos rb.
Proof using Hwf. destruct Hwf. unfold RecvBuffer_free_size. apply i32_small. lia. Qed.

Lemma data_len : zlen (RecvBuffer_data rb) = rb_write_pos rb - rb_read_pos rb.
Proof using Hwf. destruct Hwf. unfold RecvBuffer_data. apply zlen_slice; lia. Qed.

Lemma os_store_len bs :
  zlen bs <= RecvBuffer_free_size rb ->
  zlen (rb_buffer (RecvBuffer_os_store bs rb)) = rb_capacity rb.
Proof using Hwf.
  intros Hbs. rewrite free_size_eq in Hbs. destruct Hwf. pose proof (zlen_nonneg bs).
  unfold RecvBuffer_os_store; simpl.
  autorewrite with zlen. rewrite zlen_take, zlen_drop; lia.
Qed.

(** The bytes stored are beyond those queued. *)
Lemma os_store_data bs : RecvBuffer_data (RecvBuffer_os_store bs rb) = RecvBuffer_data rb.
Proof using Hwf.
  destruct Hwf. unfold RecvBuffer_data, RecvBuffer_os_store; simpl.
  rewrite slice_app_l by (rewrite ?zlen_take; lia). unfold slice.
  rewrite <- (take_drop (Z.to_nat (rb_write_pos rb)) (rb_buffer rb)) at 2.
  rewrite drop_app_le by (rewrite length_take; unfold zlen in *; lia).
  rewrite take_app_le; [done|]. rewrite length_drop, length_take. unfold zlen in *; lia.
Qed.

(** Receiving [bs] at the write cursor and acknowledging it appends [bs]. *)
Lemma on_write_append bs :
  zlen bs <= RecvBuffer_free_size rb ->
  exists rb', RecvBuffer_on_write (zlen bs) (RecvBuffer_os_store bs rb) = (true, rb') /\
    RecvBuffer_wf rb' /\
    rb_Buffer_size rb' = rb_Buffer_size rb /\
    RecvBuffer_data rb' = RecvBuffer_data rb ++ bs.
Proof using Hwf.
  intros Hbs. pose proof (os_store_len bs Hbs) as Hlen. pose proof free_size_eq as Hf.
  unfold RecvBuffer_on_write.
  replace (RecvBuffer_free_size (RecvBuffer_os_store bs rb)) with (RecvBuffer_free_size rb) by done.
  rewrite Z_gtb_false by lia.
  eexists; split; [done|]. rewrite Hf in Hbs. destruct Hwf. pose proof (zlen_nonneg bs).
  assert (i32 (rb_write_pos rb + zlen bs) = rb_write_pos rb + zlen bs) as Hi by (apply i32_small; lia).
  split; [|split; [done|]].
  - constructor; simpl; try lia. exact Hlen.
  - unfold RecvBuffer_data; simpl. rewrite Hi.
    replace (rb_write_pos rb + zlen bs - rb_read_pos rb)
      with ((rb_write_pos rb - rb_read_pos rb) + zlen bs) by lia.
    rewrite slice_app_split by lia. f_equal.
    + apply os_store_data.
    + rewrite slice_app_r by (rewrite zlen_take; lia).
      rewrite zlen_take by lia.
      replace (rb_read_pos rb + (rb_write_pos rb - rb_read_pos rb) - rb_write_pos rb) with 0 by lia.
      rewrite slice_app_l by lia. apply slice_all.
Qed.

Lemma on_write_reject n :
  RecvBuffer_free_size rb < n -> RecvBuffer_on_write n rb = (false, rb).
Proof using. intros. unfold RecvBuffer_on_write. rewrite Z_gtb_true by lia. done. Qed.

(** Reading [n] bytes drops them from the front of the queue. *)
Lemma on_read_drop n :
  0 <= n <= RecvBuffer_data_size rb ->
  exists rb', RecvBuffer_on_read n rb = (true, rb') /\ RecvBuffer_wf rb' /\
    rb_Buffer_size rb' = rb_Buffer_size rb /\
    RecvBuffer_data rb' = drop (Z.to_nat n) (RecvBuffer_data rb).
Proof using Hwf.
  intros Hn. unfold RecvBuffer_on_read. rewrite Z_gtb_false by lia.
  eexists; split; [done|]. rewrite data_size_eq, data_len in Hn. destruct Hwf.
  assert (i32 (rb_read_pos rb + n) = rb_read_pos rb + n) as Hi by (apply i32_small; lia).
  split; [|split; [done|]].
  - constructor; simpl; try lia.
  - unfold RecvBuffer_data; simpl. rewrite Hi. unfold slice.
    replace (Z.to_nat (rb_write_pos rb - rb_read_pos rb))
      with (Z.to_nat n + Z.to_nat (rb_write_pos rb - (rb_read_pos rb + n)))%nat by lia.
    rewrite <- take_drop_commute, drop_drop. do 2 f_equal. lia.
Qed.

Lemma on_read_reject n :
  RecvBuffer_data_size rb < n -> RecvBuffer_on_read n rb = (false, rb).
Proof using. intros. unfold RecvBuffer_on_read. rewrite Z_gtb_true by lia. done. Qed.

(** [clean] never changes the queued bytes. *)
Lemma clean_keeps :
  RecvBuffer_wf (RecvBuffer_clean rb) /\
  rb_Buffer_size (RecvBuffer_clean rb) = rb_Buffer_size rb /\
  RecvBuffer_data (RecvBuffer_clean rb) = RecvBuffer_data rb.
Proof using Hwf.
  pose proof data_size_eq as Hds. pose proof data_len as Hdl. destruct Hwf.
  unfold RecvBuffer_clean. destruct (RecvBuffer_data_size rb =? 0) eqn:E0; bool_lia.
  - split; [constructor; simpl; lia|]. split; [done|].
    assert (RecvBuffer_data rb = []) as ->; [|by unfold RecvBuffer_data; simpl; rewrite slice_empty].
    apply length_zero_iff_nil. unfold zlen in *. lia.
  - destruct (RecvBuffer_free_size rb <? rb_Buffer_size rb); [|done].
    rewrite Hds, Hdl.
    assert (zlen (memmove_front (rb_read_pos rb) (rb_write_pos rb - rb_read_pos rb) (rb_buffer rb))
            = rb_capacity rb) as Hmm.
    { unfold memmove_front. rewrite zlen_app, zlen_slice, zlen_drop; lia. }
    split; [constructor; simpl; lia|]. split; [done|].
    unfold RecvBuffer_data; simpl. rewrite Z.sub_0_r. unfold memmove_front.
    rewrite slice_app_l; [| lia | lia | rewrite zlen_slice; lia].
    rewrite <- (zlen_slice (rb_read_pos rb) (rb_write_pos rb - rb_read_pos rb) (rb_buffer rb)) at 1 by lia.
    apply slice_all.
Qed.

(** After [clean] there is always room for one more full buffer, provided at
    most nine buffers' worth of bytes is still unread. *)
Lemma clean_room :
  zlen (RecvBuffer_data rb) <= 9 * rb_Buffer_size rb ->
  rb_Buffer_size rb <= RecvBuffer_free_size (RecvBuffer_clean rb).
Proof using Hwf.
  intros Hroom. pose proof data_size_eq as Hds. pose proof data_len as Hdl.
  pose proof free_size_eq as Hf. destruct Hwf.
  unfold RecvBuffer_clean. destruct (RecvBuffer_data_size rb =? 0) eqn:E0.
  - unfold RecvBuffer_free_size; simpl. rewrite i32_small; lia.
  - destruct (RecvBuffer_free_size rb <? rb_Buffer_size rb) eqn:E1; bool_lia; [|lia].
    unfold RecvBuffer_free_size; simpl. rewrite i32_small; lia.
Qed.
End RecvBufferLemmas.

Lemma RecvBuffer_new_wf n :
  0 < n -> n * 10 < 2 ^ 31 ->
  RecvBuffer_wf (RecvBuffer_new n) /\ RecvBuffer_data (RecvBuffer_new n) = [] /\
  rb_Buffer_size (RecvBuffer_new n) = n.
Proof.
  intros. unfold RecvBuffer_new. rewrite i32_small by lia. split; [|done].
  constructor; simpl; try lia. unfold zlen. rewrite length_replicate. lia.
Qed.

(** ** The receive buffer refines a byte queue *)

(** C33: whatever sequence of operations a well-formed receive buffer goes through,
    it behaves as a byte queue: bytes stored by the system and acknowledged with
    [on_write] are appended, [on_read] removes them from the front, [clean] only
    relocates them, and the cursors stay inside the allocated storage. *)
Theorem RecvBuffer_refines_queue rb :
  RecvBuffer_wf rb ->
  (forall bs, zlen bs <= RecvBuffer_free_size rb ->
     exists rb', RecvBuffer_on_write (zlen bs) (RecvBuffer_os_store bs rb) = (true, rb') /\
       RecvBuffer_wf rb' /\ RecvBuffer_data rb' = RecvBuffer_data rb ++ bs) /\
  (forall n, 0 <= n <= zlen (RecvBuffer_data rb) ->
     exists rb', RecvBuffer_on_read n rb = (true, rb') /\
       RecvBuffer_wf rb' /\ RecvBuffer_data rb' = drop (Z.to_nat n) (RecvBuffer_data rb)) /\
  (forall n, zlen (RecvBuffer_data rb) < n -> RecvBuffer_on_read n rb = (false, rb)) /\
  (forall n, RecvBuffer_free_size rb < n -> RecvBuffer_on_write n rb = (false, rb)) /\
  RecvBuffer_wf (RecvBuffer_clean rb) /\
  RecvBuffer_data (RecvBuffer_clean rb) = RecvBuffer_data rb.
Proof.
  intros Hwf. pose proof (data_size_eq rb Hwf) as Hds.
  split; [|split; [|split; [|split; [|split]]]].
  - intros bs Hbs. destruct (on_write_append rb Hwf bs Hbs) as (rb' & ? & ? & _ & ?). eauto.
  - intros n Hn. destruct (on_read_drop rb Hwf n) as (rb' & ? & ? & _ & ?); [lia|]. eauto.
  - intros n Hn. apply on_read_reject. lia.
  - intros n Hn. by apply on_write_reject.
  - apply clean_keeps, Hwf.
  - apply clean_keeps, Hwf.
Qed.

Definition demo_recv_buffer : RecvBuffer :=
  mkRecvBuffer 20 2 1 3 [9; 10; 11; 0; 0; 0; 0; 0; 0; 0; 0; 0; 0; 0; 0; 0; 0; 0; 0; 0].

Lemma RecvBuffer_refines_queue_witness :
  RecvBuffer_wf demo_recv_buffer /\ RecvBuffer_data demo_recv_buffer = [10; 11] /\
  RecvBuffer_data (RecvBuffer_clean demo_recv_buffer) = [10; 11].
Proof.
  assert (RecvBuffer_wf demo_recv_buffer) as Hwf by (constructor; vm_compute; intuition congruence).
  split; [exact Hwf|]. split; [reflexivity|].
  exact (proj2 (proj2 (proj2 (proj2 (proj2 (RecvBuffer_refines_queue demo_recv_buffer Hwf)))))).
Defined.
