(* ===== verification/SendEvents.v ===== *)
(** * Overlapped send events

    [IocpEvent], [SendEvent] and the scatter list handed to [WSASend]
    (ServerCore/NetWork/IocpEvent.{h,cpp}).  A send event keeps the buffers of
    one overlapped send and, separately, how much of them the system has
    already taken ([_buffer_index], [_buffer_offset]); the buffers themselves
    are never modified. *)

From stdpp Require Import base list numbers option.
From Stdlib Require Import ZArith Lia.
From S2P Require Import Prelude Buffers.

Inductive EventType := EventType_connect | EventType_disconnect | EventType_Accept
                     | EventType_Recv | EventType_send.

Record SendEvent := mkSendEvent {
  se_send_Buffers : list SendBuffer;
  se_buffer_index : Z;
  se_buffer_offset : Z
}.

#[export] Instance SendEvent_settable : Settable SendEvent :=
  fun r => mkSendEvent (se_send_Buffers r) (se_buffer_index r) (se_buffer_offset r).

Definition SendEvent_new : SendEvent := mkSendEvent [] 0 0.

Definition SendEvent_push (sb : SendBuffer) (ev : SendEvent) : SendEvent :=
  ev <| se_send_Buffers := se_send_Buffers ev ++ [sb] |>.

Definition SendEvent_clear (ev : SendEvent) : SendEvent :=
  ev <| se_send_Buffers := [] |> <| se_buffer_index := 0 |> <| se_buffer_offset := 0 |>.

Definition SendEvent_has_pending_data (ev : SendEvent) : bool :=
  se_buffer_index ev <? zlen (se_send_Buffers ev).

(** The buffers from [_buffer_index] on. *)
Definition SendEvent_rest (ev : SendEvent) : list SendBuffer :=
  drop (Z.to_nat (se_buffer_index ev)) (se_send_Buffers ev).

(** [WSABUF]: the memory from [buf] on, and the [ULONG] length. *)
Record WSABUF := mkWSABUF { wb_buf : bytes; wb_len : Z }.

(** One pass over the remaining buffers; only the first one starts at
    [_buffer_offset]. *)
Fixpoint build_wsabufs_loop (bufs : list SendBuffer) (offset : Z) : list WSABUF :=
  match bufs with
  | [] => []
  | b :: rest =>
      mkWSABUF (drop (Z.to_nat offset) (sb_buffer b))
               (u32 (SendBuffer_get_write_size b - offset))
        :: build_wsabufs_loop rest 0
  end.

Definition SendEvent_build_wsabufs (ev : SendEvent) : list WSABUF :=
  build_wsabufs_loop (SendEvent_rest ev) (se_buffer_offset ev).

(** The [while (numOfBytes > 0)] loop; [bufs] is the buffers from [index] on,
    and [None] is the out-of-range access [_send_Buffers[_buffer_index]]. *)
Fixpoint consume_loop (bufs : list SendBuffer) (index offset numOfBytes : Z)
    : option (Z * Z) :=
  if numOfBytes >? 0 then
    match bufs with
    | [] => None
    | b :: rest =>
        let available := i32 (SendBuffer_get_write_size b - offset) in
        if numOfBytes <? available then Some (index, i32 (offset + numOfBytes))
        else consume_loop rest (index + 1) 0 (i32 (numOfBytes - available))
    end
  else Some (index, offset).

(** The [uint64] sum of the write sizes of the remaining buffers. *)
Definition remaining_bytes (bufs : list SendBuffer) : Z :=
  foldl (fun acc b => u64 (acc + u64 (SendBuffer_get_write_size b))) 0 bufs.

Definition SendEvent_consume_sent_bytes (numOfBytes : Z) (ev : SendEvent)
    : option (bool * SendEvent) :=
  if numOfBytes <=? 0 then Some (false, ev)
  else
    let remaining := u64 (remaining_bytes (SendEvent_rest ev) - u64 (se_buffer_offset ev)) in
    if u64 numOfBytes >? remaining then Some (false, ev)
    else
      match consume_loop (SendEvent_rest ev) (se_buffer_index ev) (se_buffer_offset ev) numOfBytes with
      | None => None
      | Some (index, offset) =>
          Some (true, ev <| se_buffer_index := index |> <| se_buffer_offset := offset |>)
      end.

(** ** Abstract view: the bytes still to be sent *)

Definition payloads (bufs : list SendBuffer) : bytes := concat (SendBuffer_payload <$> bufs).

Definition SendEvent_pending (ev : SendEvent) : bytes :=
  drop (Z.to_nat (se_buffer_offset ev)) (payloads (SendEvent_rest ev)).

(** The bytes a scatter list describes. *)
Definition wsabufs_bytes (ws : list WSABUF) : bytes :=
  concat ((fun w => take (Z.to_nat (wb_len w)) (wb_buf w)) <$> ws).

(** The cursor stays within the buffer it points into, and the sizes are those
    the server can build: a send queue of at most 1000 packets (bounded here by
    [2^14]) of less than [2^16] bytes each. *)
Record SendEvent_wf (ev : SendEvent) : Prop := {
  sew_bufs : Forall (fun b => SendBuffer_wf b /\ sb_write_size b < 2 ^ 16) (se_send_Buffers ev);
  sew_count : zlen (se_send_Buffers ev) <= 2 ^ 14;
  sew_index : 0 <= se_buffer_index ev <= zlen (se_send_Buffers ev);
  sew_offset : match SendEvent_rest ev with
               | [] => se_buffer_offset ev = 0
               | b :: _ => 0 <= se_buffer_offset ev <= sb_write_size b
               end
}.

(** ** Lemmas *)

Lemma payload_len b : SendBuffer_wf b -> zlen (SendBuffer_payload b) = sb_write_size b.
Proof. intros [? ?]. unfold SendBuffer_payload. apply zlen_slice; lia. Qed.

Lemma payloads_cons b bufs : payloads (b :: bufs) = SendBuffer_payload b ++ payloads bufs.
Proof. reflexivity. Qed.

Lemma payloads_app b1 b2 : payloads (b1 ++ b2) = payloads b1 ++ payloads b2.
Proof. unfold payloads. by rewrite fmap_app, concat_app. Qed.

Lemma payloads_snoc bufs b : payloads (bufs ++ [b]) = payloads bufs ++ SendBuffer_payload b.
Proof. rewrite payloads_app. unfold payloads. simpl. by rewrite app_nil_r. Qed.

Abbreviation bufs_ok := (Forall (fun b => SendBuffer_wf b /\ sb_write_size b < 2 ^ 16)).

Lemma payloads_bound bufs : bufs_ok bufs -> 0 <= zlen (payloads bufs) <= zlen bufs * 2 ^ 16.
Proof.
  induction 1 as [|b bufs [Hb Hs] _ IH]; [done|].
  rewrite payloads_cons, zlen_app, zlen_cons, payload_len by done.
  destruct Hb. lia.
Qed.

Lemma remaining_bytes_acc bufs acc :
  bufs_ok bufs -> 0 <= acc -> acc + zlen (payloads bufs) < 2 ^ 64 ->
  foldl (fun a b => u64 (a + u64 (SendBuffer_get_write_size b))) acc bufs
    = acc + zlen (payloads bufs).
Proof.
  intros Hok. revert acc. induction Hok as [|b bufs [Hb Hs] Hok IH]; intros acc Hacc Hlt.
  - unfold payloads; simpl. rewrite zlen_nil. lia.
  - rewrite payloads_cons, zlen_app, payload_len in * by done.
    pose proof (zlen_nonneg (payloads bufs)). destruct Hb. simpl.
    unfold SendBuffer_get_write_size.
    rewrite (u64_small (sb_write_size b)) by lia. rewrite u64_small by lia.
    rewrite IH; lia.
Qed.

Lemma offset_zero_ok bufs :
  bufs_ok bufs -> match bufs with [] => 0 = 0 | b :: _ => 0 <= 0 <= sb_write_size b end.
Proof. intros Hok. destruct Hok as [|b ? [[? ?] ?] ?]; lia. Qed.

Lemma wsabufs_loop_bytes bufs off :
  bufs_ok bufs ->
  match bufs with [] => off = 0 | b :: _ => 0 <= off <= sb_write_size b end ->
  wsabufs_bytes (build_wsabufs_loop bufs off) = drop (Z.to_nat off) (payloads bufs).
Proof.
  intros Hok. revert off. induction Hok as [|b bufs [Hb Hs] Hok IH]; intros off Hoff.
  - by subst.
  - destruct Hb as [Hw Hmax]. unfold wsabufs_bytes in *. simpl.
    rewrite IH by (by apply offset_zero_ok).
    rewrite payloads_cons, drop_app_le
      by (pose proof (payload_len b (conj Hw Hmax)); unfold zlen in *; lia).
    f_equal. unfold SendBuffer_get_write_size. rewrite u32_small by lia.
    unfold SendBuffer_payload, slice; simpl drop.
    replace (Z.to_nat (sb_write_size b))
      with (Z.to_nat off + Z.to_nat (sb_write_size b - off))%nat by lia.
    by rewrite take_drop_commute.
Qed.

Lemma wsabufs_prefix k ws : wsabufs_bytes (take k ws) `prefix_of` wsabufs_bytes ws.
Proof.
  rewrite <- (take_drop k ws) at 2. unfold wsabufs_bytes. rewrite fmap_app, concat_app. by eexists.
Qed.

(** The loop moves the cursor forward by exactly [n] bytes. *)
Lemma consume_loop_spec bufs idx off n :
  bufs_ok bufs -> 0 <= idx -> 0 <= n < 2 ^ 31 ->
  match bufs with [] => off = 0 | b :: _ => 0 <= off <= sb_write_size b end ->
  off + n <= zlen (payloads bufs) ->
  exists k off', consume_loop bufs idx off n = Some (idx + Z.of_nat k, off') /\
    (k <= length bufs)%nat /\
    match drop k bufs with [] => off' = 0 | b :: _ => 0 <= off' <= sb_write_size b end /\
    drop (Z.to_nat off') (payloads (drop k bufs)) = drop (Z.to_nat (off + n)) (payloads bufs).
Proof.
  intros Hok. revert idx off n.
  induction Hok as [|b bufs [Hb Hs] Hok IH]; intros idx off n Hidx Hn Hoff Hle.
  - unfold payloads in Hle; simpl in Hle. rewrite zlen_nil in Hle.
    assert (n = 0) as -> by lia. subst off. exists 0%nat, 0. split; [|done].
    simpl. by rewrite Z.add_0_r.
  - pose proof Hb as [Hw Hmax]. rewrite payloads_cons, zlen_app, payload_len in Hle by done.
    simpl consume_loop. destruct (n >? 0) eqn:En.
    2: { rewrite Z.gtb_ltb in En. bool_lia. assert (n = 0) as -> by lia.
         exists 0%nat, off. rewrite !Z.add_0_r. simpl drop. repeat split; lia || done. }
    rewrite Z.gtb_ltb in En. bool_lia. unfold SendBuffer_get_write_size.
    rewrite (i32_small (sb_write_size b - off)) by lia.
    destruct (n <? sb_write_size b - off) eqn:Ea; bool_lia.
    + exists 0%nat, (off + n). rewrite Z.add_0_r, i32_small by lia. simpl drop.
      repeat split; lia || done.
    + rewrite i32_small by lia.
      destruct (IH (idx + 1) 0 (n - (sb_write_size b - off))) as (k & off' & Hc & Hk & Ho & Hd);
        try lia.
      { by apply offset_zero_ok. }
      exists (S k), off'. split; [rewrite Hc; f_equal; f_equal; lia|].
      split; [simpl; lia|]. split; [exact Ho|]. rewrite payloads_cons. simpl drop. rewrite Hd.
      pose proof (payload_len b Hb) as Hpl. unfold zlen in Hpl.
      rewrite drop_app_ge by lia. f_equal. lia.
Qed.

Section SendEventLemmas.
Context (ev : SendEvent) (Hwf : SendEvent_wf ev).

Lemma rest_ok : bufs_ok (SendEvent_rest ev).
Proof using Hwf. destruct Hwf. by apply Forall_drop. Qed.

Lemma rest_len : zlen (SendEvent_rest ev) <= 2 ^ 14.
Proof using Hwf. destruct Hwf. unfold SendEvent_rest, zlen in *. rewrite length_drop. lia. Qed.

Lemma offset_le : 0 <= se_buffer_offset ev <= zlen (payloads (SendEvent_rest ev)).
Proof using Hwf.
  pose proof rest_ok as Hok. destruct Hwf as [_ _ _ Ho].
  destruct (SendEvent_rest ev) as [|b r] eqn:E.
  { rewrite Ho. pose proof (zlen_nonneg (payloads [])). lia. }
  inversion Hok as [|? ? [Hb _] _]; subst. rewrite payloads_cons, zlen_app, payload_len by done.
  pose proof (zlen_nonneg (payloads r)). lia.
Qed.

Lemma pending_len :
  zlen (SendEvent_pending ev) = zlen (payloads (SendEvent_rest ev)) - se_buffer_offset ev.
Proof using Hwf. pose proof offset_le. unfold SendEvent_pending. apply zlen_drop. lia. Qed.

Lemma remaining_eq :
  u64 (remaining_bytes (SendEvent_rest ev) - u64 (se_buffer_offset ev)) = zlen (SendEvent_pending ev).
Proof using Hwf.
  pose proof rest_ok as Hok. pose proof (payloads_bound _ Hok). pose proof rest_len.
  pose proof offset_le. rewrite pending_len. unfold remaining_bytes.
  rewrite remaining_bytes_acc by (done || lia).
  rewrite (u64_small (se_buffer_offset ev)) by lia. rewrite Z.add_0_l. apply u64_small. lia.
Qed.

Lemma consume_accepts n :
  0 < n <= zlen (SendEvent_pending ev) ->
  exists ev', SendEvent_consume_sent_bytes n ev = Some (true, ev') /\ SendEvent_wf ev' /\
    se_send_Buffers ev' = se_send_Buffers ev /\
    SendEvent_pending ev' = drop (Z.to_nat n) (SendEvent_pending ev).
Proof using Hwf.
  intros Hn. pose proof rest_ok as Hok. pose proof (payloads_bound _ Hok) as Hb.
  pose proof rest_len as Hrl. pose proof offset_le as Ho. pose proof pending_len as Hpl.
  unfold SendEvent_consume_sent_bytes. rewrite remaining_eq.
  rewrite (proj2 (Z.leb_gt _ _)), u64_small, Z_gtb_false by lia.
  pose proof Hwf as [Hbufs Hcnt Hi Hoff].
  destruct (consume_loop_spec (SendEvent_rest ev) (se_buffer_index ev) (se_buffer_offset ev) n)
    as (k & off' & Hc & Hk & Hoff' & Hd); try (done || lia).
  rewrite Hc. eexists; split; [done|].
  assert (SendEvent_rest (ev <| se_buffer_index := se_buffer_index ev + Z.of_nat k |>
                             <| se_buffer_offset := off' |>) = drop k (SendEvent_rest ev)) as Hrest.
  { unfold SendEvent_rest; simpl. rewrite drop_drop. f_equal. lia. }
  split; [|split; [done|]].
  - constructor; rewrite ?Hrest; simpl; try done.
    unfold SendEvent_rest, zlen in *. rewrite length_drop in Hk. lia.
  - unfold SendEvent_pending. rewrite Hrest. simpl. rewrite Hd, drop_drop. f_equal. lia.
Qed.

Lemma consume_rejects n :
  n <= 0 \/ zlen (SendEvent_pending ev) < n < 2 ^ 31 ->
  SendEvent_consume_sent_bytes n ev = Some (false, ev).
Proof using Hwf.
  intros Hn. unfold SendEvent_consume_sent_bytes. destruct (n <=? 0) eqn:E; bool_lia; [done|].
  pose proof (zlen_nonneg (SendEvent_pending ev)).
  rewrite remaining_eq, u64_small, Z_gtb_true by lia. done.
Qed.
End SendEventLemmas.

Lemma SendEvent_clear_wf ev : SendEvent_wf (SendEvent_clear ev).
Proof. constructor; simpl; done || lia. Qed.

(** ** Properties *)

(** The scatter list built for [WSASend] describes exactly the bytes of the event
    that the system has not taken yet, in order, whatever part of the buffers was
    sent before. *)
Theorem build_wsabufs_describes_pending ev :
  SendEvent_wf ev ->
  wsabufs_bytes (SendEvent_build_wsabufs ev) = SendEvent_pending ev.
Proof.
  intros Hwf. unfold SendEvent_build_wsabufs, SendEvent_pending.
  apply wsabufs_loop_bytes; [by apply rest_ok|]. apply Hwf.
Qed.

(** C31: a completion of [n] bytes with [0 < n <=] the pending bytes is accepted, never
    indexes a buffer out of range, and removes exactly the first [n] pending bytes,
    also across buffer boundaries; any other completion size is refused and leaves
    the event as it was. *)
Theorem consume_sent_bytes_exact ev n :
  SendEvent_wf ev -> n < 2 ^ 31 ->
  (0 < n <= zlen (SendEvent_pending ev) ->
     exists ev', SendEvent_consume_sent_bytes n ev = Some (true, ev') /\ SendEvent_wf ev' /\
       se_send_Buffers ev' = se_send_Buffers ev /\
       SendEvent_pending ev' = drop (Z.to_nat n) (SendEvent_pending ev)) /\
  (~ (0 < n <= zlen (SendEvent_pending ev)) ->
     SendEvent_consume_sent_bytes n ev = Some (false, ev)).
Proof.
  intros Hwf Hn. split; intros.
  - by apply consume_accepts.
  - apply consume_rejects; [done|]. lia.
Qed.

Definition demo_send_event : SendEvent :=
  mkSendEvent [mkSendBuffer [1; 2; 3] 3; mkSendBuffer [4; 5] 2; mkSendBuffer [6; 7; 0] 2] 0 1.

Lemma demo_send_event_wf : SendEvent_wf demo_send_event.
Proof.
  constructor; [|vm_compute; intuition congruence..].
  repeat constructor; vm_compute; intuition congruence.
Qed.

Lemma build_wsabufs_witness :
  wsabufs_bytes (SendEvent_build_wsabufs demo_send_event) = [2; 3; 4; 5; 6; 7].
Proof.
  rewrite (build_wsabufs_describes_pending demo_send_event demo_send_event_wf). reflexivity.
Defined.

Lemma consume_sent_bytes_witness :
  exists ev', SendEvent_consume_sent_bytes 3 demo_send_event = Some (true, ev') /\
    SendEvent_pending ev' = [5; 6; 7].
Proof.
  destruct (proj1 (consume_sent_bytes_exact demo_send_event 3 demo_send_event_wf eq_refl))
    as (ev' & H & _ & _ & Hp); [vm_compute; intuition congruence|].
  exists ev'. split; [exact H|]. rewrite Hp. reflexivity.
Defined.
