(* ===== verification/Framing.v ===== *)
(** * Packet framing over the byte stream

    [PacketHeader] (ServerCore/Utils/Types.h), [Session::on_recv] and the buffer
    handling of [Session::process_recv] (ServerCore/NetWork/Session.cpp).  The
    virtual [on_recv_packet] is a parameter; the session file instantiates it.
    The main theorem says that the packets delivered do not depend on how TCP
    cuts the stream into completions. *)

From stdpp Require Import base list numbers option.
From Stdlib Require Import ZArith Lia.
From S2P Require Import Prelude Buffers.

(** ** PacketHeader *)

Record PacketHeader := mkPacketHeader { hdr_size : Z; hdr_id : Z }.

Definition sizeof_PacketHeader : Z := 4.

(** Two packed little-endian [uint16]. *)
Definition le16 (z : Z) : bytes := [z mod 256; z / 256 mod 256].

Definition PacketHeader_read (buf : bytes) : PacketHeader :=
  match buf with
  | b0 :: b1 :: b2 :: b3 :: _ => mkPacketHeader (b0 + 256 * b1) (b2 + 256 * b3)
  | _ => mkPacketHeader 0 0
  end.

Definition PacketHeader_write (h : PacketHeader) : bytes := le16 (hdr_size h) ++ le16 (hdr_id h).

(** [Session::BUFFER_SIZE]. *)
Definition BUFFER_SIZE : Z := 65536.

(** ** Session::on_recv *)

Section OnRecv.
Context {S : Type} (is_connected : S -> bool) (on_recv_packet : bytes -> S -> S).

(** The [while (true)] loop.  [None] means the fuel ran out; [on_recv] below
    passes enough, since every round consumes at least a header. *)
Fixpoint on_recv_loop (fuel : nat) (get_buffer : bytes) (len processLen : Z) (s : S)
    : option (Z * S) :=
  match fuel with
  | O => None
  | Datatypes.S fuel' =>
      let dataSize := i32 (len - processLen) in
      if u64 dataSize <? sizeof_PacketHeader then Some (processLen, s)
      else
        let header := PacketHeader_read (drop (Z.to_nat processLen) get_buffer) in
        if hdr_size header <? sizeof_PacketHeader then Some (-1, s)
        else if hdr_size header >? BUFFER_SIZE then Some (-1, s)
        else if dataSize <? hdr_size header then Some (processLen, s)
        else
          let s' := on_recv_packet (slice processLen (hdr_size header) get_buffer) s in
          let processLen' := i32 (processLen + hdr_size header) in
          if negb (is_connected s') then Some (processLen', s')
          else on_recv_loop fuel' get_buffer len processLen' s'
  end.

Definition on_recv (get_buffer : bytes) (len : Z) (s : S) : option (Z * S) :=
  on_recv_loop (Z.to_nat len + 1) get_buffer len 0 s.

(** The part of [process_recv] between the liveness checks and [register_recv]:
    [RecvOverflow] and [RecvBad] are its two error exits, which disconnect. *)
Inductive RecvOutcome := RecvDone | RecvOverflow | RecvBad.

Definition process_recv_buffer (numOfBytes : Z) (rb : RecvBuffer) (s : S)
    : option (RecvOutcome * RecvBuffer * S) :=
  match RecvBuffer_on_write numOfBytes rb with
  | (false, rb1) => Some (RecvOverflow, rb1, s)
  | (true, rb1) =>
      let dataSize := RecvBuffer_data_size rb1 in
      match on_recv (RecvBuffer_read_pos rb1) dataSize s with
      | None => None
      | Some (processLen, s1) =>
          if (processLen <? 0) || (dataSize <? processLen) then Some (RecvBad, rb1, s1)
          else
            match RecvBuffer_on_read processLen rb1 with
            | (false, rb2) => Some (RecvBad, rb2, s1)
            | (true, rb2) => Some (RecvDone, RecvBuffer_clean rb2, s1)
            end
      end
  end.

(** A sequence of completions, each storing one chunk of the stream.  After an error
    exit [register_recv] is not called, and without a connection it registers nothing:
    the chunks that are left are not received. *)
Fixpoint receive_chunks (chunks : list bytes) (rb : RecvBuffer) (s : S)
    : option (RecvOutcome * RecvBuffer * S) :=
  match chunks with
  | [] => Some (RecvDone, rb, s)
  | c :: rest =>
      match process_recv_buffer (zlen c) (RecvBuffer_os_store c rb) s with
      | Some (RecvDone, rb', s') =>
          if is_connected s' then receive_chunks rest rb' s' else Some (RecvDone, rb', s')
      | r => r
      end
  end.

(** What the system guarantees of the chunks: each has at least one byte (none is the
    end of the stream, for which [process_recv] disconnects) and at most as many as
    [register_recv] offered, which is all that is free in the buffer at that time. *)
Fixpoint completions_fit (chunks : list bytes) (rb : RecvBuffer) (s : S) : Prop :=
  match chunks with
  | [] => True
  | c :: rest =>
      0 < zlen c <= RecvBuffer_free_size rb /\
      match process_recv_buffer (zlen c) (RecvBuffer_os_store c rb) s with
      | Some (RecvDone, rb', s') => is_connected s' = true -> completions_fit rest rb' s'
      | _ => True
      end
  end.

End OnRecv.

(** ** Specification: how a stream divides into packets *)

(** A packet: its header announces its own length. *)
Definition is_packet (p : bytes) : Prop :=
  4 <= zlen p /\ hdr_size (PacketHeader_read p) = zlen p.

(** A tail that does not yet hold a whole packet. *)
Definition incomplete (r : bytes) : Prop :=
  zlen r < 4 \/ (4 <= hdr_size (PacketHeader_read r) /\ zlen r < hdr_size (PacketHeader_read r)).

(** A tail that starts with a header announcing less than a header. *)
Definition malformed (r : bytes) : Prop :=
  4 <= zlen r /\ hdr_size (PacketHeader_read r) < 4.

Definition byte_stream (s : bytes) : Prop := Forall is_byte s.

(** ** Lemmas *)

Lemma header_bounds bs :
  byte_stream bs -> 0 <= hdr_size (PacketHeader_read bs) <= 65535 /\
                    0 <= hdr_id (PacketHeader_read bs) <= 65535.
Proof.
  intros Hb. destruct bs as [|b0 [|b1 [|b2 [|b3 r]]]]; simpl; try lia.
  unfold byte_stream in Hb. repeat (apply Forall_cons_1 in Hb as [? Hb]). unfold is_byte in *. lia.
Qed.

Lemma header_app p r :
  4 <= zlen p -> PacketHeader_read (p ++ r) = PacketHeader_read p.
Proof.
  intros Hp. destruct p as [|b0 [|b1 [|b2 [|b3 p]]]]; try reflexivity;
    unfold zlen in Hp; simpl in Hp; lia.
Qed.

Lemma header_write_read h rest :
  0 <= hdr_size h < 2 ^ 16 -> 0 <= hdr_id h < 2 ^ 16 ->
  PacketHeader_read (PacketHeader_write h ++ rest) = h.
Proof.
  intros H1 H2. destruct h as [sz id]; simpl in *.
  rewrite !(Z.mod_small (_ / _)) by (split; [apply Z.div_pos | apply Z.div_lt_upper_bound]; lia).
  f_equal; rewrite (Z.add_comm (_ mod _)); symmetry; apply Z.div_mod; lia.
Qed.

(** Every stream is a sequence of packets followed by an incomplete or a
    malformed tail, and in only one way. *)
Lemma stream_divides n bs :
  (length bs <= n)%nat -> byte_stream bs ->
  exists ps r, bs = concat ps ++ r /\ Forall is_packet ps /\ (incomplete r \/ malformed r).
Proof.
  revert bs. induction n as [|n IH]; intros bs Hlen Hb.
  - exists [], bs. split; [done|]. split; [constructor|]. left; left. unfold zlen; lia.
  - destruct (Z_lt_ge_dec (zlen bs) 4) as [Hlt|Hge].
    { exists [], bs. split; [done|]. split; [constructor|]. by left; left. }
    pose proof (header_bounds bs Hb) as [Hs _].
    set (sz := hdr_size (PacketHeader_read bs)) in *.
    destruct (Z_lt_ge_dec sz 4) as [Hm|Hm].
    { exists [], bs. split; [done|]. split; [constructor|]. right. split; lia. }
    destruct (Z_lt_ge_dec (zlen bs) sz) as [Hi|Hi].
    { exists [], bs. split; [done|]. split; [constructor|]. left; right. fold sz; lia. }
    destruct (IH (drop (Z.to_nat sz) bs)) as (ps & r & Hd & Hps & Hr).
    { rewrite length_drop. unfold zlen in *. lia. }
    { by apply Forall_drop. }
    exists (take (Z.to_nat sz) bs :: ps), r. simpl. rewrite <- app_assoc, <- Hd, take_drop.
    split; [done|]. split; [|done]. constructor; [|done].
    assert (zlen (take (Z.to_nat sz) bs) = sz) as Ht by (apply zlen_take; lia).
    split; [lia|]. rewrite <- (header_app _ (drop (Z.to_nat sz) bs)), take_drop by lia. done.
Qed.

Lemma packet_prefix_unique p1 s1 p2 s2 :
  is_packet p1 -> is_packet p2 -> p1 ++ s1 = p2 ++ s2 -> p1 = p2 /\ s1 = s2.
Proof.
  intros [L1 H1] [L2 H2] Heq. assert (zlen p1 = zlen p2) as Hl.
  { rewrite <- H1, <- H2, <- (header_app p1 s1), <- (header_app p2 s2) by lia. by rewrite Heq. }
  apply app_inj_1 in Heq; [done|]. unfold zlen in Hl. lia.
Qed.

Lemma packet_not_tail p s r : is_packet p -> incomplete r \/ malformed r -> p ++ s <> r.
Proof.
  intros [L H] Hr <-. pose proof (zlen_nonneg s).
  destruct Hr as [[Hlt|[Hge Hlt]]|[Hge Hlt]]; rewrite ?header_app in * by lia;
    autorewrite with zlen in *; lia.
Qed.

Lemma stream_divides_unique ps1 r1 ps2 r2 :
  Forall is_packet ps1 -> Forall is_packet ps2 ->
  incomplete r1 \/ malformed r1 -> incomplete r2 \/ malformed r2 ->
  concat ps1 ++ r1 = concat ps2 ++ r2 -> ps1 = ps2 /\ r1 = r2.
Proof.
  intros H1. revert ps2. induction H1 as [|p ps1 Hp _ IH]; intros ps2 H2 Hr1 Hr2 Heq.
  - destruct H2 as [|p2 ps2 Hp2 _]; [done|]. exfalso. simpl in Heq. rewrite <- app_assoc in Heq.
    exact (packet_not_tail _ _ _ Hp2 Hr1 (eq_sym Heq)).
  - destruct H2 as [|p2 ps2 Hp2 H2]; simpl in Heq; rewrite <- ?app_assoc in Heq.
    + exfalso. exact (packet_not_tail _ _ _ Hp Hr2 Heq).
    + apply packet_prefix_unique in Heq as [-> Heq]; [|done..].
      apply IH in Heq as [-> ->]; done.
Qed.

Lemma incomplete_short r : byte_stream r -> incomplete r -> zlen r < 65536.
Proof. intros Hb [?|[_ ?]]; [lia|]. pose proof (header_bounds r Hb). lia. Qed.

(** The header at a position of the received bytes, and the packet it announces. *)
Lemma packet_at u junk pl :
  0 <= pl -> 4 <= zlen u - pl -> byte_stream u ->
  let h := PacketHeader_read (drop (Z.to_nat pl) (u ++ junk)) in
  h = PacketHeader_read (drop (Z.to_nat pl) u) /\ 0 <= hdr_size h <= 65535 /\
  (4 <= hdr_size h <= zlen u - pl ->
     slice pl (hdr_size h) (u ++ junk) ++ drop (Z.to_nat (pl + hdr_size h)) u = drop (Z.to_nat pl) u /\
     is_packet (slice pl (hdr_size h) (u ++ junk))).
Proof.
  intros Hpl Hlen Hb h.
  assert (h = PacketHeader_read (drop (Z.to_nat pl) u)) as Eh.
  { subst h. rewrite drop_app_le by (unfold zlen in *; lia). apply header_app. rewrite zlen_drop; lia. }
  pose proof (header_bounds (drop (Z.to_nat pl) u) (Forall_drop _ _ _ Hb)) as [Hh _]. rewrite <- Eh in Hh.
  split; [done|]. split; [done|]. intros Hs. rewrite slice_app_l by lia. set (n := hdr_size h) in *.
  assert (drop (Z.to_nat pl) u = slice pl n u ++ drop (Z.to_nat (pl + n)) u) as Esplit.
  { unfold slice. rewrite <- (take_drop (Z.to_nat n) (drop (Z.to_nat pl) u)) at 1. rewrite drop_drop. do 2 f_equal. lia. }
  split; [done|]. assert (zlen (slice pl n u) = n) as Hz by (apply zlen_slice; lia).
  split; [lia|]. rewrite Hz. rewrite Esplit, header_app in Eh by lia. by rewrite <- Eh.
Qed.

Section OnRecvLemmas.
Context {S : Type} (is_connected : S -> bool) (on_recv_packet : bytes -> S -> S).

(** Handing packets over in order. *)
Definition deliver (ps : list bytes) (s : S) : S := foldl (fun s p => on_recv_packet p s) s ps.

(** The packets that are handed over: all up to the one whose handler disconnects. *)
Fixpoint handed (ps : list bytes) (s : S) : list bytes :=
  match ps with
  | [] => []
  | p :: rest =>
      let s' := on_recv_packet p s in p :: (if is_connected s' then handed rest s' else [])
  end.

(** The session is connected after each of the packets. *)
Fixpoint stays_connected (ps : list bytes) (s : S) : Prop :=
  match ps with
  | [] => True
  | p :: rest => is_connected (on_recv_packet p s) = true /\
                 stays_connected rest (on_recv_packet p s)
  end.

Lemma handed_prefix ps s : handed ps s `prefix_of` ps.
Proof.
  revert s. induction ps as [|p ps IH]; intros s; simpl; [done|]. apply prefix_cons.
  destruct (is_connected _); [apply IH|apply prefix_nil].
Qed.

(** The session is connected at the end exactly when it was all the time. *)
Lemma handed_connected ps s :
  is_connected s = true -> is_connected (deliver (handed ps s) s) = true ->
  handed ps s = ps /\ stays_connected ps s.
Proof.
  revert s. induction ps as [|p ps IH]; intros s Hs He; simpl in *; [done|].
  destruct (is_connected (on_recv_packet p s)) eqn:E; [|unfold deliver in He; simpl in He; congruence].
  destruct (IH _ E He) as [-> ?]. done.
Qed.

Lemma stays_connected_last ps s :
  is_connected s = true -> stays_connected ps s -> is_connected (deliver ps s) = true.
Proof. revert s. induction ps as [|p ps IH]; intros s; simpl; [done|]. intros _ [? ?]. by apply IH. Qed.

Lemma handed_all ps s : stays_connected ps s -> handed ps s = ps.
Proof. revert s. induction ps as [|p ps IH]; intros s; simpl; [done|]. intros [-> H]. f_equal. by apply IH. Qed.

(** One round of the loop, when a whole packet is there. *)
Lemma on_recv_loop_packet fuel pre p tail extra s :
  is_packet p -> byte_stream p -> zlen (pre ++ p ++ tail) < 2 ^ 31 ->
  on_recv_loop is_connected on_recv_packet (Datatypes.S fuel)
    (pre ++ p ++ tail ++ extra) (zlen (pre ++ p ++ tail)) (zlen pre) s
  = if is_connected (on_recv_packet p s)
    then on_recv_loop is_connected on_recv_packet fuel ((pre ++ p) ++ tail ++ extra)
           (zlen ((pre ++ p) ++ tail)) (zlen (pre ++ p)) (on_recv_packet p s)
    else Some (zlen (pre ++ p), on_recv_packet p s).
Proof.
  intros [Hp4 Hph] Hb Hlen. cbn [on_recv_loop].
  pose proof (zlen_nonneg pre) as Hpre. pose proof (zlen_nonneg tail) as Htl.
  assert (zlen (pre ++ p ++ tail) = zlen pre + zlen p + zlen tail) as HL by (autorewrite with zlen; lia).
  rewrite <- !app_assoc. rewrite HL in Hlen |- *. rewrite i32_small by lia.
  replace (zlen pre + zlen p + zlen tail - zlen pre) with (zlen p + zlen tail) by lia.
  rewrite u64_small by lia. unfold sizeof_PacketHeader. rewrite Z_ltb_false by lia.
  replace (Z.to_nat (zlen pre)) with (length pre) by (unfold zlen; lia).
  rewrite drop_app_length, header_app, Hph by lia.
  pose proof (header_bounds p Hb) as [Hs _]. rewrite Hph in Hs.
  rewrite Z_ltb_false by lia. unfold BUFFER_SIZE. rewrite Z_gtb_false by lia. rewrite Z_ltb_false by lia.
  rewrite slice_app_r, Z.sub_diag, slice_app_l, slice_all by lia.
  rewrite (zlen_app pre p). rewrite i32_small by lia. by destruct (is_connected _).
Qed.

(** The last round, when no whole packet is left. *)
Lemma on_recv_loop_tail fuel pre r extra s :
  byte_stream r -> incomplete r \/ malformed r -> zlen (pre ++ r) < 2 ^ 31 ->
  on_recv_loop is_connected on_recv_packet (Datatypes.S fuel) (pre ++ r ++ extra) (zlen (pre ++ r)) (zlen pre) s
  = Some (if decide (4 <= zlen r /\ hdr_size (PacketHeader_read r) < 4) then -1 else zlen pre, s).
Proof.
  intros Hb Hr Hlen. cbn [on_recv_loop]. pose proof (zlen_nonneg r). pose proof (zlen_nonneg pre).
  rewrite zlen_app in *. rewrite i32_small by lia.
  replace (zlen pre + zlen r - zlen pre) with (zlen r) by lia. rewrite u64_small by lia.
  unfold sizeof_PacketHeader. replace (Z.to_nat (zlen pre)) with (length pre) by (unfold zlen; lia).
  rewrite drop_app_length. destruct (zlen r <? 4) eqn:E4; bool_lia.
  { by rewrite decide_False by lia. }
  rewrite header_app by lia. pose proof (header_bounds r Hb) as [Hs _].
  destruct (hdr_size (PacketHeader_read r) <? 4) eqn:Em; bool_lia.
  { by rewrite decide_True by lia. }
  rewrite decide_False by lia. unfold BUFFER_SIZE. rewrite Z_gtb_false by lia.
  destruct Hr as [[Hr|[_ Hr]]|[? ?]]; [lia| |lia]. by rewrite Z_ltb_true by lia.
Qed.

(** What one call of the loop does on a buffer holding [done ++ packets ++ tail]. *)
Lemma on_recv_loop_spec ps : forall fuel pre r extra s,
  Forall is_packet ps -> byte_stream (concat ps ++ r) -> incomplete r \/ malformed r ->
  is_connected s = true -> zlen (pre ++ concat ps ++ r) < 2 ^ 31 -> (length ps < fuel)%nat ->
  let hs := handed ps s in
  on_recv_loop is_connected on_recv_packet fuel
    (pre ++ concat ps ++ r ++ extra) (zlen (pre ++ concat ps ++ r)) (zlen pre) s
  = Some (if decide (is_connected (deliver hs s) = true /\ 4 <= zlen r /\ hdr_size (PacketHeader_read r) < 4)
          then -1 else zlen (pre ++ concat hs), deliver hs s).
Proof.
  induction ps as [|p ps IH]; intros fuel pre r extra s Hps Hb Hr Hc Hlen Hf hs;
    (destruct fuel as [|fuel]; [simpl in Hf; lia|]).
  - subst hs. cbn [concat app handed deliver foldl] in *. rewrite on_recv_loop_tail, app_nil_r by done.
    do 2 case_decide; tauto || done.
  - apply Forall_cons_1 in Hps as [Hp Hps]. cbn [concat] in *. rewrite <- !app_assoc in *.
    apply Forall_app in Hb as [Hbp Hb].
    pose proof (on_recv_loop_packet fuel pre p (concat ps ++ r) extra s Hp Hbp Hlen) as Hstep.
    rewrite <- !app_assoc in Hstep. rewrite Hstep. subst hs. cbn [handed].
    destruct (is_connected (on_recv_packet p s)) eqn:E.
    + specialize (IH fuel (pre ++ p) r extra (on_recv_packet p s)). rewrite <- !app_assoc in IH.
      cbv zeta in IH. rewrite IH; try done. simpl in Hf; lia.
    + change (deliver [p] s) with (on_recv_packet p s). cbn [concat]. rewrite app_nil_r.
      rewrite decide_False by (intros [? _]; congruence). done.
Qed.

(** The packets of a receive queue are handed over in order; the call returns the
    number of bytes they take, or -1 when a malformed header comes next. *)
Lemma on_recv_spec ps r extra s :
  Forall is_packet ps -> byte_stream (concat ps ++ r) -> incomplete r \/ malformed r ->
  is_connected s = true -> zlen (concat ps ++ r) < 2 ^ 31 ->
  let hs := handed ps s in
  on_recv is_connected on_recv_packet (concat ps ++ r ++ extra) (zlen (concat ps ++ r)) s
  = Some (if decide (is_connected (deliver hs s) = true /\ 4 <= zlen r /\ hdr_size (PacketHeader_read r) < 4)
          then -1 else zlen (concat hs), deliver hs s).
Proof.
  intros Hps Hb Hr Hc Hlen. unfold on_recv.
  apply (on_recv_loop_spec ps _ [] r extra s); try done.
  assert (Z.of_nat (length ps) <= zlen (concat ps)) as Hc4.
  { clear -Hps. induction Hps as [|p ps [? _] _ IH]; [done|]. cbn [concat length].
    autorewrite with zlen. lia. }
  rewrite zlen_app. pose proof (zlen_nonneg r). unfold zlen in *. lia.
Qed.

(** [on_recv] never runs out of fuel, whatever the buffer and the handler do. *)
Lemma on_recv_loop_total fuel buf len pl s :
  byte_stream buf -> 0 <= pl <= len -> len < 2 ^ 31 -> (Z.to_nat (len - pl) < fuel)%nat ->
  exists r, on_recv_loop is_connected on_recv_packet fuel buf len pl s = Some r.
Proof.
  intros Hb. revert pl s. induction fuel as [|fuel IH]; intros pl s Hpl Hlen Hf; [lia|].
  cbn [on_recv_loop]. rewrite (i32_small (len - pl)) by lia.
  destruct (u64 (len - pl) <? sizeof_PacketHeader) eqn:E1; [eauto|].
  pose proof (header_bounds (drop (Z.to_nat pl) buf) (Forall_drop _ _ _ Hb)) as [Hs _].
  set (sz := hdr_size _) in *. unfold sizeof_PacketHeader.
  destruct (sz <? 4) eqn:E2; [eauto|]. destruct (sz >? BUFFER_SIZE) eqn:E3; [eauto|].
  destruct (len - pl <? sz) eqn:E4; [eauto|]. bool_lia.
  destruct (negb _); [eauto|]. rewrite i32_small by lia. apply IH; lia.
Qed.

Section Stream.
Context (rb : RecvBuffer) (Hwf : RecvBuffer_wf rb) (Hsize : rb_Buffer_size rb = BUFFER_SIZE).

(** One completion: the chunk is appended to what was left over, the packets the
    result holds are handed over, and the rest is kept. *)
Lemma process_recv_buffer_gen chunk ps r s :
  RecvBuffer_data rb ++ chunk = concat ps ++ r ->
  Forall is_packet ps -> byte_stream (concat ps ++ r) -> incomplete r \/ malformed r ->
  is_connected s = true -> zlen chunk <= RecvBuffer_free_size rb ->
  let s' := deliver (handed ps s) s in
  exists rb', process_recv_buffer is_connected on_recv_packet (zlen chunk)
                (RecvBuffer_os_store chunk rb) s
    = Some (if decide (is_connected s' = true /\ 4 <= zlen r /\ hdr_size (PacketHeader_read r) < 4)
            then RecvBad else RecvDone, rb', s') /\
    (is_connected s' = true -> ~ malformed r -> RecvBuffer_wf rb' /\ rb_Buffer_size rb' = BUFFER_SIZE /\
       RecvBuffer_data rb' = r /\ BUFFER_SIZE <= RecvBuffer_free_size rb').
Proof using Hwf Hsize.
  intros Hd Hps Hb Hr Hc Hfit s'. destruct (on_write_append rb Hwf chunk Hfit) as (rb1 & Hw & Hwf1 & Hs1 & Hd1).
  unfold process_recv_buffer. rewrite Hw. rewrite Hd in Hd1.
  assert (RecvBuffer_read_pos rb1 = concat ps ++ r ++ drop (Z.to_nat (rb_write_pos rb1)) (rb_buffer rb1))
    as Hrp.
  { rewrite app_assoc, <- Hd1. unfold RecvBuffer_read_pos, RecvBuffer_data, slice.
    replace (Z.to_nat (rb_write_pos rb1)) with
      (Z.to_nat (rb_read_pos rb1) + Z.to_nat (rb_write_pos rb1 - rb_read_pos rb1))%nat
      by (destruct Hwf1; lia).
    by rewrite <- drop_drop, take_drop. }
  pose proof (data_size_eq rb1 Hwf1) as Hds. rewrite Hd1 in Hds.
  assert (zlen (concat ps ++ r) < 2 ^ 31) as Hlt.
  { rewrite <- Hd1, (data_len rb1 Hwf1). destruct Hwf1. lia. }
  rewrite Hrp, Hds, on_recv_spec by done. fold s'.
  destruct (handed_prefix ps s) as [rest Hrest]. pose proof (f_equal (@concat Z) Hrest) as Hcat. rewrite concat_app in Hcat.
  pose proof (zlen_nonneg (concat (handed ps s))) as Hcp. pose proof (zlen_nonneg (concat rest)) as Hrn.
  pose proof (zlen_nonneg r) as Hrr.
  assert (zlen (concat (handed ps s)) <= zlen (concat ps ++ r)) as Hle by (rewrite Hcat; autorewrite with zlen; lia).
  case_decide as Hm.
  { simpl. eexists; split; [done|]. intros _ Hn. destruct Hn. apply Hm. }
  rewrite (Z_ltb_false (zlen (concat (handed ps s))) 0) by lia. cbn [orb]. rewrite Z_ltb_false by lia.
  destruct (on_read_drop rb1 Hwf1 (zlen (concat (handed ps s)))) as (rb2 & Hr2 & Hwf2 & Hs2 & Hd2).
  { rewrite Hds. lia. }
  rewrite Hr2. eexists; split; [done|]. intros Hcon Hnm.
  destruct (handed_connected ps s Hc Hcon) as [Hall _].
  assert (RecvBuffer_data rb2 = r) as Hd2r.
  { rewrite Hd2, Hd1, Hall. unfold zlen. rewrite Nat2Z.id. apply drop_app_length. }
  destruct (clean_keeps rb2 Hwf2) as (Hwf3 & Hs3 & Hd3).
  split; [done|]. split; [congruence|]. split; [congruence|].
  rewrite <- Hsize, <- Hs1, <- Hs2. apply clean_room; [done|]. rewrite Hd2r.
  assert (zlen r < 65536) as Hr64.
  { apply incomplete_short; [by apply Forall_app in Hb as [_ ?]|]. by destruct Hr. }
  rewrite Hs2, Hs1, Hsize. unfold BUFFER_SIZE. lia.
Qed.

Lemma process_recv_buffer_spec chunk ps r s :
  RecvBuffer_data rb ++ chunk = concat ps ++ r ->
  Forall is_packet ps -> byte_stream (concat ps ++ r) -> incomplete r \/ malformed r ->
  is_connected s = true -> stays_connected ps s -> zlen chunk <= RecvBuffer_free_size rb ->
  exists rb', process_recv_buffer is_connected on_recv_packet (zlen chunk)
                (RecvBuffer_os_store chunk rb) s
    = Some (if decide (4 <= zlen r /\ hdr_size (PacketHeader_read r) < 4) then RecvBad else RecvDone,
            rb', deliver ps s) /\
    (~ malformed r -> RecvBuffer_wf rb' /\ rb_Buffer_size rb' = BUFFER_SIZE /\
       RecvBuffer_data rb' = r /\ BUFFER_SIZE <= RecvBuffer_free_size rb').
Proof using Hwf Hsize.
  intros Hd Hps Hb Hr Hc Hst Hfit.
  destruct (process_recv_buffer_gen chunk ps r s Hd Hps Hb Hr Hc Hfit) as (rb' & Heq & Hk). cbv zeta in *.
  rewrite (handed_all ps s Hst) in *. assert (is_connected (deliver ps s) = true) as Hcon by by apply stays_connected_last.
  exists rb'. split; [|by auto]. rewrite Heq. do 2 case_decide; tauto || done.
Qed.
End Stream.

Lemma deliver_app ps qs s : deliver (ps ++ qs) s = deliver qs (deliver ps s).
Proof. unfold deliver. apply foldl_app. Qed.

(** What is handed over of two runs of packets. *)
Lemma handed_app ps qs s :
  is_connected s = true ->
  handed (ps ++ qs) s = if is_connected (deliver (handed ps s) s)
                        then handed ps s ++ handed qs (deliver (handed ps s) s) else handed ps s.
Proof.
  revert s. induction ps as [|p ps IH]; intros s Hs; cbn [handed app]; [by unfold deliver; simpl; rewrite Hs|].
  destruct (is_connected (on_recv_packet p s)) eqn:E.
  - rewrite IH by done. change (deliver (p :: handed ps (on_recv_packet p s)) s)
      with (deliver (handed ps (on_recv_packet p s)) (on_recv_packet p s)). by destruct (is_connected (deliver _ _)).
  - change (deliver [p] s) with (on_recv_packet p s). by rewrite E.
Qed.
End OnRecvLemmas.

Lemma malformed_app r rest : malformed r -> malformed (r ++ rest).
Proof.
  intros [H4 Hs]. split; [rewrite zlen_app; pose proof (zlen_nonneg rest); lia|].
  by rewrite header_app by lia.
Qed.

Lemma incomplete_not_malformed r : incomplete r -> ~ malformed r.
Proof. intros [?|[? ?]] [? ?]; lia. Qed.

#[export] Hint Resolve incomplete_not_malformed malformed_app : server.

Lemma concat_single_app (c : bytes) cs : concat (c :: cs) = c ++ concat cs.
Proof. reflexivity. Qed.

(** The decomposition of [q ++ rest], given that of [q]. *)
Lemma stream_extend q rest ps1 r1 ps r :
  byte_stream (q ++ rest) -> q = concat ps1 ++ r1 ->
  Forall is_packet ps1 -> Forall is_packet ps -> incomplete r1 -> incomplete r \/ malformed r ->
  q ++ rest = concat ps ++ r ->
  exists ps2, ps = ps1 ++ ps2 /\ r1 ++ rest = concat ps2 ++ r /\ Forall is_packet ps2.
Proof.
  intros Hb -> Hp1 Hp Hr1 Hr Heq.
  destruct (stream_divides (length (r1 ++ rest)) (r1 ++ rest)) as (ps2 & r2 & Hd & Hp2 & Hr2).
  { done. }
  { rewrite <- app_assoc in Hb. by apply Forall_app in Hb as [_ ?]. }
  rewrite <- app_assoc, Hd, app_assoc, <- concat_app in Heq.
  apply stream_divides_unique in Heq as [<- <-]; try done; [|by apply Forall_app].
  exists ps2. done.
Qed.

Section ReceiveChunks.
Context {S : Type} (is_connected : S -> bool) (on_recv_packet : bytes -> S -> S).

(** What the completions come to: either a handler disconnected and nothing was done
    after it, or all packets were handed over and the tail decides. *)
Definition completions_outcome (ps : list bytes) (r : bytes) (s : S) (o : RecvOutcome) (rb' : RecvBuffer) (s' : S) : Prop :=
  s' = deliver on_recv_packet (handed is_connected on_recv_packet ps s) s /\
  (is_connected s' = false -> o = RecvDone) /\
  (is_connected s' = true ->
     handed is_connected on_recv_packet ps s = ps /\ (malformed r -> o = RecvBad) /\
     (incomplete r -> o = RecvDone /\ RecvBuffer_wf rb' /\ rb_Buffer_size rb' = BUFFER_SIZE /\
        RecvBuffer_data rb' = r /\ BUFFER_SIZE <= RecvBuffer_free_size rb')).

Lemma receive_chunks_spec chunks rb s ps r :
  RecvBuffer_wf rb -> rb_Buffer_size rb = BUFFER_SIZE ->
  BUFFER_SIZE <= RecvBuffer_free_size rb -> incomplete (RecvBuffer_data rb) ->
  is_connected s = true -> completions_fit is_connected on_recv_packet chunks rb s ->
  RecvBuffer_data rb ++ concat chunks = concat ps ++ r ->
  byte_stream (concat ps ++ r) -> Forall is_packet ps -> incomplete r \/ malformed r ->
  exists o rb' s', receive_chunks is_connected on_recv_packet chunks rb s = Some (o, rb', s') /\
    completions_outcome ps r s o rb' s'.
Proof.
  revert rb s ps r. induction chunks as [|c chunks IH]; intros rb s ps r Hwf Hsz Hfree Hinc Hcon Hfit Heq Hb Hps Hr.
  - simpl in Heq. rewrite app_nil_r in Heq.
    assert (ps = [] /\ r = RecvBuffer_data rb) as [-> ->] by (apply stream_divides_unique; auto).
    exists RecvDone, rb, s. split; [done|]. split; [done|]. split; [done|]. intros _. split; [done|]. split; [|done].
    intros Hm. by apply incomplete_not_malformed in Hm.
  - destruct Hfit as [Hc Hrest]. rewrite concat_single_app, app_assoc in Heq. pose proof Hb as Hb'. rewrite <- Heq in Hb'.
    pose proof (proj1 (proj1 (Forall_app _ _ _) Hb')) as Hbq.
    destruct (stream_divides (length (RecvBuffer_data rb ++ c)) (RecvBuffer_data rb ++ c))
      as (ps1 & r1 & Hd & Hp1 & Hr1); [done..|].
    destruct (process_recv_buffer_gen is_connected on_recv_packet rb Hwf Hsz c ps1 r1 s)
      as (rb1 & Hpr & Hk); try (done || lia); [by rewrite <- Hd|]. cbv zeta in Hpr, Hk.
    set (s1 := deliver _ (handed _ _ ps1 s) s) in *.
    simpl receive_chunks. rewrite Hpr in Hrest |- *. destruct Hr1 as [Hi1|Hm1].
    + (* the chunk leaves an incomplete packet *)
      rewrite decide_False in Hrest |- * by (intros (_ & ? & ?); by eapply incomplete_not_malformed).
      edestruct (stream_extend _ _ ps1 r1 ps r Hb' Hd) as (ps2 & -> & Heq2 & Hp2); try done.
      pose proof (handed_app is_connected on_recv_packet ps1 ps2 s Hcon) as Hha. fold s1 in Hha.
      unfold completions_outcome. destruct (is_connected s1) eqn:E1.
      * destruct (Hk eq_refl (incomplete_not_malformed _ Hi1)) as (Hwf1 & Hsz1 & Hd1 & Hfree1).
        destruct (IH rb1 s1 ps2 r) as (o & rb' & s' & Hrc & Hs' & Hdis & Hall); try done.
        { by rewrite Hd1. } { by apply Hrest. } { by rewrite Hd1. }
        { rewrite concat_app, <- app_assoc in Hb. by apply Forall_app in Hb as [_ ?]. }
        destruct (handed_connected is_connected on_recv_packet ps1 s Hcon E1) as [Hh1 _].
        exists o, rb', s'. split; [done|]. rewrite Hha, deliver_app. fold s1. split; [done|]. split; [done|].
        intros E. destruct (Hall E) as [-> ?]. by rewrite Hh1.
      * exists RecvDone, rb1, s1. split; [done|]. rewrite Hha. split; [done|]. split; [done|]. by rewrite E1.
    + (* a malformed header, unless a handler disconnects before it is reached *)
      rewrite Hd, <- app_assoc in Heq.
      apply stream_divides_unique in Heq as [<- <-]; auto with server. fold s1 in Hpr. unfold completions_outcome. fold s1.
      exists (if decide (is_connected s1 = true /\ 4 <= zlen r1 /\ hdr_size (PacketHeader_read r1) < 4) then RecvBad else RecvDone), rb1, s1.
      destruct (is_connected s1) eqn:E1.
      * rewrite decide_True by (split; [done|exact Hm1]). split; [done|]. split; [done|]. split; [done|]. intros _.
        split; [by apply (handed_connected is_connected on_recv_packet ps1 s Hcon)|]. split; [done|]. intros Hi.
        apply incomplete_not_malformed in Hi. by destruct Hi; apply malformed_app.
      * rewrite decide_False by (intros [? _]; congruence). split; [done|]. done.
Qed.

(** Chunks of at most [BUFFER_SIZE] bytes always fit. *)
Lemma small_completions_fit chunks rb s :
  RecvBuffer_wf rb -> rb_Buffer_size rb = BUFFER_SIZE ->
  BUFFER_SIZE <= RecvBuffer_free_size rb -> incomplete (RecvBuffer_data rb) ->
  is_connected s = true -> byte_stream (RecvBuffer_data rb ++ concat chunks) ->
  Forall (fun c => 0 < zlen c <= BUFFER_SIZE) chunks ->
  completions_fit is_connected on_recv_packet chunks rb s.
Proof.
  intros Hwf Hsz Hfree Hinc Hcon Hb Hck. revert rb s Hwf Hsz Hfree Hinc Hcon Hb.
  induction Hck as [|c chunks Hc _ IH]; intros rb s Hwf Hsz Hfree Hinc Hcon Hb; [done|]. split; [lia|].
  rewrite concat_single_app, app_assoc in Hb. pose proof (proj1 (proj1 (Forall_app _ _ _) Hb)) as Hbq.
  destruct (stream_divides (length (RecvBuffer_data rb ++ c)) (RecvBuffer_data rb ++ c))
    as (ps1 & r1 & Hd & Hp1 & Hr1); [done..|].
  destruct (process_recv_buffer_gen is_connected on_recv_packet rb Hwf Hsz c ps1 r1 s)
    as (rb1 & Hpr & Hk); try (done || lia); [by rewrite <- Hd|]. cbv zeta in Hpr, Hk. rewrite Hpr.
  case_decide as Hm; [done|]. intros E1. destruct (Hk E1) as (Hwf1 & Hsz1 & Hd1 & Hfree1); [intros [? ?]; tauto|].
  apply IH; try done; rewrite Hd1.
  - destruct Hr1 as [?|[? ?]]; [done|tauto].
  - rewrite Hd, <- app_assoc in Hb. by apply Forall_app in Hb as [_ ?].
Qed.
End ReceiveChunks.

(** ** Properties *)

(** C19: stream reassembly.  Take a connected session whose buffer holds at most the start
    of a packet, any byte stream, and any way of cutting it into completions of at least one
    byte and at most the free space of the buffer that [register_recv] offered each time.
    Feeding the completions one by one through [process_recv_buffer] hands over the packets
    of the stream in order and each once, up to and including the first whose handler
    disconnects; the loop always ends and nothing overflows.  While no handler disconnects,
    all packets are handed over; a malformed header is reported exactly when the stream has
    one; otherwise the undelivered tail is what stays in the buffer and a full [BUFFER_SIZE]
    is free for the next registration. *)
Theorem receive_chunks_reassembles {S} (is_connected : S -> bool) (on_recv_packet : bytes -> S -> S)
    chunks rb s ps r :
  RecvBuffer_wf rb -> rb_Buffer_size rb = BUFFER_SIZE ->
  BUFFER_SIZE <= RecvBuffer_free_size rb -> incomplete (RecvBuffer_data rb) ->
  is_connected s = true -> completions_fit is_connected on_recv_packet chunks rb s ->
  RecvBuffer_data rb ++ concat chunks = concat ps ++ r ->
  byte_stream (concat ps ++ r) -> Forall is_packet ps -> incomplete r \/ malformed r ->
  exists o rb' s', receive_chunks is_connected on_recv_packet chunks rb s = Some (o, rb', s') /\
    s' = deliver on_recv_packet (handed is_connected on_recv_packet ps s) s /\
    (is_connected s' = false -> o = RecvDone) /\
    (is_connected s' = true ->
       handed is_connected on_recv_packet ps s = ps /\ (malformed r -> o = RecvBad) /\
       (incomplete r -> o = RecvDone /\ RecvBuffer_wf rb' /\ rb_Buffer_size rb' = BUFFER_SIZE /\
          RecvBuffer_data rb' = r /\ BUFFER_SIZE <= RecvBuffer_free_size rb')).
Proof. apply receive_chunks_spec. Qed.

(** The parsing loop terminates on every buffer content and with every packet
    handler: it returns a processed length or the error mark, never running on. *)
Theorem on_recv_returns {S} (is_connected : S -> bool) (on_recv_packet : bytes -> S -> S) buf len s :
  byte_stream buf -> 0 <= len < 2 ^ 31 ->
  exists n s', on_recv is_connected on_recv_packet buf len s = Some (n, s').
Proof.
  intros Hb Hlen. unfold on_recv.
  destruct (on_recv_loop_total is_connected on_recv_packet (Z.to_nat len + 1) buf len 0 s)
    as [[n s'] H]; try (done || lia). eauto.
Qed.

(** Witnesses: two packets of 65535 bytes in two completions, the first of 131069 bytes. *)
Definition demo_session_buffer : RecvBuffer := RecvBuffer_new BUFFER_SIZE.

Definition log_packet (p : bytes) (log : list bytes) : list bytes := log ++ [p].

(** A header that announces 65535 bytes, and [n] zeros. *)
Definition long_bytes (i n : Z) : bytes := [255; 255; i; 0] ++ replicate (Z.to_nat n) 0.

Lemma demo_session_buffer_wf :
  RecvBuffer_wf demo_session_buffer /\ RecvBuffer_data demo_session_buffer = [] /\
  rb_Buffer_size demo_session_buffer = BUFFER_SIZE.
Proof. apply RecvBuffer_new_wf; unfold BUFFER_SIZE; lia. Qed.

Lemma long_bytes_spec i n :
  is_byte i -> 0 <= n ->
  zlen (long_bytes i n) = n + 4 /\ byte_stream (long_bytes i n) /\
  forall rest, hdr_size (PacketHeader_read (long_bytes i n ++ rest)) = 65535.
Proof.
  intros Hi Hn. split; [|split; [|done]].
  - unfold long_bytes, zlen. rewrite length_app, length_replicate. simpl. lia.
  - apply Forall_app. split; [repeat constructor; done || (unfold is_byte in *; lia)|]. apply Forall_replicate. unfold is_byte. lia.
Qed.

Lemma long_chunks_fit p q :
  is_packet p -> byte_stream p -> zlen p = 65535 -> byte_stream q -> zlen q = 65534 ->
  (forall rest, hdr_size (PacketHeader_read (q ++ rest)) = 65535) ->
  completions_fit (fun _ => true) log_packet [p ++ q; [0]] demo_session_buffer [].
Proof.
  intros P1 B1 L1 B2 L2 H2. destruct demo_session_buffer_wf as (Hwf & Hd & Hs). cbn [completions_fit].
  assert (zlen (p ++ q) = 131069) as Lc by (rewrite zlen_app, L1, L2; lia).
  assert (RecvBuffer_free_size demo_session_buffer = 655360) as Hf.
  { rewrite (free_size_eq _ Hwf). vm_compute. reflexivity. }
  assert (hdr_size (PacketHeader_read q) = 65535) as Hq by (rewrite <- (app_nil_r q); apply H2).
  rewrite Lc, Hf. split; [lia|].
  destruct (process_recv_buffer_gen (fun _ => true) log_packet demo_session_buffer Hwf Hs (p ++ q) [p] q [])
    as (rb1 & Hpr & Hk); try done.
  - rewrite Hd. cbn [concat app]. by rewrite app_nil_r.
  - by apply Forall_singleton.
  - cbn [concat]. rewrite app_nil_r. by apply Forall_app_2.
  - left. right. lia.
  - rewrite Hf, Lc. lia.
  - cbv zeta in Hpr, Hk. rewrite Lc in Hpr. rewrite Hpr. case_decide; [exfalso; lia|]. intros _.
    split; [|by repeat case_match]. destruct (Hk eq_refl) as (_ & _ & _ & Hfree); [intros [_ Hm]; lia|].
    unfold BUFFER_SIZE in Hfree. change (zlen [0]) with 1. lia.
Qed.

Lemma demo_stream p q :
  is_packet p -> byte_stream p -> byte_stream q -> zlen q = 65534 ->
  (forall rest, hdr_size (PacketHeader_read (q ++ rest)) = 65535) ->
  Forall is_packet [p; q ++ [0]] /\ byte_stream (concat [p; q ++ [0]]) /\ concat [p ++ q; [0]] = concat [p; q ++ [0]].
Proof.
  intros P1 B1 B2 L2 H2. assert (byte_stream [0]) as B0 by (repeat constructor; unfold is_byte; lia).
  assert (is_packet (q ++ [0])) as P2.
  { unfold is_packet. rewrite H2, zlen_app, L2. change (zlen [0]) with 1. lia. }
  split; [apply Forall_cons_2; [done|by apply Forall_singleton]|]. cbn [concat]. rewrite !app_nil_r. split; [|by rewrite app_assoc].
  repeat apply Forall_app_2; done.
Qed.

Definition demo_p : bytes := long_bytes 1 65531.
Definition demo_q : bytes := long_bytes 2 65530.

Lemma demo_long :
  (is_packet demo_p /\ byte_stream demo_p /\ zlen demo_p = 65535) /\
  (byte_stream demo_q /\ zlen demo_q = 65534 /\ forall rest, hdr_size (PacketHeader_read (demo_q ++ rest)) = 65535).
Proof.
  split.
  - destruct (long_bytes_spec 1 65531) as (L1 & B1 & H1); [unfold is_byte; lia|lia|]. fold demo_p in L1, B1, H1.
    specialize (H1 []). rewrite app_nil_r in H1. split_and!; [split; lia|exact B1|lia].
  - destruct (long_bytes_spec 2 65530) as (L2 & B2 & H2); [unfold is_byte; lia|lia|]. fold demo_q in L2, B2, H2.
    split_and!; [exact B2|lia|exact H2].
Qed.

#[local] Opaque demo_session_buffer demo_p demo_q.

Lemma receive_chunks_witness :
  exists o rb', receive_chunks (fun _ => true) log_packet [demo_p ++ demo_q; [0]] demo_session_buffer []
                = Some (o, rb', [demo_p; demo_q ++ [0]]) /\ RecvBuffer_data rb' = [].
Proof.
  destruct demo_session_buffer_wf as (Hwf & Hd & Hs). destruct demo_long as [(P1 & B1 & L1) (B2 & L2 & H2)].
  destruct (demo_stream demo_p demo_q P1 B1 B2 L2 H2) as (Hp & Hb & Hcat).
  destruct (receive_chunks_reassembles (fun _ => true) log_packet [demo_p ++ demo_q; [0]] demo_session_buffer []
              [demo_p; demo_q ++ [0]] []) as (o & rb' & s' & Hr & Hs' & _ & Hall).
  - exact Hwf.
  - exact Hs.
  - rewrite (free_size_eq _ Hwf). vm_compute. congruence.
  - rewrite Hd. left. vm_compute. reflexivity.
  - reflexivity.
  - exact (long_chunks_fit demo_p demo_q P1 B1 L1 B2 L2 H2).
  - rewrite Hd, app_nil_r. exact Hcat.
  - rewrite app_nil_r. exact Hb.
  - exact Hp.
  - left. left. vm_compute. reflexivity.
  - destruct (Hall eq_refl) as (Hh & _ & Hi). exists o, rb'. rewrite Hr, Hs', Hh. split; [reflexivity|].
    apply Hi. left. vm_compute. reflexivity.
Defined.

Lemma on_recv_witness :
  exists n s', on_recv (fun _ => true) log_packet [3; 0; 1; 0] 4 [] = Some (n, s').
Proof.
  apply (on_recv_returns (fun _ => true) log_packet [3; 0; 1; 0] 4 []).
  - repeat constructor; vm_compute; congruence.
  - vm_compute. intuition congruence.
Defined.
