(* ===== verification/JobQueues.v ===== *)
(** * Job queues and the worker threads that drain them

    [LockQueue] (ServerCore/Utils/LockQueue.h), [JobQueue], [GlobalQueue]
    (ServerCore/Job) and [ThreadManager::do_global_queue_work]
    (ServerCore/Thread/ThreadManager.cpp).  The operations of [JobQueue::push]
    and [JobQueue::execute] interleave at the granularity of their atomic
    operations: the counter, the locked queue, the global queue.  A [call] is
    one activation of [push] or [execute] on some thread; a push made by a job
    that is itself running is an activation of its own, with [inline = false]
    because [LCurrentJobQueue] is set there. *)

From stdpp Require Import base list numbers option.
From Stdlib Require Import ZArith Lia.
From S2P Require Import Prelude.

(** ** LockQueue *)

Section LockQueue.
Context {T : Type}.

Definition LockQueue_push (item : T) (items : list T) : list T := items ++ [item].

(** [T()] for an empty queue is the null reference. *)
Definition LockQueue_pop (items : list T) : option T * list T :=
  match items with
  | [] => (None, [])
  | ret :: rest => (Some ret, rest)
  end.

(** The loop moves the front element to the back of [items_out] until the
    queue is empty. *)
Fixpoint LockQueue_pop_all (items_out items : list T) : list T * list T :=
  match items with
  | [] => (items_out, [])
  | front :: rest => LockQueue_pop_all (items_out ++ [front]) rest
  end.

Definition LockQueue_clear (items : list T) : list T := [].

Lemma LockQueue_pop_all_spec out items : LockQueue_pop_all out items = (out ++ items, []).
Proof.
  revert out. induction items as [|x items IH]; intros out; simpl; [by rewrite app_nil_r|].
  by rewrite IH, <- app_assoc.
Qed.
End LockQueue.

(** ** State *)

Section JobQueue.
Context {Job : Type}.

Record JobQueue := mkJobQueue {
  jq_jobs : list Job;
  jq_jobCount : Z
}.

(** The program counter of one activation.  [batch] is [jobCount] of
    [execute], [todo] what is left of the local vector. *)
Inductive call :=
| Returned
| PushCounted (q : nat) (job : Job) (prevCount : Z) (inline : bool)
| PushStored (q : nat) (prevCount : Z) (inline : bool)
| ExecPop (q : nat)
| ExecRun (q : nat) (batch : Z) (todo : list Job)
| ExecDecide (q : nat).

Record sched := mkSched {
  sc_queues : nat -> JobQueue;          (* every JobQueue, by identity *)
  sc_global : list nat;                 (* GGlobalQueue *)
  sc_calls : list call;                 (* activations of push and execute *)
  sc_pushed : nat -> list Job;          (* ghost: jobs stored, in order *)
  sc_done : nat -> list Job             (* ghost: jobs executed, in order *)
}.

Definition fupd {A} (f : nat -> A) (q : nat) (v : A) : nat -> A :=
  fun q' => if decide (q' = q) then v else f q'.

Definition set_call (t : nat) (c : call) (s : sched) : sched :=
  mkSched (sc_queues s) (sc_global s) (<[t := c]> (sc_calls s)) (sc_pushed s) (sc_done s).

Definition set_queue (q : nat) (jq : JobQueue) (s : sched) : sched :=
  mkSched (fupd (sc_queues s) q jq) (sc_global s) (sc_calls s) (sc_pushed s) (sc_done s).

Definition set_global (g : list nat) (s : sched) : sched :=
  mkSched (sc_queues s) g (sc_calls s) (sc_pushed s) (sc_done s).

Definition record_push (q : nat) (j : Job) (s : sched) : sched :=
  mkSched (sc_queues s) (sc_global s) (sc_calls s)
          (fupd (sc_pushed s) q (sc_pushed s q ++ [j])) (sc_done s).

Definition record_done (q : nat) (j : Job) (s : sched) : sched :=
  mkSched (sc_queues s) (sc_global s) (sc_calls s) (sc_pushed s)
          (fupd (sc_done s) q (sc_done s q ++ [j])).

(** [_jobCount.fetch_add(d)] on an [int32]. *)
Definition fetch_add (d : Z) (jq : JobQueue) : Z * JobQueue :=
  (jq_jobCount jq, mkJobQueue (jq_jobs jq) (i32 (jq_jobCount jq + d))).

(** ** Steps *)

(** [JobQueue::push] up to the counter increment.  The premise on the counter
    says that fewer than [2^31] jobs are outstanding on one queue. *)
Definition step_push_count (t q : nat) (job : Job) (inline : bool) (s : sched) : option sched :=
  match sc_calls s !! t with
  | Some Returned =>
      let '(prevCount, jq) := fetch_add 1 (sc_queues s q) in
      if prevCount <? INT32_MAX then
        Some (set_call t (PushCounted q job prevCount inline) (set_queue q jq s))
      else None
  | _ => None
  end.

(** [_jobs.push(job)]. *)
Definition step_push_store (t : nat) (s : sched) : option sched :=
  match sc_calls s !! t with
  | Some (PushCounted q job prevCount inline) =>
      let jq := sc_queues s q in
      Some (set_call t (PushStored q prevCount inline)
             (record_push q job
               (set_queue q (mkJobQueue (LockQueue_push job (jq_jobs jq)) (jq_jobCount jq)) s)))
  | _ => None
  end.

(** The rest of [push]: the first pusher runs the queue or hands it over. *)
Definition step_push_finish (t : nat) (s : sched) : option sched :=
  match sc_calls s !! t with
  | Some (PushStored q prevCount inline) =>
      if prevCount =? 0 then
        if inline then Some (set_call t (ExecPop q) s)
        else Some (set_call t Returned (set_global (LockQueue_push q (sc_global s)) s))
      else Some (set_call t Returned s)
  | _ => None
  end.

(** [do_global_queue_work]: a worker takes the next queue and executes it. *)
Definition step_worker (t : nat) (s : sched) : option sched :=
  match sc_calls s !! t, LockQueue_pop (sc_global s) with
  | Some Returned, (Some q, rest) => Some (set_call t (ExecPop q) (set_global rest s))
  | _, _ => None
  end.

(** [_jobs.pop_all(jobs)] at the head of the loop of [execute]. *)
Definition step_pop_all (t : nat) (s : sched) : option sched :=
  match sc_calls s !! t with
  | Some (ExecPop q) =>
      let jq := sc_queues s q in
      let '(jobs, rest) := LockQueue_pop_all [] (jq_jobs jq) in
      Some (set_call t (ExecRun q (i32 (zlen jobs)) jobs)
             (set_queue q (mkJobQueue rest (jq_jobCount jq)) s))
  | _ => None
  end.

(** [jobs[i]->execute()]. *)
Definition step_run (t : nat) (s : sched) : option sched :=
  match sc_calls s !! t with
  | Some (ExecRun q batch (j :: todo)) =>
      Some (set_call t (ExecRun q batch todo) (record_done q j s))
  | _ => None
  end.

(** [_jobCount.fetch_sub(jobCount) == jobCount]. *)
Definition step_sub (t : nat) (s : sched) : option sched :=
  match sc_calls s !! t with
  | Some (ExecRun q batch []) =>
      let '(prev, jq) := fetch_add (- batch) (sc_queues s q) in
      Some (set_call t (if prev =? batch then Returned else ExecDecide q) (set_queue q jq s))
  | _ => None
  end.

(** [now >= LEndTickCount]: give the queue back, or go round again. *)
Definition step_decide (t : nat) (expired : bool) (s : sched) : option sched :=
  match sc_calls s !! t with
  | Some (ExecDecide q) =>
      if expired then Some (set_call t Returned (set_global (LockQueue_push q (sc_global s)) s))
      else Some (set_call t (ExecPop q) s)
  | _ => None
  end.

(** One step of any activation; [spawn] is a thread entering the system. *)
Inductive sched_step : sched -> sched -> Prop :=
| st_spawn s : sched_step s (mkSched (sc_queues s) (sc_global s) (sc_calls s ++ [Returned])
                                     (sc_pushed s) (sc_done s))
| st_push_count t q j i s s' : step_push_count t q j i s = Some s' -> sched_step s s'
| st_push_store t s s' : step_push_store t s = Some s' -> sched_step s s'
| st_push_finish t s s' : step_push_finish t s = Some s' -> sched_step s s'
| st_worker t s s' : step_worker t s = Some s' -> sched_step s s'
| st_pop_all t s s' : step_pop_all t s = Some s' -> sched_step s s'
| st_run t s s' : step_run t s = Some s' -> sched_step s s'
| st_sub t s s' : step_sub t s = Some s' -> sched_step s s'
| st_decide t e s s' : step_decide t e s = Some s' -> sched_step s s'.

Definition sched_init : sched :=
  mkSched (fun _ => mkJobQueue [] 0) [] [] (fun _ => []) (fun _ => []).

Inductive sched_reachable : sched -> Prop :=
| sr_init : sched_reachable sched_init
| sr_step s s' : sched_reachable s -> sched_step s s' -> sched_reachable s'.

(** ** Counting *)

Definition sumZ {A} (f : A -> Z) (l : list A) : Z := foldr (fun x acc => f x + acc) 0 l.

Lemma sumZ_app {A} (f : A -> Z) l k : sumZ f (l ++ k) = sumZ f l + sumZ f k.
Proof. induction l as [|x l IH]; simpl; lia. Qed.

Lemma sumZ_insert {A} (f : A -> Z) l t x y :
  l !! t = Some x -> sumZ f (<[t := y]> l) = sumZ f l - f x + f y.
Proof.
  revert t. induction l as [|z l IH]; intros [|t] H; simpl in *; try done.
  - injection H as ->. lia.
  - rewrite IH by done. lia.
Qed.

Lemma sumZ_nonneg {A} (f : A -> Z) l : (forall x, 0 <= f x) -> 0 <= sumZ f l.
Proof. intros Hf. induction l as [|x l IH]; simpl; [lia|]. specialize (Hf x). lia. Qed.

Lemma sumZ_lookup_le {A} (f : A -> Z) l t x :
  (forall x, 0 <= f x) -> l !! t = Some x -> f x <= sumZ f l.
Proof.
  intros Hf. revert t. induction l as [|z l IH]; intros [|t] H; simpl in *; try done.
  - injection H as ->. pose proof (sumZ_nonneg f l Hf). lia.
  - apply IH in H. specialize (Hf z). lia.
Qed.

(** Two different positions of weight at least one weigh at least two. *)
Lemma sumZ_lookup_two {A} (f : A -> Z) l t u x y :
  (forall x, 0 <= f x) -> t <> u -> l !! t = Some x -> l !! u = Some y ->
  f x + f y <= sumZ f l.
Proof.
  intros Hf. revert t u. induction l as [|z l IH]; intros [|t] [|u] Hne Ht Hu; simpl in *; try done.
  - injection Ht as ->. pose proof (sumZ_lookup_le f l u y Hf Hu). lia.
  - injection Hu as ->. pose proof (sumZ_lookup_le f l t x Hf Ht). lia.
  - assert (t <> u) as Hne' by congruence. pose proof (IH t u Hne' Ht Hu). specialize (Hf z). lia.
Qed.

(** The right to run queue [q]: held by its place in the global queue, by the
    push that found the counter at zero, or by the activation executing it. *)
Definition token (q : nat) (c : call) : Z :=
  match c with
  | PushCounted q' _ prev _ | PushStored q' prev _ =>
      if decide (q' = q) then (if prev =? 0 then 1 else 0) else 0
  | ExecPop q' | ExecRun q' _ _ | ExecDecide q' => if decide (q' = q) then 1 else 0
  | Returned => 0
  end.

(** Jobs that [_jobCount] counts but [_jobs] does not hold. *)
Definition in_flight (q : nat) (c : call) : Z :=
  match c with
  | PushCounted q' _ _ _ => if decide (q' = q) then 1 else 0
  | ExecRun q' batch _ => if decide (q' = q) then batch else 0
  | _ => 0
  end.

Definition running (q : nat) (c : call) : list Job :=
  match c with ExecRun q' _ todo => if decide (q' = q) then todo else [] | _ => [] end.

Definition global_count (q : nat) (g : list nat) : Z := sumZ (fun q' => if decide (q' = q) then 1 else 0) g.

Definition tokens (q : nat) (s : sched) : Z :=
  global_count q (sc_global s) + sumZ (token q) (sc_calls s).

Definition outstanding (q : nat) (s : sched) : Z :=
  zlen (jq_jobs (sc_queues s q)) + sumZ (in_flight q) (sc_calls s).

Definition call_wf (c : call) : Prop :=
  match c with ExecRun _ batch todo => zlen todo <= batch | _ => True end.

(** The invariant, for one queue. *)
Record queue_inv (q : nat) (s : sched) : Prop := {
  qi_calls : Forall call_wf (sc_calls s);
  qi_count : jq_jobCount (sc_queues s q) = outstanding q s;
  qi_bound : outstanding q s <= INT32_MAX;
  qi_token : tokens q s = if outstanding q s >? 0 then 1 else 0;
  qi_fifo : sc_pushed s q = sc_done s q ++ concat (running q <$> sc_calls s) ++ jq_jobs (sc_queues s q)
}.
(** ** Preservation *)

Lemma token_nonneg q c : 0 <= token q c.
Proof. destruct c; simpl; repeat case_decide; try destruct (_ =? 0); lia. Qed.

Lemma in_flight_nonneg q c : call_wf c -> 0 <= in_flight q c.
Proof.
  destruct c; simpl; intros; try case_decide; try lia.
  pose proof (zlen_nonneg todo). lia.
Qed.

Lemma in_flight_sum_nonneg q cs : Forall call_wf cs -> 0 <= sumZ (in_flight q) cs.
Proof.
  induction 1 as [|c cs Hc _ IH]; simpl; [lia|].
  pose proof (in_flight_nonneg q c Hc). lia.
Qed.

Lemma global_count_app q g q' :
  global_count q (g ++ [q']) = global_count q g + if decide (q' = q) then 1 else 0.
Proof. unfold global_count. rewrite sumZ_app. simpl. lia. Qed.

Lemma global_count_nonneg q g : 0 <= global_count q g.
Proof. apply sumZ_nonneg. intros x. case_decide; lia. Qed.

(** Replacing one call by another that runs the same jobs of [q]. *)
Lemma running_same q cs t c c' :
  cs !! t = Some c -> running q c' = running q c ->
  concat (running q <$> <[t := c']> cs) = concat (running q <$> cs).
Proof.
  intros Ht Hr. rewrite list_fmap_insert, Hr, list_insert_id; [done|].
  by rewrite list_lookup_fmap, Ht.
Qed.

(** No other call runs jobs of [q] while [t] holds the token. *)
Lemma running_alone q cs t c c' :
  cs !! t = Some c -> token q c = 1 -> sumZ (token q) cs <= 1 ->
  concat (running q <$> <[t := c']> cs) = running q c'.
Proof.
  intros Ht Hc Hsum.
  assert (forall u d, u <> t -> cs !! u = Some d -> running q d = []) as Hothers.
  { intros u d Hne Hu. pose proof (sumZ_lookup_two (token q) cs u t d c (token_nonneg q) Hne Hu Ht).
    pose proof (token_nonneg q d). assert (token q d = 0) as Hd by lia.
    destruct d; simpl in *; try done. case_decide; [lia|done]. }
  clear Hsum Hc. revert t c Ht Hothers. induction cs as [|d cs IH]; intros [|t] c Ht Hothers; try done.
  - change (<[0%nat := c']> (d :: cs)) with (c' :: cs). rewrite fmap_cons. cbn [concat].
    assert (concat (running q <$> cs) = []) as ->; [|by rewrite app_nil_r].
    apply concat_nil_Forall. apply Forall_fmap, Forall_lookup. intros u d' Hu. simpl.
    apply (Hothers (S u) d'); done.
  - change (<[S t := c']> (d :: cs)) with (d :: <[t := c']> cs). rewrite fmap_cons. cbn [concat].
    rewrite (Hothers 0%nat d) by done. simpl.
    eapply IH; [exact Ht|]. intros u d' Hne Hu. apply (Hothers (S u) d'); [lia|done].
Qed.

Lemma outstanding_nonneg q s : Forall call_wf (sc_calls s) -> 0 <= outstanding q s.
Proof.
  intros H. unfold outstanding. pose proof (in_flight_sum_nonneg q _ H).
  pose proof (zlen_nonneg (jq_jobs (sc_queues s q))). lia.
Qed.

Lemma fupd_eq {A} (f : nat -> A) q v : fupd f q v q = v.
Proof. unfold fupd. by rewrite decide_True. Qed.

Lemma fupd_ne {A} (f : nat -> A) q q' v : q' <> q -> fupd f q v q' = f q'.
Proof. intros. unfold fupd. by rewrite decide_False. Qed.

(** Steps of an activation on another queue do not concern [q]. *)
Lemma queue_inv_frame q s s' t c c' :
  queue_inv q s -> sc_calls s !! t = Some c -> sc_calls s' = <[t := c']> (sc_calls s) ->
  sc_queues s' q = sc_queues s q -> sc_pushed s' q = sc_pushed s q -> sc_done s' q = sc_done s q ->
  global_count q (sc_global s') + token q c' = global_count q (sc_global s) + token q c ->
  in_flight q c' = in_flight q c -> running q c' = running q c -> call_wf c' ->
  queue_inv q s'.
Proof.
  intros [Hc Hn Hb Ht Hf] Hlk Hcs Hq Hp Hd Htok Hfl Hrun Hwf.
  assert (outstanding q s' = outstanding q s) as Ho.
  { unfold outstanding. rewrite Hq, Hcs, (sumZ_insert _ _ _ _ _ Hlk). lia. }
  constructor.
  - rewrite Hcs. by apply Forall_insert.
  - by rewrite Hq, Ho.
  - by rewrite Ho.
  - rewrite Ho, <- Ht. unfold tokens. rewrite Hcs, (sumZ_insert _ _ _ _ _ Hlk). lia.
  - rewrite Hp, Hd, Hq, Hcs, (running_same _ _ _ _ _ Hlk Hrun). done.
Qed.

(** Solves the equations of a step on the queue it concerns. *)
Ltac frame_step Hlk :=
  eapply queue_inv_frame;
    [eassumption | exact Hlk | reflexivity
    | simpl; rewrite ?fupd_ne by done; done | simpl; rewrite ?fupd_ne by done; done
    | simpl; rewrite ?fupd_ne by done; done
    | simpl; unfold LockQueue_push; rewrite ?global_count_app, ?decide_False by congruence; lia
    | simpl; rewrite ?decide_False by congruence; done
    | simpl; rewrite ?decide_False by congruence; done | ].

Section OneQueue.
Context (s : sched) (Hall : forall q, queue_inv q s) (q : nat).
Let Hinv := Hall q.

Lemma calls_tokens_le : sumZ (token q) (sc_calls s) <= 1.
Proof using Hall.
  destruct Hinv as [_ _ _ Ht _]. unfold tokens in Ht.
  pose proof (global_count_nonneg q (sc_global s)). destruct (_ >? 0); lia.
Qed.

Lemma token_positive t c :
  sc_calls s !! t = Some c -> token q c = 1 -> 0 < outstanding q s.
Proof using Hall.
  intros Ht Hc. destruct Hinv as [_ _ _ Htk _]. unfold tokens in Htk.
  pose proof (sumZ_lookup_le _ _ _ _ (token_nonneg q) Ht).
  pose proof (global_count_nonneg q (sc_global s)).
  destruct (outstanding q s >? 0) eqn:E; [rewrite Z.gtb_ltb in E; bool_lia; done|lia].
Qed.

Lemma inv_push_count t q0 j i s' :
  step_push_count t q0 j i s = Some s' -> queue_inv q s'.
Proof using Hall.
  unfold step_push_count. destruct (sc_calls s !! t) as [[]|] eqn:Hlk; try done.
  simpl. destruct (_ <? INT32_MAX) eqn:Hmax; [|done]. intros [= <-].
  destruct (decide (q0 = q)) as [->|Hne]; [|frame_step Hlk; done].
  pose proof Hinv as [Hc Hn Hb Ht Hf]. pose proof (outstanding_nonneg q s Hc) as Hnn. bool_lia.
  rewrite Hn in *. unfold INT32_MAX in *.
  set (s' := set_call t _ _). assert (outstanding q s' = outstanding q s + 1) as Ho.
  { unfold s', outstanding; simpl. rewrite fupd_eq, (sumZ_insert _ _ _ _ _ Hlk). simpl.
    rewrite decide_True by done. lia. }
  constructor.
  - by apply Forall_insert.
  - rewrite Ho. simpl. rewrite fupd_eq. simpl. rewrite ?Hn, i32_small by lia. done.
  - unfold INT32_MAX. lia.
  - rewrite Ho. unfold tokens in *; simpl. rewrite (sumZ_insert _ _ _ _ _ Hlk). simpl.
    rewrite decide_True, (Z_gtb_true (_ + 1) 0) by (done || lia).
    destruct (outstanding q s =? 0) eqn:E; bool_lia.
    + rewrite Z_gtb_false in Ht by lia. lia.
    + rewrite Z_gtb_true in Ht by lia. lia.
  - simpl. rewrite fupd_eq. simpl. rewrite (running_same _ _ _ _ _ Hlk) by done. done.
Qed.

Lemma inv_push_store t s' : step_push_store t s = Some s' -> queue_inv q s'.
Proof using Hall.
  unfold step_push_store. destruct (sc_calls s !! t) as [[|q0 j prev inl| | | |]|] eqn:Hlk; try done.
  intros [= <-]. destruct (decide (q0 = q)) as [->|Hne]; [|frame_step Hlk; done].
  pose proof Hinv as [Hc Hn Hb Ht Hf]. set (s' := set_call t _ _).
  assert (outstanding q s' = outstanding q s) as Ho.
  { unfold s', outstanding; simpl. rewrite fupd_eq, (sumZ_insert _ _ _ _ _ Hlk). simpl.
    rewrite decide_True by done. unfold LockQueue_push. autorewrite with zlen. lia. }
  constructor.
  - by apply Forall_insert.
  - rewrite Ho. simpl. by rewrite fupd_eq.
  - by rewrite Ho.
  - rewrite Ho, <- Ht. unfold tokens; simpl. rewrite (sumZ_insert _ _ _ _ _ Hlk). simpl. lia.
  - simpl. rewrite !fupd_eq. simpl. rewrite (running_same _ _ _ _ _ Hlk) by done.
    unfold LockQueue_push. rewrite Hf, !app_assoc. done.
Qed.

Lemma inv_push_finish t s' : step_push_finish t s = Some s' -> queue_inv q s'.
Proof using Hall.
  unfold step_push_finish. destruct (sc_calls s !! t) as [[| |q0 prev inl| | |]|] eqn:Hlk; try done.
  destruct (prev =? 0) eqn:Hp; [destruct inl|]; intros [= <-];
    (eapply queue_inv_frame; [exact Hinv | exact Hlk | reflexivity | done | done | done | | done | done | done]);
    simpl; unfold LockQueue_push; rewrite ?global_count_app, ?Hp; case_decide; lia.
Qed.

Lemma inv_worker t s' : step_worker t s = Some s' -> queue_inv q s'.
Proof using Hall.
  unfold step_worker. destruct (sc_calls s !! t) as [[]|] eqn:Hlk; try done.
  destruct (sc_global s) as [|q0 rest] eqn:Hg; simpl; [done|]. intros [= <-].
  eapply queue_inv_frame; [exact Hinv | exact Hlk | reflexivity | done | done | done | | done | done | done].
  simpl. rewrite Hg. unfold global_count; simpl. lia.
Qed.

Lemma jobs_fit q0 : zlen (jq_jobs (sc_queues s q0)) < 2 ^ 31.
Proof using Hall.
  destruct (Hall q0) as [Hc _ Hb _ _]. unfold outstanding, INT32_MAX in *.
  pose proof (in_flight_sum_nonneg q0 _ Hc). lia.
Qed.

Lemma inv_pop_all t s' : step_pop_all t s = Some s' -> queue_inv q s'.
Proof using Hall.
  unfold step_pop_all. destruct (sc_calls s !! t) as [[| | |q0| |]|] eqn:Hlk; try done.
  rewrite LockQueue_pop_all_spec. simpl. intros [= <-].
  pose proof (jobs_fit q0) as Hfit. pose proof (zlen_nonneg (jq_jobs (sc_queues s q0))) as Hnn.
  rewrite i32_small by lia.
  pose proof Hinv as [Hc Hn Hb Ht Hf]. destruct (decide (q0 = q)) as [->|Hne].
  2: { frame_step Hlk. simpl. lia. }
  set (s' := set_call t _ _). assert (outstanding q s' = outstanding q s) as Ho.
  { unfold s', outstanding; simpl. rewrite fupd_eq, (sumZ_insert _ _ _ _ _ Hlk). simpl.
    rewrite decide_True by done. rewrite zlen_nil. lia. }
  constructor.
  - apply Forall_insert; [done|]. simpl. lia.
  - rewrite Ho. simpl. by rewrite fupd_eq.
  - by rewrite Ho.
  - rewrite Ho, <- Ht. unfold tokens; simpl. rewrite (sumZ_insert _ _ _ _ _ Hlk). simpl. lia.
  - simpl. rewrite fupd_eq. simpl.
    assert (token q (ExecPop q) = 1) as Htk by (simpl; by rewrite decide_True).
    rewrite (running_alone q _ t _ _ Hlk Htk calls_tokens_le). simpl. rewrite decide_True, app_nil_r by done.
    rewrite Hf, <- (list_insert_id _ _ _ Hlk), (running_alone q _ t _ _ Hlk Htk calls_tokens_le). done.
Qed.

Lemma inv_run t s' : step_run t s = Some s' -> queue_inv q s'.
Proof using Hall.
  unfold step_run. destruct (sc_calls s !! t) as [[| | | |q0 n [|j todo]|]|] eqn:Hlk; try done.
  intros [= <-]. pose proof Hinv as [Hc Hn Hb Ht Hf].
  pose proof (Forall_lookup_1 _ _ _ _ Hc Hlk) as Hwf. simpl in Hwf. rewrite zlen_cons in Hwf.
  destruct (decide (q0 = q)) as [->|Hne]; [|frame_step Hlk; simpl; lia].
  set (s' := set_call t _ _). assert (outstanding q s' = outstanding q s) as Ho.
  { unfold s', outstanding; simpl. rewrite (sumZ_insert _ _ _ _ _ Hlk). simpl. lia. }
  constructor.
  - apply Forall_insert; [done|]. simpl. lia.
  - by rewrite Ho.
  - by rewrite Ho.
  - rewrite Ho, <- Ht. unfold tokens; simpl. rewrite (sumZ_insert _ _ _ _ _ Hlk). simpl. lia.
  - simpl. rewrite fupd_eq.
    assert (token q (ExecRun q n (j :: todo)) = 1) as Htk by (simpl; by rewrite decide_True).
    rewrite (running_alone q _ t _ _ Hlk Htk calls_tokens_le). simpl. rewrite decide_True by done.
    rewrite Hf, <- (list_insert_id _ _ _ Hlk), (running_alone q _ t _ _ Hlk Htk calls_tokens_le).
    simpl. rewrite decide_True, <- app_assoc by done. done.
Qed.

Lemma inv_sub t s' : step_sub t s = Some s' -> queue_inv q s'.
Proof using Hall.
  unfold step_sub. destruct (sc_calls s !! t) as [[| | | |q0 n [|j todo]|]|] eqn:Hlk; try done.
  simpl. intros [= <-]. pose proof Hinv as [Hc Hn Hb Ht Hf].
  destruct (decide (q0 = q)) as [->|Hne].
  2: { destruct (_ =? n); frame_step Hlk; done. }
  pose proof (Forall_lookup_1 _ _ _ _ Hc Hlk) as Hwf. simpl in Hwf. rewrite zlen_nil in Hwf.
  set (c' := if _ =? n then Returned else ExecDecide q).
  assert (in_flight q c' = 0 /\ running q c' = [] /\ call_wf c') as (Hfl & Hrun & Hwf').
  { unfold c'. destruct (_ =? n); done. }
  set (s' := set_call t c' _). assert (outstanding q s' = outstanding q s - n) as Ho.
  { unfold s', outstanding; simpl. rewrite fupd_eq, (sumZ_insert _ _ _ _ _ Hlk), Hfl. simpl.
    rewrite decide_True by done. lia. }
  assert (0 <= outstanding q s') as Hnn.
  { apply outstanding_nonneg. by apply Forall_insert. }
  pose proof (token_positive t _ Hlk) as Htp. simpl in Htp. rewrite decide_True in Htp by done.
  specialize (Htp eq_refl). unfold INT32_MAX in *.
  constructor.
  - by apply Forall_insert.
  - simpl. rewrite fupd_eq. simpl. rewrite Hn, Ho. apply i32_small. lia.
  - unfold INT32_MAX. lia.
  - rewrite Ho. unfold tokens in *; simpl. rewrite (sumZ_insert _ _ _ _ _ Hlk). simpl.
    rewrite decide_True by done. rewrite Z_gtb_true in Ht by lia.
    unfold c'. rewrite Hn. destruct (outstanding q s =? n) eqn:E; bool_lia.
    + rewrite Z_gtb_false by lia. simpl. lia.
    + rewrite Z_gtb_true by lia. simpl. rewrite decide_True by done. lia.
  - simpl. rewrite fupd_eq. simpl. rewrite (running_same _ _ _ _ _ Hlk); [done|].
    rewrite Hrun. simpl. by case_decide.
Qed.

Lemma inv_decide t e s' : step_decide t e s = Some s' -> queue_inv q s'.
Proof using Hall.
  unfold step_decide. destruct (sc_calls s !! t) as [[| | | | |q0]|] eqn:Hlk; try done.
  destruct e; intros [= <-];
    (eapply queue_inv_frame; [exact Hinv | exact Hlk | reflexivity | done | done | done | | done | done | done]);
    simpl; unfold LockQueue_push; rewrite ?global_count_app; lia.
Qed.
End OneQueue.

Lemma queue_inv_init q : queue_inv q sched_init.
Proof. constructor; done. Qed.

Lemma queue_inv_step s s' : (forall q, queue_inv q s) -> sched_step s s' -> forall q, queue_inv q s'.
Proof.
  intros Hall Hst q. destruct Hst.
  - destruct (Hall q) as [Hc Hn Hb Ht Hf].
    assert (forall f : call -> Z, f Returned = 0 -> sumZ f (sc_calls s ++ [Returned]) = sumZ f (sc_calls s)) as Hsum.
    { intros f Hf0. rewrite sumZ_app. simpl. lia. }
    constructor; unfold outstanding, tokens in *; simpl; rewrite ?Hsum by done; try done.
    + apply Forall_app. split; [done|]. by repeat constructor.
    + by rewrite fmap_app, concat_app, app_nil_r.
  - by eapply inv_push_count.
  - by eapply inv_push_store.
  - by eapply inv_push_finish.
  - by eapply inv_worker.
  - by eapply inv_pop_all.
  - by eapply inv_run.
  - by eapply inv_sub.
  - by eapply inv_decide.
Qed.

Lemma reachable_inv s : sched_reachable s -> forall q, queue_inv q s.
Proof. induction 1; [apply queue_inv_init|by eapply queue_inv_step]. Qed.

(** ** Properties *)

(** The activation is inside [JobQueue::execute] of queue [q]. *)
Definition executes (q : nat) (c : call) : bool :=
  match c with
  | ExecPop q' | ExecRun q' _ _ | ExecDecide q' => bool_decide (q' = q)
  | _ => false
  end.

Lemma executes_token q c : executes q c = true -> token q c = 1.
Proof. destruct c; simpl; try done; intros ->%bool_decide_eq_true; by rewrite decide_True. Qed.

(** C23: jobs of one queue never run concurrently.  In every reachable state of any
    number of threads pushing to and draining any number of queues, at most one
    activation is inside [JobQueue::execute] of a given queue. *)
Theorem execute_mutual_exclusion s q t u c d :
  sched_reachable s ->
  sc_calls s !! t = Some c -> sc_calls s !! u = Some d ->
  executes q c = true -> executes q d = true -> t = u.
Proof.
  intros Hr Ht Hu Hc%executes_token Hd%executes_token.
  destruct (decide (t = u)) as [|Hne]; [done|].
  pose proof (calls_tokens_le s (reachable_inv s Hr) q).
  pose proof (sumZ_lookup_two _ _ _ _ _ _ (token_nonneg q) Hne Ht Hu). lia.
Qed.

(** C24: jobs run in the order in which they were stored, each at most once: what a
    queue has executed is always a prefix of what was pushed to it. *)
Theorem execute_fifo s q : sched_reachable s -> sc_done s q `prefix_of` sc_pushed s q.
Proof. intros Hr. destruct (reachable_inv s Hr q) as [_ _ _ _ ->]. by eexists. Qed.

(** C25: no job is lost.  When every activation has returned and the global queue is
    empty, every job ever pushed has been executed and the counter is back at zero. *)
Theorem quiescent_all_done s q :
  sched_reachable s -> Forall (eq Returned) (sc_calls s) -> sc_global s = [] ->
  sc_done s q = sc_pushed s q /\ jq_jobCount (sc_queues s q) = 0.
Proof.
  intros Hr Hret Hg. destruct (reachable_inv s Hr q) as [Hc Hn Hb Ht Hf].
  assert (forall f : call -> Z, f Returned = 0 -> sumZ f (sc_calls s) = 0) as Hz.
  { intros f Hf0. clear -Hret Hf0. induction Hret as [|c cs <- _ IH]; simpl; lia. }
  unfold tokens in Ht. rewrite Hg, Hz in Ht by done. unfold global_count in Ht; simpl in Ht.
  pose proof (outstanding_nonneg q s Hc).
  destruct (outstanding q s >? 0) eqn:E; [lia|]. rewrite Z.gtb_ltb in E. bool_lia.
  assert (jq_jobs (sc_queues s q) = []) as Hj.
  { unfold outstanding in *. rewrite Hz in * by done.
    apply length_zero_iff_nil. unfold zlen in *. lia. }
  assert (concat (running q <$> sc_calls s) = []) as Hrun.
  { clear -Hret. induction Hret as [|c cs <- _ IH]; [done|]. rewrite fmap_cons. done. }
  rewrite Hj, Hrun, !app_nil_r in Hf. split; [done|lia].
Qed.

(** An activation that has not returned can always take its next step. *)
Lemma call_progress s t c :
  sc_calls s !! t = Some c -> c <> Returned -> exists s', sched_step s s' /\ s' <> s.
Proof.
  intros Ht Hne.
  assert (forall c' s0, sc_calls s0 = sc_calls s -> c' <> c -> set_call t c' s0 <> s) as Hdiff.
  { intros c' s0 Hs0 Hc' Heq. apply (f_equal sc_calls) in Heq. simpl in Heq. rewrite Hs0 in Heq.
    assert (Some c' = Some c) as [=]; [|done].
    rewrite <- Ht, <- Heq. symmetry. apply list_lookup_insert_eq. by eapply lookup_lt_Some. }
  destruct c as [|q j p i|q p i|q|q n [|j todo]|q]; [done|..].
  - eexists. split; [eapply (st_push_store t); unfold step_push_store; by rewrite Ht|]. by apply Hdiff.
  - destruct (p =? 0) eqn:Ep; [destruct i|]; (eexists; split;
      [eapply (st_push_finish t); unfold step_push_finish; by rewrite Ht, Ep|by apply Hdiff]).
  - eexists. split; [eapply (st_pop_all t); unfold step_pop_all; rewrite Ht, LockQueue_pop_all_spec; done|].
    by apply Hdiff.
  - eexists. split; [eapply (st_sub t); unfold step_sub; by rewrite Ht|].
    apply Hdiff; [done|]. by destruct (_ =? n).
  - eexists. split; [eapply (st_run t); unfold step_run; by rewrite Ht|]. apply Hdiff; [done|].
    intros [= Hl]. apply (f_equal length) in Hl. simpl in Hl. lia.
  - eexists. split; [eapply (st_decide t false); unfold step_decide; by rewrite Ht|]. by apply Hdiff.
Qed.

(** A queue with outstanding jobs is never stranded: as long as some pushed job of
    a queue has not been executed, either an activation is on its way with it, or the
    queue waits in the global queue, and then any idle worker picks the front of the
    global queue up. *)
Theorem outstanding_queue_scheduled s q :
  sched_reachable s -> sc_done s q <> sc_pushed s q ->
  (exists t c, sc_calls s !! t = Some c /\ token q c = 1 /\ exists s', sched_step s s' /\ s' <> s) \/
  (q ∈ sc_global s /\
   forall t, sc_calls s !! t = Some Returned -> exists s', step_worker t s = Some s').
Proof.
  intros Hr Hnd. pose proof (reachable_inv s Hr q) as Hinv. pose proof Hinv as [Hc Hn Hb Ht Hf].
  assert (0 < outstanding q s) as Hpos.
  { pose proof (outstanding_nonneg q s Hc). destruct (decide (outstanding q s = 0)) as [H0|]; [|lia].
    exfalso. apply Hnd. rewrite H0 in Ht. simpl in Ht. unfold tokens in Ht.
    pose proof (global_count_nonneg q (sc_global s)).
    pose proof (sumZ_nonneg (token q) (sc_calls s) (token_nonneg q)) as Hs0.
    assert (Forall (fun c => running q c = []) (sc_calls s)) as Hrun.
    { apply Forall_lookup. intros t c Hlk.
      pose proof (sumZ_lookup_le _ _ _ _ (token_nonneg q) Hlk). pose proof (token_nonneg q c).
      assert (token q c = 0) as Hc0 by lia. destruct c; simpl in *; try done. by case_decide. }
    rewrite Hf. assert (concat (running q <$> sc_calls s) = []) as ->.
    { apply concat_nil_Forall, Forall_fmap. exact Hrun. }
    unfold outstanding in H0. pose proof (in_flight_sum_nonneg q _ Hc).
    pose proof (zlen_nonneg (jq_jobs (sc_queues s q))).
    assert (jq_jobs (sc_queues s q) = []) as ->; [|by rewrite !app_nil_r].
    apply length_zero_iff_nil. unfold zlen in *. lia. }
  rewrite Z_gtb_true in Ht by done. unfold tokens in Ht.
  destruct (decide (0 < global_count q (sc_global s))) as [Hg|Hg].
  - right. split.
    + clear -Hg. induction (sc_global s) as [|q' g IH]; [done|]. unfold global_count in *; simpl in Hg.
      case_decide as E; [subst; left|right; apply IH; lia].
    + intros t Hlk. unfold step_worker. rewrite Hlk. destruct (sc_global s); [done|]. simpl. eauto.
  - left. assert (exists t c, sc_calls s !! t = Some c /\ 0 < token q c) as (t & c & Hlk & Htk).
    { assert (0 < sumZ (token q) (sc_calls s)) as Hsum by lia. clear -Hsum.
      induction (sc_calls s) as [|c cs IH]; [done|]. simpl in Hsum.
      destruct (decide (0 < token q c)); [by exists 0%nat, c|].
      destruct IH as (t & c' & ? & ?); [lia|]. by exists (S t), c'. }
    exists t, c. split; [done|]. split.
    + pose proof (calls_tokens_le s (reachable_inv s Hr) q).
      pose proof (sumZ_lookup_le _ _ _ _ (token_nonneg q) Hlk). lia.
    + eapply call_progress; [done|]. intros ->. done.
Qed.

End JobQueue.
Arguments JobQueue : clear implicits.
Arguments sched : clear implicits.
Arguments call : clear implicits.

(** ** Witnesses: two threads, one queue, jobs 7 and 8 *)

Fixpoint run_labels {Job} (ls : list (sched Job -> option (sched Job))) (s : sched Job) : option (sched Job) :=
  match ls with
  | [] => Some s
  | l :: rest => match l s with Some s' => run_labels rest s' | None => None end
  end.

Definition spawn {Job} (s : sched Job) : option (sched Job) :=
  Some (mkSched (sc_queues s) (sc_global s) (sc_calls s ++ [Returned]) (sc_pushed s) (sc_done s)).

Lemma run_labels_reachable {Job} (ls : list (sched Job -> option (sched Job))) s s' :
  (forall l, l ∈ ls -> forall a b, l a = Some b -> sched_step a b) ->
  sched_reachable s -> run_labels ls s = Some s' -> sched_reachable s'.
Proof.
  revert s. induction ls as [|l ls IH]; intros s Hl Hr; simpl; [by intros [= <-]|].
  destruct (l s) as [s1|] eqn:E; [|done]. intros H. eapply IH; [|eapply sr_step; [exact Hr|]|exact H].
  - intros l' Hin. apply Hl. by right.
  - eapply Hl; [by left|exact E].
Qed.

(** Thread 0 pushes job 7 for the workers, thread 1 picks the queue up and has
    popped it when thread 0 pushes job 8. *)
Definition demo_labels : list (sched Z -> option (sched Z)) :=
  [spawn; spawn; step_push_count 0 0 7 false; step_push_store 0; step_push_finish 0;
   step_worker 1; step_pop_all 1; step_push_count 0 0 8 false; step_push_store 0;
   step_push_finish 0; step_run 1].

Definition demo_finish : list (sched Z -> option (sched Z)) :=
  [step_sub 1; step_decide 1 false; step_pop_all 1; step_run 1; step_sub 1].

Lemma demo_labels_steps : forall l, l ∈ demo_labels ++ demo_finish -> forall a b, l a = Some b -> sched_step a b.
Proof.
  intros l Hl a b H. unfold demo_labels, demo_finish, spawn in Hl. simpl in Hl.
  repeat (apply elem_of_cons in Hl as [->|Hl]; [first
    [ injection H as <-; apply st_spawn | eapply st_push_count; exact H | eapply st_push_store; exact H
    | eapply st_push_finish; exact H | eapply st_worker; exact H | eapply st_pop_all; exact H
    | eapply st_run; exact H | eapply st_sub; exact H | eapply st_decide; exact H ]|]).
  by apply not_elem_of_nil in Hl.
Qed.

Definition demo_mid : sched Z := default sched_init (run_labels demo_labels sched_init).
Definition demo_end : sched Z := default sched_init (run_labels (demo_labels ++ demo_finish) sched_init).

Lemma demo_mid_reachable : sched_reachable demo_mid.
Proof.
  apply (run_labels_reachable demo_labels sched_init demo_mid); [|apply sr_init|vm_compute; reflexivity].
  intros l Hl. apply demo_labels_steps. apply elem_of_app. by left.
Qed.

Lemma demo_end_reachable : sched_reachable demo_end.
Proof.
  apply (run_labels_reachable (demo_labels ++ demo_finish) sched_init demo_end);
    [|apply sr_init|vm_compute; reflexivity].
  apply demo_labels_steps.
Qed.

Lemma demo_mid_facts :
  sc_calls demo_mid !! 1%nat = Some (ExecRun 0 1 []) /\
  sc_done demo_mid 0%nat = [7] /\ sc_pushed demo_mid 0%nat = [7; 8].
Proof. vm_compute. auto. Qed.

Lemma demo_end_facts :
  sc_calls demo_end = [Returned; Returned] /\ sc_global demo_end = [] /\ sc_pushed demo_end 0%nat = [7; 8].
Proof. vm_compute. auto. Qed.

Lemma execute_mutual_exclusion_witness :
  sc_calls demo_mid !! 1%nat = Some (ExecRun 0 1 []) /\ executes (Job:=Z) 0 (ExecRun 0 1 []) = true /\
  1%nat = 1%nat.
Proof.
  split; [exact (proj1 demo_mid_facts)|]. split; [reflexivity|].
  exact (execute_mutual_exclusion demo_mid 0 1 1 (ExecRun 0 1 []) (ExecRun 0 1 []) demo_mid_reachable
           (proj1 demo_mid_facts) (proj1 demo_mid_facts) eq_refl eq_refl).
Defined.

Lemma execute_fifo_witness : [7] `prefix_of` [7; 8].
Proof.
  destruct demo_mid_facts as (_ & Hd & Hp). rewrite <- Hd, <- Hp.
  exact (execute_fifo demo_mid 0 demo_mid_reachable).
Defined.

Lemma quiescent_all_done_witness : sc_done demo_end 0%nat = [7; 8].
Proof.
  destruct demo_end_facts as (Hc & Hg & Hp). rewrite <- Hp.
  apply (quiescent_all_done demo_end 0 demo_end_reachable).
  - rewrite Hc. repeat constructor.
  - exact Hg.
Defined.

Lemma outstanding_queue_scheduled_witness :
  (exists t c, sc_calls demo_mid !! t = Some c /\ token 0 c = 1 /\
     exists s', sched_step demo_mid s' /\ s' <> demo_mid) \/
  (0%nat ∈ sc_global demo_mid /\
   forall t, sc_calls demo_mid !! t = Some Returned -> exists s', step_worker t demo_mid = Some s').
Proof.
  apply (outstanding_queue_scheduled demo_mid 0 demo_mid_reachable).
  destruct demo_mid_facts as (_ & -> & ->). discriminate.
Defined.
