(* ===== verification/JobTimers.v ===== *)
(** * Delayed jobs

    [JobTimer] (ServerCore/Job/JobTimer.{h,cpp}): a [priority_queue] of
    [TimerItem]s whose [operator<] puts the earliest [_execute_tick] on top.
    The priority queue is a list; its top is the first item of least tick.
    Ticks are the [uint64] of [GetTickCount64]. *)

From stdpp Require Import base list numbers option sorting.
From Stdlib Require Import ZArith Lia Sorting.Permutation.
From S2P Require Import Prelude JobQueues.

Section JobTimer.
Context {Job : Type}.

(** [JobData] is owned by the item: a weak reference to the queue, and the job. *)
Record TimerItem := mkTimerItem {
  ti_execute_tick : Z;
  ti_owner : nat;
  ti_job : Job
}.

(** [TimerItem::operator<]. *)
Definition TimerItem_lt (a b : TimerItem) : bool := ti_execute_tick a >? ti_execute_tick b.

Record JobTimer := mkJobTimer {
  jt_items : list TimerItem;
  jt_distributing : bool
}.

(** [top] of a priority queue: an item that is [<] no other one. *)
Fixpoint pq_top (items : list TimerItem) : option TimerItem :=
  match items with
  | [] => None
  | x :: rest =>
      match pq_top rest with
      | None => Some x
      | Some y => if TimerItem_lt x y then Some y else Some x
      end
  end.

(** [pop] removes the item [top] returns. *)
Fixpoint pq_pop (items : list TimerItem) : list TimerItem :=
  match items with
  | [] => []
  | x :: rest =>
      match pq_top rest with
      | None => []
      | Some y => if TimerItem_lt x y then x :: pq_pop rest else rest
      end
  end.

(** [tick_count] is what [GetTickCount64] returns. *)
Definition JobTimer_reserve (tick_count tickAfter : Z) (owner : nat) (job : Job) (jt : JobTimer)
    : JobTimer :=
  mkJobTimer (jt_items jt ++ [mkTimerItem (u64 (tick_count + tickAfter)) owner job])
             (jt_distributing jt).

(** The [while] loop of [distribute]; the fuel is the number of items. *)
Fixpoint distribute_loop (fuel : nat) (now : Z) (items due : list TimerItem)
    : list TimerItem * list TimerItem :=
  match fuel with
  | O => (due, items)
  | S fuel' =>
      match pq_top items with
      | None => (due, items)
      | Some timerItem =>
          if now <? ti_execute_tick timerItem then (due, items)
          else distribute_loop fuel' now (pq_pop items) (due ++ [timerItem])
      end
  end.

(** [distribute]: the pushes it makes, in order, and the timer after it.
    [alive] is whether the weak reference to the owner can still be locked. *)
Definition JobTimer_distribute (now : Z) (alive : nat -> bool) (jt : JobTimer)
    : list (nat * Job) * JobTimer :=
  if jt_distributing jt then ([], jt)
  else
    let '(due, rest) := distribute_loop (length (jt_items jt)) now (jt_items jt) [] in
    ((fun i => (ti_owner i, ti_job i)) <$> filter (fun i => alive (ti_owner i) = true) due,
     mkJobTimer rest false).

Definition JobTimer_clear (jt : JobTimer) : JobTimer := mkJobTimer [] (jt_distributing jt).

(** ** Lemmas *)

Lemma pq_top_none items : pq_top items = None -> items = [].
Proof.
  destruct items as [|x rest]; [done|]. simpl. destruct (pq_top rest); [|done].
  by destruct (TimerItem_lt x t).
Qed.

Lemma pq_top_least items x :
  pq_top items = Some x -> Forall (fun y => ti_execute_tick x <= ti_execute_tick y) items.
Proof.
  revert x. induction items as [|z rest IH]; intros x; simpl; [done|].
  destruct (pq_top rest) as [y|] eqn:E.
  - unfold TimerItem_lt. destruct (_ >? _) eqn:Elt; rewrite Z.gtb_ltb in Elt; intros [= <-]; bool_lia.
    + constructor; [lia|]. by apply IH.
    + constructor; [lia|]. eapply Forall_impl; [by apply IH|]. simpl. intros; lia.
  - intros [= <-]. apply pq_top_none in E as ->. repeat constructor. lia.
Qed.

Lemma pq_pop_perm items x : pq_top items = Some x -> items ≡ₚ x :: pq_pop items.
Proof.
  revert x. induction items as [|z rest IH]; intros x; simpl; [done|].
  destruct (pq_top rest) as [y|] eqn:E.
  - destruct (TimerItem_lt z y); intros [= <-]; [|done].
    rewrite (IH y) at 1 by done. apply Permutation_swap.
  - intros [= <-]. by apply pq_top_none in E as ->.
Qed.

Abbreviation tick_le := (fun a b : TimerItem => ti_execute_tick a <= ti_execute_tick b).

(** The items whose time has come leave in order of their ticks; the others stay. *)
Lemma distribute_loop_spec fuel now items due due' rest :
  (length items <= fuel)%nat ->
  distribute_loop fuel now items due = (due', rest) ->
  exists new, due' = due ++ new /\ items ≡ₚ new ++ rest /\
    Forall (fun i => ti_execute_tick i <= now) new /\
    Forall (fun i => now < ti_execute_tick i) rest /\
    StronglySorted tick_le new.
Proof.
  revert items due. induction fuel as [|fuel IH]; intros items due Hlen; simpl.
  - intros [= <- <-]. destruct items; simpl in Hlen; [|lia]. exists [].
    rewrite app_nil_r. repeat constructor.
  - destruct (pq_top items) as [x|] eqn:Et.
    2: { intros [= <- <-]. apply pq_top_none in Et as ->. exists []. rewrite app_nil_r. repeat constructor. }
    pose proof (pq_top_least _ _ Et) as Hl. pose proof (pq_pop_perm _ _ Et) as Hp.
    destruct (now <? ti_execute_tick x) eqn:En; bool_lia.
    + intros [= <- <-]. exists []. rewrite app_nil_r. split; [done|]. split; [done|].
      split; [constructor|]. split; [|constructor].
      eapply Forall_impl; [exact Hl|]. simpl. intros; lia.
    + intros Hd. apply IH in Hd as (new & -> & Hp2 & Hnew & Hrest & Hsort).
      2: { apply Permutation_length in Hp. simpl in Hp. lia. }
      exists (x :: new). rewrite <- app_assoc. split; [done|].
      split; [by rewrite Hp, Hp2|]. split; [by constructor|]. split; [done|].
      constructor; [done|]. rewrite Hp in Hl. apply Forall_cons_1 in Hl as [_ Hl].
      rewrite Hp2 in Hl. by apply Forall_app in Hl as [Hl _].
Qed.

(** ** Properties *)

(** C34: a timer pass takes out exactly the reserved jobs whose tick has passed: each
    item is either still reserved with a later tick or was due; the due ones are
    pushed to their queues in order of their ticks, those whose queue is gone are
    dropped, and the loop never stops early. *)
Theorem distribute_exact now alive jt pushes jt' :
  jt_distributing jt = false ->
  JobTimer_distribute now alive jt = (pushes, jt') ->
  exists due,
    jt_items jt ≡ₚ due ++ jt_items jt' /\
    Forall (fun i => ti_execute_tick i <= now) due /\
    Forall (fun i => now < ti_execute_tick i) (jt_items jt') /\
    StronglySorted tick_le due /\
    pushes = (fun i => (ti_owner i, ti_job i)) <$> filter (fun i => alive (ti_owner i) = true) due /\
    jt_distributing jt' = false.
Proof.
  intros Hd. unfold JobTimer_distribute. rewrite Hd.
  destruct (distribute_loop _ _ _ _) as [due rest] eqn:E. intros [= <- <-].
  apply distribute_loop_spec in E as (new & -> & Hp & Hn & Hr & Hs); [|done].
  exists new. simpl. done.
Qed.

(** A reservation made at tick [t] for [d] milliseconds is not run before [t + d]:
    a pass at an earlier time keeps it, as long as the tick does not wrap. *)
Theorem reserve_not_early tick_count tickAfter owner job jt now alive pushes jt' :
  0 <= tick_count -> 0 <= tickAfter -> tick_count + tickAfter < 2 ^ 64 ->
  now < tick_count + tickAfter -> jt_distributing jt = false ->
  JobTimer_distribute now alive (JobTimer_reserve tick_count tickAfter owner job jt) = (pushes, jt') ->
  mkTimerItem (tick_count + tickAfter) owner job ∈ jt_items jt'.
Proof.
  intros H1 H2 H3 Hnow Hd. unfold JobTimer_distribute. simpl. rewrite Hd.
  destruct (distribute_loop _ _ _ _) as [due rest] eqn:E. intros [= <- <-].
  apply distribute_loop_spec in E as (new & -> & Hp & Hn & Hr & _); [|done]. simpl.
  rewrite u64_small in Hp by lia.
  assert (mkTimerItem (tick_count + tickAfter) owner job ∈ new ++ rest) as Hin.
  { rewrite <- Hp. apply elem_of_app. right. by constructor. }
  apply elem_of_app in Hin as [Hin|Hin]; [|done].
  rewrite Forall_forall in Hn. apply Hn in Hin. simpl in Hin. lia.
Qed.
End JobTimer.
Arguments TimerItem : clear implicits.
Arguments JobTimer : clear implicits.

Definition demo_timer : JobTimer Z :=
  mkJobTimer [mkTimerItem 30 0%nat 7; mkTimerItem 10 1%nat 8; mkTimerItem 20 2%nat 9] false.

Lemma distribute_witness :
  exists due, jt_items demo_timer ≡ₚ due ++ [mkTimerItem 30 0%nat 7] /\
    Forall (fun i => ti_execute_tick i <= 25) due.
Proof.
  destruct (distribute_exact 25 (fun q => negb (q =? 2)%nat) demo_timer [(1%nat, 8)]
              (mkJobTimer [mkTimerItem 30 0%nat 7] false) eq_refl eq_refl) as (due & Hp & Hd & _).
  exists due. split; [exact Hp | exact Hd].
Defined.

Lemma reserve_not_early_witness :
  mkTimerItem 150 3%nat 5 ∈ [mkTimerItem 150 3%nat 5].
Proof.
  apply (reserve_not_early 50 100 3 5 (mkJobTimer [] false) 149 (fun _ => true) []
           (mkJobTimer [mkTimerItem 150 3%nat 5] false)); try reflexivity; vm_compute; congruence.
Defined.
