(* ===== verification/Wire.v ===== *)
(** * Protocol buffer wire primitives

    The inline functions of google/protobuf (parse_context.h, coded_stream.h,
    wire_format_lite.h) that the generated message classes call.

    An input pointer of a flat array is the list of bytes up to the limit, and
    [ctx->Done] is that list being empty: the chunk handling of
    [EpsCopyInputStream] is not visible to the generated code, and a read past
    the limit makes the parse fail.  An output pointer [target] of an
    [EpsCopyOutputStream] over a flat array is the bytes written so far, so
    that [end_ - ptr] is the array size minus their number.

    The functions those headers declare and define elsewhere (the slow paths,
    unknown fields, the entry points of [MessageLite]) are the parameters
    collected in [PbRuntime]; [PbRuntimeLaws] states their documented
    behaviour.  An unknown field set is represented by its encoding. *)

From stdpp Require Import base list numbers option.
From Stdlib Require Import ZArith Lia.
From S2P Require Import Prelude.

(** ** Results of a parsing function

    [Failed] is the null pointer; [NoFuel] marks a loop cut off by its fuel,
    which the theorems exclude. *)
Inductive parse_result (A : Type) :=
| Parsed (a : A)
| Failed
| NoFuel.
Arguments Parsed {A} a.
Arguments Failed {A}.
Arguments NoFuel {A}.

Definition of_option {A} (o : option A) : parse_result A :=
  match o with Some a => Parsed a | None => Failed end.

Notation "' p <-- r ;; k" :=
  (match r with Parsed p => k | Failed => Failed | NoFuel => NoFuel end)
  (at level 100, p pattern, r at level 99, k at level 200, right associativity) : server_scope.

(** ** Functions of the library that are not in its headers *)

(** The UTF-8 validity check of string fields. *)
Class Utf8Check := VerifyUTF8 : bytes -> bool.

Class PbRuntime := {
  VarintParseSlow32 : bytes -> Z -> option (Z * bytes);
  VarintParseSlow64 : bytes -> Z -> option (Z * bytes);
  ReadTagFallback : bytes -> Z -> option (Z * bytes);
  InlineGreedyStringParser : bytes -> option (bytes * bytes);
  UnknownFieldParse : Z -> bytes -> bytes -> option (bytes * bytes);
  ParseContext_ParseMessage :
    forall M, (Z -> bytes -> parse_result (M * bytes * Z)) -> Z -> bytes -> parse_result (M * bytes);
  ZeroFieldsBase_InternalParse : bytes -> bytes -> option (bytes * bytes * Z);
  ZeroFieldsBase_InternalSerialize : Z -> bytes -> bytes -> bytes;
  ZeroFieldsBase_ByteSizeLong : bytes -> Z;
  ZeroFieldsBase_MergeImpl : bytes -> bytes -> bytes;
  ZeroFieldsBase_CopyImpl : bytes -> bytes -> bytes;
  ZeroFieldsBase_InternalSwap : bytes -> bytes -> bytes * bytes;
  GenericSwap : forall M, M -> M -> M * M;
  EnsureSpaceFallback : Z -> bytes -> bytes;
  WriteStringMaybeAliasedOutline : Z -> Z -> bytes -> bytes -> bytes;
  InternalWriteMessage : Z -> Z -> (Z -> bytes -> bytes) -> Z -> bytes -> bytes;
  InternalSerializeUnknownFieldsToArray : Z -> bytes -> bytes -> bytes;
  MaybeComputeUnknownFieldsSize : bytes -> Z -> Z;
  MessageLite_SerializeToArray : Z -> (Z -> bytes -> bytes) -> Z -> option bytes;
  MessageLite_ParseFromArray :
    forall M, (bytes -> parse_result (M * bytes * Z)) -> bytes -> option M;
  default_recursion_limit : Z
}.

Section Wire.
Context {utf8 : Utf8Check} {rt : PbRuntime}.

(** ** Reading (parse_context.h) *)

(** The value of the first two bytes as [VarintParse] accumulates it. *)
Definition varint_two_bytes (b0 b1 : Z) : Z := u32 (b0 + u32 (Z.shiftl (u32 (b1 - 1)) 7)).

Definition VarintParse (slow : bytes -> Z -> option (Z * bytes)) (p : bytes)
    : parse_result (Z * bytes) :=
  match p with
  | [] => Failed
  | b0 :: p1 =>
      if Z.land b0 128 =? 0 then Parsed (b0, p1)
      else
        match p1 with
        | [] => Failed
        | b1 :: p2 =>
            let res := varint_two_bytes b0 b1 in
            if Z.land b1 128 =? 0 then Parsed (res, p2)
            else of_option (slow p res)
        end
  end.

Definition ReadVarint64 (p : bytes) : parse_result (Z * bytes) := VarintParse VarintParseSlow64 p.
Definition ReadVarint32 (p : bytes) : parse_result (Z * bytes) := VarintParse VarintParseSlow32 p.

Definition ReadTag (p : bytes) : parse_result (Z * bytes) :=
  match p with
  | [] => Failed
  | b0 :: p1 =>
      if b0 <? 128 then Parsed (b0, p1)
      else
        match p1 with
        | [] => Failed
        | b1 :: p2 =>
            let res := varint_two_bytes b0 b1 in
            if b1 <? 128 then Parsed (res, p2) else of_option (ReadTagFallback p res)
        end
  end.

(** [ExpectTag<tag>] for a one-byte tag. *)
Definition ExpectTag (tag : Z) (p : bytes) : bool :=
  match p with b :: _ => b =? tag | [] => false end.

Definition DataAvailable (p : bytes) : bool := negb (bool_decide (p = [])).

(** [last_tag_minus_1_ = tag - 1]. *)
Definition SetLastTag (tag : Z) : Z := u32 (tag - 1).

(** ** The parse loop of every [_InternalParse]

    What one [case] of its [switch] does: a field is read, or control goes to
    [handle_unusual]. *)
Inductive field_result (M : Type) :=
| FieldOk (m : M) (p : bytes)
| FieldFailed
| FieldNoFuel
| HandleUnusual.
Arguments FieldOk {M} m p.
Arguments FieldFailed {M}.
Arguments FieldNoFuel {M}.
Arguments HandleUnusual {M}.


(** Reads a value and stores it. *)
Definition field_read {M A} (r : parse_result (A * bytes)) (store : A -> M) : field_result M :=
  match r with
  | Parsed (a, p) => FieldOk (store a) p
  | Failed => FieldFailed
  | NoFuel => FieldNoFuel
  end.

(** [InlineGreedyStringParser] followed by the UTF-8 check. *)
Definition field_string {M} (p : bytes) (store : bytes -> M) : field_result M :=
  match InlineGreedyStringParser p with
  | Some (s, p1) => if VerifyUTF8 s then FieldOk (store s) p1 else FieldFailed
  | None => FieldFailed
  end.

Section ParseLoop.
Context {M : Type} (field : Z -> bytes -> M -> field_result M)
        (unknown : M -> bytes) (set_unknown : bytes -> M -> M).

Fixpoint parse_loop (fuel : nat) (ptr : bytes) (m : M) : parse_result (M * bytes * Z) :=
  match fuel with
  | O => NoFuel
  | S fuel' =>
      match ptr with
      | [] => Parsed (m, [], 0)
      | _ =>
          ' (tag, p1) <-- ReadTag ptr ;;
          match field tag p1 m with
          | FieldOk m' p2 => parse_loop fuel' p2 m'
          | FieldFailed => Failed
          | FieldNoFuel => NoFuel
          | HandleUnusual =>
              if (tag =? 0) || (Z.land tag 7 =? 4) then Parsed (m, p1, SetLastTag tag)
              else
                match UnknownFieldParse tag (unknown m) p1 with
                | Some (u, p2) => parse_loop fuel' p2 (set_unknown u m)
                | None => Failed
                end
          end
      end
  end.

Definition InternalParse (ptr : bytes) (m : M) : parse_result (M * bytes * Z) :=
  parse_loop (S (length ptr)) ptr m.
End ParseLoop.

(** ** Writing (coded_stream.h, wire_format_lite.h) *)

(** The [do ... while] loop; ten bytes hold a [uint64]. *)
Fixpoint varint_loop (fuel : nat) (value : Z) : bytes :=
  match fuel with
  | O => []
  | S fuel' =>
      let value' := Z.shiftr value 7 in
      Z.lor (u8 value) 128 ::
        (if value' >=? 128 then varint_loop fuel' value' else [u8 value'])
  end.

Definition UnsafeVarint (value : Z) (target : bytes) : bytes :=
  if value <? 128 then target ++ [u8 value]
  else
    let b0 := Z.lor (u8 value) 128 in
    let value' := Z.shiftr value 7 in
    if value' <? 128 then target ++ [b0; u8 value']
    else target ++ b0 :: varint_loop 10 value'.

Definition WIRETYPE_VARINT : Z := 0.
Definition WIRETYPE_LENGTH_DELIMITED : Z := 2.

Definition MakeTag (field_number type : Z) : Z := Z.lor (Z.shiftl field_number 3) type.

Definition WriteTagToArray (field_number type : Z) (target : bytes) : bytes :=
  UnsafeVarint (MakeTag field_number type) target.

Definition WriteVarint32SignExtendedToArray (value : Z) (target : bytes) : bytes :=
  UnsafeVarint (u64 value) target.

Definition WriteBoolToArray (n : Z) (value : bool) (target : bytes) : bytes :=
  UnsafeVarint (if value then 1 else 0) (WriteTagToArray n WIRETYPE_VARINT target).
Definition WriteUInt32ToArray (n value : Z) (target : bytes) : bytes :=
  UnsafeVarint value (WriteTagToArray n WIRETYPE_VARINT target).
Definition WriteUInt64ToArray (n value : Z) (target : bytes) : bytes :=
  UnsafeVarint value (WriteTagToArray n WIRETYPE_VARINT target).
Definition WriteInt32ToArray (n value : Z) (target : bytes) : bytes :=
  WriteVarint32SignExtendedToArray value (WriteTagToArray n WIRETYPE_VARINT target).
Definition WriteEnumToArray (n value : Z) (target : bytes) : bytes :=
  WriteVarint32SignExtendedToArray value (WriteTagToArray n WIRETYPE_VARINT target).

Definition VarintSize (value : Z) : Z := (Z.log2 (Z.lor value 1) * 9 + 73) / 64.
Definition VarintSizePlusOne (value : Z) : Z := (Z.log2 (Z.lor value 1) * 9 + 73 + 64) / 64.

Definition UInt32SizePlusOne (value : Z) : Z := VarintSizePlusOne value.
Definition UInt64SizePlusOne (value : Z) : Z := VarintSizePlusOne value.
Definition Int32SizePlusOne (value : Z) : Z := VarintSizePlusOne (u64 value).
Definition EnumSize (value : Z) : Z := VarintSize (u64 value).
Definition LengthDelimitedSize (length : Z) : Z := u64 (length + VarintSize (u32 length)).
Definition StringSize (value : bytes) : Z := LengthDelimitedSize (zlen value).

Definition TagSize (tag : Z) : Z :=
  if tag <? Z.shiftl 1 7 then 1
  else if tag <? Z.shiftl 1 14 then 2
  else if tag <? Z.shiftl 1 21 then 3
  else if tag <? Z.shiftl 1 28 then 4
  else 5.

(** [EnsureSpace]: [size] is the size of the output array. *)
Definition EnsureSpace (size : Z) (target : bytes) : bytes :=
  if zlen target >=? size then EnsureSpaceFallback size target else target.

Definition WriteStringMaybeAliased (size num : Z) (s target : bytes) : bytes :=
  if (zlen s >=? 128) || (size - zlen target + 16 - TagSize (Z.shiftl num 3) - 1 <? zlen s)
  then WriteStringMaybeAliasedOutline size num s target
  else UnsafeVarint (Z.lor (Z.shiftl num 3) 2) target ++ u8 (zlen s) :: s.

End Wire.
Arguments FieldOk {M} m p.
Arguments FieldFailed {M}.
Arguments FieldNoFuel {M}.
Arguments HandleUnusual {M}.

(** ** Specification: base-128 varints and field encodings *)

Fixpoint varint_fuel (n : nat) (v : Z) : bytes :=
  match n with
  | O => []
  | S n' => if v <? 128 then [v] else (128 + v mod 128) :: varint_fuel n' (v / 128)
  end.

Definition varint (v : Z) : bytes := varint_fuel 10 v.

Definition enc_varint (n v : Z) : bytes := if v =? 0 then [] else n * 8 :: varint v.
Definition enc_signed (n v : Z) : bytes := if v =? 0 then [] else n * 8 :: varint (u64 v).
Definition enc_bool (n : Z) (b : bool) : bytes := if b then [n * 8; 1] else [].
Definition enc_string (n : Z) (s : bytes) : bytes :=
  if bool_decide (s = []) then [] else n * 8 + 2 :: varint (zlen s) ++ s.
Definition enc_message (n : Z) (body : bytes) : bytes := n * 8 + 2 :: varint (zlen body) ++ body.

(** ** Documented behaviour of the runtime *)

Class PbRuntimeLaws (rt : PbRuntime) : Prop := {
  (** A varint of three to ten bytes is decoded; the 32-bit variant truncates. *)
  slow64_ok b0 b1 p v rest :
    b0 :: b1 :: p = varint v ++ rest -> 2 ^ 14 <= v < 2 ^ 64 ->
    VarintParseSlow64 (b0 :: b1 :: p) (varint_two_bytes b0 b1) = Some (v, rest);
  slow32_ok b0 b1 p v rest :
    b0 :: b1 :: p = varint v ++ rest -> 2 ^ 14 <= v < 2 ^ 64 ->
    VarintParseSlow32 (b0 :: b1 :: p) (varint_two_bytes b0 b1) = Some (u32 v, rest);
  (** A length and that many bytes. *)
  string_ok s rest :
    zlen s < 2 ^ 31 -> InlineGreedyStringParser (varint (zlen s) ++ s ++ rest) = Some (s, rest);
  (** Every reader consumes input. *)
  slow64_consumes p r v q : VarintParseSlow64 p r = Some (v, q) -> (length q < length p)%nat;
  slow32_consumes p r v q : VarintParseSlow32 p r = Some (v, q) -> (length q < length p)%nat;
  tag_consumes p r v q : ReadTagFallback p r = Some (v, q) -> (length q < length p)%nat;
  string_consumes p s q : InlineGreedyStringParser p = Some (s, q) -> (length q < length p)%nat;
  unknown_consumes t u p u' q : UnknownFieldParse t u p = Some (u', q) -> (length q <= length p)%nat;
  (** An embedded message is its length and its encoding, parsed one level deeper
      and up to its end; the call returns when the parse function does. *)
  message_ok M parse depth body m rest :
    1 <= depth -> zlen body < 2 ^ 31 -> parse (depth - 1) body = Parsed (m, [], 0) ->
    ParseContext_ParseMessage M parse depth (varint (zlen body) ++ body ++ rest) = Parsed (m, rest);
  message_consumes M parse depth p m q :
    ParseContext_ParseMessage M parse depth p = Parsed (m, q) -> (length q < length p)%nat;
  message_returns M parse depth p :
    (forall d q, parse d q <> NoFuel) -> ParseContext_ParseMessage M parse depth p <> NoFuel;
  (** A message without fields, as a function of its unknown fields: it parses
      the empty input; with no unknown fields it writes nothing and merges to
      nothing; a copy has the unknown fields of its source. *)
  zero_fields_empty u : ZeroFieldsBase_InternalParse [] u = Some (u, [], 0);
  zero_fields_serialize size target : ZeroFieldsBase_InternalSerialize size [] target = target;
  zero_fields_size : ZeroFieldsBase_ByteSizeLong [] = 0;
  zero_fields_merge u : ZeroFieldsBase_MergeImpl u [] = u;
  zero_fields_copy u v : ZeroFieldsBase_CopyImpl u v = v;
  zero_fields_swap u v : ZeroFieldsBase_InternalSwap u v = (v, u);
  (** Objects of different arenas are swapped through a copy. *)
  generic_swap_ok M x y : GenericSwap M x y = (y, x);
  (** Long strings and embedded messages are written behind tag and length. *)
  outline_ok size n s target :
    0 < n < 16 -> zlen target + zlen (n * 8 + 2 :: varint (zlen s) ++ s) <= size ->
    WriteStringMaybeAliasedOutline size n s target = target ++ n * 8 + 2 :: varint (zlen s) ++ s;
  write_message_ok size n ser cached target :
    0 < n < 16 -> 0 <= cached < 2 ^ 31 ->
    zlen target + zlen (n * 8 + 2 :: varint cached) + cached <= size ->
    InternalWriteMessage size n ser cached target = ser size (target ++ n * 8 + 2 :: varint cached);
  (** An empty unknown field set has size zero. *)
  unknown_size_empty n : MaybeComputeUnknownFieldsSize [] n = n;
  (** [SerializeToArray] fails when the array is too small, and otherwise writes
      exactly [ByteSizeLong] bytes; [ParseFromArray] succeeds when the whole
      array was parsed. *)
  serialize_small size ser n : n < size -> MessageLite_SerializeToArray size ser n = None;
  serialize_ok size ser n :
    0 <= size <= n -> size < 2 ^ 31 -> MessageLite_SerializeToArray size ser n = Some (ser size []);
  parse_array_ok M parse bs m rest :
    parse bs = Parsed (m, rest, 0) -> MessageLite_ParseFromArray M parse bs = Some m;
  parse_array_failed M parse bs : parse bs = Failed -> MessageLite_ParseFromArray M parse bs = None;
  parse_array_open M parse bs m rest last :
    parse bs = Parsed (m, rest, last) -> last <> 0 -> MessageLite_ParseFromArray M parse bs = None;
  recursion_limit_pos : 1 <= default_recursion_limit
}.

(** ** Lemmas on varints *)

Lemma varint_fuel_small n v : 0 <= v < 128 -> varint_fuel (S n) v = [v].
Proof. intros H. simpl. by rewrite Z_ltb_true by lia. Qed.

Lemma varint_small v : 0 <= v < 128 -> varint v = [v].
Proof. apply varint_fuel_small. Qed.

Lemma varint_fuel_bytes n v : 0 <= v -> Forall is_byte (varint_fuel n v).
Proof.
  revert v. induction n as [|n IH]; intros v Hv; simpl; [constructor|].
  destruct (v <? 128) eqn:E; bool_lia.
  - constructor; [unfold is_byte; lia|constructor].
  - constructor; [|apply IH, Z.div_pos; lia].
    unfold is_byte. pose proof (Z.mod_pos_bound v 128). lia.
Qed.

Lemma varint_bytes v : 0 <= v -> Forall is_byte (varint v).
Proof. apply varint_fuel_bytes. Qed.

(** Fuel beyond the number of 7-bit groups changes nothing. *)
Lemma varint_fuel_enough n k v :
  0 <= v < 2 ^ (7 * Z.of_nat n) -> (0 < n)%nat -> (n <= k)%nat -> varint_fuel k v = varint_fuel n v.
Proof.
  revert k v. induction n as [|n IH]; intros k v Hv Hn Hk; [lia|].
  destruct k as [|k]; [lia|]. simpl. destruct (v <? 128) eqn:E; [done|]. bool_lia. f_equal.
  destruct (decide (n = 0%nat)) as [->|Hn0]; [change (2 ^ (7 * Z.of_nat 1)) with 128 in Hv; lia|].
  apply IH; [|lia..].
  split; [apply Z.div_pos; lia|]. apply Z.div_lt_upper_bound; [lia|].
  change 128 with (2 ^ 7). rewrite <- Z.pow_add_r by lia.
  replace (7 + 7 * Z.of_nat n) with (7 * Z.of_nat (S n)) by lia. lia.
Qed.

Lemma varint_unfold v : 128 <= v < 2 ^ 64 -> varint v = (128 + v mod 128) :: varint (v / 128).
Proof.
  intros Hv. unfold varint.
  change (varint_fuel 10 v) with
    (if v <? 128 then [v] else (128 + v mod 128) :: varint_fuel 9 (v / 128)).
  rewrite Z_ltb_false by lia. f_equal. symmetry. apply varint_fuel_enough; [|lia..].
  split; [apply Z.div_pos; lia|]. apply Z.div_lt_upper_bound; [lia|].
  change (128 * 2 ^ (7 * Z.of_nat 9)) with (2 ^ 70). lia.
Qed.

Lemma shiftr7 v : Z.shiftr v 7 = v / 128.
Proof. rewrite Z.shiftr_div_pow2 by lia. done. Qed.

(** Setting the continuation bit. *)
Lemma lor_u8_128 v : 0 <= v -> Z.lor (u8 v) 128 = 128 + v mod 128.
Proof.
  intros Hv. unfold u8. change (2 ^ 8) with 256.
  pose proof (Z.mod_pos_bound v 256 ltac:(lia)).
  assert (v mod 128 = (v mod 256) mod 128) as ->.
  { change 256 with (128 * 2). rewrite Z.rem_mul_r by lia.
    rewrite (Z.mul_comm 128), Z_mod_plus_full, Z.mod_mod; lia. }
  generalize dependent (v mod 256). clear. intros b Hb.
  apply Z.eqb_eq. apply (forall_below (fun b => Z.lor b 128 =? 128 + b mod 128) 256);
    [vm_compute; reflexivity|lia].
Qed.

Lemma varint_loop_spec n v :
  128 <= v -> v < 2 ^ (7 * (Z.of_nat n + 1)) -> varint_loop n v = varint_fuel (S n) v.
Proof.
  revert v. induction n as [|n IH]; intros v Hv Hlt; [simpl in Hlt; lia|].
  cbn [varint_loop]. rewrite lor_u8_128, shiftr7 by lia. rewrite Z.geb_leb.
  assert (0 <= v / 128) by (apply Z.div_pos; lia).
  change (varint_fuel (S (S n)) v) with
    (if v <? 128 then [v] else (128 + v mod 128) :: varint_fuel (S n) (v / 128)).
  rewrite (Z_ltb_false v) by lia. f_equal.
  destruct (128 <=? v / 128) eqn:E; bool_lia.
  - apply IH; [lia|]. apply Z.div_lt_upper_bound; [lia|].
    change 128 with (2 ^ 7). rewrite <- Z.pow_add_r by lia.
    replace (7 + 7 * (Z.of_nat n + 1)) with (7 * (Z.of_nat (S n) + 1)) by lia. done.
  - rewrite varint_fuel_small by lia. f_equal. apply u8_small. lia.
Qed.

Lemma UnsafeVarint_spec v target : 0 <= v < 2 ^ 64 -> UnsafeVarint v target = target ++ varint v.
Proof.
  intros Hv. unfold UnsafeVarint. destruct (v <? 128) eqn:E; bool_lia.
  { rewrite varint_small by lia. by rewrite u8_small by lia. }
  rewrite lor_u8_128, shiftr7 by lia. rewrite varint_unfold by lia.
  assert (0 <= v / 128) by (apply Z.div_pos; lia).
  assert (v / 128 < 2 ^ 57) by (apply Z.div_lt_upper_bound; lia).
  destruct (v / 128 <? 128) eqn:E2; bool_lia.
  { rewrite varint_small, u8_small by lia. done. }
  do 2 f_equal. rewrite varint_loop_spec by (change (7 * (Z.of_nat 10 + 1)) with 77; lia).
  unfold varint. apply varint_fuel_enough; [|lia..]. change (7 * Z.of_nat 10) with 70. lia.
Qed.

(** The number of bytes is the number of 7-bit groups. *)
Lemma varint_fuel_len n v :
  0 <= v < 2 ^ (7 * Z.of_nat n) -> (0 < n)%nat -> zlen (varint_fuel n v) = Z.log2 v / 7 + 1.
Proof.
  revert v. induction n as [|n IH]; intros v Hv Hn; [lia|].
  cbn [varint_fuel]. destruct (v <? 128) eqn:E; bool_lia.
  - rewrite zlen_cons, zlen_nil. rewrite Z.div_small; [lia|].
    split; [apply Z.log2_nonneg|]. destruct (decide (v = 0)) as [->|]; [done|].
    apply Z.log2_lt_pow2; lia.
  - destruct (decide (n = 0%nat)) as [->|Hn0]; [change (2 ^ (7 * Z.of_nat 1)) with 128 in Hv; lia|].
    rewrite zlen_cons, IH.
    + change 128 with (2 ^ 7). rewrite <- Z.shiftr_div_pow2 by lia. rewrite Z.log2_shiftr by lia.
      assert (7 <= Z.log2 v) by (apply Z.log2_le_pow2; lia).
      rewrite Z.max_r by lia. replace (Z.log2 v) with (Z.log2 v - 7 + 1 * 7) at 2 by lia.
      rewrite Z.div_add by lia. lia.
    + split; [apply Z.div_pos; lia|]. apply Z.div_lt_upper_bound; [lia|].
      change 128 with (2 ^ 7). rewrite <- Z.pow_add_r by lia.
      replace (7 + 7 * Z.of_nat n) with (7 * Z.of_nat (S n)) by lia. lia.
    + lia.
Qed.

Lemma varint_len v : 0 <= v < 2 ^ 64 -> zlen (varint v) = Z.log2 v / 7 + 1.
Proof. intros. apply varint_fuel_len; [change (7 * Z.of_nat 10) with 70; lia|lia]. Qed.

Lemma log2_lor_1 v : 0 <= v -> Z.log2 (Z.lor v 1) = Z.log2 v.
Proof.
  intros Hv. rewrite Z.log2_lor by lia. change (Z.log2 1) with 0.
  pose proof (Z.log2_nonneg v). lia.
Qed.

(** The multiplication trick of [VarintSize32]/[VarintSize64] is the division by 7. *)
Lemma VarintSize_spec v : 0 <= v < 2 ^ 64 -> VarintSize v = zlen (varint v).
Proof.
  intros Hv. rewrite varint_len by done. unfold VarintSize. rewrite log2_lor_1 by lia.
  pose proof (Z.log2_nonneg v).
  assert (Z.log2 v < 64).
  { destruct (decide (v = 0)) as [->|]; [done|]. apply Z.log2_lt_pow2; lia. }
  generalize dependent (Z.log2 v). clear. intros l Hl0 Hl.
  apply Z.eqb_eq. apply (forall_below (fun l => (l * 9 + 73) / 64 =? l / 7 + 1) 64);
    [vm_compute; reflexivity|lia].
Qed.

Lemma VarintSizePlusOne_spec v : 0 <= v < 2 ^ 64 -> VarintSizePlusOne v = zlen (varint v) + 1.
Proof.
  intros Hv. rewrite <- VarintSize_spec by done. unfold VarintSizePlusOne, VarintSize.
  replace (_ + 73 + 64) with (Z.log2 (Z.lor v 1) * 9 + 73 + 1 * 64) by lia.
  by rewrite Z.div_add by lia.
Qed.

Lemma varint_len_bound v : 0 <= v < 2 ^ 64 -> 1 <= zlen (varint v) <= 10.
Proof.
  intros Hv. rewrite varint_len by done. pose proof (Z.log2_nonneg v).
  assert (Z.log2 v < 64).
  { destruct (decide (v = 0)) as [->|]; [done|]. apply Z.log2_lt_pow2; lia. }
  assert (0 <= Z.log2 v / 7 < 10); [|lia].
  split; [apply Z.div_pos; lia|apply Z.div_lt_upper_bound; lia].
Qed.

Lemma varint_len32 v : 0 <= v < 2 ^ 31 -> 1 <= zlen (varint v) <= 5.
Proof.
  intros Hv. rewrite varint_len by lia. pose proof (Z.log2_nonneg v).
  assert (Z.log2 v < 31).
  { destruct (decide (v = 0)) as [->|]; [done|]. apply Z.log2_lt_pow2; lia. }
  assert (0 <= Z.log2 v / 7 < 5); [|lia].
  split; [apply Z.div_pos; lia|apply Z.div_lt_upper_bound; lia].
Qed.

Lemma land_128_small b : 0 <= b < 128 -> Z.land b 128 = 0.
Proof.
  intros Hb. change 128 with (2 ^ 7). apply Z.bits_inj'. intros n Hn.
  rewrite Z.land_spec, Z.bits_0, Z.pow2_bits_eqb by lia.
  destruct (Z.eqb_spec 7 n) as [<-|]; [|apply andb_false_r].
  rewrite Z.testbit_eqb by lia. rewrite Z.div_small by lia. done.
Qed.

Lemma land_128_big b : 128 <= b < 256 -> Z.land b 128 <> 0.
Proof.
  intros Hb H. apply (f_equal (fun z => Z.testbit z 7)) in H.
  rewrite Z.land_spec, Z.bits_0 in H. change 128 with (2 ^ 7) in H.
  rewrite Z.pow2_bits_true, andb_true_r, Z.testbit_eqb in H by lia.
  change (2 ^ 7) with 128 in H. assert (b / 128 = 1) as Hd by (symmetry; apply (Z.div_unique _ _ _ (b - 128)); lia).
  rewrite Hd in H. done.
Qed.

Lemma two_bytes_spec a b :
  128 <= a < 256 -> 0 <= b < 256 -> varint_two_bytes a b = (a - 128) + 128 * b.
Proof.
  intros Ha Hb. unfold varint_two_bytes. rewrite Z.shiftl_mul_pow2 by lia.
  change (2 ^ 7) with 128. destruct (decide (b = 0)) as [->|].
  - change (u32 (u32 (0 - 1) * 128)) with (2 ^ 32 - 128). unfold u32.
    replace (a + (2 ^ 32 - 128)) with (a - 128 + 1 * 2 ^ 32) by lia.
    rewrite Z_mod_plus_full, Z.mod_small; lia.
  - rewrite (u32_small (b - 1)) by lia. rewrite (u32_small ((b - 1) * 128)) by lia.
    rewrite u32_small; lia.
Qed.

(** ** Reading back what was written *)

Section Laws.
Context {rt : PbRuntime} {laws : PbRuntimeLaws rt}.

(** The first two bytes of an encoding of at least two bytes. *)
Lemma VarintParse_spec slow v w rest :
  0 <= v < 2 ^ 64 ->
  (v < 2 ^ 14 -> w = v) ->
  (forall b0 b1 p, b0 :: b1 :: p = varint v ++ rest -> 2 ^ 14 <= v ->
     slow (b0 :: b1 :: p) (varint_two_bytes b0 b1) = Some (w, rest)) ->
  VarintParse slow (varint v ++ rest) = Parsed (w, rest).
Proof.
  intros Hv Hsm Hslow. destruct (decide (v < 128)) as [Hlt|Hge].
  { rewrite varint_small by lia. cbn [app VarintParse].
    rewrite land_128_small by lia. simpl. by rewrite Hsm by lia. }
  pose proof (Z.mod_pos_bound v 128 ltac:(lia)) as Hm.
  pose proof (Z_div_mod_eq_full v 128) as Hdm.
  assert (0 <= v / 128 < 2 ^ 57) as Hq by (split; [apply Z.div_pos|apply Z.div_lt_upper_bound]; lia).
  rewrite varint_unfold by lia. destruct (decide (v / 128 < 128)) as [Hlt2|Hge2].
  - rewrite varint_small by lia. cbn [app VarintParse].
    rewrite (proj2 (Z.eqb_neq _ _)) by (apply land_128_big; lia).
    rewrite land_128_small by lia. simpl. rewrite two_bytes_spec by lia.
    do 2 f_equal. rewrite Hsm by lia. lia.
  - pose proof (Z.mod_pos_bound (v / 128) 128 ltac:(lia)) as Hm2.
    specialize (Hslow (128 + v mod 128) (128 + v / 128 mod 128) (varint (v / 128 / 128) ++ rest)).
    rewrite (varint_unfold (v / 128)) by lia. cbn [app VarintParse].
    rewrite (proj2 (Z.eqb_neq _ _)) by (apply land_128_big; lia).
    rewrite (proj2 (Z.eqb_neq _ _)) by (apply land_128_big; lia).
    rewrite Hslow; [done| |lia].
    rewrite (varint_unfold v) by lia. rewrite (varint_unfold (v / 128)) by lia. done.
Qed.

Lemma ReadVarint64_varint v rest : 0 <= v < 2 ^ 64 -> ReadVarint64 (varint v ++ rest) = Parsed (v, rest).
Proof using laws.
  intros Hv. apply VarintParse_spec; [done..|]. intros b0 b1 p Hp Hge.
  apply slow64_ok; [done|lia].
Qed.

Lemma ReadVarint32_varint v rest :
  0 <= v < 2 ^ 64 -> ReadVarint32 (varint v ++ rest) = Parsed (u32 v, rest).
Proof using laws.
  intros Hv. apply VarintParse_spec; [done|intros; apply u32_small; lia|]. intros b0 b1 p Hp Hge.
  apply slow32_ok; [done|lia].
Qed.

(** Field values as they come back from the 64-bit or truncated 32-bit varint. *)
Lemma i32_u32_u64 v : -2 ^ 31 <= v < 2 ^ 31 -> i32 (u32 (u64 v)) = v.
Proof.
  intros Hv. unfold u32, u64. rewrite <- (Znumtheory.Zmod_div_mod (2 ^ 32) (2 ^ 64)); [|lia..|].
  2: { exists (2 ^ 32). done. }
  unfold i32. rewrite Zplus_mod_idemp_l. rewrite Z.mod_small by lia. lia.
Qed.

Lemma i32_u64 v : -2 ^ 31 <= v < 2 ^ 31 -> i32 (u64 v) = v.
Proof.
  intros Hv. rewrite <- (i32_u32_u64 v) at 2 by done. unfold i32, u32.
  by rewrite Zplus_mod_idemp_l.
Qed.

Lemma u64_zero v : -2 ^ 31 <= v < 2 ^ 31 -> (u64 v = 0 <-> v = 0).
Proof.
  intros Hv. split; [|by intros ->]. intros H. rewrite <- (i32_u64 v Hv), H. done.
Qed.

(** *** Writing: each writer appends the encoding of its field *)

Lemma MakeTag_spec n ty : 0 < n < 16 -> 0 <= ty < 8 -> MakeTag n ty = n * 8 + ty.
Proof.
  intros Hn Ht. unfold MakeTag. rewrite Z.shiftl_mul_pow2 by lia. change (2 ^ 3) with 8.
  apply Z.eqb_eq.
  pose proof (forall_below (fun n => forallb (fun t => Z.lor (n * 8) (Z.of_nat t) =? n * 8 + Z.of_nat t)
                (seq 0 8)) 16 ltac:(vm_compute; reflexivity) n ltac:(lia)) as H.
  rewrite forallb_forall in H. specialize (H (Z.to_nat ty)). rewrite Z2Nat.id in H by lia.
  apply H, in_seq. lia.
Qed.

Lemma WriteTag_spec n ty target :
  0 < n < 16 -> 0 <= ty < 8 -> WriteTagToArray n ty target = target ++ [n * 8 + ty].
Proof.
  intros Hn Ht. unfold WriteTagToArray. rewrite MakeTag_spec by lia.
  rewrite UnsafeVarint_spec by lia. by rewrite varint_small by lia.
Qed.

Lemma EnsureSpace_room size target : zlen target < size -> EnsureSpace size target = target.
Proof. intros H. unfold EnsureSpace. rewrite Z.geb_leb. by rewrite (proj2 (Z.leb_gt _ _)) by lia. Qed.

Lemma enc_varint_len n v : 0 < v < 2 ^ 64 -> zlen (enc_varint n v) = zlen (varint v) + 1.
Proof. intros H. unfold enc_varint. rewrite (proj2 (Z.eqb_neq _ _)) by lia. by rewrite zlen_cons. Qed.

Lemma write_varint_step n v size target :
  0 < n < 16 -> 0 <= v < 2 ^ 64 -> zlen target + zlen (enc_varint n v) <= size ->
  (if negb (v =? 0) then UnsafeVarint v (WriteTagToArray n WIRETYPE_VARINT (EnsureSpace size target))
   else target) = target ++ enc_varint n v.
Proof.
  intros Hn Hv Hfit. unfold enc_varint in *. destruct (v =? 0) eqn:E; simpl.
  { by rewrite app_nil_r. }
  rewrite zlen_cons in Hfit. pose proof (zlen_nonneg (varint v)).
  rewrite EnsureSpace_room by lia. rewrite WriteTag_spec by (unfold WIRETYPE_VARINT; lia).
  rewrite UnsafeVarint_spec by done. rewrite Z.add_0_r, <- app_assoc. done.
Qed.

Lemma write_signed_step n v size target :
  0 < n < 16 -> -2 ^ 31 <= v < 2 ^ 31 -> zlen target + zlen (enc_signed n v) <= size ->
  (if negb (v =? 0) then WriteInt32ToArray n v (EnsureSpace size target) else target)
  = target ++ enc_signed n v.
Proof.
  intros Hn Hv Hfit. unfold enc_signed in *. destruct (v =? 0) eqn:E; simpl.
  { by rewrite app_nil_r. }
  rewrite zlen_cons in Hfit. pose proof (zlen_nonneg (varint (u64 v))).
  unfold WriteInt32ToArray, WriteVarint32SignExtendedToArray.
  rewrite EnsureSpace_room by lia. rewrite WriteTag_spec by (unfold WIRETYPE_VARINT; lia).
  rewrite UnsafeVarint_spec by apply u64_range. rewrite Z.add_0_r, <- app_assoc. done.
Qed.

Lemma write_bool_step n b size target :
  0 < n < 16 -> zlen target + zlen (enc_bool n b) <= size ->
  (if (b : bool) then WriteBoolToArray n b (EnsureSpace size target) else target) = target ++ enc_bool n b.
Proof.
  intros Hn Hfit. destruct b; simpl in *; [|by rewrite app_nil_r].
  rewrite !zlen_cons, zlen_nil in Hfit. rewrite EnsureSpace_room by lia. unfold WriteBoolToArray.
  rewrite WriteTag_spec by (unfold WIRETYPE_VARINT; lia). rewrite UnsafeVarint_spec by lia.
  rewrite Z.add_0_r, <- app_assoc. done.
Qed.

Lemma write_string_step n s size target :
  0 < n < 16 -> zlen s < 2 ^ 31 -> zlen target + zlen (enc_string n s) <= size ->
  (if negb (bool_decide (s = [])) then WriteStringMaybeAliased size n s target else target)
  = target ++ enc_string n s.
Proof using laws.
  intros Hn Hs Hfit. unfold enc_string in *. case_bool_decide as Es; simpl.
  { by rewrite app_nil_r. }
  unfold WriteStringMaybeAliased. rewrite Z.geb_leb.
  destruct (128 <=? zlen s) eqn:E1; simpl; [by apply outline_ok|].
  destruct (_ <? zlen s) eqn:E2; [by apply outline_ok|]. bool_lia.
  change (Z.lor (Z.shiftl n 3) 2) with (MakeTag n 2).
  rewrite MakeTag_spec, UnsafeVarint_spec by lia. pose proof (zlen_nonneg s).
  rewrite (varint_small (n * 8 + 2)), (varint_small (zlen s)), u8_small by lia.
  by rewrite <- app_assoc.
Qed.

Lemma write_enum_step n v size target :
  0 < n < 16 -> -2 ^ 31 <= v < 2 ^ 31 -> zlen target + zlen (enc_signed n v) <= size ->
  (if negb (v =? 0) then WriteEnumToArray n v (EnsureSpace size target) else target)
  = target ++ enc_signed n v.
Proof. apply write_signed_step. Qed.

(** *** Sizes *)

Lemma enc_varint_bound n v : 0 <= v < 2 ^ 64 -> 0 <= zlen (enc_varint n v) <= 11.
Proof.
  intros Hv. unfold enc_varint. destruct (v =? 0); [change (zlen []) with 0; lia|].
  rewrite zlen_cons. pose proof (varint_len_bound v Hv). lia.
Qed.

Lemma enc_signed_bound n v : 0 <= zlen (enc_signed n v) <= 11.
Proof.
  unfold enc_signed. destruct (v =? 0); [change (zlen []) with 0; lia|].
  rewrite zlen_cons. pose proof (varint_len_bound (u64 v) (u64_range v)). lia.
Qed.

Lemma enc_bool_bound n b : 0 <= zlen (enc_bool n b) <= 11.
Proof. destruct b; [change (zlen _) with 2 | change (zlen _) with 0]; lia. Qed.

Lemma enc_string_bound n s : zlen s < 2 ^ 31 -> 0 <= zlen (enc_string n s) <= 8 + zlen s.
Proof.
  intros Hs. unfold enc_string. pose proof (zlen_nonneg s). case_bool_decide; [change (zlen []) with 0; lia|].
  rewrite zlen_cons, zlen_app. pose proof (varint_len32 (zlen s) ltac:(lia)). lia.
Qed.

Lemma enc_varint_bytes n v : 0 < n < 16 -> 0 <= v -> Forall is_byte (enc_varint n v).
Proof.
  intros Hn Hv. unfold enc_varint. destruct (v =? 0); [constructor|].
  constructor; [unfold is_byte; lia|by apply varint_bytes].
Qed.

Lemma enc_signed_bytes n v : 0 < n < 16 -> Forall is_byte (enc_signed n v).
Proof.
  intros Hn. unfold enc_signed. destruct (v =? 0); [constructor|].
  constructor; [unfold is_byte; lia|apply varint_bytes, u64_range].
Qed.

Lemma enc_bool_bytes n b : 0 < n < 16 -> Forall is_byte (enc_bool n b).
Proof. intros Hn. destruct b; repeat apply Forall_cons_2; try apply Forall_nil_2; unfold is_byte; lia. Qed.

Lemma enc_string_bytes n s : 0 < n < 16 -> Forall is_byte s -> Forall is_byte (enc_string n s).
Proof.
  intros Hn Hs. unfold enc_string. case_bool_decide; [constructor|].
  constructor; [unfold is_byte; lia|]. apply Forall_app. split; [|done].
  apply varint_bytes, zlen_nonneg.
Qed.

Lemma enc_message_bytes n s : 0 < n < 16 -> Forall is_byte s -> Forall is_byte (enc_message n s).
Proof.
  intros Hn Hs. constructor; [unfold is_byte; lia|]. apply Forall_app. split; [|done].
  apply varint_bytes, zlen_nonneg.
Qed.

Lemma size_varint_step n v total :
  0 <= v < 2 ^ 64 -> 0 <= total -> total + zlen (enc_varint n v) < 2 ^ 64 ->
  (if negb (v =? 0) then u64 (total + VarintSizePlusOne v) else total) = total + zlen (enc_varint n v).
Proof.
  intros Hv Ht Hfit. unfold enc_varint in *. destruct (v =? 0) eqn:E; simpl.
  { rewrite zlen_nil. lia. }
  rewrite zlen_cons in *. rewrite VarintSizePlusOne_spec by done.
  pose proof (zlen_nonneg (varint v)). rewrite u64_small; lia.
Qed.

Lemma size_signed_step n v total :
  -2 ^ 31 <= v < 2 ^ 31 -> 0 <= total -> total + zlen (enc_signed n v) < 2 ^ 64 ->
  (if negb (v =? 0) then u64 (total + Int32SizePlusOne v) else total) = total + zlen (enc_signed n v).
Proof.
  intros Hv Ht Hfit. unfold enc_signed in *. destruct (v =? 0) eqn:E; simpl.
  { rewrite zlen_nil. lia. }
  rewrite zlen_cons in *. unfold Int32SizePlusOne. rewrite VarintSizePlusOne_spec by apply u64_range.
  pose proof (zlen_nonneg (varint (u64 v))). rewrite u64_small; lia.
Qed.

Lemma size_enum_step n v total :
  -2 ^ 31 <= v < 2 ^ 31 -> 0 <= total -> total + zlen (enc_signed n v) < 2 ^ 64 ->
  (if negb (v =? 0) then u64 (total + (1 + EnumSize v)) else total) = total + zlen (enc_signed n v).
Proof.
  intros Hv Ht Hfit. rewrite <- size_signed_step by done. destruct (v =? 0); [done|]. simpl.
  unfold EnumSize, Int32SizePlusOne. rewrite VarintSizePlusOne_spec, VarintSize_spec by apply u64_range.
  f_equal. lia.
Qed.

Lemma size_bool_step n b total :
  0 <= total -> total + zlen (enc_bool n b) < 2 ^ 64 ->
  (if (b : bool) then u64 (total + (1 + 1)) else total) = total + zlen (enc_bool n b).
Proof.
  intros Ht Hfit. destruct b; simpl in *; rewrite ?zlen_cons, ?zlen_nil in *; [|lia].
  rewrite u64_small; lia.
Qed.

Lemma LengthDelimitedSize_spec n :
  0 <= n < 2 ^ 31 -> LengthDelimitedSize n = n + zlen (varint n).
Proof.
  intros Hn. unfold LengthDelimitedSize. rewrite (u32_small n) by lia.
  rewrite VarintSize_spec by lia. pose proof (varint_len_bound n ltac:(lia)).
  apply u64_small. lia.
Qed.

Lemma size_string_step n s total :
  zlen s < 2 ^ 31 -> 0 <= total -> total + zlen (enc_string n s) < 2 ^ 64 ->
  (if negb (bool_decide (s = [])) then u64 (total + (1 + StringSize s)) else total)
  = total + zlen (enc_string n s).
Proof.
  intros Hs Ht Hfit. unfold enc_string in *. case_bool_decide; simpl.
  { rewrite zlen_nil. lia. }
  rewrite zlen_cons, zlen_app in *. unfold StringSize. pose proof (zlen_nonneg s).
  pose proof (zlen_nonneg (varint (zlen s))).
  rewrite LengthDelimitedSize_spec by lia. rewrite u64_small; lia.
Qed.
End Laws.

(** ** The parse loop on an encoded message *)

Section Parses.
Context {utf8 : Utf8Check} {rt : PbRuntime} {laws : PbRuntimeLaws rt} {M : Type}.
Context (field : Z -> bytes -> M -> field_result M) (unknown : M -> bytes) (set_unknown : bytes -> M -> M).

(** The loop gives [r] on [ptr] and [m] with any fuel above the input length. *)
Definition parses (ptr : bytes) (m : M) (r : parse_result (M * bytes * Z)) : Prop :=
  forall fuel, (length ptr < fuel)%nat -> parse_loop field unknown set_unknown fuel ptr m = r.

Lemma parses_done m : parses [] m (Parsed (m, [], 0)).
Proof. intros [|fuel] H; [simpl in H; lia|done]. Qed.

Lemma parses_field tag body rest m m' r :
  0 < tag < 128 -> field tag (body ++ rest) m = FieldOk m' rest ->
  parses rest m' r -> parses (tag :: body ++ rest) m r.
Proof.
  intros Ht Hf Hr [|fuel] Hfuel; [simpl in Hfuel; lia|]. cbn [parse_loop ReadTag].
  rewrite Z_ltb_true by lia. rewrite Hf. apply Hr. simpl in Hfuel. rewrite length_app in Hfuel. lia.
Qed.

Lemma parses_varint n v rest m m' r :
  0 < n < 16 ->
  (v <> 0 -> field (n * 8) (varint v ++ rest) m = FieldOk m' rest) -> (v = 0 -> m' = m) ->
  parses rest m' r -> parses (enc_varint n v ++ rest) m r.
Proof.
  intros Hn Hf H0 Hr. unfold enc_varint. destruct (v =? 0) eqn:E; bool_lia.
  - by rewrite <- H0.
  - cbn [app]. eapply parses_field; [lia|by apply Hf|done].
Qed.

Lemma parses_signed n v rest m m' r :
  0 < n < 16 ->
  (v <> 0 -> field (n * 8) (varint (u64 v) ++ rest) m = FieldOk m' rest) -> (v = 0 -> m' = m) ->
  parses rest m' r -> parses (enc_signed n v ++ rest) m r.
Proof.
  intros Hn Hf H0 Hr. unfold enc_signed. destruct (v =? 0) eqn:E; bool_lia.
  - by rewrite <- H0.
  - cbn [app]. eapply parses_field; [lia|by apply Hf|done].
Qed.

Lemma parses_bool n b rest m m' r :
  0 < n < 16 ->
  (b = true -> field (n * 8) (varint 1 ++ rest) m = FieldOk m' rest) -> (b = false -> m' = m) ->
  parses rest m' r -> parses (enc_bool n b ++ rest) m r.
Proof.
  intros Hn Hf H0 Hr. unfold enc_bool. destruct b.
  - eapply (parses_field _ [1]); [lia|by apply Hf|done].
  - simpl. by rewrite <- H0.
Qed.

Lemma parses_string n s rest m m' r :
  0 < n < 16 ->
  (s <> [] -> field (n * 8 + 2) ((varint (zlen s) ++ s) ++ rest) m = FieldOk m' rest) ->
  (s = [] -> m' = m) ->
  parses rest m' r -> parses (enc_string n s ++ rest) m r.
Proof.
  intros Hn Hf H0 Hr. unfold enc_string. case_bool_decide.
  - simpl. by rewrite <- H0.
  - cbn [app]. eapply parses_field; [lia|by apply Hf|done].
Qed.

Lemma field_string_spec s rest (store : bytes -> M) :
  zlen s < 2 ^ 31 -> VerifyUTF8 s = true ->
  field_string ((varint (zlen s) ++ s) ++ rest) store = FieldOk (store s) rest.
Proof using laws.
  intros Hs Hu. unfold field_string. rewrite <- app_assoc, string_ok by done. by rewrite Hu.
Qed.

Lemma InternalParse_spec ptr m r : parses ptr m r -> InternalParse field unknown set_unknown ptr m = r.
Proof. intros H. apply H. lia. Qed.

(** *** Termination *)

Lemma VarintParse_consumes slow p v q :
  (forall p r v q, slow p r = Some (v, q) -> (length q < length p)%nat) ->
  VarintParse slow p = Parsed (v, q) -> (length q < length p)%nat.
Proof.
  intros Hs. destruct p as [|b0 [|b1 p]]; simpl; [done|by case_match; intros; simplify_eq/=; lia|].
  case_match; [intros; simplify_eq/=; lia|]. case_match; [intros; simplify_eq/=; lia|].
  destruct (slow _ _) as [[? ?]|] eqn:E; [|done]. intros; simplify_eq/=. by apply Hs in E.
Qed.

Lemma VarintParse_fuel slow p : VarintParse slow p <> NoFuel.
Proof.
  destruct p as [|b0 [|b1 p]]; simpl; [done|by case_match|].
  case_match; [done|]. case_match; [done|]. by destruct (slow _ _).
Qed.

Lemma ReadVarint64_consumes p v q : ReadVarint64 p = Parsed (v, q) -> (length q < length p)%nat.
Proof using laws. apply VarintParse_consumes. intros *. apply slow64_consumes. Qed.

Lemma ReadVarint32_consumes p v q : ReadVarint32 p = Parsed (v, q) -> (length q < length p)%nat.
Proof using laws. apply VarintParse_consumes. intros *. apply slow32_consumes. Qed.

Lemma ReadTag_consumes p v q : ReadTag p = Parsed (v, q) -> (length q < length p)%nat.
Proof using laws.
  destruct p as [|b0 [|b1 p]]; simpl; [done|by case_match; intros; simplify_eq/=; lia|].
  case_match; [intros; simplify_eq/=; lia|]. case_match; [intros; simplify_eq/=; lia|].
  destruct (ReadTagFallback _ _) as [[? ?]|] eqn:E; [|done]. intros; simplify_eq/=.
  by apply tag_consumes in E.
Qed.

Lemma ReadTag_fuel p : ReadTag p <> NoFuel.
Proof.
  destruct p as [|b0 [|b1 p]]; simpl; [done|by case_match|].
  case_match; [done|]. case_match; [done|]. by destruct (ReadTagFallback _ _).
Qed.

(** A field step that consumes its input and does not run out of fuel itself. *)
Definition field_progress : Prop :=
  forall tag p m, field tag p m <> FieldNoFuel /\
    forall m' q, field tag p m = FieldOk m' q -> (length q <= length p)%nat.

Lemma parse_loop_total fuel ptr m :
  field_progress -> (length ptr < fuel)%nat -> parse_loop field unknown set_unknown fuel ptr m <> NoFuel.
Proof using laws.
  intros Hp. revert ptr m. induction fuel as [|fuel IH]; intros ptr m Hf; [lia|].
  cbn [parse_loop]. destruct ptr as [|b ptr]; [done|].
  destruct (ReadTag (b :: ptr)) as [[tag p1]| |] eqn:Et; [|done|by apply ReadTag_fuel in Et].
  apply ReadTag_consumes in Et. destruct (Hp tag p1 m) as [Hnf Hc].
  destruct (field tag p1 m) as [m' p2| | |] eqn:Ef; [|done|done|].
  - apply IH. specialize (Hc _ _ eq_refl). simpl in *. lia.
  - case_match; [done|]. destruct (UnknownFieldParse _ _ _) as [[u p2]|] eqn:Eu; [|done].
    apply IH. apply unknown_consumes in Eu. simpl in *. lia.
Qed.

Lemma field_read_progress {A} (r : parse_result (A * bytes)) (store : A -> M) (p : bytes) :
  r <> NoFuel -> (forall a q, r = Parsed (a, q) -> (length q < length p)%nat) ->
  field_read r store <> FieldNoFuel /\
  forall m' q, field_read r store = FieldOk m' q -> (length q <= length p)%nat.
Proof.
  intros Hn Hc. destruct r as [[a q]| |]; simpl; [|done|done].
  split; [done|]. intros m' q' [= <- <-]. specialize (Hc _ _ eq_refl). lia.
Qed.

Lemma field_string_progress p (store : bytes -> M) :
  field_string p store <> FieldNoFuel /\
  forall m' q, field_string p store = FieldOk m' q -> (length q <= length p)%nat.
Proof using laws.
  unfold field_string. destruct (InlineGreedyStringParser p) as [[s q]|] eqn:E; [|done].
  apply string_consumes in E. case_match; [|done]. split; [done|]. intros m' q' [= <- <-]. lia.
Qed.

Lemma read64_progress p (store : Z -> M) :
  field_read (ReadVarint64 p) store <> FieldNoFuel /\
  forall m' q, field_read (ReadVarint64 p) store = FieldOk m' q -> (length q <= length p)%nat.
Proof using laws. apply field_read_progress; [apply VarintParse_fuel|]. apply ReadVarint64_consumes. Qed.

Lemma read32_progress p (store : Z -> M) :
  field_read (ReadVarint32 p) store <> FieldNoFuel /\
  forall m' q, field_read (ReadVarint32 p) store = FieldOk m' q -> (length q <= length p)%nat.
Proof using laws. apply field_read_progress; [apply VarintParse_fuel|]. apply ReadVarint32_consumes. Qed.

Lemma unusual_progress (p : bytes) :
  (HandleUnusual : field_result M) <> FieldNoFuel /\
  forall m' q, (HandleUnusual : field_result M) = FieldOk m' q -> (length q <= length p)%nat.
Proof. done. Qed.
End Parses.

(** Case analysis over the [switch] of a message. *)
Ltac field_cases :=
  repeat case_match;
  first [ apply unusual_progress | apply read64_progress | apply read32_progress
        | apply field_string_progress ].
