(* ===== verification/Protocol.v ===== *)
(** * The wire protocol: enums, messages and the codec interface

    The message classes protoc generates from Protocol.proto, Struct.proto and
    Enum.proto (GameServer/Protobuf/*.pb.h; the client has the same files) as
    records of their fields, and the packet ids of ServerPacketHandler.h.
    proto3 enums are open, so an enum field is the [int32] it holds.  A string
    field is its bytes; [_unknown] is the encoding of the unknown field set kept
    in [_internal_metadata_].  Serialization is the interface [PacketCodec]: the
    server is proved against its laws. *)

From stdpp Require Import base list numbers option.
From Stdlib Require Import ZArith Lia.
From S2P Require Import Prelude Wire.

(** ** Enums (Enum.pb.h) *)

(** [LOGIN_ERROR]. *)
Definition LOGIN_NONE : Z := 0.
Definition LOGIN_FAILE : Z := 1.
Definition LOGIN_ID_NONE : Z := 2.
Definition LOGIN_PW_NONE : Z := 3.
Definition LOGIN_CREATE_FAILE : Z := 4.
Definition LOGIN_CREATE_HAS_ACCOUNT : Z := 5.
Definition LOGIN_ALREADY_LOGIN : Z := 6.
Definition LOGIN_USER_DUPLICATION : Z := 7.
Definition LOGIN_SUCCESS : Z := 8.

(** [LOGOUT_ERROR]. *)
Definition LOGOUT_NONE : Z := 0.
Definition LOGOUT_FAILE : Z := 1.
Definition LOGOUT_SUCCESS : Z := 6.

(** [CHAT_ERROR]. *)
Definition CHAT_ERROR_NONE : Z := 0.
Definition CHAT_ERROR_FAIL : Z := 1.
Definition CHAT_ERROR_NOT_TARGET : Z := 2.
Definition CHAT_ERROR_SUCCESS : Z := 3.

(** [CHAT_STATE]. *)
Definition CHAT_ALL : Z := 0.
Definition CHAT_NORMAL : Z := 1.
Definition CHAT_WHISPER : Z := 2.

(** [ENTER_ROOM_ERROR]. *)
Definition ENTER_ROOM_NONE : Z := 0.
Definition ENTER_ROOM_FAIL : Z := 1.
Definition ENTER_ROOM_SUCCESS : Z := 2.

(** [EXIT_ROOM_ERROR]. *)
Definition EXIT_ROOM_NONE : Z := 0.
Definition EXIT_ROOM_FAIL : Z := 1.
Definition EXIT_ROOM_SUCCESS : Z := 2.

(** ** Messages (Struct.pb.h, Protocol.pb.h) *)

Record RoomInfo := mkRoomInfo {
  RoomInfo_room_id : Z;
  RoomInfo_cur_enter_user_count : Z;
  RoomInfo_cur_enter_max_count : Z;
  RoomInfo_unknown : bytes
}.
#[export] Instance RoomInfo_settable : Settable RoomInfo :=
  fun m => mkRoomInfo (RoomInfo_room_id m) (RoomInfo_cur_enter_user_count m) (RoomInfo_cur_enter_max_count m) (RoomInfo_unknown m).
Definition RoomInfo_default : RoomInfo := mkRoomInfo 0 0 0 [].

Record REQ_LOGIN := mkREQ_LOGIN {
  REQ_LOGIN_is_create : bool;
  REQ_LOGIN_id : bytes;
  REQ_LOGIN_pw : bytes;
  REQ_LOGIN_name : bytes;
  REQ_LOGIN_unknown : bytes
}.
#[export] Instance REQ_LOGIN_settable : Settable REQ_LOGIN :=
  fun m => mkREQ_LOGIN (REQ_LOGIN_is_create m) (REQ_LOGIN_id m) (REQ_LOGIN_pw m) (REQ_LOGIN_name m) (REQ_LOGIN_unknown m).
Definition REQ_LOGIN_default : REQ_LOGIN := mkREQ_LOGIN false [] [] [] [].

Record ACK_LOGIN := mkACK_LOGIN {
  ACK_LOGIN_idx : Z;
  ACK_LOGIN_user_name : bytes;
  ACK_LOGIN_result : Z;
  ACK_LOGIN_unknown : bytes
}.
#[export] Instance ACK_LOGIN_settable : Settable ACK_LOGIN :=
  fun m => mkACK_LOGIN (ACK_LOGIN_idx m) (ACK_LOGIN_user_name m) (ACK_LOGIN_result m) (ACK_LOGIN_unknown m).
Definition ACK_LOGIN_default : ACK_LOGIN := mkACK_LOGIN 0 [] 0 [].

Record REQ_BOT_LOGIN := mkREQ_BOT_LOGIN {
  REQ_BOT_LOGIN_is_create : bool;
  REQ_BOT_LOGIN_id : bytes;
  REQ_BOT_LOGIN_pw : bytes;
  REQ_BOT_LOGIN_name : bytes;
  REQ_BOT_LOGIN_unknown : bytes
}.
#[export] Instance REQ_BOT_LOGIN_settable : Settable REQ_BOT_LOGIN :=
  fun m => mkREQ_BOT_LOGIN (REQ_BOT_LOGIN_is_create m) (REQ_BOT_LOGIN_id m) (REQ_BOT_LOGIN_pw m) (REQ_BOT_LOGIN_name m) (REQ_BOT_LOGIN_unknown m).
Definition REQ_BOT_LOGIN_default : REQ_BOT_LOGIN := mkREQ_BOT_LOGIN false [] [] [] [].

Record ACK_BOT_LOGIN := mkACK_BOT_LOGIN {
  ACK_BOT_LOGIN_idx : Z;
  ACK_BOT_LOGIN_user_name : bytes;
  ACK_BOT_LOGIN_result : Z;
  ACK_BOT_LOGIN_unknown : bytes
}.
#[export] Instance ACK_BOT_LOGIN_settable : Settable ACK_BOT_LOGIN :=
  fun m => mkACK_BOT_LOGIN (ACK_BOT_LOGIN_idx m) (ACK_BOT_LOGIN_user_name m) (ACK_BOT_LOGIN_result m) (ACK_BOT_LOGIN_unknown m).
Definition ACK_BOT_LOGIN_default : ACK_BOT_LOGIN := mkACK_BOT_LOGIN 0 [] 0 [].

Record REQ_LOGOUT := mkREQ_LOGOUT {
  REQ_LOGOUT_idx : Z;
  REQ_LOGOUT_unknown : bytes
}.
#[export] Instance REQ_LOGOUT_settable : Settable REQ_LOGOUT :=
  fun m => mkREQ_LOGOUT (REQ_LOGOUT_idx m) (REQ_LOGOUT_unknown m).
Definition REQ_LOGOUT_default : REQ_LOGOUT := mkREQ_LOGOUT 0 [].

Record ACK_LOGOUT := mkACK_LOGOUT {
  ACK_LOGOUT_result : Z;
  ACK_LOGOUT_unknown : bytes
}.
#[export] Instance ACK_LOGOUT_settable : Settable ACK_LOGOUT :=
  fun m => mkACK_LOGOUT (ACK_LOGOUT_result m) (ACK_LOGOUT_unknown m).
Definition ACK_LOGOUT_default : ACK_LOGOUT := mkACK_LOGOUT 0 [].

Record REQ_GET_ROOM_INFO := mkREQ_GET_ROOM_INFO {
  REQ_GET_ROOM_INFO_unknown : bytes
}.
#[export] Instance REQ_GET_ROOM_INFO_settable : Settable REQ_GET_ROOM_INFO :=
  fun m => mkREQ_GET_ROOM_INFO (REQ_GET_ROOM_INFO_unknown m).
Definition REQ_GET_ROOM_INFO_default : REQ_GET_ROOM_INFO := mkREQ_GET_ROOM_INFO [].

Record ACK_GET_ROOM_INFO := mkACK_GET_ROOM_INFO {
  ACK_GET_ROOM_INFO_room_info_list : list RoomInfo;
  ACK_GET_ROOM_INFO_unknown : bytes
}.
#[export] Instance ACK_GET_ROOM_INFO_settable : Settable ACK_GET_ROOM_INFO :=
  fun m => mkACK_GET_ROOM_INFO (ACK_GET_ROOM_INFO_room_info_list m) (ACK_GET_ROOM_INFO_unknown m).
Definition ACK_GET_ROOM_INFO_default : ACK_GET_ROOM_INFO := mkACK_GET_ROOM_INFO [] [].

Record REQ_ENTER_ROOM := mkREQ_ENTER_ROOM {
  REQ_ENTER_ROOM_room_id : Z;
  REQ_ENTER_ROOM_unknown : bytes
}.
#[export] Instance REQ_ENTER_ROOM_settable : Settable REQ_ENTER_ROOM :=
  fun m => mkREQ_ENTER_ROOM (REQ_ENTER_ROOM_room_id m) (REQ_ENTER_ROOM_unknown m).
Definition REQ_ENTER_ROOM_default : REQ_ENTER_ROOM := mkREQ_ENTER_ROOM 0 [].

Record ACK_ENTER_ROOM := mkACK_ENTER_ROOM {
  ACK_ENTER_ROOM_room_id : Z;
  ACK_ENTER_ROOM_result : Z;
  ACK_ENTER_ROOM_unknown : bytes
}.
#[export] Instance ACK_ENTER_ROOM_settable : Settable ACK_ENTER_ROOM :=
  fun m => mkACK_ENTER_ROOM (ACK_ENTER_ROOM_room_id m) (ACK_ENTER_ROOM_result m) (ACK_ENTER_ROOM_unknown m).
Definition ACK_ENTER_ROOM_default : ACK_ENTER_ROOM := mkACK_ENTER_ROOM 0 0 [].

Record REQ_EXIT_ROOM := mkREQ_EXIT_ROOM {
  REQ_EXIT_ROOM_unknown : bytes
}.
#[export] Instance REQ_EXIT_ROOM_settable : Settable REQ_EXIT_ROOM :=
  fun m => mkREQ_EXIT_ROOM (REQ_EXIT_ROOM_unknown m).
Definition REQ_EXIT_ROOM_default : REQ_EXIT_ROOM := mkREQ_EXIT_ROOM [].

Record ACK_EXIT_ROOM := mkACK_EXIT_ROOM {
  ACK_EXIT_ROOM_result : Z;
  ACK_EXIT_ROOM_unknown : bytes
}.
#[export] Instance ACK_EXIT_ROOM_settable : Settable ACK_EXIT_ROOM :=
  fun m => mkACK_EXIT_ROOM (ACK_EXIT_ROOM_result m) (ACK_EXIT_ROOM_unknown m).
Definition ACK_EXIT_ROOM_default : ACK_EXIT_ROOM := mkACK_EXIT_ROOM 0 [].

Record REQ_CHAT := mkREQ_CHAT {
  REQ_CHAT_message : bytes;
  REQ_CHAT_chat_state : Z;
  REQ_CHAT_room_id : Z;
  REQ_CHAT_target_name : bytes;
  REQ_CHAT_unknown : bytes
}.
#[export] Instance REQ_CHAT_settable : Settable REQ_CHAT :=
  fun m => mkREQ_CHAT (REQ_CHAT_message m) (REQ_CHAT_chat_state m) (REQ_CHAT_room_id m) (REQ_CHAT_target_name m) (REQ_CHAT_unknown m).
Definition REQ_CHAT_default : REQ_CHAT := mkREQ_CHAT [] 0 0 [] [].

Record ACK_CHAT := mkACK_CHAT {
  ACK_CHAT_result : Z;
  ACK_CHAT_target_count : Z;
  ACK_CHAT_unknown : bytes
}.
#[export] Instance ACK_CHAT_settable : Settable ACK_CHAT :=
  fun m => mkACK_CHAT (ACK_CHAT_result m) (ACK_CHAT_target_count m) (ACK_CHAT_unknown m).
Definition ACK_CHAT_default : ACK_CHAT := mkACK_CHAT 0 0 [].

Record ACK_SEND_CHAT := mkACK_SEND_CHAT {
  ACK_SEND_CHAT_user_name : bytes;
  ACK_SEND_CHAT_message : bytes;
  ACK_SEND_CHAT_unknown : bytes
}.
#[export] Instance ACK_SEND_CHAT_settable : Settable ACK_SEND_CHAT :=
  fun m => mkACK_SEND_CHAT (ACK_SEND_CHAT_user_name m) (ACK_SEND_CHAT_message m) (ACK_SEND_CHAT_unknown m).
Definition ACK_SEND_CHAT_default : ACK_SEND_CHAT := mkACK_SEND_CHAT [] [] [].

Record REQ_CONNECT_PONG := mkREQ_CONNECT_PONG {
  REQ_CONNECT_PONG_server_tick : Z;
  REQ_CONNECT_PONG_unknown : bytes
}.
#[export] Instance REQ_CONNECT_PONG_settable : Settable REQ_CONNECT_PONG :=
  fun m => mkREQ_CONNECT_PONG (REQ_CONNECT_PONG_server_tick m) (REQ_CONNECT_PONG_unknown m).
Definition REQ_CONNECT_PONG_default : REQ_CONNECT_PONG := mkREQ_CONNECT_PONG 0 [].

Record ACK_SEND_CONNECT_PING := mkACK_SEND_CONNECT_PING {
  ACK_SEND_CONNECT_PING_server_tick : Z;
  ACK_SEND_CONNECT_PING_unknown : bytes
}.
#[export] Instance ACK_SEND_CONNECT_PING_settable : Settable ACK_SEND_CONNECT_PING :=
  fun m => mkACK_SEND_CONNECT_PING (ACK_SEND_CONNECT_PING_server_tick m) (ACK_SEND_CONNECT_PING_unknown m).
Definition ACK_SEND_CONNECT_PING_default : ACK_SEND_CONNECT_PING := mkACK_SEND_CONNECT_PING 0 [].

Record ACK_SERVER_FULL := mkACK_SERVER_FULL {
  ACK_SERVER_FULL_max_session_count : Z;
  ACK_SERVER_FULL_unknown : bytes
}.
#[export] Instance ACK_SERVER_FULL_settable : Settable ACK_SERVER_FULL :=
  fun m => mkACK_SERVER_FULL (ACK_SERVER_FULL_max_session_count m) (ACK_SERVER_FULL_unknown m).
Definition ACK_SERVER_FULL_default : ACK_SERVER_FULL := mkACK_SERVER_FULL 0 [].

(** ** Packets (ServerPacketHandler.h) *)

Definition PKT_REQ_LOGIN : Z := 1000.
Definition PKT_ACK_LOGIN : Z := 1001.
Definition PKT_REQ_BOT_LOGIN : Z := 1002.
Definition PKT_ACK_BOT_LOGIN : Z := 1003.
Definition PKT_REQ_LOGOUT : Z := 1004.
Definition PKT_ACK_LOGOUT : Z := 1005.
Definition PKT_REQ_GET_ROOM_INFO : Z := 1006.
Definition PKT_ACK_GET_ROOM_INFO : Z := 1007.
Definition PKT_REQ_ENTER_ROOM : Z := 1008.
Definition PKT_ACK_ENTER_ROOM : Z := 1009.
Definition PKT_REQ_EXIT_ROOM : Z := 1010.
Definition PKT_ACK_EXIT_ROOM : Z := 1011.
Definition PKT_REQ_CHAT : Z := 1012.
Definition PKT_ACK_CHAT : Z := 1013.
Definition PKT_ACK_SEND_CHAT : Z := 1014.
Definition PKT_REQ_CONNECT_PONG : Z := 1015.
Definition PKT_ACK_SEND_CONNECT_PING : Z := 1016.
Definition PKT_ACK_SERVER_FULL : Z := 1017.

(** A message of any of the packet types. *)
Inductive Packet :=
| P_REQ_LOGIN (m : REQ_LOGIN)
| P_ACK_LOGIN (m : ACK_LOGIN)
| P_REQ_BOT_LOGIN (m : REQ_BOT_LOGIN)
| P_ACK_BOT_LOGIN (m : ACK_BOT_LOGIN)
| P_REQ_LOGOUT (m : REQ_LOGOUT)
| P_ACK_LOGOUT (m : ACK_LOGOUT)
| P_REQ_GET_ROOM_INFO (m : REQ_GET_ROOM_INFO)
| P_ACK_GET_ROOM_INFO (m : ACK_GET_ROOM_INFO)
| P_REQ_ENTER_ROOM (m : REQ_ENTER_ROOM)
| P_ACK_ENTER_ROOM (m : ACK_ENTER_ROOM)
| P_REQ_EXIT_ROOM (m : REQ_EXIT_ROOM)
| P_ACK_EXIT_ROOM (m : ACK_EXIT_ROOM)
| P_REQ_CHAT (m : REQ_CHAT)
| P_ACK_CHAT (m : ACK_CHAT)
| P_ACK_SEND_CHAT (m : ACK_SEND_CHAT)
| P_REQ_CONNECT_PONG (m : REQ_CONNECT_PONG)
| P_ACK_SEND_CONNECT_PING (m : ACK_SEND_CONNECT_PING)
| P_ACK_SERVER_FULL (m : ACK_SERVER_FULL).

(** The packet id [MakeSendBuffer] and [Init] associate with each type. *)
Definition packet_id (p : Packet) : Z :=
  match p with
  | P_REQ_LOGIN _ => PKT_REQ_LOGIN
  | P_ACK_LOGIN _ => PKT_ACK_LOGIN
  | P_REQ_BOT_LOGIN _ => PKT_REQ_BOT_LOGIN
  | P_ACK_BOT_LOGIN _ => PKT_ACK_BOT_LOGIN
  | P_REQ_LOGOUT _ => PKT_REQ_LOGOUT
  | P_ACK_LOGOUT _ => PKT_ACK_LOGOUT
  | P_REQ_GET_ROOM_INFO _ => PKT_REQ_GET_ROOM_INFO
  | P_ACK_GET_ROOM_INFO _ => PKT_ACK_GET_ROOM_INFO
  | P_REQ_ENTER_ROOM _ => PKT_REQ_ENTER_ROOM
  | P_ACK_ENTER_ROOM _ => PKT_ACK_ENTER_ROOM
  | P_REQ_EXIT_ROOM _ => PKT_REQ_EXIT_ROOM
  | P_ACK_EXIT_ROOM _ => PKT_ACK_EXIT_ROOM
  | P_REQ_CHAT _ => PKT_REQ_CHAT
  | P_ACK_CHAT _ => PKT_ACK_CHAT
  | P_ACK_SEND_CHAT _ => PKT_ACK_SEND_CHAT
  | P_REQ_CONNECT_PONG _ => PKT_REQ_CONNECT_PONG
  | P_ACK_SEND_CONNECT_PING _ => PKT_ACK_SEND_CONNECT_PING
  | P_ACK_SERVER_FULL _ => PKT_ACK_SERVER_FULL
  end.

(** Field values that fit their C++ types; a string holds valid UTF-8, as
    [VerifyUTF8] demands, and fits an [int]; there are no unknown fields. *)
Section Wf.
Context {utf8 : Utf8Check}.

Definition string_wf (s : bytes) : Prop :=
  Forall is_byte s /\ zlen s < 2 ^ 31 /\ VerifyUTF8 s = true.

Definition RoomInfo_wf (m : RoomInfo) : Prop :=
  -2 ^ 31 <= RoomInfo_room_id m < 2 ^ 31 /\
  -2 ^ 31 <= RoomInfo_cur_enter_user_count m < 2 ^ 31 /\
  -2 ^ 31 <= RoomInfo_cur_enter_max_count m < 2 ^ 31 /\
  RoomInfo_unknown m = [].

Definition REQ_LOGIN_wf (m : REQ_LOGIN) : Prop :=
  string_wf (REQ_LOGIN_id m) /\
  string_wf (REQ_LOGIN_pw m) /\
  string_wf (REQ_LOGIN_name m) /\
  REQ_LOGIN_unknown m = [].

Definition ACK_LOGIN_wf (m : ACK_LOGIN) : Prop :=
  0 <= ACK_LOGIN_idx m < 2 ^ 64 /\
  string_wf (ACK_LOGIN_user_name m) /\
  -2 ^ 31 <= ACK_LOGIN_result m < 2 ^ 31 /\
  ACK_LOGIN_unknown m = [].

Definition REQ_BOT_LOGIN_wf (m : REQ_BOT_LOGIN) : Prop :=
  string_wf (REQ_BOT_LOGIN_id m) /\
  string_wf (REQ_BOT_LOGIN_pw m) /\
  string_wf (REQ_BOT_LOGIN_name m) /\
  REQ_BOT_LOGIN_unknown m = [].

Definition ACK_BOT_LOGIN_wf (m : ACK_BOT_LOGIN) : Prop :=
  0 <= ACK_BOT_LOGIN_idx m < 2 ^ 64 /\
  string_wf (ACK_BOT_LOGIN_user_name m) /\
  -2 ^ 31 <= ACK_BOT_LOGIN_result m < 2 ^ 31 /\
  ACK_BOT_LOGIN_unknown m = [].

Definition REQ_LOGOUT_wf (m : REQ_LOGOUT) : Prop :=
  0 <= REQ_LOGOUT_idx m < 2 ^ 64 /\
  REQ_LOGOUT_unknown m = [].

Definition ACK_LOGOUT_wf (m : ACK_LOGOUT) : Prop :=
  -2 ^ 31 <= ACK_LOGOUT_result m < 2 ^ 31 /\
  ACK_LOGOUT_unknown m = [].

Definition REQ_GET_ROOM_INFO_wf (m : REQ_GET_ROOM_INFO) : Prop :=
  REQ_GET_ROOM_INFO_unknown m = [].

Definition ACK_GET_ROOM_INFO_wf (m : ACK_GET_ROOM_INFO) : Prop :=
  Forall RoomInfo_wf (ACK_GET_ROOM_INFO_room_info_list m) /\ zlen (ACK_GET_ROOM_INFO_room_info_list m) < 2 ^ 31 /\
  ACK_GET_ROOM_INFO_unknown m = [].

Definition REQ_ENTER_ROOM_wf (m : REQ_ENTER_ROOM) : Prop :=
  -2 ^ 31 <= REQ_ENTER_ROOM_room_id m < 2 ^ 31 /\
  REQ_ENTER_ROOM_unknown m = [].

Definition ACK_ENTER_ROOM_wf (m : ACK_ENTER_ROOM) : Prop :=
  -2 ^ 31 <= ACK_ENTER_ROOM_room_id m < 2 ^ 31 /\
  -2 ^ 31 <= ACK_ENTER_ROOM_result m < 2 ^ 31 /\
  ACK_ENTER_ROOM_unknown m = [].

Definition REQ_EXIT_ROOM_wf (m : REQ_EXIT_ROOM) : Prop :=
  REQ_EXIT_ROOM_unknown m = [].

Definition ACK_EXIT_ROOM_wf (m : ACK_EXIT_ROOM) : Prop :=
  -2 ^ 31 <= ACK_EXIT_ROOM_result m < 2 ^ 31 /\
  ACK_EXIT_ROOM_unknown m = [].

Definition REQ_CHAT_wf (m : REQ_CHAT) : Prop :=
  string_wf (REQ_CHAT_message m) /\
  -2 ^ 31 <= REQ_CHAT_chat_state m < 2 ^ 31 /\
  -2 ^ 31 <= REQ_CHAT_room_id m < 2 ^ 31 /\
  string_wf (REQ_CHAT_target_name m) /\
  REQ_CHAT_unknown m = [].

Definition ACK_CHAT_wf (m : ACK_CHAT) : Prop :=
  -2 ^ 31 <= ACK_CHAT_result m < 2 ^ 31 /\
  0 <= ACK_CHAT_target_count m < 2 ^ 32 /\
  ACK_CHAT_unknown m = [].

Definition ACK_SEND_CHAT_wf (m : ACK_SEND_CHAT) : Prop :=
  string_wf (ACK_SEND_CHAT_user_name m) /\
  string_wf (ACK_SEND_CHAT_message m) /\
  ACK_SEND_CHAT_unknown m = [].

Definition REQ_CONNECT_PONG_wf (m : REQ_CONNECT_PONG) : Prop :=
  0 <= REQ_CONNECT_PONG_server_tick m < 2 ^ 64 /\
  REQ_CONNECT_PONG_unknown m = [].

Definition ACK_SEND_CONNECT_PING_wf (m : ACK_SEND_CONNECT_PING) : Prop :=
  0 <= ACK_SEND_CONNECT_PING_server_tick m < 2 ^ 64 /\
  ACK_SEND_CONNECT_PING_unknown m = [].

Definition ACK_SERVER_FULL_wf (m : ACK_SERVER_FULL) : Prop :=
  0 <= ACK_SERVER_FULL_max_session_count m < 2 ^ 32 /\
  ACK_SERVER_FULL_unknown m = [].

Definition packet_wf (p : Packet) : Prop :=
  match p with
  | P_REQ_LOGIN m => REQ_LOGIN_wf m
  | P_ACK_LOGIN m => ACK_LOGIN_wf m
  | P_REQ_BOT_LOGIN m => REQ_BOT_LOGIN_wf m
  | P_ACK_BOT_LOGIN m => ACK_BOT_LOGIN_wf m
  | P_REQ_LOGOUT m => REQ_LOGOUT_wf m
  | P_ACK_LOGOUT m => ACK_LOGOUT_wf m
  | P_REQ_GET_ROOM_INFO m => REQ_GET_ROOM_INFO_wf m
  | P_ACK_GET_ROOM_INFO m => ACK_GET_ROOM_INFO_wf m
  | P_REQ_ENTER_ROOM m => REQ_ENTER_ROOM_wf m
  | P_ACK_ENTER_ROOM m => ACK_ENTER_ROOM_wf m
  | P_REQ_EXIT_ROOM m => REQ_EXIT_ROOM_wf m
  | P_ACK_EXIT_ROOM m => ACK_EXIT_ROOM_wf m
  | P_REQ_CHAT m => REQ_CHAT_wf m
  | P_ACK_CHAT m => ACK_CHAT_wf m
  | P_ACK_SEND_CHAT m => ACK_SEND_CHAT_wf m
  | P_REQ_CONNECT_PONG m => REQ_CONNECT_PONG_wf m
  | P_ACK_SEND_CONNECT_PING m => ACK_SEND_CONNECT_PING_wf m
  | P_ACK_SERVER_FULL m => ACK_SERVER_FULL_wf m
  end.

(** What the size of a packet needs: a chat message is passed on as it was received,
    so only its length is known. *)
Definition ACK_SEND_CHAT_sized (m : ACK_SEND_CHAT) : Prop :=
  zlen (ACK_SEND_CHAT_user_name m) < 2 ^ 31 /\ zlen (ACK_SEND_CHAT_message m) < 2 ^ 31 /\
  ACK_SEND_CHAT_unknown m = [].

Definition packet_sized (p : Packet) : Prop :=
  match p with P_ACK_SEND_CHAT m => ACK_SEND_CHAT_sized m | _ => packet_wf p end.

Lemma packet_wf_sized p : packet_wf p -> packet_sized p.
Proof. destruct p; try done. intros ((_ & ? & _) & (_ & ? & _) & ?). done. Qed.

End Wf.

(** An upper bound of the encoded size, from the field types alone. *)
Definition packet_bound (p : Packet) : Z :=
  match p with
  | P_REQ_LOGIN m => 11 + (8 + zlen (REQ_LOGIN_id m)) + (8 + zlen (REQ_LOGIN_pw m)) + (8 + zlen (REQ_LOGIN_name m))
  | P_ACK_LOGIN m => 11 + (8 + zlen (ACK_LOGIN_user_name m)) + 11
  | P_REQ_BOT_LOGIN m => 11 + (8 + zlen (REQ_BOT_LOGIN_id m)) + (8 + zlen (REQ_BOT_LOGIN_pw m)) + (8 + zlen (REQ_BOT_LOGIN_name m))
  | P_ACK_BOT_LOGIN m => 11 + (8 + zlen (ACK_BOT_LOGIN_user_name m)) + 11
  | P_REQ_LOGOUT m => 11
  | P_ACK_LOGOUT m => 11
  | P_REQ_GET_ROOM_INFO m => 0
  | P_ACK_GET_ROOM_INFO m => (40 * zlen (ACK_GET_ROOM_INFO_room_info_list m))
  | P_REQ_ENTER_ROOM m => 11
  | P_ACK_ENTER_ROOM m => 11 + 11
  | P_REQ_EXIT_ROOM m => 0
  | P_ACK_EXIT_ROOM m => 11
  | P_REQ_CHAT m => (8 + zlen (REQ_CHAT_message m)) + 11 + 11 + (8 + zlen (REQ_CHAT_target_name m))
  | P_ACK_CHAT m => 11 + 11
  | P_ACK_SEND_CHAT m => (8 + zlen (ACK_SEND_CHAT_user_name m)) + (8 + zlen (ACK_SEND_CHAT_message m))
  | P_REQ_CONNECT_PONG m => 11
  | P_ACK_SEND_CONNECT_PING m => 11
  | P_ACK_SERVER_FULL m => 11
  end.

(** ** The codec interface

    [ByteSizeLong], [SerializeToArray] and [ParseFromArray] of the generated
    classes; the packet id selects the class to parse. *)
Class PacketCodec := {
  ByteSizeLong : Packet -> Z;
  SerializeToArray : Packet -> Z -> option bytes;
  ParseFromArray : Z -> bytes -> option Packet
}.

Class PacketCodecLaws {utf8 : Utf8Check} (codec : PacketCodec) : Prop := {
  codec_bound p : packet_sized p -> 0 <= ByteSizeLong p <= packet_bound p;
  codec_serialize p n :
    packet_sized p -> ByteSizeLong p <= n -> n < 2 ^ 31 ->
    exists bs, SerializeToArray p n = Some bs /\ zlen bs = ByteSizeLong p;
  codec_refuse p n : n < ByteSizeLong p -> SerializeToArray p n = None;
  codec_roundtrip p n :
    packet_wf p -> ByteSizeLong p <= n -> n < 2 ^ 31 ->
    exists bs, SerializeToArray p n = Some bs /\ zlen bs = ByteSizeLong p /\ Forall is_byte bs /\
               ParseFromArray (packet_id p) bs = Some p;
  codec_kind i bs p : ParseFromArray i bs = Some p -> packet_id p = i
}.
