(* ===== verification/Messages.v ===== *)
(** * The generated message classes

    For each message of Protocol.proto and for [RoomInfo] of Struct.proto, the
    functions protoc generates in Protocol.pb.cc and Struct.pb.cc: [Clear],
    [_InternalParse], [_InternalSerialize], [ByteSizeLong], [MergeImpl],
    [CopyFrom], the copy constructor and [InternalSwap].  The [switch] of a
    [_InternalParse] is the function [<message>_field]; the loop around it is
    [Wire.InternalParse].  [GetCachedSize] of an embedded message is the size
    the preceding [ByteSizeLong] stored, which is [ByteSizeLong] itself.
    [CopyFrom], [MergeImpl] and [InternalSwap] are given for two distinct objects;
    [CopyFrom] of an object into itself returns at once.

    The theorems give the wire contract: what is written is the encoding of the
    fields, of exactly [ByteSizeLong] bytes; parsing it merges it into the
    message; and parsing terminates on every input.  The last section turns the
    classes into an instance of the interface [PacketCodec] the server uses. *)

From stdpp Require Import base list numbers option.
From Stdlib Require Import ZArith Lia.
From S2P Require Import Prelude Wire Protocol.

Section Messages.
Context {utf8 : Utf8Check} {rt : PbRuntime}.

(** ** RoomInfo *)

Definition RoomInfo_Clear (m : RoomInfo) : RoomInfo :=
  m <| RoomInfo_room_id := 0 |> <| RoomInfo_cur_enter_user_count := 0 |> <| RoomInfo_cur_enter_max_count := 0 |> <| RoomInfo_unknown := [] |>.

Definition RoomInfo_field (tag : Z) (ptr : bytes) (m : RoomInfo) : field_result RoomInfo :=
  match Z.shiftr tag 3 with
  | 1 =>
      if u8 tag =? 8 then field_read (ReadVarint32 ptr) (fun v => m <| RoomInfo_room_id := i32 v |>)
      else HandleUnusual
  | 2 =>
      if u8 tag =? 16 then field_read (ReadVarint32 ptr) (fun v => m <| RoomInfo_cur_enter_user_count := i32 v |>)
      else HandleUnusual
  | 3 =>
      if u8 tag =? 24 then field_read (ReadVarint32 ptr) (fun v => m <| RoomInfo_cur_enter_max_count := i32 v |>)
      else HandleUnusual
  | _ => HandleUnusual
  end.

Definition RoomInfo_InternalParse (depth : Z) (ptr : bytes) (m : RoomInfo) : parse_result (RoomInfo * bytes * Z) :=
  InternalParse RoomInfo_field RoomInfo_unknown (fun u m => m <| RoomInfo_unknown := u |>) ptr m.

Definition RoomInfo_InternalSerialize (size : Z) (m : RoomInfo) (target : bytes) : bytes :=
  let target := if negb (RoomInfo_room_id m =? 0) then WriteInt32ToArray 1 (RoomInfo_room_id m) (EnsureSpace size target) else target in
  let target := if negb (RoomInfo_cur_enter_user_count m =? 0) then WriteInt32ToArray 2 (RoomInfo_cur_enter_user_count m) (EnsureSpace size target) else target in
  let target := if negb (RoomInfo_cur_enter_max_count m =? 0) then WriteInt32ToArray 3 (RoomInfo_cur_enter_max_count m) (EnsureSpace size target) else target in
  if negb (bool_decide (RoomInfo_unknown m = [])) then InternalSerializeUnknownFieldsToArray size (RoomInfo_unknown m) target
  else target.

Definition RoomInfo_ByteSizeLong (m : RoomInfo) : Z :=
  let total_size := 0 in
  let total_size := if negb (RoomInfo_room_id m =? 0) then u64 (total_size + Int32SizePlusOne (RoomInfo_room_id m)) else total_size in
  let total_size := if negb (RoomInfo_cur_enter_user_count m =? 0) then u64 (total_size + Int32SizePlusOne (RoomInfo_cur_enter_user_count m)) else total_size in
  let total_size := if negb (RoomInfo_cur_enter_max_count m =? 0) then u64 (total_size + Int32SizePlusOne (RoomInfo_cur_enter_max_count m)) else total_size in
  MaybeComputeUnknownFieldsSize (RoomInfo_unknown m) total_size.

Definition RoomInfo_MergeImpl (m from : RoomInfo) : RoomInfo :=
  let m := if negb (RoomInfo_room_id from =? 0) then m <| RoomInfo_room_id := RoomInfo_room_id from |> else m in
  let m := if negb (RoomInfo_cur_enter_user_count from =? 0) then m <| RoomInfo_cur_enter_user_count := RoomInfo_cur_enter_user_count from |> else m in
  let m := if negb (RoomInfo_cur_enter_max_count from =? 0) then m <| RoomInfo_cur_enter_max_count := RoomInfo_cur_enter_max_count from |> else m in
  m <| RoomInfo_unknown := RoomInfo_unknown m ++ RoomInfo_unknown from |>.

Definition RoomInfo_CopyFrom (m from : RoomInfo) : RoomInfo := RoomInfo_MergeImpl (RoomInfo_Clear m) from.

Definition RoomInfo_copy (from : RoomInfo) : RoomInfo :=
  mkRoomInfo (RoomInfo_room_id from) (RoomInfo_cur_enter_user_count from) (RoomInfo_cur_enter_max_count from) (RoomInfo_unknown from).

Definition RoomInfo_InternalSwap (m other : RoomInfo) : RoomInfo * RoomInfo :=
  (mkRoomInfo (RoomInfo_room_id other) (RoomInfo_cur_enter_user_count other) (RoomInfo_cur_enter_max_count other) (RoomInfo_unknown other),
   mkRoomInfo (RoomInfo_room_id m) (RoomInfo_cur_enter_user_count m) (RoomInfo_cur_enter_max_count m) (RoomInfo_unknown m)).

(** ** REQ_LOGIN *)

Definition REQ_LOGIN_Clear (m : REQ_LOGIN) : REQ_LOGIN :=
  m <| REQ_LOGIN_is_create := false |> <| REQ_LOGIN_id := [] |> <| REQ_LOGIN_pw := [] |> <| REQ_LOGIN_name := [] |> <| REQ_LOGIN_unknown := [] |>.

Definition REQ_LOGIN_field (tag : Z) (ptr : bytes) (m : REQ_LOGIN) : field_result REQ_LOGIN :=
  match Z.shiftr tag 3 with
  | 1 =>
      if u8 tag =? 8 then field_read (ReadVarint64 ptr) (fun v => m <| REQ_LOGIN_is_create := negb (v =? 0) |>)
      else HandleUnusual
  | 2 =>
      if u8 tag =? 18 then field_string ptr (fun s => m <| REQ_LOGIN_id := s |>)
      else HandleUnusual
  | 3 =>
      if u8 tag =? 26 then field_string ptr (fun s => m <| REQ_LOGIN_pw := s |>)
      else HandleUnusual
  | 4 =>
      if u8 tag =? 34 then field_string ptr (fun s => m <| REQ_LOGIN_name := s |>)
      else HandleUnusual
  | _ => HandleUnusual
  end.

Definition REQ_LOGIN_InternalParse (depth : Z) (ptr : bytes) (m : REQ_LOGIN) : parse_result (REQ_LOGIN * bytes * Z) :=
  InternalParse REQ_LOGIN_field REQ_LOGIN_unknown (fun u m => m <| REQ_LOGIN_unknown := u |>) ptr m.

Definition REQ_LOGIN_InternalSerialize (size : Z) (m : REQ_LOGIN) (target : bytes) : bytes :=
  let target := if REQ_LOGIN_is_create m then WriteBoolToArray 1 (REQ_LOGIN_is_create m) (EnsureSpace size target) else target in
  let target := if negb (bool_decide (REQ_LOGIN_id m = [])) then WriteStringMaybeAliased size 2 (REQ_LOGIN_id m) target else target in
  let target := if negb (bool_decide (REQ_LOGIN_pw m = [])) then WriteStringMaybeAliased size 3 (REQ_LOGIN_pw m) target else target in
  let target := if negb (bool_decide (REQ_LOGIN_name m = [])) then WriteStringMaybeAliased size 4 (REQ_LOGIN_name m) target else target in
  if negb (bool_decide (REQ_LOGIN_unknown m = [])) then InternalSerializeUnknownFieldsToArray size (REQ_LOGIN_unknown m) target
  else target.

Definition REQ_LOGIN_ByteSizeLong (m : REQ_LOGIN) : Z :=
  let total_size := 0 in
  let total_size := if negb (bool_decide (REQ_LOGIN_id m = [])) then u64 (total_size + (1 + StringSize (REQ_LOGIN_id m))) else total_size in
  let total_size := if negb (bool_decide (REQ_LOGIN_pw m = [])) then u64 (total_size + (1 + StringSize (REQ_LOGIN_pw m))) else total_size in
  let total_size := if negb (bool_decide (REQ_LOGIN_name m = [])) then u64 (total_size + (1 + StringSize (REQ_LOGIN_name m))) else total_size in
  let total_size := if REQ_LOGIN_is_create m then u64 (total_size + (1 + 1)) else total_size in
  MaybeComputeUnknownFieldsSize (REQ_LOGIN_unknown m) total_size.

Definition REQ_LOGIN_MergeImpl (m from : REQ_LOGIN) : REQ_LOGIN :=
  let m := if negb (bool_decide (REQ_LOGIN_id from = [])) then m <| REQ_LOGIN_id := REQ_LOGIN_id from |> else m in
  let m := if negb (bool_decide (REQ_LOGIN_pw from = [])) then m <| REQ_LOGIN_pw := REQ_LOGIN_pw from |> else m in
  let m := if negb (bool_decide (REQ_LOGIN_name from = [])) then m <| REQ_LOGIN_name := REQ_LOGIN_name from |> else m in
  let m := if REQ_LOGIN_is_create from then m <| REQ_LOGIN_is_create := REQ_LOGIN_is_create from |> else m in
  m <| REQ_LOGIN_unknown := REQ_LOGIN_unknown m ++ REQ_LOGIN_unknown from |>.

Definition REQ_LOGIN_CopyFrom (m from : REQ_LOGIN) : REQ_LOGIN := REQ_LOGIN_MergeImpl (REQ_LOGIN_Clear m) from.

Definition REQ_LOGIN_copy (from : REQ_LOGIN) : REQ_LOGIN :=
  mkREQ_LOGIN (REQ_LOGIN_is_create from) (if negb (bool_decide (REQ_LOGIN_id from = [])) then REQ_LOGIN_id from else []) (if negb (bool_decide (REQ_LOGIN_pw from = [])) then REQ_LOGIN_pw from else []) (if negb (bool_decide (REQ_LOGIN_name from = [])) then REQ_LOGIN_name from else []) (REQ_LOGIN_unknown from).

Definition REQ_LOGIN_InternalSwap (m other : REQ_LOGIN) : REQ_LOGIN * REQ_LOGIN :=
  (mkREQ_LOGIN (REQ_LOGIN_is_create other) (REQ_LOGIN_id other) (REQ_LOGIN_pw other) (REQ_LOGIN_name other) (REQ_LOGIN_unknown other),
   mkREQ_LOGIN (REQ_LOGIN_is_create m) (REQ_LOGIN_id m) (REQ_LOGIN_pw m) (REQ_LOGIN_name m) (REQ_LOGIN_unknown m)).

(** ** ACK_LOGIN *)

Definition ACK_LOGIN_Clear (m : ACK_LOGIN) : ACK_LOGIN :=
  m <| ACK_LOGIN_idx := 0 |> <| ACK_LOGIN_user_name := [] |> <| ACK_LOGIN_result := 0 |> <| ACK_LOGIN_unknown := [] |>.

Definition ACK_LOGIN_field (tag : Z) (ptr : bytes) (m : ACK_LOGIN) : field_result ACK_LOGIN :=
  match Z.shiftr tag 3 with
  | 1 =>
      if u8 tag =? 8 then field_read (ReadVarint64 ptr) (fun v => m <| ACK_LOGIN_idx := v |>)
      else HandleUnusual
  | 2 =>
      if u8 tag =? 18 then field_string ptr (fun s => m <| ACK_LOGIN_user_name := s |>)
      else HandleUnusual
  | 3 =>
      if u8 tag =? 24 then field_read (ReadVarint64 ptr) (fun v => m <| ACK_LOGIN_result := i32 v |>)
      else HandleUnusual
  | _ => HandleUnusual
  end.

Definition ACK_LOGIN_InternalParse (depth : Z) (ptr : bytes) (m : ACK_LOGIN) : parse_result (ACK_LOGIN * bytes * Z) :=
  InternalParse ACK_LOGIN_field ACK_LOGIN_unknown (fun u m => m <| ACK_LOGIN_unknown := u |>) ptr m.

Definition ACK_LOGIN_InternalSerialize (size : Z) (m : ACK_LOGIN) (target : bytes) : bytes :=
  let target := if negb (ACK_LOGIN_idx m =? 0) then WriteUInt64ToArray 1 (ACK_LOGIN_idx m) (EnsureSpace size target) else target in
  let target := if negb (bool_decide (ACK_LOGIN_user_name m = [])) then WriteStringMaybeAliased size 2 (ACK_LOGIN_user_name m) target else target in
  let target := if negb (ACK_LOGIN_result m =? 0) then WriteEnumToArray 3 (ACK_LOGIN_result m) (EnsureSpace size target) else target in
  if negb (bool_decide (ACK_LOGIN_unknown m = [])) then InternalSerializeUnknownFieldsToArray size (ACK_LOGIN_unknown m) target
  else target.

Definition ACK_LOGIN_ByteSizeLong (m : ACK_LOGIN) : Z :=
  let total_size := 0 in
  let total_size := if negb (bool_decide (ACK_LOGIN_user_name m = [])) then u64 (total_size + (1 + StringSize (ACK_LOGIN_user_name m))) else total_size in
  let total_size := if negb (ACK_LOGIN_idx m =? 0) then u64 (total_size + UInt64SizePlusOne (ACK_LOGIN_idx m)) else total_size in
  let total_size := if negb (ACK_LOGIN_result m =? 0) then u64 (total_size + (1 + EnumSize (ACK_LOGIN_result m))) else total_size in
  MaybeComputeUnknownFieldsSize (ACK_LOGIN_unknown m) total_size.

Definition ACK_LOGIN_MergeImpl (m from : ACK_LOGIN) : ACK_LOGIN :=
  let m := if negb (bool_decide (ACK_LOGIN_user_name from = [])) then m <| ACK_LOGIN_user_name := ACK_LOGIN_user_name from |> else m in
  let m := if negb (ACK_LOGIN_idx from =? 0) then m <| ACK_LOGIN_idx := ACK_LOGIN_idx from |> else m in
  let m := if negb (ACK_LOGIN_result from =? 0) then m <| ACK_LOGIN_result := ACK_LOGIN_result from |> else m in
  m <| ACK_LOGIN_unknown := ACK_LOGIN_unknown m ++ ACK_LOGIN_unknown from |>.

Definition ACK_LOGIN_CopyFrom (m from : ACK_LOGIN) : ACK_LOGIN := ACK_LOGIN_MergeImpl (ACK_LOGIN_Clear m) from.

Definition ACK_LOGIN_copy (from : ACK_LOGIN) : ACK_LOGIN :=
  mkACK_LOGIN (ACK_LOGIN_idx from) (if negb (bool_decide (ACK_LOGIN_user_name from = [])) then ACK_LOGIN_user_name from else []) (ACK_LOGIN_result from) (ACK_LOGIN_unknown from).

Definition ACK_LOGIN_InternalSwap (m other : ACK_LOGIN) : ACK_LOGIN * ACK_LOGIN :=
  (mkACK_LOGIN (ACK_LOGIN_idx other) (ACK_LOGIN_user_name other) (ACK_LOGIN_result other) (ACK_LOGIN_unknown other),
   mkACK_LOGIN (ACK_LOGIN_idx m) (ACK_LOGIN_user_name m) (ACK_LOGIN_result m) (ACK_LOGIN_unknown m)).

(** ** REQ_BOT_LOGIN *)

Definition REQ_BOT_LOGIN_Clear (m : REQ_BOT_LOGIN) : REQ_BOT_LOGIN :=
  m <| REQ_BOT_LOGIN_is_create := false |> <| REQ_BOT_LOGIN_id := [] |> <| REQ_BOT_LOGIN_pw := [] |> <| REQ_BOT_LOGIN_name := [] |> <| REQ_BOT_LOGIN_unknown := [] |>.

Definition REQ_BOT_LOGIN_field (tag : Z) (ptr : bytes) (m : REQ_BOT_LOGIN) : field_result REQ_BOT_LOGIN :=
  match Z.shiftr tag 3 with
  | 1 =>
      if u8 tag =? 8 then field_read (ReadVarint64 ptr) (fun v => m <| REQ_BOT_LOGIN_is_create := negb (v =? 0) |>)
      else HandleUnusual
  | 2 =>
      if u8 tag =? 18 then field_string ptr (fun s => m <| REQ_BOT_LOGIN_id := s |>)
      else HandleUnusual
  | 3 =>
      if u8 tag =? 26 then field_string ptr (fun s => m <| REQ_BOT_LOGIN_pw := s |>)
      else HandleUnusual
  | 4 =>
      if u8 tag =? 34 then field_string ptr (fun s => m <| REQ_BOT_LOGIN_name := s |>)
      else HandleUnusual
  | _ => HandleUnusual
  end.

Definition REQ_BOT_LOGIN_InternalParse (depth : Z) (ptr : bytes) (m : REQ_BOT_LOGIN) : parse_result (REQ_BOT_LOGIN * bytes * Z) :=
  InternalParse REQ_BOT_LOGIN_field REQ_BOT_LOGIN_unknown (fun u m => m <| REQ_BOT_LOGIN_unknown := u |>) ptr m.

Definition REQ_BOT_LOGIN_InternalSerialize (size : Z) (m : REQ_BOT_LOGIN) (target : bytes) : bytes :=
  let target := if REQ_BOT_LOGIN_is_create m then WriteBoolToArray 1 (REQ_BOT_LOGIN_is_create m) (EnsureSpace size target) else target in
  let target := if negb (bool_decide (REQ_BOT_LOGIN_id m = [])) then WriteStringMaybeAliased size 2 (REQ_BOT_LOGIN_id m) target else target in
  let target := if negb (bool_decide (REQ_BOT_LOGIN_pw m = [])) then WriteStringMaybeAliased size 3 (REQ_BOT_LOGIN_pw m) target else target in
  let target := if negb (bool_decide (REQ_BOT_LOGIN_name m = [])) then WriteStringMaybeAliased size 4 (REQ_BOT_LOGIN_name m) target else target in
  if negb (bool_decide (REQ_BOT_LOGIN_unknown m = [])) then InternalSerializeUnknownFieldsToArray size (REQ_BOT_LOGIN_unknown m) target
  else target.

Definition REQ_BOT_LOGIN_ByteSizeLong (m : REQ_BOT_LOGIN) : Z :=
  let total_size := 0 in
  let total_size := if negb (bool_decide (REQ_BOT_LOGIN_id m = [])) then u64 (total_size + (1 + StringSize (REQ_BOT_LOGIN_id m))) else total_size in
  let total_size := if negb (bool_decide (REQ_BOT_LOGIN_pw m = [])) then u64 (total_size + (1 + StringSize (REQ_BOT_LOGIN_pw m))) else total_size in
  let total_size := if negb (bool_decide (REQ_BOT_LOGIN_name m = [])) then u64 (total_size + (1 + StringSize (REQ_BOT_LOGIN_name m))) else total_size in
  let total_size := if REQ_BOT_LOGIN_is_create m then u64 (total_size + (1 + 1)) else total_size in
  MaybeComputeUnknownFieldsSize (REQ_BOT_LOGIN_unknown m) total_size.

Definition REQ_BOT_LOGIN_MergeImpl (m from : REQ_BOT_LOGIN) : REQ_BOT_LOGIN :=
  let m := if negb (bool_decide (REQ_BOT_LOGIN_id from = [])) then m <| REQ_BOT_LOGIN_id := REQ_BOT_LOGIN_id from |> else m in
  let m := if negb (bool_decide (REQ_BOT_LOGIN_pw from = [])) then m <| REQ_BOT_LOGIN_pw := REQ_BOT_LOGIN_pw from |> else m in
  let m := if negb (bool_decide (REQ_BOT_LOGIN_name from = [])) then m <| REQ_BOT_LOGIN_name := REQ_BOT_LOGIN_name from |> else m in
  let m := if REQ_BOT_LOGIN_is_create from then m <| REQ_BOT_LOGIN_is_create := REQ_BOT_LOGIN_is_create from |> else m in
  m <| REQ_BOT_LOGIN_unknown := REQ_BOT_LOGIN_unknown m ++ REQ_BOT_LOGIN_unknown from |>.

Definition REQ_BOT_LOGIN_CopyFrom (m from : REQ_BOT_LOGIN) : REQ_BOT_LOGIN := REQ_BOT_LOGIN_MergeImpl (REQ_BOT_LOGIN_Clear m) from.

Definition REQ_BOT_LOGIN_copy (from : REQ_BOT_LOGIN) : REQ_BOT_LOGIN :=
  mkREQ_BOT_LOGIN (REQ_BOT_LOGIN_is_create from) (if negb (bool_decide (REQ_BOT_LOGIN_id from = [])) then REQ_BOT_LOGIN_id from else []) (if negb (bool_decide (REQ_BOT_LOGIN_pw from = [])) then REQ_BOT_LOGIN_pw from else []) (if negb (bool_decide (REQ_BOT_LOGIN_name from = [])) then REQ_BOT_LOGIN_name from else []) (REQ_BOT_LOGIN_unknown from).

Definition REQ_BOT_LOGIN_InternalSwap (m other : REQ_BOT_LOGIN) : REQ_BOT_LOGIN * REQ_BOT_LOGIN :=
  (mkREQ_BOT_LOGIN (REQ_BOT_LOGIN_is_create other) (REQ_BOT_LOGIN_id other) (REQ_BOT_LOGIN_pw other) (REQ_BOT_LOGIN_name other) (REQ_BOT_LOGIN_unknown other),
   mkREQ_BOT_LOGIN (REQ_BOT_LOGIN_is_create m) (REQ_BOT_LOGIN_id m) (REQ_BOT_LOGIN_pw m) (REQ_BOT_LOGIN_name m) (REQ_BOT_LOGIN_unknown m)).

(** ** ACK_BOT_LOGIN *)

Definition ACK_BOT_LOGIN_Clear (m : ACK_BOT_LOGIN) : ACK_BOT_LOGIN :=
  m <| ACK_BOT_LOGIN_idx := 0 |> <| ACK_BOT_LOGIN_user_name := [] |> <| ACK_BOT_LOGIN_result := 0 |> <| ACK_BOT_LOGIN_unknown := [] |>.

Definition ACK_BOT_LOGIN_field (tag : Z) (ptr : bytes) (m : ACK_BOT_LOGIN) : field_result ACK_BOT_LOGIN :=
  match Z.shiftr tag 3 with
  | 1 =>
      if u8 tag =? 8 then field_read (ReadVarint64 ptr) (fun v => m <| ACK_BOT_LOGIN_idx := v |>)
      else HandleUnusual
  | 2 =>
      if u8 tag =? 18 then field_string ptr (fun s => m <| ACK_BOT_LOGIN_user_name := s |>)
      else HandleUnusual
  | 3 =>
      if u8 tag =? 24 then field_read (ReadVarint64 ptr) (fun v => m <| ACK_BOT_LOGIN_result := i32 v |>)
      else HandleUnusual
  | _ => HandleUnusual
  end.

Definition ACK_BOT_LOGIN_InternalParse (depth : Z) (ptr : bytes) (m : ACK_BOT_LOGIN) : parse_result (ACK_BOT_LOGIN * bytes * Z) :=
  InternalParse ACK_BOT_LOGIN_field ACK_BOT_LOGIN_unknown (fun u m => m <| ACK_BOT_LOGIN_unknown := u |>) ptr m.

Definition ACK_BOT_LOGIN_InternalSerialize (size : Z) (m : ACK_BOT_LOGIN) (target : bytes) : bytes :=
  let target := if negb (ACK_BOT_LOGIN_idx m =? 0) then WriteUInt64ToArray 1 (ACK_BOT_LOGIN_idx m) (EnsureSpace size target) else target in
  let target := if negb (bool_decide (ACK_BOT_LOGIN_user_name m = [])) then WriteStringMaybeAliased size 2 (ACK_BOT_LOGIN_user_name m) target else target in
  let target := if negb (ACK_BOT_LOGIN_result m =? 0) then WriteEnumToArray 3 (ACK_BOT_LOGIN_result m) (EnsureSpace size target) else target in
  if negb (bool_decide (ACK_BOT_LOGIN_unknown m = [])) then InternalSerializeUnknownFieldsToArray size (ACK_BOT_LOGIN_unknown m) target
  else target.

Definition ACK_BOT_LOGIN_ByteSizeLong (m : ACK_BOT_LOGIN) : Z :=
  let total_size := 0 in
  let total_size := if negb (bool_decide (ACK_BOT_LOGIN_user_name m = [])) then u64 (total_size + (1 + StringSize (ACK_BOT_LOGIN_user_name m))) else total_size in
  let total_size := if negb (ACK_BOT_LOGIN_idx m =? 0) then u64 (total_size + UInt64SizePlusOne (ACK_BOT_LOGIN_idx m)) else total_size in
  let total_size := if negb (ACK_BOT_LOGIN_result m =? 0) then u64 (total_size + (1 + EnumSize (ACK_BOT_LOGIN_result m))) else total_size in
  MaybeComputeUnknownFieldsSize (ACK_BOT_LOGIN_unknown m) total_size.

Definition ACK_BOT_LOGIN_MergeImpl (m from : ACK_BOT_LOGIN) : ACK_BOT_LOGIN :=
  let m := if negb (bool_decide (ACK_BOT_LOGIN_user_name from = [])) then m <| ACK_BOT_LOGIN_user_name := ACK_BOT_LOGIN_user_name from |> else m in
  let m := if negb (ACK_BOT_LOGIN_idx from =? 0) then m <| ACK_BOT_LOGIN_idx := ACK_BOT_LOGIN_idx from |> else m in
  let m := if negb (ACK_BOT_LOGIN_result from =? 0) then m <| ACK_BOT_LOGIN_result := ACK_BOT_LOGIN_result from |> else m in
  m <| ACK_BOT_LOGIN_unknown := ACK_BOT_LOGIN_unknown m ++ ACK_BOT_LOGIN_unknown from |>.

Definition ACK_BOT_LOGIN_CopyFrom (m from : ACK_BOT_LOGIN) : ACK_BOT_LOGIN := ACK_BOT_LOGIN_MergeImpl (ACK_BOT_LOGIN_Clear m) from.

Definition ACK_BOT_LOGIN_copy (from : ACK_BOT_LOGIN) : ACK_BOT_LOGIN :=
  mkACK_BOT_LOGIN (ACK_BOT_LOGIN_idx from) (if negb (bool_decide (ACK_BOT_LOGIN_user_name from = [])) then ACK_BOT_LOGIN_user_name from else []) (ACK_BOT_LOGIN_result from) (ACK_BOT_LOGIN_unknown from).

Definition ACK_BOT_LOGIN_InternalSwap (m other : ACK_BOT_LOGIN) : ACK_BOT_LOGIN * ACK_BOT_LOGIN :=
  (mkACK_BOT_LOGIN (ACK_BOT_LOGIN_idx other) (ACK_BOT_LOGIN_user_name other) (ACK_BOT_LOGIN_result other) (ACK_BOT_LOGIN_unknown other),
   mkACK_BOT_LOGIN (ACK_BOT_LOGIN_idx m) (ACK_BOT_LOGIN_user_name m) (ACK_BOT_LOGIN_result m) (ACK_BOT_LOGIN_unknown m)).

(** ** REQ_LOGOUT *)

Definition REQ_LOGOUT_Clear (m : REQ_LOGOUT) : REQ_LOGOUT :=
  m <| REQ_LOGOUT_idx := 0 |> <| REQ_LOGOUT_unknown := [] |>.

Definition REQ_LOGOUT_field (tag : Z) (ptr : bytes) (m : REQ_LOGOUT) : field_result REQ_LOGOUT :=
  match Z.shiftr tag 3 with
  | 1 =>
      if u8 tag =? 8 then field_read (ReadVarint64 ptr) (fun v => m <| REQ_LOGOUT_idx := v |>)
      else HandleUnusual
  | _ => HandleUnusual
  end.

Definition REQ_LOGOUT_InternalParse (depth : Z) (ptr : bytes) (m : REQ_LOGOUT) : parse_result (REQ_LOGOUT * bytes * Z) :=
  InternalParse REQ_LOGOUT_field REQ_LOGOUT_unknown (fun u m => m <| REQ_LOGOUT_unknown := u |>) ptr m.

Definition REQ_LOGOUT_InternalSerialize (size : Z) (m : REQ_LOGOUT) (target : bytes) : bytes :=
  let target := if negb (REQ_LOGOUT_idx m =? 0) then WriteUInt64ToArray 1 (REQ_LOGOUT_idx m) (EnsureSpace size target) else target in
  if negb (bool_decide (REQ_LOGOUT_unknown m = [])) then InternalSerializeUnknownFieldsToArray size (REQ_LOGOUT_unknown m) target
  else target.

Definition REQ_LOGOUT_ByteSizeLong (m : REQ_LOGOUT) : Z :=
  let total_size := 0 in
  let total_size := if negb (REQ_LOGOUT_idx m =? 0) then u64 (total_size + UInt64SizePlusOne (REQ_LOGOUT_idx m)) else total_size in
  MaybeComputeUnknownFieldsSize (REQ_LOGOUT_unknown m) total_size.

Definition REQ_LOGOUT_MergeImpl (m from : REQ_LOGOUT) : REQ_LOGOUT :=
  let m := if negb (REQ_LOGOUT_idx from =? 0) then m <| REQ_LOGOUT_idx := REQ_LOGOUT_idx from |> else m in
  m <| REQ_LOGOUT_unknown := REQ_LOGOUT_unknown m ++ REQ_LOGOUT_unknown from |>.

Definition REQ_LOGOUT_CopyFrom (m from : REQ_LOGOUT) : REQ_LOGOUT := REQ_LOGOUT_MergeImpl (REQ_LOGOUT_Clear m) from.

Definition REQ_LOGOUT_copy (from : REQ_LOGOUT) : REQ_LOGOUT :=
  mkREQ_LOGOUT (REQ_LOGOUT_idx from) (REQ_LOGOUT_unknown from).

Definition REQ_LOGOUT_InternalSwap (m other : REQ_LOGOUT) : REQ_LOGOUT * REQ_LOGOUT :=
  (mkREQ_LOGOUT (REQ_LOGOUT_idx other) (REQ_LOGOUT_unknown other),
   mkREQ_LOGOUT (REQ_LOGOUT_idx m) (REQ_LOGOUT_unknown m)).

(** ** ACK_LOGOUT *)

Definition ACK_LOGOUT_Clear (m : ACK_LOGOUT) : ACK_LOGOUT :=
  m <| ACK_LOGOUT_result := 0 |> <| ACK_LOGOUT_unknown := [] |>.

Definition ACK_LOGOUT_field (tag : Z) (ptr : bytes) (m : ACK_LOGOUT) : field_result ACK_LOGOUT :=
  match Z.shiftr tag 3 with
  | 1 =>
      if u8 tag =? 8 then field_read (ReadVarint64 ptr) (fun v => m <| ACK_LOGOUT_result := i32 v |>)
      else HandleUnusual
  | _ => HandleUnusual
  end.

Definition ACK_LOGOUT_InternalParse (depth : Z) (ptr : bytes) (m : ACK_LOGOUT) : parse_result (ACK_LOGOUT * bytes * Z) :=
  InternalParse ACK_LOGOUT_field ACK_LOGOUT_unknown (fun u m => m <| ACK_LOGOUT_unknown := u |>) ptr m.

Definition ACK_LOGOUT_InternalSerialize (size : Z) (m : ACK_LOGOUT) (target : bytes) : bytes :=
  let target := if negb (ACK_LOGOUT_result m =? 0) then WriteEnumToArray 1 (ACK_LOGOUT_result m) (EnsureSpace size target) else target in
  if negb (bool_decide (ACK_LOGOUT_unknown m = [])) then InternalSerializeUnknownFieldsToArray size (ACK_LOGOUT_unknown m) target
  else target.

Definition ACK_LOGOUT_ByteSizeLong (m : ACK_LOGOUT) : Z :=
  let total_size := 0 in
  let total_size := if negb (ACK_LOGOUT_result m =? 0) then u64 (total_size + (1 + EnumSize (ACK_LOGOUT_result m))) else total_size in
  MaybeComputeUnknownFieldsSize (ACK_LOGOUT_unknown m) total_size.

Definition ACK_LOGOUT_MergeImpl (m from : ACK_LOGOUT) : ACK_LOGOUT :=
  let m := if negb (ACK_LOGOUT_result from =? 0) then m <| ACK_LOGOUT_result := ACK_LOGOUT_result from |> else m in
  m <| ACK_LOGOUT_unknown := ACK_LOGOUT_unknown m ++ ACK_LOGOUT_unknown from |>.

Definition ACK_LOGOUT_CopyFrom (m from : ACK_LOGOUT) : ACK_LOGOUT := ACK_LOGOUT_MergeImpl (ACK_LOGOUT_Clear m) from.

Definition ACK_LOGOUT_copy (from : ACK_LOGOUT) : ACK_LOGOUT :=
  mkACK_LOGOUT (ACK_LOGOUT_result from) (ACK_LOGOUT_unknown from).

Definition ACK_LOGOUT_InternalSwap (m other : ACK_LOGOUT) : ACK_LOGOUT * ACK_LOGOUT :=
  (mkACK_LOGOUT (ACK_LOGOUT_result other) (ACK_LOGOUT_unknown other),
   mkACK_LOGOUT (ACK_LOGOUT_result m) (ACK_LOGOUT_unknown m)).

(** ** REQ_GET_ROOM_INFO: a message without fields, derived from [ZeroFieldsBase] *)

Definition REQ_GET_ROOM_INFO_InternalParse (depth : Z) (ptr : bytes) (m : REQ_GET_ROOM_INFO) : parse_result (REQ_GET_ROOM_INFO * bytes * Z) :=
  ' (u, p, last) <-- of_option (ZeroFieldsBase_InternalParse ptr (REQ_GET_ROOM_INFO_unknown m)) ;;
  Parsed (m <| REQ_GET_ROOM_INFO_unknown := u |>, p, last).

Definition REQ_GET_ROOM_INFO_InternalSerialize (size : Z) (m : REQ_GET_ROOM_INFO) (target : bytes) : bytes :=
  ZeroFieldsBase_InternalSerialize size (REQ_GET_ROOM_INFO_unknown m) target.

Definition REQ_GET_ROOM_INFO_ByteSizeLong (m : REQ_GET_ROOM_INFO) : Z := ZeroFieldsBase_ByteSizeLong (REQ_GET_ROOM_INFO_unknown m).

Definition REQ_GET_ROOM_INFO_MergeFrom (m from : REQ_GET_ROOM_INFO) : REQ_GET_ROOM_INFO :=
  m <| REQ_GET_ROOM_INFO_unknown := ZeroFieldsBase_MergeImpl (REQ_GET_ROOM_INFO_unknown m) (REQ_GET_ROOM_INFO_unknown from) |>.

Definition REQ_GET_ROOM_INFO_CopyFrom (m from : REQ_GET_ROOM_INFO) : REQ_GET_ROOM_INFO :=
  m <| REQ_GET_ROOM_INFO_unknown := ZeroFieldsBase_CopyImpl (REQ_GET_ROOM_INFO_unknown m) (REQ_GET_ROOM_INFO_unknown from) |>.

Definition REQ_GET_ROOM_INFO_copy (from : REQ_GET_ROOM_INFO) : REQ_GET_ROOM_INFO := mkREQ_GET_ROOM_INFO (REQ_GET_ROOM_INFO_unknown from).

(** ** ACK_GET_ROOM_INFO *)

Definition ACK_GET_ROOM_INFO_Clear (m : ACK_GET_ROOM_INFO) : ACK_GET_ROOM_INFO :=
  m <| ACK_GET_ROOM_INFO_room_info_list := [] |> <| ACK_GET_ROOM_INFO_unknown := [] |>.

(** The [do ... while (ExpectTag<10>(ptr))] loop of the repeated field. *)
Fixpoint room_info_list_loop (fuel : nat) (depth : Z) (ptr : bytes) (acc : list RoomInfo)
    : parse_result (list RoomInfo * bytes) :=
  match fuel with
  | O => NoFuel
  | S fuel' =>
      ' (msg, p) <-- ParseContext_ParseMessage RoomInfo (fun d q => RoomInfo_InternalParse d q RoomInfo_default) depth ptr ;;
      let acc := acc ++ [msg] in
      if negb (DataAvailable p) then Parsed (acc, p)
      else if ExpectTag 10 p then room_info_list_loop fuel' depth (tl p) acc
      else Parsed (acc, p)
  end.

Definition ACK_GET_ROOM_INFO_field (depth tag : Z) (ptr : bytes) (m : ACK_GET_ROOM_INFO)
    : field_result ACK_GET_ROOM_INFO :=
  match Z.shiftr tag 3 with
  | 1 =>
      if u8 tag =? 10
      then field_read (room_info_list_loop (S (length ptr)) depth ptr (ACK_GET_ROOM_INFO_room_info_list m))
                      (fun l => m <| ACK_GET_ROOM_INFO_room_info_list := l |>)
      else HandleUnusual
  | _ => HandleUnusual
  end.

Definition ACK_GET_ROOM_INFO_InternalParse (depth : Z) (ptr : bytes) (m : ACK_GET_ROOM_INFO) : parse_result (ACK_GET_ROOM_INFO * bytes * Z) :=
  InternalParse (ACK_GET_ROOM_INFO_field depth) ACK_GET_ROOM_INFO_unknown (fun u m => m <| ACK_GET_ROOM_INFO_unknown := u |>) ptr m.

Definition ACK_GET_ROOM_INFO_InternalSerialize (size : Z) (m : ACK_GET_ROOM_INFO) (target : bytes) : bytes :=
  let target := foldl (fun target r =>
      InternalWriteMessage size 1 (fun size target => RoomInfo_InternalSerialize size r target)
        (RoomInfo_ByteSizeLong r) target) target (ACK_GET_ROOM_INFO_room_info_list m) in
  if negb (bool_decide (ACK_GET_ROOM_INFO_unknown m = [])) then InternalSerializeUnknownFieldsToArray size (ACK_GET_ROOM_INFO_unknown m) target
  else target.

Definition ACK_GET_ROOM_INFO_ByteSizeLong (m : ACK_GET_ROOM_INFO) : Z :=
  let total_size := 0 in
  let total_size := u64 (total_size + 1 * zlen (ACK_GET_ROOM_INFO_room_info_list m)) in
  let total_size := foldl (fun total_size r => u64 (total_size + LengthDelimitedSize (RoomInfo_ByteSizeLong r)))
                          total_size (ACK_GET_ROOM_INFO_room_info_list m) in
  MaybeComputeUnknownFieldsSize (ACK_GET_ROOM_INFO_unknown m) total_size.

Definition ACK_GET_ROOM_INFO_MergeImpl (m from : ACK_GET_ROOM_INFO) : ACK_GET_ROOM_INFO :=
  let m := m <| ACK_GET_ROOM_INFO_room_info_list := ACK_GET_ROOM_INFO_room_info_list m ++ ACK_GET_ROOM_INFO_room_info_list from |> in
  m <| ACK_GET_ROOM_INFO_unknown := ACK_GET_ROOM_INFO_unknown m ++ ACK_GET_ROOM_INFO_unknown from |>.

Definition ACK_GET_ROOM_INFO_CopyFrom (m from : ACK_GET_ROOM_INFO) : ACK_GET_ROOM_INFO := ACK_GET_ROOM_INFO_MergeImpl (ACK_GET_ROOM_INFO_Clear m) from.

Definition ACK_GET_ROOM_INFO_copy (from : ACK_GET_ROOM_INFO) : ACK_GET_ROOM_INFO :=
  mkACK_GET_ROOM_INFO (ACK_GET_ROOM_INFO_room_info_list from) (ACK_GET_ROOM_INFO_unknown from).

Definition ACK_GET_ROOM_INFO_InternalSwap (m other : ACK_GET_ROOM_INFO) : ACK_GET_ROOM_INFO * ACK_GET_ROOM_INFO :=
  (mkACK_GET_ROOM_INFO (ACK_GET_ROOM_INFO_room_info_list other) (ACK_GET_ROOM_INFO_unknown other),
   mkACK_GET_ROOM_INFO (ACK_GET_ROOM_INFO_room_info_list m) (ACK_GET_ROOM_INFO_unknown m)).

(** ** REQ_ENTER_ROOM *)

Definition REQ_ENTER_ROOM_Clear (m : REQ_ENTER_ROOM) : REQ_ENTER_ROOM :=
  m <| REQ_ENTER_ROOM_room_id := 0 |> <| REQ_ENTER_ROOM_unknown := [] |>.

Definition REQ_ENTER_ROOM_field (tag : Z) (ptr : bytes) (m : REQ_ENTER_ROOM) : field_result REQ_ENTER_ROOM :=
  match Z.shiftr tag 3 with
  | 1 =>
      if u8 tag =? 8 then field_read (ReadVarint32 ptr) (fun v => m <| REQ_ENTER_ROOM_room_id := i32 v |>)
      else HandleUnusual
  | _ => HandleUnusual
  end.

Definition REQ_ENTER_ROOM_InternalParse (depth : Z) (ptr : bytes) (m : REQ_ENTER_ROOM) : parse_result (REQ_ENTER_ROOM * bytes * Z) :=
  InternalParse REQ_ENTER_ROOM_field REQ_ENTER_ROOM_unknown (fun u m => m <| REQ_ENTER_ROOM_unknown := u |>) ptr m.

Definition REQ_ENTER_ROOM_InternalSerialize (size : Z) (m : REQ_ENTER_ROOM) (target : bytes) : bytes :=
  let target := if negb (REQ_ENTER_ROOM_room_id m =? 0) then WriteInt32ToArray 1 (REQ_ENTER_ROOM_room_id m) (EnsureSpace size target) else target in
  if negb (bool_decide (REQ_ENTER_ROOM_unknown m = [])) then InternalSerializeUnknownFieldsToArray size (REQ_ENTER_ROOM_unknown m) target
  else target.

Definition REQ_ENTER_ROOM_ByteSizeLong (m : REQ_ENTER_ROOM) : Z :=
  let total_size := 0 in
  let total_size := if negb (REQ_ENTER_ROOM_room_id m =? 0) then u64 (total_size + Int32SizePlusOne (REQ_ENTER_ROOM_room_id m)) else total_size in
  MaybeComputeUnknownFieldsSize (REQ_ENTER_ROOM_unknown m) total_size.

Definition REQ_ENTER_ROOM_MergeImpl (m from : REQ_ENTER_ROOM) : REQ_ENTER_ROOM :=
  let m := if negb (REQ_ENTER_ROOM_room_id from =? 0) then m <| REQ_ENTER_ROOM_room_id := REQ_ENTER_ROOM_room_id from |> else m in
  m <| REQ_ENTER_ROOM_unknown := REQ_ENTER_ROOM_unknown m ++ REQ_ENTER_ROOM_unknown from |>.

Definition REQ_ENTER_ROOM_CopyFrom (m from : REQ_ENTER_ROOM) : REQ_ENTER_ROOM := REQ_ENTER_ROOM_MergeImpl (REQ_ENTER_ROOM_Clear m) from.

Definition REQ_ENTER_ROOM_copy (from : REQ_ENTER_ROOM) : REQ_ENTER_ROOM :=
  mkREQ_ENTER_ROOM (REQ_ENTER_ROOM_room_id from) (REQ_ENTER_ROOM_unknown from).

Definition REQ_ENTER_ROOM_InternalSwap (m other : REQ_ENTER_ROOM) : REQ_ENTER_ROOM * REQ_ENTER_ROOM :=
  (mkREQ_ENTER_ROOM (REQ_ENTER_ROOM_room_id other) (REQ_ENTER_ROOM_unknown other),
   mkREQ_ENTER_ROOM (REQ_ENTER_ROOM_room_id m) (REQ_ENTER_ROOM_unknown m)).

(** ** ACK_ENTER_ROOM *)

Definition ACK_ENTER_ROOM_Clear (m : ACK_ENTER_ROOM) : ACK_ENTER_ROOM :=
  m <| ACK_ENTER_ROOM_room_id := 0 |> <| ACK_ENTER_ROOM_result := 0 |> <| ACK_ENTER_ROOM_unknown := [] |>.

Definition ACK_ENTER_ROOM_field (tag : Z) (ptr : bytes) (m : ACK_ENTER_ROOM) : field_result ACK_ENTER_ROOM :=
  match Z.shiftr tag 3 with
  | 1 =>
      if u8 tag =? 8 then field_read (ReadVarint32 ptr) (fun v => m <| ACK_ENTER_ROOM_room_id := i32 v |>)
      else HandleUnusual
  | 2 =>
      if u8 tag =? 16 then field_read (ReadVarint64 ptr) (fun v => m <| ACK_ENTER_ROOM_result := i32 v |>)
      else HandleUnusual
  | _ => HandleUnusual
  end.

Definition ACK_ENTER_ROOM_InternalParse (depth : Z) (ptr : bytes) (m : ACK_ENTER_ROOM) : parse_result (ACK_ENTER_ROOM * bytes * Z) :=
  InternalParse ACK_ENTER_ROOM_field ACK_ENTER_ROOM_unknown (fun u m => m <| ACK_ENTER_ROOM_unknown := u |>) ptr m.

Definition ACK_ENTER_ROOM_InternalSerialize (size : Z) (m : ACK_ENTER_ROOM) (target : bytes) : bytes :=
  let target := if negb (ACK_ENTER_ROOM_room_id m =? 0) then WriteInt32ToArray 1 (ACK_ENTER_ROOM_room_id m) (EnsureSpace size target) else target in
  let target := if negb (ACK_ENTER_ROOM_result m =? 0) then WriteEnumToArray 2 (ACK_ENTER_ROOM_result m) (EnsureSpace size target) else target in
  if negb (bool_decide (ACK_ENTER_ROOM_unknown m = [])) then InternalSerializeUnknownFieldsToArray size (ACK_ENTER_ROOM_unknown m) target
  else target.

Definition ACK_ENTER_ROOM_ByteSizeLong (m : ACK_ENTER_ROOM) : Z :=
  let total_size := 0 in
  let total_size := if negb (ACK_ENTER_ROOM_room_id m =? 0) then u64 (total_size + Int32SizePlusOne (ACK_ENTER_ROOM_room_id m)) else total_size in
  let total_size := if negb (ACK_ENTER_ROOM_result m =? 0) then u64 (total_size + (1 + EnumSize (ACK_ENTER_ROOM_result m))) else total_size in
  MaybeComputeUnknownFieldsSize (ACK_ENTER_ROOM_unknown m) total_size.

Definition ACK_ENTER_ROOM_MergeImpl (m from : ACK_ENTER_ROOM) : ACK_ENTER_ROOM :=
  let m := if negb (ACK_ENTER_ROOM_room_id from =? 0) then m <| ACK_ENTER_ROOM_room_id := ACK_ENTER_ROOM_room_id from |> else m in
  let m := if negb (ACK_ENTER_ROOM_result from =? 0) then m <| ACK_ENTER_ROOM_result := ACK_ENTER_ROOM_result from |> else m in
  m <| ACK_ENTER_ROOM_unknown := ACK_ENTER_ROOM_unknown m ++ ACK_ENTER_ROOM_unknown from |>.

Definition ACK_ENTER_ROOM_CopyFrom (m from : ACK_ENTER_ROOM) : ACK_ENTER_ROOM := ACK_ENTER_ROOM_MergeImpl (ACK_ENTER_ROOM_Clear m) from.

Definition ACK_ENTER_ROOM_copy (from : ACK_ENTER_ROOM) : ACK_ENTER_ROOM :=
  mkACK_ENTER_ROOM (ACK_ENTER_ROOM_room_id from) (ACK_ENTER_ROOM_result from) (ACK_ENTER_ROOM_unknown from).

Definition ACK_ENTER_ROOM_InternalSwap (m other : ACK_ENTER_ROOM) : ACK_ENTER_ROOM * ACK_ENTER_ROOM :=
  (mkACK_ENTER_ROOM (ACK_ENTER_ROOM_room_id other) (ACK_ENTER_ROOM_result other) (ACK_ENTER_ROOM_unknown other),
   mkACK_ENTER_ROOM (ACK_ENTER_ROOM_room_id m) (ACK_ENTER_ROOM_result m) (ACK_ENTER_ROOM_unknown m)).

(** ** REQ_EXIT_ROOM: a message without fields, derived from [ZeroFieldsBase] *)

Definition REQ_EXIT_ROOM_InternalParse (depth : Z) (ptr : bytes) (m : REQ_EXIT_ROOM) : parse_result (REQ_EXIT_ROOM * bytes * Z) :=
  ' (u, p, last) <-- of_option (ZeroFieldsBase_InternalParse ptr (REQ_EXIT_ROOM_unknown m)) ;;
  Parsed (m <| REQ_EXIT_ROOM_unknown := u |>, p, last).

Definition REQ_EXIT_ROOM_InternalSerialize (size : Z) (m : REQ_EXIT_ROOM) (target : bytes) : bytes :=
  ZeroFieldsBase_InternalSerialize size (REQ_EXIT_ROOM_unknown m) target.

Definition REQ_EXIT_ROOM_ByteSizeLong (m : REQ_EXIT_ROOM) : Z := ZeroFieldsBase_ByteSizeLong (REQ_EXIT_ROOM_unknown m).

Definition REQ_EXIT_ROOM_MergeFrom (m from : REQ_EXIT_ROOM) : REQ_EXIT_ROOM :=
  m <| REQ_EXIT_ROOM_unknown := ZeroFieldsBase_MergeImpl (REQ_EXIT_ROOM_unknown m) (REQ_EXIT_ROOM_unknown from) |>.

Definition REQ_EXIT_ROOM_CopyFrom (m from : REQ_EXIT_ROOM) : REQ_EXIT_ROOM :=
  m <| REQ_EXIT_ROOM_unknown := ZeroFieldsBase_CopyImpl (REQ_EXIT_ROOM_unknown m) (REQ_EXIT_ROOM_unknown from) |>.

Definition REQ_EXIT_ROOM_copy (from : REQ_EXIT_ROOM) : REQ_EXIT_ROOM := mkREQ_EXIT_ROOM (REQ_EXIT_ROOM_unknown from).

(** ** ACK_EXIT_ROOM *)

Definition ACK_EXIT_ROOM_Clear (m : ACK_EXIT_ROOM) : ACK_EXIT_ROOM :=
  m <| ACK_EXIT_ROOM_result := 0 |> <| ACK_EXIT_ROOM_unknown := [] |>.

Definition ACK_EXIT_ROOM_field (tag : Z) (ptr : bytes) (m : ACK_EXIT_ROOM) : field_result ACK_EXIT_ROOM :=
  match Z.shiftr tag 3 with
  | 1 =>
      if u8 tag =? 8 then field_read (ReadVarint64 ptr) (fun v => m <| ACK_EXIT_ROOM_result := i32 v |>)
      else HandleUnusual
  | _ => HandleUnusual
  end.

Definition ACK_EXIT_ROOM_InternalParse (depth : Z) (ptr : bytes) (m : ACK_EXIT_ROOM) : parse_result (ACK_EXIT_ROOM * bytes * Z) :=
  InternalParse ACK_EXIT_ROOM_field ACK_EXIT_ROOM_unknown (fun u m => m <| ACK_EXIT_ROOM_unknown := u |>) ptr m.

Definition ACK_EXIT_ROOM_InternalSerialize (size : Z) (m : ACK_EXIT_ROOM) (target : bytes) : bytes :=
  let target := if negb (ACK_EXIT_ROOM_result m =? 0) then WriteEnumToArray 1 (ACK_EXIT_ROOM_result m) (EnsureSpace size target) else target in
  if negb (bool_decide (ACK_EXIT_ROOM_unknown m = [])) then InternalSerializeUnknownFieldsToArray size (ACK_EXIT_ROOM_unknown m) target
  else target.

Definition ACK_EXIT_ROOM_ByteSizeLong (m : ACK_EXIT_ROOM) : Z :=
  let total_size := 0 in
  let total_size := if negb (ACK_EXIT_ROOM_result m =? 0) then u64 (total_size + (1 + EnumSize (ACK_EXIT_ROOM_result m))) else total_size in
  MaybeComputeUnknownFieldsSize (ACK_EXIT_ROOM_unknown m) total_size.

Definition ACK_EXIT_ROOM_MergeImpl (m from : ACK_EXIT_ROOM) : ACK_EXIT_ROOM :=
  let m := if negb (ACK_EXIT_ROOM_result from =? 0) then m <| ACK_EXIT_ROOM_result := ACK_EXIT_ROOM_result from |> else m in
  m <| ACK_EXIT_ROOM_unknown := ACK_EXIT_ROOM_unknown m ++ ACK_EXIT_ROOM_unknown from |>.

Definition ACK_EXIT_ROOM_CopyFrom (m from : ACK_EXIT_ROOM) : ACK_EXIT_ROOM := ACK_EXIT_ROOM_MergeImpl (ACK_EXIT_ROOM_Clear m) from.

Definition ACK_EXIT_ROOM_copy (from : ACK_EXIT_ROOM) : ACK_EXIT_ROOM :=
  mkACK_EXIT_ROOM (ACK_EXIT_ROOM_result from) (ACK_EXIT_ROOM_unknown from).

Definition ACK_EXIT_ROOM_InternalSwap (m other : ACK_EXIT_ROOM) : ACK_EXIT_ROOM * ACK_EXIT_ROOM :=
  (mkACK_EXIT_ROOM (ACK_EXIT_ROOM_result other) (ACK_EXIT_ROOM_unknown other),
   mkACK_EXIT_ROOM (ACK_EXIT_ROOM_result m) (ACK_EXIT_ROOM_unknown m)).

(** ** REQ_CHAT *)

Definition REQ_CHAT_Clear (m : REQ_CHAT) : REQ_CHAT :=
  m <| REQ_CHAT_message := [] |> <| REQ_CHAT_chat_state := 0 |> <| REQ_CHAT_room_id := 0 |> <| REQ_CHAT_target_name := [] |> <| REQ_CHAT_unknown := [] |>.

Definition REQ_CHAT_field (tag : Z) (ptr : bytes) (m : REQ_CHAT) : field_result REQ_CHAT :=
  match Z.shiftr tag 3 with
  | 1 =>
      if u8 tag =? 10 then field_string ptr (fun s => m <| REQ_CHAT_message := s |>)
      else HandleUnusual
  | 2 =>
      if u8 tag =? 16 then field_read (ReadVarint64 ptr) (fun v => m <| REQ_CHAT_chat_state := i32 v |>)
      else HandleUnusual
  | 3 =>
      if u8 tag =? 24 then field_read (ReadVarint32 ptr) (fun v => m <| REQ_CHAT_room_id := i32 v |>)
      else HandleUnusual
  | 4 =>
      if u8 tag =? 34 then field_string ptr (fun s => m <| REQ_CHAT_target_name := s |>)
      else HandleUnusual
  | _ => HandleUnusual
  end.

Definition REQ_CHAT_InternalParse (depth : Z) (ptr : bytes) (m : REQ_CHAT) : parse_result (REQ_CHAT * bytes * Z) :=
  InternalParse REQ_CHAT_field REQ_CHAT_unknown (fun u m => m <| REQ_CHAT_unknown := u |>) ptr m.

Definition REQ_CHAT_InternalSerialize (size : Z) (m : REQ_CHAT) (target : bytes) : bytes :=
  let target := if negb (bool_decide (REQ_CHAT_message m = [])) then WriteStringMaybeAliased size 1 (REQ_CHAT_message m) target else target in
  let target := if negb (REQ_CHAT_chat_state m =? 0) then WriteEnumToArray 2 (REQ_CHAT_chat_state m) (EnsureSpace size target) else target in
  let target := if negb (REQ_CHAT_room_id m =? 0) then WriteInt32ToArray 3 (REQ_CHAT_room_id m) (EnsureSpace size target) else target in
  let target := if negb (bool_decide (REQ_CHAT_target_name m = [])) then WriteStringMaybeAliased size 4 (REQ_CHAT_target_name m) target else target in
  if negb (bool_decide (REQ_CHAT_unknown m = [])) then InternalSerializeUnknownFieldsToArray size (REQ_CHAT_unknown m) target
  else target.

Definition REQ_CHAT_ByteSizeLong (m : REQ_CHAT) : Z :=
  let total_size := 0 in
  let total_size := if negb (bool_decide (REQ_CHAT_message m = [])) then u64 (total_size + (1 + StringSize (REQ_CHAT_message m))) else total_size in
  let total_size := if negb (bool_decide (REQ_CHAT_target_name m = [])) then u64 (total_size + (1 + StringSize (REQ_CHAT_target_name m))) else total_size in
  let total_size := if negb (REQ_CHAT_chat_state m =? 0) then u64 (total_size + (1 + EnumSize (REQ_CHAT_chat_state m))) else total_size in
  let total_size := if negb (REQ_CHAT_room_id m =? 0) then u64 (total_size + Int32SizePlusOne (REQ_CHAT_room_id m)) else total_size in
  MaybeComputeUnknownFieldsSize (REQ_CHAT_unknown m) total_size.

Definition REQ_CHAT_MergeImpl (m from : REQ_CHAT) : REQ_CHAT :=
  let m := if negb (bool_decide (REQ_CHAT_message from = [])) then m <| REQ_CHAT_message := REQ_CHAT_message from |> else m in
  let m := if negb (bool_decide (REQ_CHAT_target_name from = [])) then m <| REQ_CHAT_target_name := REQ_CHAT_target_name from |> else m in
  let m := if negb (REQ_CHAT_chat_state from =? 0) then m <| REQ_CHAT_chat_state := REQ_CHAT_chat_state from |> else m in
  let m := if negb (REQ_CHAT_room_id from =? 0) then m <| REQ_CHAT_room_id := REQ_CHAT_room_id from |> else m in
  m <| REQ_CHAT_unknown := REQ_CHAT_unknown m ++ REQ_CHAT_unknown from |>.

Definition REQ_CHAT_CopyFrom (m from : REQ_CHAT) : REQ_CHAT := REQ_CHAT_MergeImpl (REQ_CHAT_Clear m) from.

Definition REQ_CHAT_copy (from : REQ_CHAT) : REQ_CHAT :=
  mkREQ_CHAT (if negb (bool_decide (REQ_CHAT_message from = [])) then REQ_CHAT_message from else []) (REQ_CHAT_chat_state from) (REQ_CHAT_room_id from) (if negb (bool_decide (REQ_CHAT_target_name from = [])) then REQ_CHAT_target_name from else []) (REQ_CHAT_unknown from).

Definition REQ_CHAT_InternalSwap (m other : REQ_CHAT) : REQ_CHAT * REQ_CHAT :=
  (mkREQ_CHAT (REQ_CHAT_message other) (REQ_CHAT_chat_state other) (REQ_CHAT_room_id other) (REQ_CHAT_target_name other) (REQ_CHAT_unknown other),
   mkREQ_CHAT (REQ_CHAT_message m) (REQ_CHAT_chat_state m) (REQ_CHAT_room_id m) (REQ_CHAT_target_name m) (REQ_CHAT_unknown m)).

(** ** ACK_CHAT *)

Definition ACK_CHAT_Clear (m : ACK_CHAT) : ACK_CHAT :=
  m <| ACK_CHAT_result := 0 |> <| ACK_CHAT_target_count := 0 |> <| ACK_CHAT_unknown := [] |>.

Definition ACK_CHAT_field (tag : Z) (ptr : bytes) (m : ACK_CHAT) : field_result ACK_CHAT :=
  match Z.shiftr tag 3 with
  | 1 =>
      if u8 tag =? 8 then field_read (ReadVarint64 ptr) (fun v => m <| ACK_CHAT_result := i32 v |>)
      else HandleUnusual
  | 2 =>
      if u8 tag =? 16 then field_read (ReadVarint32 ptr) (fun v => m <| ACK_CHAT_target_count := v |>)
      else HandleUnusual
  | _ => HandleUnusual
  end.

Definition ACK_CHAT_InternalParse (depth : Z) (ptr : bytes) (m : ACK_CHAT) : parse_result (ACK_CHAT * bytes * Z) :=
  InternalParse ACK_CHAT_field ACK_CHAT_unknown (fun u m => m <| ACK_CHAT_unknown := u |>) ptr m.

Definition ACK_CHAT_InternalSerialize (size : Z) (m : ACK_CHAT) (target : bytes) : bytes :=
  let target := if negb (ACK_CHAT_result m =? 0) then WriteEnumToArray 1 (ACK_CHAT_result m) (EnsureSpace size target) else target in
  let target := if negb (ACK_CHAT_target_count m =? 0) then WriteUInt32ToArray 2 (ACK_CHAT_target_count m) (EnsureSpace size target) else target in
  if negb (bool_decide (ACK_CHAT_unknown m = [])) then InternalSerializeUnknownFieldsToArray size (ACK_CHAT_unknown m) target
  else target.

Definition ACK_CHAT_ByteSizeLong (m : ACK_CHAT) : Z :=
  let total_size := 0 in
  let total_size := if negb (ACK_CHAT_result m =? 0) then u64 (total_size + (1 + EnumSize (ACK_CHAT_result m))) else total_size in
  let total_size := if negb (ACK_CHAT_target_count m =? 0) then u64 (total_size + UInt32SizePlusOne (ACK_CHAT_target_count m)) else total_size in
  MaybeComputeUnknownFieldsSize (ACK_CHAT_unknown m) total_size.

Definition ACK_CHAT_MergeImpl (m from : ACK_CHAT) : ACK_CHAT :=
  let m := if negb (ACK_CHAT_result from =? 0) then m <| ACK_CHAT_result := ACK_CHAT_result from |> else m in
  let m := if negb (ACK_CHAT_target_count from =? 0) then m <| ACK_CHAT_target_count := ACK_CHAT_target_count from |> else m in
  m <| ACK_CHAT_unknown := ACK_CHAT_unknown m ++ ACK_CHAT_unknown from |>.

Definition ACK_CHAT_CopyFrom (m from : ACK_CHAT) : ACK_CHAT := ACK_CHAT_MergeImpl (ACK_CHAT_Clear m) from.

Definition ACK_CHAT_copy (from : ACK_CHAT) : ACK_CHAT :=
  mkACK_CHAT (ACK_CHAT_result from) (ACK_CHAT_target_count from) (ACK_CHAT_unknown from).

Definition ACK_CHAT_InternalSwap (m other : ACK_CHAT) : ACK_CHAT * ACK_CHAT :=
  (mkACK_CHAT (ACK_CHAT_result other) (ACK_CHAT_target_count other) (ACK_CHAT_unknown other),
   mkACK_CHAT (ACK_CHAT_result m) (ACK_CHAT_target_count m) (ACK_CHAT_unknown m)).

(** ** ACK_SEND_CHAT *)

Definition ACK_SEND_CHAT_Clear (m : ACK_SEND_CHAT) : ACK_SEND_CHAT :=
  m <| ACK_SEND_CHAT_user_name := [] |> <| ACK_SEND_CHAT_message := [] |> <| ACK_SEND_CHAT_unknown := [] |>.

Definition ACK_SEND_CHAT_field (tag : Z) (ptr : bytes) (m : ACK_SEND_CHAT) : field_result ACK_SEND_CHAT :=
  match Z.shiftr tag 3 with
  | 1 =>
      if u8 tag =? 10 then field_string ptr (fun s => m <| ACK_SEND_CHAT_user_name := s |>)
      else HandleUnusual
  | 2 =>
      if u8 tag =? 18 then field_string ptr (fun s => m <| ACK_SEND_CHAT_message := s |>)
      else HandleUnusual
  | _ => HandleUnusual
  end.

Definition ACK_SEND_CHAT_InternalParse (depth : Z) (ptr : bytes) (m : ACK_SEND_CHAT) : parse_result (ACK_SEND_CHAT * bytes * Z) :=
  InternalParse ACK_SEND_CHAT_field ACK_SEND_CHAT_unknown (fun u m => m <| ACK_SEND_CHAT_unknown := u |>) ptr m.

Definition ACK_SEND_CHAT_InternalSerialize (size : Z) (m : ACK_SEND_CHAT) (target : bytes) : bytes :=
  let target := if negb (bool_decide (ACK_SEND_CHAT_user_name m = [])) then WriteStringMaybeAliased size 1 (ACK_SEND_CHAT_user_name m) target else target in
  let target := if negb (bool_decide (ACK_SEND_CHAT_message m = [])) then WriteStringMaybeAliased size 2 (ACK_SEND_CHAT_message m) target else target in
  if negb (bool_decide (ACK_SEND_CHAT_unknown m = [])) then InternalSerializeUnknownFieldsToArray size (ACK_SEND_CHAT_unknown m) target
  else target.

Definition ACK_SEND_CHAT_ByteSizeLong (m : ACK_SEND_CHAT) : Z :=
  let total_size := 0 in
  let total_size := if negb (bool_decide (ACK_SEND_CHAT_user_name m = [])) then u64 (total_size + (1 + StringSize (ACK_SEND_CHAT_user_name m))) else total_size in
  let total_size := if negb (bool_decide (ACK_SEND_CHAT_message m = [])) then u64 (total_size + (1 + StringSize (ACK_SEND_CHAT_message m))) else total_size in
  MaybeComputeUnknownFieldsSize (ACK_SEND_CHAT_unknown m) total_size.

Definition ACK_SEND_CHAT_MergeImpl (m from : ACK_SEND_CHAT) : ACK_SEND_CHAT :=
  let m := if negb (bool_decide (ACK_SEND_CHAT_user_name from = [])) then m <| ACK_SEND_CHAT_user_name := ACK_SEND_CHAT_user_name from |> else m in
  let m := if negb (bool_decide (ACK_SEND_CHAT_message from = [])) then m <| ACK_SEND_CHAT_message := ACK_SEND_CHAT_message from |> else m in
  m <| ACK_SEND_CHAT_unknown := ACK_SEND_CHAT_unknown m ++ ACK_SEND_CHAT_unknown from |>.

Definition ACK_SEND_CHAT_CopyFrom (m from : ACK_SEND_CHAT) : ACK_SEND_CHAT := ACK_SEND_CHAT_MergeImpl (ACK_SEND_CHAT_Clear m) from.

Definition ACK_SEND_CHAT_copy (from : ACK_SEND_CHAT) : ACK_SEND_CHAT :=
  mkACK_SEND_CHAT (if negb (bool_decide (ACK_SEND_CHAT_user_name from = [])) then ACK_SEND_CHAT_user_name from else []) (if negb (bool_decide (ACK_SEND_CHAT_message from = [])) then ACK_SEND_CHAT_message from else []) (ACK_SEND_CHAT_unknown from).

Definition ACK_SEND_CHAT_InternalSwap (m other : ACK_SEND_CHAT) : ACK_SEND_CHAT * ACK_SEND_CHAT :=
  (mkACK_SEND_CHAT (ACK_SEND_CHAT_user_name other) (ACK_SEND_CHAT_message other) (ACK_SEND_CHAT_unknown other),
   mkACK_SEND_CHAT (ACK_SEND_CHAT_user_name m) (ACK_SEND_CHAT_message m) (ACK_SEND_CHAT_unknown m)).

(** ** REQ_CONNECT_PONG *)

Definition REQ_CONNECT_PONG_Clear (m : REQ_CONNECT_PONG) : REQ_CONNECT_PONG :=
  m <| REQ_CONNECT_PONG_server_tick := 0 |> <| REQ_CONNECT_PONG_unknown := [] |>.

Definition REQ_CONNECT_PONG_field (tag : Z) (ptr : bytes) (m : REQ_CONNECT_PONG) : field_result REQ_CONNECT_PONG :=
  match Z.shiftr tag 3 with
  | 1 =>
      if u8 tag =? 8 then field_read (ReadVarint64 ptr) (fun v => m <| REQ_CONNECT_PONG_server_tick := v |>)
      else HandleUnusual
  | _ => HandleUnusual
  end.

Definition REQ_CONNECT_PONG_InternalParse (depth : Z) (ptr : bytes) (m : REQ_CONNECT_PONG) : parse_result (REQ_CONNECT_PONG * bytes * Z) :=
  InternalParse REQ_CONNECT_PONG_field REQ_CONNECT_PONG_unknown (fun u m => m <| REQ_CONNECT_PONG_unknown := u |>) ptr m.

Definition REQ_CONNECT_PONG_InternalSerialize (size : Z) (m : REQ_CONNECT_PONG) (target : bytes) : bytes :=
  let target := if negb (REQ_CONNECT_PONG_server_tick m =? 0) then WriteUInt64ToArray 1 (REQ_CONNECT_PONG_server_tick m) (EnsureSpace size target) else target in
  if negb (bool_decide (REQ_CONNECT_PONG_unknown m = [])) then InternalSerializeUnknownFieldsToArray size (REQ_CONNECT_PONG_unknown m) target
  else target.

Definition REQ_CONNECT_PONG_ByteSizeLong (m : REQ_CONNECT_PONG) : Z :=
  let total_size := 0 in
  let total_size := if negb (REQ_CONNECT_PONG_server_tick m =? 0) then u64 (total_size + UInt64SizePlusOne (REQ_CONNECT_PONG_server_tick m)) else total_size in
  MaybeComputeUnknownFieldsSize (REQ_CONNECT_PONG_unknown m) total_size.

Definition REQ_CONNECT_PONG_MergeImpl (m from : REQ_CONNECT_PONG) : REQ_CONNECT_PONG :=
  let m := if negb (REQ_CONNECT_PONG_server_tick from =? 0) then m <| REQ_CONNECT_PONG_server_tick := REQ_CONNECT_PONG_server_tick from |> else m in
  m <| REQ_CONNECT_PONG_unknown := REQ_CONNECT_PONG_unknown m ++ REQ_CONNECT_PONG_unknown from |>.

Definition REQ_CONNECT_PONG_CopyFrom (m from : REQ_CONNECT_PONG) : REQ_CONNECT_PONG := REQ_CONNECT_PONG_MergeImpl (REQ_CONNECT_PONG_Clear m) from.

Definition REQ_CONNECT_PONG_copy (from : REQ_CONNECT_PONG) : REQ_CONNECT_PONG :=
  mkREQ_CONNECT_PONG (REQ_CONNECT_PONG_server_tick from) (REQ_CONNECT_PONG_unknown from).

Definition REQ_CONNECT_PONG_InternalSwap (m other : REQ_CONNECT_PONG) : REQ_CONNECT_PONG * REQ_CONNECT_PONG :=
  (mkREQ_CONNECT_PONG (REQ_CONNECT_PONG_server_tick other) (REQ_CONNECT_PONG_unknown other),
   mkREQ_CONNECT_PONG (REQ_CONNECT_PONG_server_tick m) (REQ_CONNECT_PONG_unknown m)).

(** ** ACK_SEND_CONNECT_PING *)

Definition ACK_SEND_CONNECT_PING_Clear (m : ACK_SEND_CONNECT_PING) : ACK_SEND_CONNECT_PING :=
  m <| ACK_SEND_CONNECT_PING_server_tick := 0 |> <| ACK_SEND_CONNECT_PING_unknown := [] |>.

Definition ACK_SEND_CONNECT_PING_field (tag : Z) (ptr : bytes) (m : ACK_SEND_CONNECT_PING) : field_result ACK_SEND_CONNECT_PING :=
  match Z.shiftr tag 3 with
  | 1 =>
      if u8 tag =? 8 then field_read (ReadVarint64 ptr) (fun v => m <| ACK_SEND_CONNECT_PING_server_tick := v |>)
      else HandleUnusual
  | _ => HandleUnusual
  end.

Definition ACK_SEND_CONNECT_PING_InternalParse (depth : Z) (ptr : bytes) (m : ACK_SEND_CONNECT_PING) : parse_result (ACK_SEND_CONNECT_PING * bytes * Z) :=
  InternalParse ACK_SEND_CONNECT_PING_field ACK_SEND_CONNECT_PING_unknown (fun u m => m <| ACK_SEND_CONNECT_PING_unknown := u |>) ptr m.

Definition ACK_SEND_CONNECT_PING_InternalSerialize (size : Z) (m : ACK_SEND_CONNECT_PING) (target : bytes) : bytes :=
  let target := if negb (ACK_SEND_CONNECT_PING_server_tick m =? 0) then WriteUInt64ToArray 1 (ACK_SEND_CONNECT_PING_server_tick m) (EnsureSpace size target) else target in
  if negb (bool_decide (ACK_SEND_CONNECT_PING_unknown m = [])) then InternalSerializeUnknownFieldsToArray size (ACK_SEND_CONNECT_PING_unknown m) target
  else target.

Definition ACK_SEND_CONNECT_PING_ByteSizeLong (m : ACK_SEND_CONNECT_PING) : Z :=
  let total_size := 0 in
  let total_size := if negb (ACK_SEND_CONNECT_PING_server_tick m =? 0) then u64 (total_size + UInt64SizePlusOne (ACK_SEND_CONNECT_PING_server_tick m)) else total_size in
  MaybeComputeUnknownFieldsSize (ACK_SEND_CONNECT_PING_unknown m) total_size.

Definition ACK_SEND_CONNECT_PING_MergeImpl (m from : ACK_SEND_CONNECT_PING) : ACK_SEND_CONNECT_PING :=
  let m := if negb (ACK_SEND_CONNECT_PING_server_tick from =? 0) then m <| ACK_SEND_CONNECT_PING_server_tick := ACK_SEND_CONNECT_PING_server_tick from |> else m in
  m <| ACK_SEND_CONNECT_PING_unknown := ACK_SEND_CONNECT_PING_unknown m ++ ACK_SEND_CONNECT_PING_unknown from |>.

Definition ACK_SEND_CONNECT_PING_CopyFrom (m from : ACK_SEND_CONNECT_PING) : ACK_SEND_CONNECT_PING := ACK_SEND_CONNECT_PING_MergeImpl (ACK_SEND_CONNECT_PING_Clear m) from.

Definition ACK_SEND_CONNECT_PING_copy (from : ACK_SEND_CONNECT_PING) : ACK_SEND_CONNECT_PING :=
  mkACK_SEND_CONNECT_PING (ACK_SEND_CONNECT_PING_server_tick from) (ACK_SEND_CONNECT_PING_unknown from).

Definition ACK_SEND_CONNECT_PING_InternalSwap (m other : ACK_SEND_CONNECT_PING) : ACK_SEND_CONNECT_PING * ACK_SEND_CONNECT_PING :=
  (mkACK_SEND_CONNECT_PING (ACK_SEND_CONNECT_PING_server_tick other) (ACK_SEND_CONNECT_PING_unknown other),
   mkACK_SEND_CONNECT_PING (ACK_SEND_CONNECT_PING_server_tick m) (ACK_SEND_CONNECT_PING_unknown m)).

(** ** ACK_SERVER_FULL *)

Definition ACK_SERVER_FULL_Clear (m : ACK_SERVER_FULL) : ACK_SERVER_FULL :=
  m <| ACK_SERVER_FULL_max_session_count := 0 |> <| ACK_SERVER_FULL_unknown := [] |>.

Definition ACK_SERVER_FULL_field (tag : Z) (ptr : bytes) (m : ACK_SERVER_FULL) : field_result ACK_SERVER_FULL :=
  match Z.shiftr tag 3 with
  | 1 =>
      if u8 tag =? 8 then field_read (ReadVarint32 ptr) (fun v => m <| ACK_SERVER_FULL_max_session_count := v |>)
      else HandleUnusual
  | _ => HandleUnusual
  end.

Definition ACK_SERVER_FULL_InternalParse (depth : Z) (ptr : bytes) (m : ACK_SERVER_FULL) : parse_result (ACK_SERVER_FULL * bytes * Z) :=
  InternalParse ACK_SERVER_FULL_field ACK_SERVER_FULL_unknown (fun u m => m <| ACK_SERVER_FULL_unknown := u |>) ptr m.

Definition ACK_SERVER_FULL_InternalSerialize (size : Z) (m : ACK_SERVER_FULL) (target : bytes) : bytes :=
  let target := if negb (ACK_SERVER_FULL_max_session_count m =? 0) then WriteUInt32ToArray 1 (ACK_SERVER_FULL_max_session_count m) (EnsureSpace size target) else target in
  if negb (bool_decide (ACK_SERVER_FULL_unknown m = [])) then InternalSerializeUnknownFieldsToArray size (ACK_SERVER_FULL_unknown m) target
  else target.

Definition ACK_SERVER_FULL_ByteSizeLong (m : ACK_SERVER_FULL) : Z :=
  let total_size := 0 in
  let total_size := if negb (ACK_SERVER_FULL_max_session_count m =? 0) then u64 (total_size + UInt32SizePlusOne (ACK_SERVER_FULL_max_session_count m)) else total_size in
  MaybeComputeUnknownFieldsSize (ACK_SERVER_FULL_unknown m) total_size.

Definition ACK_SERVER_FULL_MergeImpl (m from : ACK_SERVER_FULL) : ACK_SERVER_FULL :=
  let m := if negb (ACK_SERVER_FULL_max_session_count from =? 0) then m <| ACK_SERVER_FULL_max_session_count := ACK_SERVER_FULL_max_session_count from |> else m in
  m <| ACK_SERVER_FULL_unknown := ACK_SERVER_FULL_unknown m ++ ACK_SERVER_FULL_unknown from |>.

Definition ACK_SERVER_FULL_CopyFrom (m from : ACK_SERVER_FULL) : ACK_SERVER_FULL := ACK_SERVER_FULL_MergeImpl (ACK_SERVER_FULL_Clear m) from.

Definition ACK_SERVER_FULL_copy (from : ACK_SERVER_FULL) : ACK_SERVER_FULL :=
  mkACK_SERVER_FULL (ACK_SERVER_FULL_max_session_count from) (ACK_SERVER_FULL_unknown from).

Definition ACK_SERVER_FULL_InternalSwap (m other : ACK_SERVER_FULL) : ACK_SERVER_FULL * ACK_SERVER_FULL :=
  (mkACK_SERVER_FULL (ACK_SERVER_FULL_max_session_count other) (ACK_SERVER_FULL_unknown other),
   mkACK_SERVER_FULL (ACK_SERVER_FULL_max_session_count m) (ACK_SERVER_FULL_unknown m)).

(** ** The entry points for a packet *)

Definition packet_ByteSizeLong (p : Packet) : Z :=
  match p with
  | P_REQ_LOGIN m => REQ_LOGIN_ByteSizeLong m
  | P_ACK_LOGIN m => ACK_LOGIN_ByteSizeLong m
  | P_REQ_BOT_LOGIN m => REQ_BOT_LOGIN_ByteSizeLong m
  | P_ACK_BOT_LOGIN m => ACK_BOT_LOGIN_ByteSizeLong m
  | P_REQ_LOGOUT m => REQ_LOGOUT_ByteSizeLong m
  | P_ACK_LOGOUT m => ACK_LOGOUT_ByteSizeLong m
  | P_REQ_GET_ROOM_INFO m => REQ_GET_ROOM_INFO_ByteSizeLong m
  | P_ACK_GET_ROOM_INFO m => ACK_GET_ROOM_INFO_ByteSizeLong m
  | P_REQ_ENTER_ROOM m => REQ_ENTER_ROOM_ByteSizeLong m
  | P_ACK_ENTER_ROOM m => ACK_ENTER_ROOM_ByteSizeLong m
  | P_REQ_EXIT_ROOM m => REQ_EXIT_ROOM_ByteSizeLong m
  | P_ACK_EXIT_ROOM m => ACK_EXIT_ROOM_ByteSizeLong m
  | P_REQ_CHAT m => REQ_CHAT_ByteSizeLong m
  | P_ACK_CHAT m => ACK_CHAT_ByteSizeLong m
  | P_ACK_SEND_CHAT m => ACK_SEND_CHAT_ByteSizeLong m
  | P_REQ_CONNECT_PONG m => REQ_CONNECT_PONG_ByteSizeLong m
  | P_ACK_SEND_CONNECT_PING m => ACK_SEND_CONNECT_PING_ByteSizeLong m
  | P_ACK_SERVER_FULL m => ACK_SERVER_FULL_ByteSizeLong m
  end.

Definition packet_InternalSerialize (p : Packet) (size : Z) (target : bytes) : bytes :=
  match p with
  | P_REQ_LOGIN m => REQ_LOGIN_InternalSerialize size m target
  | P_ACK_LOGIN m => ACK_LOGIN_InternalSerialize size m target
  | P_REQ_BOT_LOGIN m => REQ_BOT_LOGIN_InternalSerialize size m target
  | P_ACK_BOT_LOGIN m => ACK_BOT_LOGIN_InternalSerialize size m target
  | P_REQ_LOGOUT m => REQ_LOGOUT_InternalSerialize size m target
  | P_ACK_LOGOUT m => ACK_LOGOUT_InternalSerialize size m target
  | P_REQ_GET_ROOM_INFO m => REQ_GET_ROOM_INFO_InternalSerialize size m target
  | P_ACK_GET_ROOM_INFO m => ACK_GET_ROOM_INFO_InternalSerialize size m target
  | P_REQ_ENTER_ROOM m => REQ_ENTER_ROOM_InternalSerialize size m target
  | P_ACK_ENTER_ROOM m => ACK_ENTER_ROOM_InternalSerialize size m target
  | P_REQ_EXIT_ROOM m => REQ_EXIT_ROOM_InternalSerialize size m target
  | P_ACK_EXIT_ROOM m => ACK_EXIT_ROOM_InternalSerialize size m target
  | P_REQ_CHAT m => REQ_CHAT_InternalSerialize size m target
  | P_ACK_CHAT m => ACK_CHAT_InternalSerialize size m target
  | P_ACK_SEND_CHAT m => ACK_SEND_CHAT_InternalSerialize size m target
  | P_REQ_CONNECT_PONG m => REQ_CONNECT_PONG_InternalSerialize size m target
  | P_ACK_SEND_CONNECT_PING m => ACK_SEND_CONNECT_PING_InternalSerialize size m target
  | P_ACK_SERVER_FULL m => ACK_SERVER_FULL_InternalSerialize size m target
  end.

Definition packet_SerializeToArray (p : Packet) (n : Z) : option bytes :=
  MessageLite_SerializeToArray (packet_ByteSizeLong p) (packet_InternalSerialize p) n.

(** [ParseFromArray] on a fresh message of the class the packet id stands for. *)
Definition parse_fresh {M} (parse : Z -> bytes -> M -> parse_result (M * bytes * Z)) (m : M) (bs : bytes)
    : option M :=
  MessageLite_ParseFromArray M (fun bs => parse default_recursion_limit bs m) bs.

Definition packet_ParseFromArray (id : Z) (bs : bytes) : option Packet :=
  if id =? PKT_REQ_LOGIN then P_REQ_LOGIN <$> parse_fresh REQ_LOGIN_InternalParse REQ_LOGIN_default bs else
  if id =? PKT_ACK_LOGIN then P_ACK_LOGIN <$> parse_fresh ACK_LOGIN_InternalParse ACK_LOGIN_default bs else
  if id =? PKT_REQ_BOT_LOGIN then P_REQ_BOT_LOGIN <$> parse_fresh REQ_BOT_LOGIN_InternalParse REQ_BOT_LOGIN_default bs else
  if id =? PKT_ACK_BOT_LOGIN then P_ACK_BOT_LOGIN <$> parse_fresh ACK_BOT_LOGIN_InternalParse ACK_BOT_LOGIN_default bs else
  if id =? PKT_REQ_LOGOUT then P_REQ_LOGOUT <$> parse_fresh REQ_LOGOUT_InternalParse REQ_LOGOUT_default bs else
  if id =? PKT_ACK_LOGOUT then P_ACK_LOGOUT <$> parse_fresh ACK_LOGOUT_InternalParse ACK_LOGOUT_default bs else
  if id =? PKT_REQ_GET_ROOM_INFO then P_REQ_GET_ROOM_INFO <$> parse_fresh REQ_GET_ROOM_INFO_InternalParse REQ_GET_ROOM_INFO_default bs else
  if id =? PKT_ACK_GET_ROOM_INFO then P_ACK_GET_ROOM_INFO <$> parse_fresh ACK_GET_ROOM_INFO_InternalParse ACK_GET_ROOM_INFO_default bs else
  if id =? PKT_REQ_ENTER_ROOM then P_REQ_ENTER_ROOM <$> parse_fresh REQ_ENTER_ROOM_InternalParse REQ_ENTER_ROOM_default bs else
  if id =? PKT_ACK_ENTER_ROOM then P_ACK_ENTER_ROOM <$> parse_fresh ACK_ENTER_ROOM_InternalParse ACK_ENTER_ROOM_default bs else
  if id =? PKT_REQ_EXIT_ROOM then P_REQ_EXIT_ROOM <$> parse_fresh REQ_EXIT_ROOM_InternalParse REQ_EXIT_ROOM_default bs else
  if id =? PKT_ACK_EXIT_ROOM then P_ACK_EXIT_ROOM <$> parse_fresh ACK_EXIT_ROOM_InternalParse ACK_EXIT_ROOM_default bs else
  if id =? PKT_REQ_CHAT then P_REQ_CHAT <$> parse_fresh REQ_CHAT_InternalParse REQ_CHAT_default bs else
  if id =? PKT_ACK_CHAT then P_ACK_CHAT <$> parse_fresh ACK_CHAT_InternalParse ACK_CHAT_default bs else
  if id =? PKT_ACK_SEND_CHAT then P_ACK_SEND_CHAT <$> parse_fresh ACK_SEND_CHAT_InternalParse ACK_SEND_CHAT_default bs else
  if id =? PKT_REQ_CONNECT_PONG then P_REQ_CONNECT_PONG <$> parse_fresh REQ_CONNECT_PONG_InternalParse REQ_CONNECT_PONG_default bs else
  if id =? PKT_ACK_SEND_CONNECT_PING then P_ACK_SEND_CONNECT_PING <$> parse_fresh ACK_SEND_CONNECT_PING_InternalParse ACK_SEND_CONNECT_PING_default bs else
  if id =? PKT_ACK_SERVER_FULL then P_ACK_SERVER_FULL <$> parse_fresh ACK_SERVER_FULL_InternalParse ACK_SERVER_FULL_default bs else
  None.

#[export] Instance pb_codec : PacketCodec := {|
  ByteSizeLong := packet_ByteSizeLong;
  SerializeToArray := packet_SerializeToArray;
  ParseFromArray := packet_ParseFromArray
|}.

(** The virtual [_InternalParse], [MergeImpl] and [CopyFrom] of the message a packet holds. *)
Definition packet_InternalParse (p : Packet) (depth : Z) (ptr : bytes) : parse_result (Packet * bytes * Z) :=
  match p with
  | P_REQ_LOGIN m => ' (m', q, last) <-- REQ_LOGIN_InternalParse depth ptr m ;; Parsed (P_REQ_LOGIN m', q, last)
  | P_ACK_LOGIN m => ' (m', q, last) <-- ACK_LOGIN_InternalParse depth ptr m ;; Parsed (P_ACK_LOGIN m', q, last)
  | P_REQ_BOT_LOGIN m => ' (m', q, last) <-- REQ_BOT_LOGIN_InternalParse depth ptr m ;; Parsed (P_REQ_BOT_LOGIN m', q, last)
  | P_ACK_BOT_LOGIN m => ' (m', q, last) <-- ACK_BOT_LOGIN_InternalParse depth ptr m ;; Parsed (P_ACK_BOT_LOGIN m', q, last)
  | P_REQ_LOGOUT m => ' (m', q, last) <-- REQ_LOGOUT_InternalParse depth ptr m ;; Parsed (P_REQ_LOGOUT m', q, last)
  | P_ACK_LOGOUT m => ' (m', q, last) <-- ACK_LOGOUT_InternalParse depth ptr m ;; Parsed (P_ACK_LOGOUT m', q, last)
  | P_REQ_GET_ROOM_INFO m => ' (m', q, last) <-- REQ_GET_ROOM_INFO_InternalParse depth ptr m ;; Parsed (P_REQ_GET_ROOM_INFO m', q, last)
  | P_ACK_GET_ROOM_INFO m => ' (m', q, last) <-- ACK_GET_ROOM_INFO_InternalParse depth ptr m ;; Parsed (P_ACK_GET_ROOM_INFO m', q, last)
  | P_REQ_ENTER_ROOM m => ' (m', q, last) <-- REQ_ENTER_ROOM_InternalParse depth ptr m ;; Parsed (P_REQ_ENTER_ROOM m', q, last)
  | P_ACK_ENTER_ROOM m => ' (m', q, last) <-- ACK_ENTER_ROOM_InternalParse depth ptr m ;; Parsed (P_ACK_ENTER_ROOM m', q, last)
  | P_REQ_EXIT_ROOM m => ' (m', q, last) <-- REQ_EXIT_ROOM_InternalParse depth ptr m ;; Parsed (P_REQ_EXIT_ROOM m', q, last)
  | P_ACK_EXIT_ROOM m => ' (m', q, last) <-- ACK_EXIT_ROOM_InternalParse depth ptr m ;; Parsed (P_ACK_EXIT_ROOM m', q, last)
  | P_REQ_CHAT m => ' (m', q, last) <-- REQ_CHAT_InternalParse depth ptr m ;; Parsed (P_REQ_CHAT m', q, last)
  | P_ACK_CHAT m => ' (m', q, last) <-- ACK_CHAT_InternalParse depth ptr m ;; Parsed (P_ACK_CHAT m', q, last)
  | P_ACK_SEND_CHAT m => ' (m', q, last) <-- ACK_SEND_CHAT_InternalParse depth ptr m ;; Parsed (P_ACK_SEND_CHAT m', q, last)
  | P_REQ_CONNECT_PONG m => ' (m', q, last) <-- REQ_CONNECT_PONG_InternalParse depth ptr m ;; Parsed (P_REQ_CONNECT_PONG m', q, last)
  | P_ACK_SEND_CONNECT_PING m => ' (m', q, last) <-- ACK_SEND_CONNECT_PING_InternalParse depth ptr m ;; Parsed (P_ACK_SEND_CONNECT_PING m', q, last)
  | P_ACK_SERVER_FULL m => ' (m', q, last) <-- ACK_SERVER_FULL_InternalParse depth ptr m ;; Parsed (P_ACK_SERVER_FULL m', q, last)
  end.

Definition packet_MergeImpl (p from : Packet) : Packet :=
  match p, from with
  | P_REQ_LOGIN m, P_REQ_LOGIN f => P_REQ_LOGIN (REQ_LOGIN_MergeImpl m f)
  | P_ACK_LOGIN m, P_ACK_LOGIN f => P_ACK_LOGIN (ACK_LOGIN_MergeImpl m f)
  | P_REQ_BOT_LOGIN m, P_REQ_BOT_LOGIN f => P_REQ_BOT_LOGIN (REQ_BOT_LOGIN_MergeImpl m f)
  | P_ACK_BOT_LOGIN m, P_ACK_BOT_LOGIN f => P_ACK_BOT_LOGIN (ACK_BOT_LOGIN_MergeImpl m f)
  | P_REQ_LOGOUT m, P_REQ_LOGOUT f => P_REQ_LOGOUT (REQ_LOGOUT_MergeImpl m f)
  | P_ACK_LOGOUT m, P_ACK_LOGOUT f => P_ACK_LOGOUT (ACK_LOGOUT_MergeImpl m f)
  | P_REQ_GET_ROOM_INFO m, P_REQ_GET_ROOM_INFO f => P_REQ_GET_ROOM_INFO (REQ_GET_ROOM_INFO_MergeFrom m f)
  | P_ACK_GET_ROOM_INFO m, P_ACK_GET_ROOM_INFO f => P_ACK_GET_ROOM_INFO (ACK_GET_ROOM_INFO_MergeImpl m f)
  | P_REQ_ENTER_ROOM m, P_REQ_ENTER_ROOM f => P_REQ_ENTER_ROOM (REQ_ENTER_ROOM_MergeImpl m f)
  | P_ACK_ENTER_ROOM m, P_ACK_ENTER_ROOM f => P_ACK_ENTER_ROOM (ACK_ENTER_ROOM_MergeImpl m f)
  | P_REQ_EXIT_ROOM m, P_REQ_EXIT_ROOM f => P_REQ_EXIT_ROOM (REQ_EXIT_ROOM_MergeFrom m f)
  | P_ACK_EXIT_ROOM m, P_ACK_EXIT_ROOM f => P_ACK_EXIT_ROOM (ACK_EXIT_ROOM_MergeImpl m f)
  | P_REQ_CHAT m, P_REQ_CHAT f => P_REQ_CHAT (REQ_CHAT_MergeImpl m f)
  | P_ACK_CHAT m, P_ACK_CHAT f => P_ACK_CHAT (ACK_CHAT_MergeImpl m f)
  | P_ACK_SEND_CHAT m, P_ACK_SEND_CHAT f => P_ACK_SEND_CHAT (ACK_SEND_CHAT_MergeImpl m f)
  | P_REQ_CONNECT_PONG m, P_REQ_CONNECT_PONG f => P_REQ_CONNECT_PONG (REQ_CONNECT_PONG_MergeImpl m f)
  | P_ACK_SEND_CONNECT_PING m, P_ACK_SEND_CONNECT_PING f => P_ACK_SEND_CONNECT_PING (ACK_SEND_CONNECT_PING_MergeImpl m f)
  | P_ACK_SERVER_FULL m, P_ACK_SERVER_FULL f => P_ACK_SERVER_FULL (ACK_SERVER_FULL_MergeImpl m f)
  | _, _ => p
  end.

Definition packet_CopyFrom (p from : Packet) : Packet :=
  match p, from with
  | P_REQ_LOGIN m, P_REQ_LOGIN f => P_REQ_LOGIN (REQ_LOGIN_CopyFrom m f)
  | P_ACK_LOGIN m, P_ACK_LOGIN f => P_ACK_LOGIN (ACK_LOGIN_CopyFrom m f)
  | P_REQ_BOT_LOGIN m, P_REQ_BOT_LOGIN f => P_REQ_BOT_LOGIN (REQ_BOT_LOGIN_CopyFrom m f)
  | P_ACK_BOT_LOGIN m, P_ACK_BOT_LOGIN f => P_ACK_BOT_LOGIN (ACK_BOT_LOGIN_CopyFrom m f)
  | P_REQ_LOGOUT m, P_REQ_LOGOUT f => P_REQ_LOGOUT (REQ_LOGOUT_CopyFrom m f)
  | P_ACK_LOGOUT m, P_ACK_LOGOUT f => P_ACK_LOGOUT (ACK_LOGOUT_CopyFrom m f)
  | P_REQ_GET_ROOM_INFO m, P_REQ_GET_ROOM_INFO f => P_REQ_GET_ROOM_INFO (REQ_GET_ROOM_INFO_CopyFrom m f)
  | P_ACK_GET_ROOM_INFO m, P_ACK_GET_ROOM_INFO f => P_ACK_GET_ROOM_INFO (ACK_GET_ROOM_INFO_CopyFrom m f)
  | P_REQ_ENTER_ROOM m, P_REQ_ENTER_ROOM f => P_REQ_ENTER_ROOM (REQ_ENTER_ROOM_CopyFrom m f)
  | P_ACK_ENTER_ROOM m, P_ACK_ENTER_ROOM f => P_ACK_ENTER_ROOM (ACK_ENTER_ROOM_CopyFrom m f)
  | P_REQ_EXIT_ROOM m, P_REQ_EXIT_ROOM f => P_REQ_EXIT_ROOM (REQ_EXIT_ROOM_CopyFrom m f)
  | P_ACK_EXIT_ROOM m, P_ACK_EXIT_ROOM f => P_ACK_EXIT_ROOM (ACK_EXIT_ROOM_CopyFrom m f)
  | P_REQ_CHAT m, P_REQ_CHAT f => P_REQ_CHAT (REQ_CHAT_CopyFrom m f)
  | P_ACK_CHAT m, P_ACK_CHAT f => P_ACK_CHAT (ACK_CHAT_CopyFrom m f)
  | P_ACK_SEND_CHAT m, P_ACK_SEND_CHAT f => P_ACK_SEND_CHAT (ACK_SEND_CHAT_CopyFrom m f)
  | P_REQ_CONNECT_PONG m, P_REQ_CONNECT_PONG f => P_REQ_CONNECT_PONG (REQ_CONNECT_PONG_CopyFrom m f)
  | P_ACK_SEND_CONNECT_PING m, P_ACK_SEND_CONNECT_PING f => P_ACK_SEND_CONNECT_PING (ACK_SEND_CONNECT_PING_CopyFrom m f)
  | P_ACK_SERVER_FULL m, P_ACK_SERVER_FULL f => P_ACK_SERVER_FULL (ACK_SERVER_FULL_CopyFrom m f)
  | _, _ => p
  end.

(** The copy constructor of the message a packet holds. *)
Definition packet_copy (from : Packet) : Packet :=
  match from with
  | P_REQ_LOGIN f => P_REQ_LOGIN (REQ_LOGIN_copy f)
  | P_ACK_LOGIN f => P_ACK_LOGIN (ACK_LOGIN_copy f)
  | P_REQ_BOT_LOGIN f => P_REQ_BOT_LOGIN (REQ_BOT_LOGIN_copy f)
  | P_ACK_BOT_LOGIN f => P_ACK_BOT_LOGIN (ACK_BOT_LOGIN_copy f)
  | P_REQ_LOGOUT f => P_REQ_LOGOUT (REQ_LOGOUT_copy f)
  | P_ACK_LOGOUT f => P_ACK_LOGOUT (ACK_LOGOUT_copy f)
  | P_REQ_GET_ROOM_INFO f => P_REQ_GET_ROOM_INFO (REQ_GET_ROOM_INFO_copy f)
  | P_ACK_GET_ROOM_INFO f => P_ACK_GET_ROOM_INFO (ACK_GET_ROOM_INFO_copy f)
  | P_REQ_ENTER_ROOM f => P_REQ_ENTER_ROOM (REQ_ENTER_ROOM_copy f)
  | P_ACK_ENTER_ROOM f => P_ACK_ENTER_ROOM (ACK_ENTER_ROOM_copy f)
  | P_REQ_EXIT_ROOM f => P_REQ_EXIT_ROOM (REQ_EXIT_ROOM_copy f)
  | P_ACK_EXIT_ROOM f => P_ACK_EXIT_ROOM (ACK_EXIT_ROOM_copy f)
  | P_REQ_CHAT f => P_REQ_CHAT (REQ_CHAT_copy f)
  | P_ACK_CHAT f => P_ACK_CHAT (ACK_CHAT_copy f)
  | P_ACK_SEND_CHAT f => P_ACK_SEND_CHAT (ACK_SEND_CHAT_copy f)
  | P_REQ_CONNECT_PONG f => P_REQ_CONNECT_PONG (REQ_CONNECT_PONG_copy f)
  | P_ACK_SEND_CONNECT_PING f => P_ACK_SEND_CONNECT_PING (ACK_SEND_CONNECT_PING_copy f)
  | P_ACK_SERVER_FULL f => P_ACK_SERVER_FULL (ACK_SERVER_FULL_copy f)
  end.

(** ** Encodings *)

Definition RoomInfo_encoding (m : RoomInfo) : bytes :=
  enc_signed 1 (RoomInfo_room_id m) ++ enc_signed 2 (RoomInfo_cur_enter_user_count m) ++ enc_signed 3 (RoomInfo_cur_enter_max_count m) ++ [].

Definition REQ_LOGIN_encoding (m : REQ_LOGIN) : bytes :=
  enc_bool 1 (REQ_LOGIN_is_create m) ++ enc_string 2 (REQ_LOGIN_id m) ++ enc_string 3 (REQ_LOGIN_pw m) ++ enc_string 4 (REQ_LOGIN_name m) ++ [].

Definition ACK_LOGIN_encoding (m : ACK_LOGIN) : bytes :=
  enc_varint 1 (ACK_LOGIN_idx m) ++ enc_string 2 (ACK_LOGIN_user_name m) ++ enc_signed 3 (ACK_LOGIN_result m) ++ [].

Definition REQ_BOT_LOGIN_encoding (m : REQ_BOT_LOGIN) : bytes :=
  enc_bool 1 (REQ_BOT_LOGIN_is_create m) ++ enc_string 2 (REQ_BOT_LOGIN_id m) ++ enc_string 3 (REQ_BOT_LOGIN_pw m) ++ enc_string 4 (REQ_BOT_LOGIN_name m) ++ [].

Definition ACK_BOT_LOGIN_encoding (m : ACK_BOT_LOGIN) : bytes :=
  enc_varint 1 (ACK_BOT_LOGIN_idx m) ++ enc_string 2 (ACK_BOT_LOGIN_user_name m) ++ enc_signed 3 (ACK_BOT_LOGIN_result m) ++ [].

Definition REQ_LOGOUT_encoding (m : REQ_LOGOUT) : bytes :=
  enc_varint 1 (REQ_LOGOUT_idx m) ++ [].

Definition ACK_LOGOUT_encoding (m : ACK_LOGOUT) : bytes :=
  enc_signed 1 (ACK_LOGOUT_result m) ++ [].

Definition ACK_GET_ROOM_INFO_encoding (m : ACK_GET_ROOM_INFO) : bytes :=
  concat ((fun r => enc_message 1 (RoomInfo_encoding r)) <$> ACK_GET_ROOM_INFO_room_info_list m).

Definition REQ_ENTER_ROOM_encoding (m : REQ_ENTER_ROOM) : bytes :=
  enc_signed 1 (REQ_ENTER_ROOM_room_id m) ++ [].

Definition ACK_ENTER_ROOM_encoding (m : ACK_ENTER_ROOM) : bytes :=
  enc_signed 1 (ACK_ENTER_ROOM_room_id m) ++ enc_signed 2 (ACK_ENTER_ROOM_result m) ++ [].

Definition ACK_EXIT_ROOM_encoding (m : ACK_EXIT_ROOM) : bytes :=
  enc_signed 1 (ACK_EXIT_ROOM_result m) ++ [].

Definition REQ_CHAT_encoding (m : REQ_CHAT) : bytes :=
  enc_string 1 (REQ_CHAT_message m) ++ enc_signed 2 (REQ_CHAT_chat_state m) ++ enc_signed 3 (REQ_CHAT_room_id m) ++ enc_string 4 (REQ_CHAT_target_name m) ++ [].

Definition ACK_CHAT_encoding (m : ACK_CHAT) : bytes :=
  enc_signed 1 (ACK_CHAT_result m) ++ enc_varint 2 (ACK_CHAT_target_count m) ++ [].

Definition ACK_SEND_CHAT_encoding (m : ACK_SEND_CHAT) : bytes :=
  enc_string 1 (ACK_SEND_CHAT_user_name m) ++ enc_string 2 (ACK_SEND_CHAT_message m) ++ [].

Definition REQ_CONNECT_PONG_encoding (m : REQ_CONNECT_PONG) : bytes :=
  enc_varint 1 (REQ_CONNECT_PONG_server_tick m) ++ [].

Definition ACK_SEND_CONNECT_PING_encoding (m : ACK_SEND_CONNECT_PING) : bytes :=
  enc_varint 1 (ACK_SEND_CONNECT_PING_server_tick m) ++ [].

Definition ACK_SERVER_FULL_encoding (m : ACK_SERVER_FULL) : bytes :=
  enc_varint 1 (ACK_SERVER_FULL_max_session_count m) ++ [].

Definition packet_encoding (p : Packet) : bytes :=
  match p with
  | P_REQ_LOGIN m => REQ_LOGIN_encoding m
  | P_ACK_LOGIN m => ACK_LOGIN_encoding m
  | P_REQ_BOT_LOGIN m => REQ_BOT_LOGIN_encoding m
  | P_ACK_BOT_LOGIN m => ACK_BOT_LOGIN_encoding m
  | P_REQ_LOGOUT m => REQ_LOGOUT_encoding m
  | P_ACK_LOGOUT m => ACK_LOGOUT_encoding m
  | P_REQ_GET_ROOM_INFO m => []
  | P_ACK_GET_ROOM_INFO m => ACK_GET_ROOM_INFO_encoding m
  | P_REQ_ENTER_ROOM m => REQ_ENTER_ROOM_encoding m
  | P_ACK_ENTER_ROOM m => ACK_ENTER_ROOM_encoding m
  | P_REQ_EXIT_ROOM m => []
  | P_ACK_EXIT_ROOM m => ACK_EXIT_ROOM_encoding m
  | P_REQ_CHAT m => REQ_CHAT_encoding m
  | P_ACK_CHAT m => ACK_CHAT_encoding m
  | P_ACK_SEND_CHAT m => ACK_SEND_CHAT_encoding m
  | P_REQ_CONNECT_PONG m => REQ_CONNECT_PONG_encoding m
  | P_ACK_SEND_CONNECT_PING m => ACK_SEND_CONNECT_PING_encoding m
  | P_ACK_SERVER_FULL m => ACK_SERVER_FULL_encoding m
  end.

Context {laws : PbRuntimeLaws rt}.

(** *** RoomInfo *)

Lemma RoomInfo_size m : RoomInfo_wf m -> RoomInfo_ByteSizeLong m = zlen (RoomInfo_encoding m) /\ 0 <= zlen (RoomInfo_encoding m) <= 11 + 11 + 11.
Proof using laws.
  intros (Hroom_id & Hcur_enter_user_count & Hcur_enter_max_count & Hunk). pose proof (enc_signed_bound 1 (RoomInfo_room_id m)).
  pose proof (enc_signed_bound 2 (RoomInfo_cur_enter_user_count m)).
  pose proof (enc_signed_bound 3 (RoomInfo_cur_enter_max_count m)).
  unfold RoomInfo_encoding. autorewrite with zlen. split; [|lia].
  unfold RoomInfo_ByteSizeLong, UInt32SizePlusOne, UInt64SizePlusOne. cbv zeta.
  rewrite (size_signed_step 1 (RoomInfo_room_id m)) by lia.
  rewrite (size_signed_step 2 (RoomInfo_cur_enter_user_count m)) by lia.
  rewrite (size_signed_step 3 (RoomInfo_cur_enter_max_count m)) by lia.
  rewrite Hunk, unknown_size_empty. lia.
Qed.

Lemma RoomInfo_serialize m size target :
  RoomInfo_wf m -> zlen target + zlen (RoomInfo_encoding m) <= size ->
  RoomInfo_InternalSerialize size m target = target ++ RoomInfo_encoding m.
Proof using laws.
  intros (Hroom_id & Hcur_enter_user_count & Hcur_enter_max_count & Hunk) Hfit. pose proof (enc_signed_bound 1 (RoomInfo_room_id m)).
  pose proof (enc_signed_bound 2 (RoomInfo_cur_enter_user_count m)).
  pose proof (enc_signed_bound 3 (RoomInfo_cur_enter_max_count m)).
  unfold RoomInfo_encoding in *. autorewrite with zlen in Hfit.
  unfold RoomInfo_InternalSerialize, WriteUInt32ToArray, WriteUInt64ToArray. cbv zeta.
  rewrite (write_signed_step 1 (RoomInfo_room_id m)) by (autorewrite with zlen; lia).
  rewrite (write_signed_step 2 (RoomInfo_cur_enter_user_count m)) by (autorewrite with zlen; lia).
  rewrite (write_signed_step 3 (RoomInfo_cur_enter_max_count m)) by (autorewrite with zlen; lia).
  rewrite bool_decide_eq_true_2 by done. cbn [negb]. by rewrite app_nil_r, <- ?app_assoc.
Qed.

Lemma RoomInfo_parses m from :
  RoomInfo_wf from ->
  parses RoomInfo_field RoomInfo_unknown (fun u m => m <| RoomInfo_unknown := u |>) (RoomInfo_encoding from) m
    (Parsed (RoomInfo_MergeImpl m from, [], 0)).
Proof using laws.
  intros (Hroom_id & Hcur_enter_user_count & Hcur_enter_max_count & Hunk).
  unfold RoomInfo_encoding.
  set (m1 := if negb (RoomInfo_room_id from =? 0) then m <| RoomInfo_room_id := RoomInfo_room_id from |> else m).
  set (m2 := if negb (RoomInfo_cur_enter_user_count from =? 0) then m1 <| RoomInfo_cur_enter_user_count := RoomInfo_cur_enter_user_count from |> else m1).
  set (m3 := if negb (RoomInfo_cur_enter_max_count from =? 0) then m2 <| RoomInfo_cur_enter_max_count := RoomInfo_cur_enter_max_count from |> else m2).
  apply (parses_signed _ _ _ 1 (RoomInfo_room_id from) _ m m1); [lia|..].
  { intros Hne. rewrite (eq_refl : RoomInfo_field (1 * 8) =
      fun p m => field_read (ReadVarint32 p) (fun v => m <| RoomInfo_room_id := i32 v |>)).
    rewrite ReadVarint32_varint by apply u64_range. cbn [field_read]. rewrite i32_u32_u64 by lia. subst m1.
    by rewrite (proj2 (Z.eqb_neq _ _) Hne). }
  { intros H0. subst m1. by rewrite (proj2 (Z.eqb_eq _ _) H0). }
  apply (parses_signed _ _ _ 2 (RoomInfo_cur_enter_user_count from) _ m1 m2); [lia|..].
  { intros Hne. rewrite (eq_refl : RoomInfo_field (2 * 8) =
      fun p m => field_read (ReadVarint32 p) (fun v => m <| RoomInfo_cur_enter_user_count := i32 v |>)).
    rewrite ReadVarint32_varint by apply u64_range. cbn [field_read]. rewrite i32_u32_u64 by lia. subst m2.
    by rewrite (proj2 (Z.eqb_neq _ _) Hne). }
  { intros H0. subst m2. by rewrite (proj2 (Z.eqb_eq _ _) H0). }
  apply (parses_signed _ _ _ 3 (RoomInfo_cur_enter_max_count from) _ m2 m3); [lia|..].
  { intros Hne. rewrite (eq_refl : RoomInfo_field (3 * 8) =
      fun p m => field_read (ReadVarint32 p) (fun v => m <| RoomInfo_cur_enter_max_count := i32 v |>)).
    rewrite ReadVarint32_varint by apply u64_range. cbn [field_read]. rewrite i32_u32_u64 by lia. subst m3.
    by rewrite (proj2 (Z.eqb_neq _ _) Hne). }
  { intros H0. subst m3. by rewrite (proj2 (Z.eqb_eq _ _) H0). }
  replace (RoomInfo_MergeImpl m from) with m3; [apply parses_done|].
  unfold RoomInfo_MergeImpl. rewrite Hunk. destruct m. subst m1 m2 m3.
  repeat case_match; simpl; by rewrite app_nil_r.
Qed.

Lemma RoomInfo_parse depth m from :
  RoomInfo_wf from -> RoomInfo_InternalParse depth (RoomInfo_encoding from) m = Parsed (RoomInfo_MergeImpl m from, [], 0).
Proof using laws. intros. by apply InternalParse_spec, RoomInfo_parses. Qed.

Lemma RoomInfo_bytes m : RoomInfo_wf m -> Forall is_byte (RoomInfo_encoding m).
Proof.
  intros (Hroom_id & Hcur_enter_user_count & Hcur_enter_max_count & Hunk). unfold RoomInfo_encoding.
  repeat apply Forall_app_2; try apply Forall_nil_2;
    first [apply enc_bool_bytes; lia | apply enc_varint_bytes; lia | apply enc_signed_bytes; lia
          | apply enc_string_bytes; [lia|done]].
Qed.

Lemma RoomInfo_merge_default m : RoomInfo_wf m -> RoomInfo_MergeImpl RoomInfo_default m = m.
Proof.
  intros (Hroom_id & Hcur_enter_user_count & Hcur_enter_max_count & Hunk). unfold RoomInfo_MergeImpl, RoomInfo_default. destruct m; simpl in *. subst.
  repeat (case_bool_decide || case_match); simplify_eq/=; bool_lia; by subst.
Qed.

Lemma RoomInfo_copied m from : RoomInfo_wf from -> RoomInfo_CopyFrom m from = from.
Proof. apply (RoomInfo_merge_default from). Qed.

Lemma RoomInfo_copy_same from : RoomInfo_copy from = from.
Proof. destruct from. unfold RoomInfo_copy. simpl. by repeat case_bool_decide; subst. Qed.

Lemma RoomInfo_progress : field_progress RoomInfo_field.
Proof using laws.
  intros tag p m. unfold RoomInfo_field. field_cases.
Qed.

(** *** REQ_LOGIN *)

Lemma REQ_LOGIN_size m : REQ_LOGIN_wf m -> REQ_LOGIN_ByteSizeLong m = zlen (REQ_LOGIN_encoding m) /\ 0 <= zlen (REQ_LOGIN_encoding m) <= 11 + (8 + zlen (REQ_LOGIN_id m)) + (8 + zlen (REQ_LOGIN_pw m)) + (8 + zlen (REQ_LOGIN_name m)).
Proof using laws.
  intros (Hid & Hpw & Hname & Hunk). pose proof (enc_bool_bound 1 (REQ_LOGIN_is_create m)).
  destruct Hid as (Hbid & Hlid & Huid). pose proof (enc_string_bound 2 (REQ_LOGIN_id m) Hlid).
  destruct Hpw as (Hbpw & Hlpw & Hupw). pose proof (enc_string_bound 3 (REQ_LOGIN_pw m) Hlpw).
  destruct Hname as (Hbname & Hlname & Huname). pose proof (enc_string_bound 4 (REQ_LOGIN_name m) Hlname).
  unfold REQ_LOGIN_encoding. autorewrite with zlen. split; [|lia].
  unfold REQ_LOGIN_ByteSizeLong, UInt32SizePlusOne, UInt64SizePlusOne. cbv zeta.
  rewrite (size_string_step 2 (REQ_LOGIN_id m)) by lia.
  rewrite (size_string_step 3 (REQ_LOGIN_pw m)) by lia.
  rewrite (size_string_step 4 (REQ_LOGIN_name m)) by lia.
  rewrite (size_bool_step 1 (REQ_LOGIN_is_create m)) by lia.
  rewrite Hunk, unknown_size_empty. lia.
Qed.

Lemma REQ_LOGIN_serialize m size target :
  REQ_LOGIN_wf m -> zlen target + zlen (REQ_LOGIN_encoding m) <= size ->
  REQ_LOGIN_InternalSerialize size m target = target ++ REQ_LOGIN_encoding m.
Proof using laws.
  intros (Hid & Hpw & Hname & Hunk) Hfit. pose proof (enc_bool_bound 1 (REQ_LOGIN_is_create m)).
  destruct Hid as (Hbid & Hlid & Huid). pose proof (enc_string_bound 2 (REQ_LOGIN_id m) Hlid).
  destruct Hpw as (Hbpw & Hlpw & Hupw). pose proof (enc_string_bound 3 (REQ_LOGIN_pw m) Hlpw).
  destruct Hname as (Hbname & Hlname & Huname). pose proof (enc_string_bound 4 (REQ_LOGIN_name m) Hlname).
  unfold REQ_LOGIN_encoding in *. autorewrite with zlen in Hfit.
  unfold REQ_LOGIN_InternalSerialize, WriteUInt32ToArray, WriteUInt64ToArray. cbv zeta.
  rewrite (write_bool_step 1 (REQ_LOGIN_is_create m)) by (autorewrite with zlen; lia).
  rewrite (write_string_step 2 (REQ_LOGIN_id m)) by (autorewrite with zlen; lia).
  rewrite (write_string_step 3 (REQ_LOGIN_pw m)) by (autorewrite with zlen; lia).
  rewrite (write_string_step 4 (REQ_LOGIN_name m)) by (autorewrite with zlen; lia).
  rewrite bool_decide_eq_true_2 by done. cbn [negb]. by rewrite app_nil_r, <- ?app_assoc.
Qed.

Lemma REQ_LOGIN_parses m from :
  REQ_LOGIN_wf from ->
  parses REQ_LOGIN_field REQ_LOGIN_unknown (fun u m => m <| REQ_LOGIN_unknown := u |>) (REQ_LOGIN_encoding from) m
    (Parsed (REQ_LOGIN_MergeImpl m from, [], 0)).
Proof using laws.
  intros (Hid & Hpw & Hname & Hunk).
  destruct Hid as (Hbid & Hlid & Huid).
  destruct Hpw as (Hbpw & Hlpw & Hupw).
  destruct Hname as (Hbname & Hlname & Huname).
  unfold REQ_LOGIN_encoding.
  set (m1 := if REQ_LOGIN_is_create from then m <| REQ_LOGIN_is_create := REQ_LOGIN_is_create from |> else m).
  set (m2 := if negb (bool_decide (REQ_LOGIN_id from = [])) then m1 <| REQ_LOGIN_id := REQ_LOGIN_id from |> else m1).
  set (m3 := if negb (bool_decide (REQ_LOGIN_pw from = [])) then m2 <| REQ_LOGIN_pw := REQ_LOGIN_pw from |> else m2).
  set (m4 := if negb (bool_decide (REQ_LOGIN_name from = [])) then m3 <| REQ_LOGIN_name := REQ_LOGIN_name from |> else m3).
  apply (parses_bool _ _ _ 1 (REQ_LOGIN_is_create from) _ m m1); [lia|..].
  { intros Hne. rewrite (eq_refl : REQ_LOGIN_field (1 * 8) =
      fun p m => field_read (ReadVarint64 p) (fun v => m <| REQ_LOGIN_is_create := negb (v =? 0) |>)).
    rewrite ReadVarint64_varint by lia. subst m1. by rewrite Hne. }
  { intros H0. subst m1. by rewrite H0. }
  apply (parses_string _ _ _ 2 (REQ_LOGIN_id from) _ m1 m2); [lia|..].
  { intros Hne. rewrite (eq_refl : REQ_LOGIN_field (2 * 8 + 2) =
      fun p m => field_string p (fun s => m <| REQ_LOGIN_id := s |>)).
    rewrite field_string_spec by done. subst m2. by rewrite bool_decide_eq_false_2 by done. }
  { intros H0. subst m2. by rewrite bool_decide_eq_true_2 by done. }
  apply (parses_string _ _ _ 3 (REQ_LOGIN_pw from) _ m2 m3); [lia|..].
  { intros Hne. rewrite (eq_refl : REQ_LOGIN_field (3 * 8 + 2) =
      fun p m => field_string p (fun s => m <| REQ_LOGIN_pw := s |>)).
    rewrite field_string_spec by done. subst m3. by rewrite bool_decide_eq_false_2 by done. }
  { intros H0. subst m3. by rewrite bool_decide_eq_true_2 by done. }
  apply (parses_string _ _ _ 4 (REQ_LOGIN_name from) _ m3 m4); [lia|..].
  { intros Hne. rewrite (eq_refl : REQ_LOGIN_field (4 * 8 + 2) =
      fun p m => field_string p (fun s => m <| REQ_LOGIN_name := s |>)).
    rewrite field_string_spec by done. subst m4. by rewrite bool_decide_eq_false_2 by done. }
  { intros H0. subst m4. by rewrite bool_decide_eq_true_2 by done. }
  replace (REQ_LOGIN_MergeImpl m from) with m4; [apply parses_done|].
  unfold REQ_LOGIN_MergeImpl. rewrite Hunk. destruct m. subst m1 m2 m3 m4.
  repeat case_match; simpl; by rewrite app_nil_r.
Qed.

Lemma REQ_LOGIN_parse depth m from :
  REQ_LOGIN_wf from -> REQ_LOGIN_InternalParse depth (REQ_LOGIN_encoding from) m = Parsed (REQ_LOGIN_MergeImpl m from, [], 0).
Proof using laws. intros. by apply InternalParse_spec, REQ_LOGIN_parses. Qed.

Lemma REQ_LOGIN_bytes m : REQ_LOGIN_wf m -> Forall is_byte (REQ_LOGIN_encoding m).
Proof.
  intros (Hid & Hpw & Hname & Hunk). unfold REQ_LOGIN_encoding.
  destruct Hid as (Hbid & Hlid & Huid).
  destruct Hpw as (Hbpw & Hlpw & Hupw).
  destruct Hname as (Hbname & Hlname & Huname).
  repeat apply Forall_app_2; try apply Forall_nil_2;
    first [apply enc_bool_bytes; lia | apply enc_varint_bytes; lia | apply enc_signed_bytes; lia
          | apply enc_string_bytes; [lia|done]].
Qed.

Lemma REQ_LOGIN_merge_default m : REQ_LOGIN_wf m -> REQ_LOGIN_MergeImpl REQ_LOGIN_default m = m.
Proof.
  intros (Hid & Hpw & Hname & Hunk). unfold REQ_LOGIN_MergeImpl, REQ_LOGIN_default. destruct m; simpl in *. subst.
  repeat (case_bool_decide || case_match); simplify_eq/=; bool_lia; by subst.
Qed.

Lemma REQ_LOGIN_copied m from : REQ_LOGIN_wf from -> REQ_LOGIN_CopyFrom m from = from.
Proof. apply (REQ_LOGIN_merge_default from). Qed.

Lemma REQ_LOGIN_copy_same from : REQ_LOGIN_copy from = from.
Proof. destruct from. unfold REQ_LOGIN_copy. simpl. by repeat case_bool_decide; subst. Qed.

Lemma REQ_LOGIN_progress : field_progress REQ_LOGIN_field.
Proof using laws.
  intros tag p m. unfold REQ_LOGIN_field. field_cases.
Qed.

(** *** ACK_LOGIN *)

Lemma ACK_LOGIN_size m : ACK_LOGIN_wf m -> ACK_LOGIN_ByteSizeLong m = zlen (ACK_LOGIN_encoding m) /\ 0 <= zlen (ACK_LOGIN_encoding m) <= 11 + (8 + zlen (ACK_LOGIN_user_name m)) + 11.
Proof using laws.
  intros (Hidx & Huser_name & Hresult & Hunk). pose proof (enc_varint_bound 1 (ACK_LOGIN_idx m) ltac:(lia)).
  destruct Huser_name as (Hbuser_name & Hluser_name & Huuser_name). pose proof (enc_string_bound 2 (ACK_LOGIN_user_name m) Hluser_name).
  pose proof (enc_signed_bound 3 (ACK_LOGIN_result m)).
  unfold ACK_LOGIN_encoding. autorewrite with zlen. split; [|lia].
  unfold ACK_LOGIN_ByteSizeLong, UInt32SizePlusOne, UInt64SizePlusOne. cbv zeta.
  rewrite (size_string_step 2 (ACK_LOGIN_user_name m)) by lia.
  rewrite (size_varint_step 1 (ACK_LOGIN_idx m)) by lia.
  rewrite (size_enum_step 3 (ACK_LOGIN_result m)) by lia.
  rewrite Hunk, unknown_size_empty. lia.
Qed.

Lemma ACK_LOGIN_serialize m size target :
  ACK_LOGIN_wf m -> zlen target + zlen (ACK_LOGIN_encoding m) <= size ->
  ACK_LOGIN_InternalSerialize size m target = target ++ ACK_LOGIN_encoding m.
Proof using laws.
  intros (Hidx & Huser_name & Hresult & Hunk) Hfit. pose proof (enc_varint_bound 1 (ACK_LOGIN_idx m) ltac:(lia)).
  destruct Huser_name as (Hbuser_name & Hluser_name & Huuser_name). pose proof (enc_string_bound 2 (ACK_LOGIN_user_name m) Hluser_name).
  pose proof (enc_signed_bound 3 (ACK_LOGIN_result m)).
  unfold ACK_LOGIN_encoding in *. autorewrite with zlen in Hfit.
  unfold ACK_LOGIN_InternalSerialize, WriteUInt32ToArray, WriteUInt64ToArray. cbv zeta.
  rewrite (write_varint_step 1 (ACK_LOGIN_idx m)) by (autorewrite with zlen; lia).
  rewrite (write_string_step 2 (ACK_LOGIN_user_name m)) by (autorewrite with zlen; lia).
  rewrite (write_enum_step 3 (ACK_LOGIN_result m)) by (autorewrite with zlen; lia).
  rewrite bool_decide_eq_true_2 by done. cbn [negb]. by rewrite app_nil_r, <- ?app_assoc.
Qed.

Lemma ACK_LOGIN_parses m from :
  ACK_LOGIN_wf from ->
  parses ACK_LOGIN_field ACK_LOGIN_unknown (fun u m => m <| ACK_LOGIN_unknown := u |>) (ACK_LOGIN_encoding from) m
    (Parsed (ACK_LOGIN_MergeImpl m from, [], 0)).
Proof using laws.
  intros (Hidx & Huser_name & Hresult & Hunk).
  destruct Huser_name as (Hbuser_name & Hluser_name & Huuser_name).
  unfold ACK_LOGIN_encoding.
  set (m1 := if negb (ACK_LOGIN_idx from =? 0) then m <| ACK_LOGIN_idx := ACK_LOGIN_idx from |> else m).
  set (m2 := if negb (bool_decide (ACK_LOGIN_user_name from = [])) then m1 <| ACK_LOGIN_user_name := ACK_LOGIN_user_name from |> else m1).
  set (m3 := if negb (ACK_LOGIN_result from =? 0) then m2 <| ACK_LOGIN_result := ACK_LOGIN_result from |> else m2).
  apply (parses_varint _ _ _ 1 (ACK_LOGIN_idx from) _ m m1); [lia|..].
  { intros Hne. rewrite (eq_refl : ACK_LOGIN_field (1 * 8) =
      fun p m => field_read (ReadVarint64 p) (fun v => m <| ACK_LOGIN_idx := v |>)).
    rewrite ReadVarint64_varint by lia. cbn [field_read]. subst m1.
    by rewrite (proj2 (Z.eqb_neq _ _) Hne). }
  { intros H0. subst m1. by rewrite (proj2 (Z.eqb_eq _ _) H0). }
  apply (parses_string _ _ _ 2 (ACK_LOGIN_user_name from) _ m1 m2); [lia|..].
  { intros Hne. rewrite (eq_refl : ACK_LOGIN_field (2 * 8 + 2) =
      fun p m => field_string p (fun s => m <| ACK_LOGIN_user_name := s |>)).
    rewrite field_string_spec by done. subst m2. by rewrite bool_decide_eq_false_2 by done. }
  { intros H0. subst m2. by rewrite bool_decide_eq_true_2 by done. }
  apply (parses_signed _ _ _ 3 (ACK_LOGIN_result from) _ m2 m3); [lia|..].
  { intros Hne. rewrite (eq_refl : ACK_LOGIN_field (3 * 8) =
      fun p m => field_read (ReadVarint64 p) (fun v => m <| ACK_LOGIN_result := i32 v |>)).
    rewrite ReadVarint64_varint by apply u64_range. cbn [field_read]. rewrite i32_u64 by lia. subst m3.
    by rewrite (proj2 (Z.eqb_neq _ _) Hne). }
  { intros H0. subst m3. by rewrite (proj2 (Z.eqb_eq _ _) H0). }
  replace (ACK_LOGIN_MergeImpl m from) with m3; [apply parses_done|].
  unfold ACK_LOGIN_MergeImpl. rewrite Hunk. destruct m. subst m1 m2 m3.
  repeat case_match; simpl; by rewrite app_nil_r.
Qed.

Lemma ACK_LOGIN_parse depth m from :
  ACK_LOGIN_wf from -> ACK_LOGIN_InternalParse depth (ACK_LOGIN_encoding from) m = Parsed (ACK_LOGIN_MergeImpl m from, [], 0).
Proof using laws. intros. by apply InternalParse_spec, ACK_LOGIN_parses. Qed.

Lemma ACK_LOGIN_bytes m : ACK_LOGIN_wf m -> Forall is_byte (ACK_LOGIN_encoding m).
Proof.
  intros (Hidx & Huser_name & Hresult & Hunk). unfold ACK_LOGIN_encoding.
  destruct Huser_name as (Hbuser_name & Hluser_name & Huuser_name).
  repeat apply Forall_app_2; try apply Forall_nil_2;
    first [apply enc_bool_bytes; lia | apply enc_varint_bytes; lia | apply enc_signed_bytes; lia
          | apply enc_string_bytes; [lia|done]].
Qed.

Lemma ACK_LOGIN_merge_default m : ACK_LOGIN_wf m -> ACK_LOGIN_MergeImpl ACK_LOGIN_default m = m.
Proof.
  intros (Hidx & Huser_name & Hresult & Hunk). unfold ACK_LOGIN_MergeImpl, ACK_LOGIN_default. destruct m; simpl in *. subst.
  repeat (case_bool_decide || case_match); simplify_eq/=; bool_lia; by subst.
Qed.

Lemma ACK_LOGIN_copied m from : ACK_LOGIN_wf from -> ACK_LOGIN_CopyFrom m from = from.
Proof. apply (ACK_LOGIN_merge_default from). Qed.

Lemma ACK_LOGIN_copy_same from : ACK_LOGIN_copy from = from.
Proof. destruct from. unfold ACK_LOGIN_copy. simpl. by repeat case_bool_decide; subst. Qed.

Lemma ACK_LOGIN_progress : field_progress ACK_LOGIN_field.
Proof using laws.
  intros tag p m. unfold ACK_LOGIN_field. field_cases.
Qed.

(** *** REQ_BOT_LOGIN *)

Lemma REQ_BOT_LOGIN_size m : REQ_BOT_LOGIN_wf m -> REQ_BOT_LOGIN_ByteSizeLong m = zlen (REQ_BOT_LOGIN_encoding m) /\ 0 <= zlen (REQ_BOT_LOGIN_encoding m) <= 11 + (8 + zlen (REQ_BOT_LOGIN_id m)) + (8 + zlen (REQ_BOT_LOGIN_pw m)) + (8 + zlen (REQ_BOT_LOGIN_name m)).
Proof using laws.
  intros (Hid & Hpw & Hname & Hunk). pose proof (enc_bool_bound 1 (REQ_BOT_LOGIN_is_create m)).
  destruct Hid as (Hbid & Hlid & Huid). pose proof (enc_string_bound 2 (REQ_BOT_LOGIN_id m) Hlid).
  destruct Hpw as (Hbpw & Hlpw & Hupw). pose proof (enc_string_bound 3 (REQ_BOT_LOGIN_pw m) Hlpw).
  destruct Hname as (Hbname & Hlname & Huname). pose proof (enc_string_bound 4 (REQ_BOT_LOGIN_name m) Hlname).
  unfold REQ_BOT_LOGIN_encoding. autorewrite with zlen. split; [|lia].
  unfold REQ_BOT_LOGIN_ByteSizeLong, UInt32SizePlusOne, UInt64SizePlusOne. cbv zeta.
  rewrite (size_string_step 2 (REQ_BOT_LOGIN_id m)) by lia.
  rewrite (size_string_step 3 (REQ_BOT_LOGIN_pw m)) by lia.
  rewrite (size_string_step 4 (REQ_BOT_LOGIN_name m)) by lia.
  rewrite (size_bool_step 1 (REQ_BOT_LOGIN_is_create m)) by lia.
  rewrite Hunk, unknown_size_empty. lia.
Qed.

Lemma REQ_BOT_LOGIN_serialize m size target :
  REQ_BOT_LOGIN_wf m -> zlen target + zlen (REQ_BOT_LOGIN_encoding m) <= size ->
  REQ_BOT_LOGIN_InternalSerialize size m target = target ++ REQ_BOT_LOGIN_encoding m.
Proof using laws.
  intros (Hid & Hpw & Hname & Hunk) Hfit. pose proof (enc_bool_bound 1 (REQ_BOT_LOGIN_is_create m)).
  destruct Hid as (Hbid & Hlid & Huid). pose proof (enc_string_bound 2 (REQ_BOT_LOGIN_id m) Hlid).
  destruct Hpw as (Hbpw & Hlpw & Hupw). pose proof (enc_string_bound 3 (REQ_BOT_LOGIN_pw m) Hlpw).
  destruct Hname as (Hbname & Hlname & Huname). pose proof (enc_string_bound 4 (REQ_BOT_LOGIN_name m) Hlname).
  unfold REQ_BOT_LOGIN_encoding in *. autorewrite with zlen in Hfit.
  unfold REQ_BOT_LOGIN_InternalSerialize, WriteUInt32ToArray, WriteUInt64ToArray. cbv zeta.
  rewrite (write_bool_step 1 (REQ_BOT_LOGIN_is_create m)) by (autorewrite with zlen; lia).
  rewrite (write_string_step 2 (REQ_BOT_LOGIN_id m)) by (autorewrite with zlen; lia).
  rewrite (write_string_step 3 (REQ_BOT_LOGIN_pw m)) by (autorewrite with zlen; lia).
  rewrite (write_string_step 4 (REQ_BOT_LOGIN_name m)) by (autorewrite with zlen; lia).
  rewrite bool_decide_eq_true_2 by done. cbn [negb]. by rewrite app_nil_r, <- ?app_assoc.
Qed.

Lemma REQ_BOT_LOGIN_parses m from :
  REQ_BOT_LOGIN_wf from ->
  parses REQ_BOT_LOGIN_field REQ_BOT_LOGIN_unknown (fun u m => m <| REQ_BOT_LOGIN_unknown := u |>) (REQ_BOT_LOGIN_encoding from) m
    (Parsed (REQ_BOT_LOGIN_MergeImpl m from, [], 0)).
Proof using laws.
  intros (Hid & Hpw & Hname & Hunk).
  destruct Hid as (Hbid & Hlid & Huid).
  destruct Hpw as (Hbpw & Hlpw & Hupw).
  destruct Hname as (Hbname & Hlname & Huname).
  unfold REQ_BOT_LOGIN_encoding.
  set (m1 := if REQ_BOT_LOGIN_is_create from then m <| REQ_BOT_LOGIN_is_create := REQ_BOT_LOGIN_is_create from |> else m).
  set (m2 := if negb (bool_decide (REQ_BOT_LOGIN_id from = [])) then m1 <| REQ_BOT_LOGIN_id := REQ_BOT_LOGIN_id from |> else m1).
  set (m3 := if negb (bool_decide (REQ_BOT_LOGIN_pw from = [])) then m2 <| REQ_BOT_LOGIN_pw := REQ_BOT_LOGIN_pw from |> else m2).
  set (m4 := if negb (bool_decide (REQ_BOT_LOGIN_name from = [])) then m3 <| REQ_BOT_LOGIN_name := REQ_BOT_LOGIN_name from |> else m3).
  apply (parses_bool _ _ _ 1 (REQ_BOT_LOGIN_is_create from) _ m m1); [lia|..].
  { intros Hne. rewrite (eq_refl : REQ_BOT_LOGIN_field (1 * 8) =
      fun p m => field_read (ReadVarint64 p) (fun v => m <| REQ_BOT_LOGIN_is_create := negb (v =? 0) |>)).
    rewrite ReadVarint64_varint by lia. subst m1. by rewrite Hne. }
  { intros H0. subst m1. by rewrite H0. }
  apply (parses_string _ _ _ 2 (REQ_BOT_LOGIN_id from) _ m1 m2); [lia|..].
  { intros Hne. rewrite (eq_refl : REQ_BOT_LOGIN_field (2 * 8 + 2) =
      fun p m => field_string p (fun s => m <| REQ_BOT_LOGIN_id := s |>)).
    rewrite field_string_spec by done. subst m2. by rewrite bool_decide_eq_false_2 by done. }
  { intros H0. subst m2. by rewrite bool_decide_eq_true_2 by done. }
  apply (parses_string _ _ _ 3 (REQ_BOT_LOGIN_pw from) _ m2 m3); [lia|..].
  { intros Hne. rewrite (eq_refl : REQ_BOT_LOGIN_field (3 * 8 + 2) =
      fun p m => field_string p (fun s => m <| REQ_BOT_LOGIN_pw := s |>)).
    rewrite field_string_spec by done. subst m3. by rewrite bool_decide_eq_false_2 by done. }
  { intros H0. subst m3. by rewrite bool_decide_eq_true_2 by done. }
  apply (parses_string _ _ _ 4 (REQ_BOT_LOGIN_name from) _ m3 m4); [lia|..].
  { intros Hne. rewrite (eq_refl : REQ_BOT_LOGIN_field (4 * 8 + 2) =
      fun p m => field_string p (fun s => m <| REQ_BOT_LOGIN_name := s |>)).
    rewrite field_string_spec by done. subst m4. by rewrite bool_decide_eq_false_2 by done. }
  { intros H0. subst m4. by rewrite bool_decide_eq_true_2 by done. }
  replace (REQ_BOT_LOGIN_MergeImpl m from) with m4; [apply parses_done|].
  unfold REQ_BOT_LOGIN_MergeImpl. rewrite Hunk. destruct m. subst m1 m2 m3 m4.
  repeat case_match; simpl; by rewrite app_nil_r.
Qed.

Lemma REQ_BOT_LOGIN_parse depth m from :
  REQ_BOT_LOGIN_wf from -> REQ_BOT_LOGIN_InternalParse depth (REQ_BOT_LOGIN_encoding from) m = Parsed (REQ_BOT_LOGIN_MergeImpl m from, [], 0).
Proof using laws. intros. by apply InternalParse_spec, REQ_BOT_LOGIN_parses. Qed.

Lemma REQ_BOT_LOGIN_bytes m : REQ_BOT_LOGIN_wf m -> Forall is_byte (REQ_BOT_LOGIN_encoding m).
Proof.
  intros (Hid & Hpw & Hname & Hunk). unfold REQ_BOT_LOGIN_encoding.
  destruct Hid as (Hbid & Hlid & Huid).
  destruct Hpw as (Hbpw & Hlpw & Hupw).
  destruct Hname as (Hbname & Hlname & Huname).
  repeat apply Forall_app_2; try apply Forall_nil_2;
    first [apply enc_bool_bytes; lia | apply enc_varint_bytes; lia | apply enc_signed_bytes; lia
          | apply enc_string_bytes; [lia|done]].
Qed.

Lemma REQ_BOT_LOGIN_merge_default m : REQ_BOT_LOGIN_wf m -> REQ_BOT_LOGIN_MergeImpl REQ_BOT_LOGIN_default m = m.
Proof.
  intros (Hid & Hpw & Hname & Hunk). unfold REQ_BOT_LOGIN_MergeImpl, REQ_BOT_LOGIN_default. destruct m; simpl in *. subst.
  repeat (case_bool_decide || case_match); simplify_eq/=; bool_lia; by subst.
Qed.

Lemma REQ_BOT_LOGIN_copied m from : REQ_BOT_LOGIN_wf from -> REQ_BOT_LOGIN_CopyFrom m from = from.
Proof. apply (REQ_BOT_LOGIN_merge_default from). Qed.

Lemma REQ_BOT_LOGIN_copy_same from : REQ_BOT_LOGIN_copy from = from.
Proof. destruct from. unfold REQ_BOT_LOGIN_copy. simpl. by repeat case_bool_decide; subst. Qed.

Lemma REQ_BOT_LOGIN_progress : field_progress REQ_BOT_LOGIN_field.
Proof using laws.
  intros tag p m. unfold REQ_BOT_LOGIN_field. field_cases.
Qed.

(** *** ACK_BOT_LOGIN *)

Lemma ACK_BOT_LOGIN_size m : ACK_BOT_LOGIN_wf m -> ACK_BOT_LOGIN_ByteSizeLong m = zlen (ACK_BOT_LOGIN_encoding m) /\ 0 <= zlen (ACK_BOT_LOGIN_encoding m) <= 11 + (8 + zlen (ACK_BOT_LOGIN_user_name m)) + 11.
Proof using laws.
  intros (Hidx & Huser_name & Hresult & Hunk). pose proof (enc_varint_bound 1 (ACK_BOT_LOGIN_idx m) ltac:(lia)).
  destruct Huser_name as (Hbuser_name & Hluser_name & Huuser_name). pose proof (enc_string_bound 2 (ACK_BOT_LOGIN_user_name m) Hluser_name).
  pose proof (enc_signed_bound 3 (ACK_BOT_LOGIN_result m)).
  unfold ACK_BOT_LOGIN_encoding. autorewrite with zlen. split; [|lia].
  unfold ACK_BOT_LOGIN_ByteSizeLong, UInt32SizePlusOne, UInt64SizePlusOne. cbv zeta.
  rewrite (size_string_step 2 (ACK_BOT_LOGIN_user_name m)) by lia.
  rewrite (size_varint_step 1 (ACK_BOT_LOGIN_idx m)) by lia.
  rewrite (size_enum_step 3 (ACK_BOT_LOGIN_result m)) by lia.
  rewrite Hunk, unknown_size_empty. lia.
Qed.

Lemma ACK_BOT_LOGIN_serialize m size target :
  ACK_BOT_LOGIN_wf m -> zlen target + zlen (ACK_BOT_LOGIN_encoding m) <= size ->
  ACK_BOT_LOGIN_InternalSerialize size m target = target ++ ACK_BOT_LOGIN_encoding m.
Proof using laws.
  intros (Hidx & Huser_name & Hresult & Hunk) Hfit. pose proof (enc_varint_bound 1 (ACK_BOT_LOGIN_idx m) ltac:(lia)).
  destruct Huser_name as (Hbuser_name & Hluser_name & Huuser_name). pose proof (enc_string_bound 2 (ACK_BOT_LOGIN_user_name m) Hluser_name).
  pose proof (enc_signed_bound 3 (ACK_BOT_LOGIN_result m)).
  unfold ACK_BOT_LOGIN_encoding in *. autorewrite with zlen in Hfit.
  unfold ACK_BOT_LOGIN_InternalSerialize, WriteUInt32ToArray, WriteUInt64ToArray. cbv zeta.
  rewrite (write_varint_step 1 (ACK_BOT_LOGIN_idx m)) by (autorewrite with zlen; lia).
  rewrite (write_string_step 2 (ACK_BOT_LOGIN_user_name m)) by (autorewrite with zlen; lia).
  rewrite (write_enum_step 3 (ACK_BOT_LOGIN_result m)) by (autorewrite with zlen; lia).
  rewrite bool_decide_eq_true_2 by done. cbn [negb]. by rewrite app_nil_r, <- ?app_assoc.
Qed.

Lemma ACK_BOT_LOGIN_parses m from :
  ACK_BOT_LOGIN_wf from ->
  parses ACK_BOT_LOGIN_field ACK_BOT_LOGIN_unknown (fun u m => m <| ACK_BOT_LOGIN_unknown := u |>) (ACK_BOT_LOGIN_encoding from) m
    (Parsed (ACK_BOT_LOGIN_MergeImpl m from, [], 0)).
Proof using laws.
  intros (Hidx & Huser_name & Hresult & Hunk).
  destruct Huser_name as (Hbuser_name & Hluser_name & Huuser_name).
  unfold ACK_BOT_LOGIN_encoding.
  set (m1 := if negb (ACK_BOT_LOGIN_idx from =? 0) then m <| ACK_BOT_LOGIN_idx := ACK_BOT_LOGIN_idx from |> else m).
  set (m2 := if negb (bool_decide (ACK_BOT_LOGIN_user_name from = [])) then m1 <| ACK_BOT_LOGIN_user_name := ACK_BOT_LOGIN_user_name from |> else m1).
  set (m3 := if negb (ACK_BOT_LOGIN_result from =? 0) then m2 <| ACK_BOT_LOGIN_result := ACK_BOT_LOGIN_result from |> else m2).
  apply (parses_varint _ _ _ 1 (ACK_BOT_LOGIN_idx from) _ m m1); [lia|..].
  { intros Hne. rewrite (eq_refl : ACK_BOT_LOGIN_field (1 * 8) =
      fun p m => field_read (ReadVarint64 p) (fun v => m <| ACK_BOT_LOGIN_idx := v |>)).
    rewrite ReadVarint64_varint by lia. cbn [field_read]. subst m1.
    by rewrite (proj2 (Z.eqb_neq _ _) Hne). }
  { intros H0. subst m1. by rewrite (proj2 (Z.eqb_eq _ _) H0). }
  apply (parses_string _ _ _ 2 (ACK_BOT_LOGIN_user_name from) _ m1 m2); [lia|..].
  { intros Hne. rewrite (eq_refl : ACK_BOT_LOGIN_field (2 * 8 + 2) =
      fun p m => field_string p (fun s => m <| ACK_BOT_LOGIN_user_name := s |>)).
    rewrite field_string_spec by done. subst m2. by rewrite bool_decide_eq_false_2 by done. }
  { intros H0. subst m2. by rewrite bool_decide_eq_true_2 by done. }
  apply (parses_signed _ _ _ 3 (ACK_BOT_LOGIN_result from) _ m2 m3); [lia|..].
  { intros Hne. rewrite (eq_refl : ACK_BOT_LOGIN_field (3 * 8) =
      fun p m => field_read (ReadVarint64 p) (fun v => m <| ACK_BOT_LOGIN_result := i32 v |>)).
    rewrite ReadVarint64_varint by apply u64_range. cbn [field_read]. rewrite i32_u64 by lia. subst m3.
    by rewrite (proj2 (Z.eqb_neq _ _) Hne). }
  { intros H0. subst m3. by rewrite (proj2 (Z.eqb_eq _ _) H0). }
  replace (ACK_BOT_LOGIN_MergeImpl m from) with m3; [apply parses_done|].
  unfold ACK_BOT_LOGIN_MergeImpl. rewrite Hunk. destruct m. subst m1 m2 m3.
  repeat case_match; simpl; by rewrite app_nil_r.
Qed.

Lemma ACK_BOT_LOGIN_parse depth m from :
  ACK_BOT_LOGIN_wf from -> ACK_BOT_LOGIN_InternalParse depth (ACK_BOT_LOGIN_encoding from) m = Parsed (ACK_BOT_LOGIN_MergeImpl m from, [], 0).
Proof using laws. intros. by apply InternalParse_spec, ACK_BOT_LOGIN_parses. Qed.

Lemma ACK_BOT_LOGIN_bytes m : ACK_BOT_LOGIN_wf m -> Forall is_byte (ACK_BOT_LOGIN_encoding m).
Proof.
  intros (Hidx & Huser_name & Hresult & Hunk). unfold ACK_BOT_LOGIN_encoding.
  destruct Huser_name as (Hbuser_name & Hluser_name & Huuser_name).
  repeat apply Forall_app_2; try apply Forall_nil_2;
    first [apply enc_bool_bytes; lia | apply enc_varint_bytes; lia | apply enc_signed_bytes; lia
          | apply enc_string_bytes; [lia|done]].
Qed.

Lemma ACK_BOT_LOGIN_merge_default m : ACK_BOT_LOGIN_wf m -> ACK_BOT_LOGIN_MergeImpl ACK_BOT_LOGIN_default m = m.
Proof.
  intros (Hidx & Huser_name & Hresult & Hunk). unfold ACK_BOT_LOGIN_MergeImpl, ACK_BOT_LOGIN_default. destruct m; simpl in *. subst.
  repeat (case_bool_decide || case_match); simplify_eq/=; bool_lia; by subst.
Qed.

Lemma ACK_BOT_LOGIN_copied m from : ACK_BOT_LOGIN_wf from -> ACK_BOT_LOGIN_CopyFrom m from = from.
Proof. apply (ACK_BOT_LOGIN_merge_default from). Qed.

Lemma ACK_BOT_LOGIN_copy_same from : ACK_BOT_LOGIN_copy from = from.
Proof. destruct from. unfold ACK_BOT_LOGIN_copy. simpl. by repeat case_bool_decide; subst. Qed.

Lemma ACK_BOT_LOGIN_progress : field_progress ACK_BOT_LOGIN_field.
Proof using laws.
  intros tag p m. unfold ACK_BOT_LOGIN_field. field_cases.
Qed.

(** *** REQ_LOGOUT *)

Lemma REQ_LOGOUT_size m : REQ_LOGOUT_wf m -> REQ_LOGOUT_ByteSizeLong m = zlen (REQ_LOGOUT_encoding m) /\ 0 <= zlen (REQ_LOGOUT_encoding m) <= 11.
Proof using laws.
  intros (Hidx & Hunk). pose proof (enc_varint_bound 1 (REQ_LOGOUT_idx m) ltac:(lia)).
  unfold REQ_LOGOUT_encoding. autorewrite with zlen. split; [|lia].
  unfold REQ_LOGOUT_ByteSizeLong, UInt32SizePlusOne, UInt64SizePlusOne. cbv zeta.
  rewrite (size_varint_step 1 (REQ_LOGOUT_idx m)) by lia.
  rewrite Hunk, unknown_size_empty. lia.
Qed.

Lemma REQ_LOGOUT_serialize m size target :
  REQ_LOGOUT_wf m -> zlen target + zlen (REQ_LOGOUT_encoding m) <= size ->
  REQ_LOGOUT_InternalSerialize size m target = target ++ REQ_LOGOUT_encoding m.
Proof using laws.
  intros (Hidx & Hunk) Hfit. pose proof (enc_varint_bound 1 (REQ_LOGOUT_idx m) ltac:(lia)).
  unfold REQ_LOGOUT_encoding in *. autorewrite with zlen in Hfit.
  unfold REQ_LOGOUT_InternalSerialize, WriteUInt32ToArray, WriteUInt64ToArray. cbv zeta.
  rewrite (write_varint_step 1 (REQ_LOGOUT_idx m)) by (autorewrite with zlen; lia).
  rewrite bool_decide_eq_true_2 by done. cbn [negb]. by rewrite app_nil_r, <- ?app_assoc.
Qed.

Lemma REQ_LOGOUT_parses m from :
  REQ_LOGOUT_wf from ->
  parses REQ_LOGOUT_field REQ_LOGOUT_unknown (fun u m => m <| REQ_LOGOUT_unknown := u |>) (REQ_LOGOUT_encoding from) m
    (Parsed (REQ_LOGOUT_MergeImpl m from, [], 0)).
Proof using laws.
  intros (Hidx & Hunk).
  unfold REQ_LOGOUT_encoding.
  set (m1 := if negb (REQ_LOGOUT_idx from =? 0) then m <| REQ_LOGOUT_idx := REQ_LOGOUT_idx from |> else m).
  apply (parses_varint _ _ _ 1 (REQ_LOGOUT_idx from) _ m m1); [lia|..].
  { intros Hne. rewrite (eq_refl : REQ_LOGOUT_field (1 * 8) =
      fun p m => field_read (ReadVarint64 p) (fun v => m <| REQ_LOGOUT_idx := v |>)).
    rewrite ReadVarint64_varint by lia. cbn [field_read]. subst m1.
    by rewrite (proj2 (Z.eqb_neq _ _) Hne). }
  { intros H0. subst m1. by rewrite (proj2 (Z.eqb_eq _ _) H0). }
  replace (REQ_LOGOUT_MergeImpl m from) with m1; [apply parses_done|].
  unfold REQ_LOGOUT_MergeImpl. rewrite Hunk. destruct m. subst m1.
  repeat case_match; simpl; by rewrite app_nil_r.
Qed.

Lemma REQ_LOGOUT_parse depth m from :
  REQ_LOGOUT_wf from -> REQ_LOGOUT_InternalParse depth (REQ_LOGOUT_encoding from) m = Parsed (REQ_LOGOUT_MergeImpl m from, [], 0).
Proof using laws. intros. by apply InternalParse_spec, REQ_LOGOUT_parses. Qed.

Lemma REQ_LOGOUT_bytes m : REQ_LOGOUT_wf m -> Forall is_byte (REQ_LOGOUT_encoding m).
Proof.
  intros (Hidx & Hunk). unfold REQ_LOGOUT_encoding.
  repeat apply Forall_app_2; try apply Forall_nil_2;
    first [apply enc_bool_bytes; lia | apply enc_varint_bytes; lia | apply enc_signed_bytes; lia
          | apply enc_string_bytes; [lia|done]].
Qed.

Lemma REQ_LOGOUT_merge_default m : REQ_LOGOUT_wf m -> REQ_LOGOUT_MergeImpl REQ_LOGOUT_default m = m.
Proof.
  intros (Hidx & Hunk). unfold REQ_LOGOUT_MergeImpl, REQ_LOGOUT_default. destruct m; simpl in *. subst.
  repeat (case_bool_decide || case_match); simplify_eq/=; bool_lia; by subst.
Qed.

Lemma REQ_LOGOUT_copied m from : REQ_LOGOUT_wf from -> REQ_LOGOUT_CopyFrom m from = from.
Proof. apply (REQ_LOGOUT_merge_default from). Qed.

Lemma REQ_LOGOUT_copy_same from : REQ_LOGOUT_copy from = from.
Proof. destruct from. unfold REQ_LOGOUT_copy. simpl. by repeat case_bool_decide; subst. Qed.

Lemma REQ_LOGOUT_progress : field_progress REQ_LOGOUT_field.
Proof using laws.
  intros tag p m. unfold REQ_LOGOUT_field. field_cases.
Qed.

(** *** ACK_LOGOUT *)

Lemma ACK_LOGOUT_size m : ACK_LOGOUT_wf m -> ACK_LOGOUT_ByteSizeLong m = zlen (ACK_LOGOUT_encoding m) /\ 0 <= zlen (ACK_LOGOUT_encoding m) <= 11.
Proof using laws.
  intros (Hresult & Hunk). pose proof (enc_signed_bound 1 (ACK_LOGOUT_result m)).
  unfold ACK_LOGOUT_encoding. autorewrite with zlen. split; [|lia].
  unfold ACK_LOGOUT_ByteSizeLong, UInt32SizePlusOne, UInt64SizePlusOne. cbv zeta.
  rewrite (size_enum_step 1 (ACK_LOGOUT_result m)) by lia.
  rewrite Hunk, unknown_size_empty. lia.
Qed.

Lemma ACK_LOGOUT_serialize m size target :
  ACK_LOGOUT_wf m -> zlen target + zlen (ACK_LOGOUT_encoding m) <= size ->
  ACK_LOGOUT_InternalSerialize size m target = target ++ ACK_LOGOUT_encoding m.
Proof using laws.
  intros (Hresult & Hunk) Hfit. pose proof (enc_signed_bound 1 (ACK_LOGOUT_result m)).
  unfold ACK_LOGOUT_encoding in *. autorewrite with zlen in Hfit.
  unfold ACK_LOGOUT_InternalSerialize, WriteUInt32ToArray, WriteUInt64ToArray. cbv zeta.
  rewrite (write_enum_step 1 (ACK_LOGOUT_result m)) by (autorewrite with zlen; lia).
  rewrite bool_decide_eq_true_2 by done. cbn [negb]. by rewrite app_nil_r, <- ?app_assoc.
Qed.

Lemma ACK_LOGOUT_parses m from :
  ACK_LOGOUT_wf from ->
  parses ACK_LOGOUT_field ACK_LOGOUT_unknown (fun u m => m <| ACK_LOGOUT_unknown := u |>) (ACK_LOGOUT_encoding from) m
    (Parsed (ACK_LOGOUT_MergeImpl m from, [], 0)).
Proof using laws.
  intros (Hresult & Hunk).
  unfold ACK_LOGOUT_encoding.
  set (m1 := if negb (ACK_LOGOUT_result from =? 0) then m <| ACK_LOGOUT_result := ACK_LOGOUT_result from |> else m).
  apply (parses_signed _ _ _ 1 (ACK_LOGOUT_result from) _ m m1); [lia|..].
  { intros Hne. rewrite (eq_refl : ACK_LOGOUT_field (1 * 8) =
      fun p m => field_read (ReadVarint64 p) (fun v => m <| ACK_LOGOUT_result := i32 v |>)).
    rewrite ReadVarint64_varint by apply u64_range. cbn [field_read]. rewrite i32_u64 by lia. subst m1.
    by rewrite (proj2 (Z.eqb_neq _ _) Hne). }
  { intros H0. subst m1. by rewrite (proj2 (Z.eqb_eq _ _) H0). }
  replace (ACK_LOGOUT_MergeImpl m from) with m1; [apply parses_done|].
  unfold ACK_LOGOUT_MergeImpl. rewrite Hunk. destruct m. subst m1.
  repeat case_match; simpl; by rewrite app_nil_r.
Qed.

Lemma ACK_LOGOUT_parse depth m from :
  ACK_LOGOUT_wf from -> ACK_LOGOUT_InternalParse depth (ACK_LOGOUT_encoding from) m = Parsed (ACK_LOGOUT_MergeImpl m from, [], 0).
Proof using laws. intros. by apply InternalParse_spec, ACK_LOGOUT_parses. Qed.

Lemma ACK_LOGOUT_bytes m : ACK_LOGOUT_wf m -> Forall is_byte (ACK_LOGOUT_encoding m).
Proof.
  intros (Hresult & Hunk). unfold ACK_LOGOUT_encoding.
  repeat apply Forall_app_2; try apply Forall_nil_2;
    first [apply enc_bool_bytes; lia | apply enc_varint_bytes; lia | apply enc_signed_bytes; lia
          | apply enc_string_bytes; [lia|done]].
Qed.

Lemma ACK_LOGOUT_merge_default m : ACK_LOGOUT_wf m -> ACK_LOGOUT_MergeImpl ACK_LOGOUT_default m = m.
Proof.
  intros (Hresult & Hunk). unfold ACK_LOGOUT_MergeImpl, ACK_LOGOUT_default. destruct m; simpl in *. subst.
  repeat (case_bool_decide || case_match); simplify_eq/=; bool_lia; by subst.
Qed.

Lemma ACK_LOGOUT_copied m from : ACK_LOGOUT_wf from -> ACK_LOGOUT_CopyFrom m from = from.
Proof. apply (ACK_LOGOUT_merge_default from). Qed.

Lemma ACK_LOGOUT_copy_same from : ACK_LOGOUT_copy from = from.
Proof. destruct from. unfold ACK_LOGOUT_copy. simpl. by repeat case_bool_decide; subst. Qed.

Lemma ACK_LOGOUT_progress : field_progress ACK_LOGOUT_field.
Proof using laws.
  intros tag p m. unfold ACK_LOGOUT_field. field_cases.
Qed.

(** *** REQ_ENTER_ROOM *)

Lemma REQ_ENTER_ROOM_size m : REQ_ENTER_ROOM_wf m -> REQ_ENTER_ROOM_ByteSizeLong m = zlen (REQ_ENTER_ROOM_encoding m) /\ 0 <= zlen (REQ_ENTER_ROOM_encoding m) <= 11.
Proof using laws.
  intros (Hroom_id & Hunk). pose proof (enc_signed_bound 1 (REQ_ENTER_ROOM_room_id m)).
  unfold REQ_ENTER_ROOM_encoding. autorewrite with zlen. split; [|lia].
  unfold REQ_ENTER_ROOM_ByteSizeLong, UInt32SizePlusOne, UInt64SizePlusOne. cbv zeta.
  rewrite (size_signed_step 1 (REQ_ENTER_ROOM_room_id m)) by lia.
  rewrite Hunk, unknown_size_empty. lia.
Qed.

Lemma REQ_ENTER_ROOM_serialize m size target :
  REQ_ENTER_ROOM_wf m -> zlen target + zlen (REQ_ENTER_ROOM_encoding m) <= size ->
  REQ_ENTER_ROOM_InternalSerialize size m target = target ++ REQ_ENTER_ROOM_encoding m.
Proof using laws.
  intros (Hroom_id & Hunk) Hfit. pose proof (enc_signed_bound 1 (REQ_ENTER_ROOM_room_id m)).
  unfold REQ_ENTER_ROOM_encoding in *. autorewrite with zlen in Hfit.
  unfold REQ_ENTER_ROOM_InternalSerialize, WriteUInt32ToArray, WriteUInt64ToArray. cbv zeta.
  rewrite (write_signed_step 1 (REQ_ENTER_ROOM_room_id m)) by (autorewrite with zlen; lia).
  rewrite bool_decide_eq_true_2 by done. cbn [negb]. by rewrite app_nil_r, <- ?app_assoc.
Qed.

Lemma REQ_ENTER_ROOM_parses m from :
  REQ_ENTER_ROOM_wf from ->
  parses REQ_ENTER_ROOM_field REQ_ENTER_ROOM_unknown (fun u m => m <| REQ_ENTER_ROOM_unknown := u |>) (REQ_ENTER_ROOM_encoding from) m
    (Parsed (REQ_ENTER_ROOM_MergeImpl m from, [], 0)).
Proof using laws.
  intros (Hroom_id & Hunk).
  unfold REQ_ENTER_ROOM_encoding.
  set (m1 := if negb (REQ_ENTER_ROOM_room_id from =? 0) then m <| REQ_ENTER_ROOM_room_id := REQ_ENTER_ROOM_room_id from |> else m).
  apply (parses_signed _ _ _ 1 (REQ_ENTER_ROOM_room_id from) _ m m1); [lia|..].
  { intros Hne. rewrite (eq_refl : REQ_ENTER_ROOM_field (1 * 8) =
      fun p m => field_read (ReadVarint32 p) (fun v => m <| REQ_ENTER_ROOM_room_id := i32 v |>)).
    rewrite ReadVarint32_varint by apply u64_range. cbn [field_read]. rewrite i32_u32_u64 by lia. subst m1.
    by rewrite (proj2 (Z.eqb_neq _ _) Hne). }
  { intros H0. subst m1. by rewrite (proj2 (Z.eqb_eq _ _) H0). }
  replace (REQ_ENTER_ROOM_MergeImpl m from) with m1; [apply parses_done|].
  unfold REQ_ENTER_ROOM_MergeImpl. rewrite Hunk. destruct m. subst m1.
  repeat case_match; simpl; by rewrite app_nil_r.
Qed.

Lemma REQ_ENTER_ROOM_parse depth m from :
  REQ_ENTER_ROOM_wf from -> REQ_ENTER_ROOM_InternalParse depth (REQ_ENTER_ROOM_encoding from) m = Parsed (REQ_ENTER_ROOM_MergeImpl m from, [], 0).
Proof using laws. intros. by apply InternalParse_spec, REQ_ENTER_ROOM_parses. Qed.

Lemma REQ_ENTER_ROOM_bytes m : REQ_ENTER_ROOM_wf m -> Forall is_byte (REQ_ENTER_ROOM_encoding m).
Proof.
  intros (Hroom_id & Hunk). unfold REQ_ENTER_ROOM_encoding.
  repeat apply Forall_app_2; try apply Forall_nil_2;
    first [apply enc_bool_bytes; lia | apply enc_varint_bytes; lia | apply enc_signed_bytes; lia
          | apply enc_string_bytes; [lia|done]].
Qed.

Lemma REQ_ENTER_ROOM_merge_default m : REQ_ENTER_ROOM_wf m -> REQ_ENTER_ROOM_MergeImpl REQ_ENTER_ROOM_default m = m.
Proof.
  intros (Hroom_id & Hunk). unfold REQ_ENTER_ROOM_MergeImpl, REQ_ENTER_ROOM_default. destruct m; simpl in *. subst.
  repeat (case_bool_decide || case_match); simplify_eq/=; bool_lia; by subst.
Qed.

Lemma REQ_ENTER_ROOM_copied m from : REQ_ENTER_ROOM_wf from -> REQ_ENTER_ROOM_CopyFrom m from = from.
Proof. apply (REQ_ENTER_ROOM_merge_default from). Qed.

Lemma REQ_ENTER_ROOM_copy_same from : REQ_ENTER_ROOM_copy from = from.
Proof. destruct from. unfold REQ_ENTER_ROOM_copy. simpl. by repeat case_bool_decide; subst. Qed.

Lemma REQ_ENTER_ROOM_progress : field_progress REQ_ENTER_ROOM_field.
Proof using laws.
  intros tag p m. unfold REQ_ENTER_ROOM_field. field_cases.
Qed.

(** *** ACK_ENTER_ROOM *)

Lemma ACK_ENTER_ROOM_size m : ACK_ENTER_ROOM_wf m -> ACK_ENTER_ROOM_ByteSizeLong m = zlen (ACK_ENTER_ROOM_encoding m) /\ 0 <= zlen (ACK_ENTER_ROOM_encoding m) <= 11 + 11.
Proof using laws.
  intros (Hroom_id & Hresult & Hunk). pose proof (enc_signed_bound 1 (ACK_ENTER_ROOM_room_id m)).
  pose proof (enc_signed_bound 2 (ACK_ENTER_ROOM_result m)).
  unfold ACK_ENTER_ROOM_encoding. autorewrite with zlen. split; [|lia].
  unfold ACK_ENTER_ROOM_ByteSizeLong, UInt32SizePlusOne, UInt64SizePlusOne. cbv zeta.
  rewrite (size_signed_step 1 (ACK_ENTER_ROOM_room_id m)) by lia.
  rewrite (size_enum_step 2 (ACK_ENTER_ROOM_result m)) by lia.
  rewrite Hunk, unknown_size_empty. lia.
Qed.

Lemma ACK_ENTER_ROOM_serialize m size target :
  ACK_ENTER_ROOM_wf m -> zlen target + zlen (ACK_ENTER_ROOM_encoding m) <= size ->
  ACK_ENTER_ROOM_InternalSerialize size m target = target ++ ACK_ENTER_ROOM_encoding m.
Proof using laws.
  intros (Hroom_id & Hresult & Hunk) Hfit. pose proof (enc_signed_bound 1 (ACK_ENTER_ROOM_room_id m)).
  pose proof (enc_signed_bound 2 (ACK_ENTER_ROOM_result m)).
  unfold ACK_ENTER_ROOM_encoding in *. autorewrite with zlen in Hfit.
  unfold ACK_ENTER_ROOM_InternalSerialize, WriteUInt32ToArray, WriteUInt64ToArray. cbv zeta.
  rewrite (write_signed_step 1 (ACK_ENTER_ROOM_room_id m)) by (autorewrite with zlen; lia).
  rewrite (write_enum_step 2 (ACK_ENTER_ROOM_result m)) by (autorewrite with zlen; lia).
  rewrite bool_decide_eq_true_2 by done. cbn [negb]. by rewrite app_nil_r, <- ?app_assoc.
Qed.

Lemma ACK_ENTER_ROOM_parses m from :
  ACK_ENTER_ROOM_wf from ->
  parses ACK_ENTER_ROOM_field ACK_ENTER_ROOM_unknown (fun u m => m <| ACK_ENTER_ROOM_unknown := u |>) (ACK_ENTER_ROOM_encoding from) m
    (Parsed (ACK_ENTER_ROOM_MergeImpl m from, [], 0)).
Proof using laws.
  intros (Hroom_id & Hresult & Hunk).
  unfold ACK_ENTER_ROOM_encoding.
  set (m1 := if negb (ACK_ENTER_ROOM_room_id from =? 0) then m <| ACK_ENTER_ROOM_room_id := ACK_ENTER_ROOM_room_id from |> else m).
  set (m2 := if negb (ACK_ENTER_ROOM_result from =? 0) then m1 <| ACK_ENTER_ROOM_result := ACK_ENTER_ROOM_result from |> else m1).
  apply (parses_signed _ _ _ 1 (ACK_ENTER_ROOM_room_id from) _ m m1); [lia|..].
  { intros Hne. rewrite (eq_refl : ACK_ENTER_ROOM_field (1 * 8) =
      fun p m => field_read (ReadVarint32 p) (fun v => m <| ACK_ENTER_ROOM_room_id := i32 v |>)).
    rewrite ReadVarint32_varint by apply u64_range. cbn [field_read]. rewrite i32_u32_u64 by lia. subst m1.
    by rewrite (proj2 (Z.eqb_neq _ _) Hne). }
  { intros H0. subst m1. by rewrite (proj2 (Z.eqb_eq _ _) H0). }
  apply (parses_signed _ _ _ 2 (ACK_ENTER_ROOM_result from) _ m1 m2); [lia|..].
  { intros Hne. rewrite (eq_refl : ACK_ENTER_ROOM_field (2 * 8) =
      fun p m => field_read (ReadVarint64 p) (fun v => m <| ACK_ENTER_ROOM_result := i32 v |>)).
    rewrite ReadVarint64_varint by apply u64_range. cbn [field_read]. rewrite i32_u64 by lia. subst m2.
    by rewrite (proj2 (Z.eqb_neq _ _) Hne). }
  { intros H0. subst m2. by rewrite (proj2 (Z.eqb_eq _ _) H0). }
  replace (ACK_ENTER_ROOM_MergeImpl m from) with m2; [apply parses_done|].
  unfold ACK_ENTER_ROOM_MergeImpl. rewrite Hunk. destruct m. subst m1 m2.
  repeat case_match; simpl; by rewrite app_nil_r.
Qed.

Lemma ACK_ENTER_ROOM_parse depth m from :
  ACK_ENTER_ROOM_wf from -> ACK_ENTER_ROOM_InternalParse depth (ACK_ENTER_ROOM_encoding from) m = Parsed (ACK_ENTER_ROOM_MergeImpl m from, [], 0).
Proof using laws. intros. by apply InternalParse_spec, ACK_ENTER_ROOM_parses. Qed.

Lemma ACK_ENTER_ROOM_bytes m : ACK_ENTER_ROOM_wf m -> Forall is_byte (ACK_ENTER_ROOM_encoding m).
Proof.
  intros (Hroom_id & Hresult & Hunk). unfold ACK_ENTER_ROOM_encoding.
  repeat apply Forall_app_2; try apply Forall_nil_2;
    first [apply enc_bool_bytes; lia | apply enc_varint_bytes; lia | apply enc_signed_bytes; lia
          | apply enc_string_bytes; [lia|done]].
Qed.

Lemma ACK_ENTER_ROOM_merge_default m : ACK_ENTER_ROOM_wf m -> ACK_ENTER_ROOM_MergeImpl ACK_ENTER_ROOM_default m = m.
Proof.
  intros (Hroom_id & Hresult & Hunk). unfold ACK_ENTER_ROOM_MergeImpl, ACK_ENTER_ROOM_default. destruct m; simpl in *. subst.
  repeat (case_bool_decide || case_match); simplify_eq/=; bool_lia; by subst.
Qed.

Lemma ACK_ENTER_ROOM_copied m from : ACK_ENTER_ROOM_wf from -> ACK_ENTER_ROOM_CopyFrom m from = from.
Proof. apply (ACK_ENTER_ROOM_merge_default from). Qed.

Lemma ACK_ENTER_ROOM_copy_same from : ACK_ENTER_ROOM_copy from = from.
Proof. destruct from. unfold ACK_ENTER_ROOM_copy. simpl. by repeat case_bool_decide; subst. Qed.

Lemma ACK_ENTER_ROOM_progress : field_progress ACK_ENTER_ROOM_field.
Proof using laws.
  intros tag p m. unfold ACK_ENTER_ROOM_field. field_cases.
Qed.

(** *** ACK_EXIT_ROOM *)

Lemma ACK_EXIT_ROOM_size m : ACK_EXIT_ROOM_wf m -> ACK_EXIT_ROOM_ByteSizeLong m = zlen (ACK_EXIT_ROOM_encoding m) /\ 0 <= zlen (ACK_EXIT_ROOM_encoding m) <= 11.
Proof using laws.
  intros (Hresult & Hunk). pose proof (enc_signed_bound 1 (ACK_EXIT_ROOM_result m)).
  unfold ACK_EXIT_ROOM_encoding. autorewrite with zlen. split; [|lia].
  unfold ACK_EXIT_ROOM_ByteSizeLong, UInt32SizePlusOne, UInt64SizePlusOne. cbv zeta.
  rewrite (size_enum_step 1 (ACK_EXIT_ROOM_result m)) by lia.
  rewrite Hunk, unknown_size_empty. lia.
Qed.

Lemma ACK_EXIT_ROOM_serialize m size target :
  ACK_EXIT_ROOM_wf m -> zlen target + zlen (ACK_EXIT_ROOM_encoding m) <= size ->
  ACK_EXIT_ROOM_InternalSerialize size m target = target ++ ACK_EXIT_ROOM_encoding m.
Proof using laws.
  intros (Hresult & Hunk) Hfit. pose proof (enc_signed_bound 1 (ACK_EXIT_ROOM_result m)).
  unfold ACK_EXIT_ROOM_encoding in *. autorewrite with zlen in Hfit.
  unfold ACK_EXIT_ROOM_InternalSerialize, WriteUInt32ToArray, WriteUInt64ToArray. cbv zeta.
  rewrite (write_enum_step 1 (ACK_EXIT_ROOM_result m)) by (autorewrite with zlen; lia).
  rewrite bool_decide_eq_true_2 by done. cbn [negb]. by rewrite app_nil_r, <- ?app_assoc.
Qed.

Lemma ACK_EXIT_ROOM_parses m from :
  ACK_EXIT_ROOM_wf from ->
  parses ACK_EXIT_ROOM_field ACK_EXIT_ROOM_unknown (fun u m => m <| ACK_EXIT_ROOM_unknown := u |>) (ACK_EXIT_ROOM_encoding from) m
    (Parsed (ACK_EXIT_ROOM_MergeImpl m from, [], 0)).
Proof using laws.
  intros (Hresult & Hunk).
  unfold ACK_EXIT_ROOM_encoding.
  set (m1 := if negb (ACK_EXIT_ROOM_result from =? 0) then m <| ACK_EXIT_ROOM_result := ACK_EXIT_ROOM_result from |> else m).
  apply (parses_signed _ _ _ 1 (ACK_EXIT_ROOM_result from) _ m m1); [lia|..].
  { intros Hne. rewrite (eq_refl : ACK_EXIT_ROOM_field (1 * 8) =
      fun p m => field_read (ReadVarint64 p) (fun v => m <| ACK_EXIT_ROOM_result := i32 v |>)).
    rewrite ReadVarint64_varint by apply u64_range. cbn [field_read]. rewrite i32_u64 by lia. subst m1.
    by rewrite (proj2 (Z.eqb_neq _ _) Hne). }
  { intros H0. subst m1. by rewrite (proj2 (Z.eqb_eq _ _) H0). }
  replace (ACK_EXIT_ROOM_MergeImpl m from) with m1; [apply parses_done|].
  unfold ACK_EXIT_ROOM_MergeImpl. rewrite Hunk. destruct m. subst m1.
  repeat case_match; simpl; by rewrite app_nil_r.
Qed.

Lemma ACK_EXIT_ROOM_parse depth m from :
  ACK_EXIT_ROOM_wf from -> ACK_EXIT_ROOM_InternalParse depth (ACK_EXIT_ROOM_encoding from) m = Parsed (ACK_EXIT_ROOM_MergeImpl m from, [], 0).
Proof using laws. intros. by apply InternalParse_spec, ACK_EXIT_ROOM_parses. Qed.

Lemma ACK_EXIT_ROOM_bytes m : ACK_EXIT_ROOM_wf m -> Forall is_byte (ACK_EXIT_ROOM_encoding m).
Proof.
  intros (Hresult & Hunk). unfold ACK_EXIT_ROOM_encoding.
  repeat apply Forall_app_2; try apply Forall_nil_2;
    first [apply enc_bool_bytes; lia | apply enc_varint_bytes; lia | apply enc_signed_bytes; lia
          | apply enc_string_bytes; [lia|done]].
Qed.

Lemma ACK_EXIT_ROOM_merge_default m : ACK_EXIT_ROOM_wf m -> ACK_EXIT_ROOM_MergeImpl ACK_EXIT_ROOM_default m = m.
Proof.
  intros (Hresult & Hunk). unfold ACK_EXIT_ROOM_MergeImpl, ACK_EXIT_ROOM_default. destruct m; simpl in *. subst.
  repeat (case_bool_decide || case_match); simplify_eq/=; bool_lia; by subst.
Qed.

Lemma ACK_EXIT_ROOM_copied m from : ACK_EXIT_ROOM_wf from -> ACK_EXIT_ROOM_CopyFrom m from = from.
Proof. apply (ACK_EXIT_ROOM_merge_default from). Qed.

Lemma ACK_EXIT_ROOM_copy_same from : ACK_EXIT_ROOM_copy from = from.
Proof. destruct from. unfold ACK_EXIT_ROOM_copy. simpl. by repeat case_bool_decide; subst. Qed.

Lemma ACK_EXIT_ROOM_progress : field_progress ACK_EXIT_ROOM_field.
Proof using laws.
  intros tag p m. unfold ACK_EXIT_ROOM_field. field_cases.
Qed.

(** *** REQ_CHAT *)

Lemma REQ_CHAT_size m : REQ_CHAT_wf m -> REQ_CHAT_ByteSizeLong m = zlen (REQ_CHAT_encoding m) /\ 0 <= zlen (REQ_CHAT_encoding m) <= (8 + zlen (REQ_CHAT_message m)) + 11 + 11 + (8 + zlen (REQ_CHAT_target_name m)).
Proof using laws.
  intros (Hmessage & Hchat_state & Hroom_id & Htarget_name & Hunk). destruct Hmessage as (Hbmessage & Hlmessage & Humessage). pose proof (enc_string_bound 1 (REQ_CHAT_message m) Hlmessage).
  pose proof (enc_signed_bound 2 (REQ_CHAT_chat_state m)).
  pose proof (enc_signed_bound 3 (REQ_CHAT_room_id m)).
  destruct Htarget_name as (Hbtarget_name & Hltarget_name & Hutarget_name). pose proof (enc_string_bound 4 (REQ_CHAT_target_name m) Hltarget_name).
  unfold REQ_CHAT_encoding. autorewrite with zlen. split; [|lia].
  unfold REQ_CHAT_ByteSizeLong, UInt32SizePlusOne, UInt64SizePlusOne. cbv zeta.
  rewrite (size_string_step 1 (REQ_CHAT_message m)) by lia.
  rewrite (size_string_step 4 (REQ_CHAT_target_name m)) by lia.
  rewrite (size_enum_step 2 (REQ_CHAT_chat_state m)) by lia.
  rewrite (size_signed_step 3 (REQ_CHAT_room_id m)) by lia.
  rewrite Hunk, unknown_size_empty. lia.
Qed.

Lemma REQ_CHAT_serialize m size target :
  REQ_CHAT_wf m -> zlen target + zlen (REQ_CHAT_encoding m) <= size ->
  REQ_CHAT_InternalSerialize size m target = target ++ REQ_CHAT_encoding m.
Proof using laws.
  intros (Hmessage & Hchat_state & Hroom_id & Htarget_name & Hunk) Hfit. destruct Hmessage as (Hbmessage & Hlmessage & Humessage). pose proof (enc_string_bound 1 (REQ_CHAT_message m) Hlmessage).
  pose proof (enc_signed_bound 2 (REQ_CHAT_chat_state m)).
  pose proof (enc_signed_bound 3 (REQ_CHAT_room_id m)).
  destruct Htarget_name as (Hbtarget_name & Hltarget_name & Hutarget_name). pose proof (enc_string_bound 4 (REQ_CHAT_target_name m) Hltarget_name).
  unfold REQ_CHAT_encoding in *. autorewrite with zlen in Hfit.
  unfold REQ_CHAT_InternalSerialize, WriteUInt32ToArray, WriteUInt64ToArray. cbv zeta.
  rewrite (write_string_step 1 (REQ_CHAT_message m)) by (autorewrite with zlen; lia).
  rewrite (write_enum_step 2 (REQ_CHAT_chat_state m)) by (autorewrite with zlen; lia).
  rewrite (write_signed_step 3 (REQ_CHAT_room_id m)) by (autorewrite with zlen; lia).
  rewrite (write_string_step 4 (REQ_CHAT_target_name m)) by (autorewrite with zlen; lia).
  rewrite bool_decide_eq_true_2 by done. cbn [negb]. by rewrite app_nil_r, <- ?app_assoc.
Qed.

Lemma REQ_CHAT_parses m from :
  REQ_CHAT_wf from ->
  parses REQ_CHAT_field REQ_CHAT_unknown (fun u m => m <| REQ_CHAT_unknown := u |>) (REQ_CHAT_encoding from) m
    (Parsed (REQ_CHAT_MergeImpl m from, [], 0)).
Proof using laws.
  intros (Hmessage & Hchat_state & Hroom_id & Htarget_name & Hunk).
  destruct Hmessage as (Hbmessage & Hlmessage & Humessage).
  destruct Htarget_name as (Hbtarget_name & Hltarget_name & Hutarget_name).
  unfold REQ_CHAT_encoding.
  set (m1 := if negb (bool_decide (REQ_CHAT_message from = [])) then m <| REQ_CHAT_message := REQ_CHAT_message from |> else m).
  set (m2 := if negb (REQ_CHAT_chat_state from =? 0) then m1 <| REQ_CHAT_chat_state := REQ_CHAT_chat_state from |> else m1).
  set (m3 := if negb (REQ_CHAT_room_id from =? 0) then m2 <| REQ_CHAT_room_id := REQ_CHAT_room_id from |> else m2).
  set (m4 := if negb (bool_decide (REQ_CHAT_target_name from = [])) then m3 <| REQ_CHAT_target_name := REQ_CHAT_target_name from |> else m3).
  apply (parses_string _ _ _ 1 (REQ_CHAT_message from) _ m m1); [lia|..].
  { intros Hne. rewrite (eq_refl : REQ_CHAT_field (1 * 8 + 2) =
      fun p m => field_string p (fun s => m <| REQ_CHAT_message := s |>)).
    rewrite field_string_spec by done. subst m1. by rewrite bool_decide_eq_false_2 by done. }
  { intros H0. subst m1. by rewrite bool_decide_eq_true_2 by done. }
  apply (parses_signed _ _ _ 2 (REQ_CHAT_chat_state from) _ m1 m2); [lia|..].
  { intros Hne. rewrite (eq_refl : REQ_CHAT_field (2 * 8) =
      fun p m => field_read (ReadVarint64 p) (fun v => m <| REQ_CHAT_chat_state := i32 v |>)).
    rewrite ReadVarint64_varint by apply u64_range. cbn [field_read]. rewrite i32_u64 by lia. subst m2.
    by rewrite (proj2 (Z.eqb_neq _ _) Hne). }
  { intros H0. subst m2. by rewrite (proj2 (Z.eqb_eq _ _) H0). }
  apply (parses_signed _ _ _ 3 (REQ_CHAT_room_id from) _ m2 m3); [lia|..].
  { intros Hne. rewrite (eq_refl : REQ_CHAT_field (3 * 8) =
      fun p m => field_read (ReadVarint32 p) (fun v => m <| REQ_CHAT_room_id := i32 v |>)).
    rewrite ReadVarint32_varint by apply u64_range. cbn [field_read]. rewrite i32_u32_u64 by lia. subst m3.
    by rewrite (proj2 (Z.eqb_neq _ _) Hne). }
  { intros H0. subst m3. by rewrite (proj2 (Z.eqb_eq _ _) H0). }
  apply (parses_string _ _ _ 4 (REQ_CHAT_target_name from) _ m3 m4); [lia|..].
  { intros Hne. rewrite (eq_refl : REQ_CHAT_field (4 * 8 + 2) =
      fun p m => field_string p (fun s => m <| REQ_CHAT_target_name := s |>)).
    rewrite field_string_spec by done. subst m4. by rewrite bool_decide_eq_false_2 by done. }
  { intros H0. subst m4. by rewrite bool_decide_eq_true_2 by done. }
  replace (REQ_CHAT_MergeImpl m from) with m4; [apply parses_done|].
  unfold REQ_CHAT_MergeImpl. rewrite Hunk. destruct m. subst m1 m2 m3 m4.
  repeat case_match; simpl; by rewrite app_nil_r.
Qed.

Lemma REQ_CHAT_parse depth m from :
  REQ_CHAT_wf from -> REQ_CHAT_InternalParse depth (REQ_CHAT_encoding from) m = Parsed (REQ_CHAT_MergeImpl m from, [], 0).
Proof using laws. intros. by apply InternalParse_spec, REQ_CHAT_parses. Qed.

Lemma REQ_CHAT_bytes m : REQ_CHAT_wf m -> Forall is_byte (REQ_CHAT_encoding m).
Proof.
  intros (Hmessage & Hchat_state & Hroom_id & Htarget_name & Hunk). unfold REQ_CHAT_encoding.
  destruct Hmessage as (Hbmessage & Hlmessage & Humessage).
  destruct Htarget_name as (Hbtarget_name & Hltarget_name & Hutarget_name).
  repeat apply Forall_app_2; try apply Forall_nil_2;
    first [apply enc_bool_bytes; lia | apply enc_varint_bytes; lia | apply enc_signed_bytes; lia
          | apply enc_string_bytes; [lia|done]].
Qed.

Lemma REQ_CHAT_merge_default m : REQ_CHAT_wf m -> REQ_CHAT_MergeImpl REQ_CHAT_default m = m.
Proof.
  intros (Hmessage & Hchat_state & Hroom_id & Htarget_name & Hunk). unfold REQ_CHAT_MergeImpl, REQ_CHAT_default. destruct m; simpl in *. subst.
  repeat (case_bool_decide || case_match); simplify_eq/=; bool_lia; by subst.
Qed.

Lemma REQ_CHAT_copied m from : REQ_CHAT_wf from -> REQ_CHAT_CopyFrom m from = from.
Proof. apply (REQ_CHAT_merge_default from). Qed.

Lemma REQ_CHAT_copy_same from : REQ_CHAT_copy from = from.
Proof. destruct from. unfold REQ_CHAT_copy. simpl. by repeat case_bool_decide; subst. Qed.

Lemma REQ_CHAT_progress : field_progress REQ_CHAT_field.
Proof using laws.
  intros tag p m. unfold REQ_CHAT_field. field_cases.
Qed.

(** *** ACK_CHAT *)

Lemma ACK_CHAT_size m : ACK_CHAT_wf m -> ACK_CHAT_ByteSizeLong m = zlen (ACK_CHAT_encoding m) /\ 0 <= zlen (ACK_CHAT_encoding m) <= 11 + 11.
Proof using laws.
  intros (Hresult & Htarget_count & Hunk). pose proof (enc_signed_bound 1 (ACK_CHAT_result m)).
  pose proof (enc_varint_bound 2 (ACK_CHAT_target_count m) ltac:(lia)).
  unfold ACK_CHAT_encoding. autorewrite with zlen. split; [|lia].
  unfold ACK_CHAT_ByteSizeLong, UInt32SizePlusOne, UInt64SizePlusOne. cbv zeta.
  rewrite (size_enum_step 1 (ACK_CHAT_result m)) by lia.
  rewrite (size_varint_step 2 (ACK_CHAT_target_count m)) by lia.
  rewrite Hunk, unknown_size_empty. lia.
Qed.

Lemma ACK_CHAT_serialize m size target :
  ACK_CHAT_wf m -> zlen target + zlen (ACK_CHAT_encoding m) <= size ->
  ACK_CHAT_InternalSerialize size m target = target ++ ACK_CHAT_encoding m.
Proof using laws.
  intros (Hresult & Htarget_count & Hunk) Hfit. pose proof (enc_signed_bound 1 (ACK_CHAT_result m)).
  pose proof (enc_varint_bound 2 (ACK_CHAT_target_count m) ltac:(lia)).
  unfold ACK_CHAT_encoding in *. autorewrite with zlen in Hfit.
  unfold ACK_CHAT_InternalSerialize, WriteUInt32ToArray, WriteUInt64ToArray. cbv zeta.
  rewrite (write_enum_step 1 (ACK_CHAT_result m)) by (autorewrite with zlen; lia).
  rewrite (write_varint_step 2 (ACK_CHAT_target_count m)) by (autorewrite with zlen; lia).
  rewrite bool_decide_eq_true_2 by done. cbn [negb]. by rewrite app_nil_r, <- ?app_assoc.
Qed.

Lemma ACK_CHAT_parses m from :
  ACK_CHAT_wf from ->
  parses ACK_CHAT_field ACK_CHAT_unknown (fun u m => m <| ACK_CHAT_unknown := u |>) (ACK_CHAT_encoding from) m
    (Parsed (ACK_CHAT_MergeImpl m from, [], 0)).
Proof using laws.
  intros (Hresult & Htarget_count & Hunk).
  unfold ACK_CHAT_encoding.
  set (m1 := if negb (ACK_CHAT_result from =? 0) then m <| ACK_CHAT_result := ACK_CHAT_result from |> else m).
  set (m2 := if negb (ACK_CHAT_target_count from =? 0) then m1 <| ACK_CHAT_target_count := ACK_CHAT_target_count from |> else m1).
  apply (parses_signed _ _ _ 1 (ACK_CHAT_result from) _ m m1); [lia|..].
  { intros Hne. rewrite (eq_refl : ACK_CHAT_field (1 * 8) =
      fun p m => field_read (ReadVarint64 p) (fun v => m <| ACK_CHAT_result := i32 v |>)).
    rewrite ReadVarint64_varint by apply u64_range. cbn [field_read]. rewrite i32_u64 by lia. subst m1.
    by rewrite (proj2 (Z.eqb_neq _ _) Hne). }
  { intros H0. subst m1. by rewrite (proj2 (Z.eqb_eq _ _) H0). }
  apply (parses_varint _ _ _ 2 (ACK_CHAT_target_count from) _ m1 m2); [lia|..].
  { intros Hne. rewrite (eq_refl : ACK_CHAT_field (2 * 8) =
      fun p m => field_read (ReadVarint32 p) (fun v => m <| ACK_CHAT_target_count := v |>)).
    rewrite ReadVarint32_varint by lia. cbn [field_read]. rewrite u32_small by lia. subst m2.
    by rewrite (proj2 (Z.eqb_neq _ _) Hne). }
  { intros H0. subst m2. by rewrite (proj2 (Z.eqb_eq _ _) H0). }
  replace (ACK_CHAT_MergeImpl m from) with m2; [apply parses_done|].
  unfold ACK_CHAT_MergeImpl. rewrite Hunk. destruct m. subst m1 m2.
  repeat case_match; simpl; by rewrite app_nil_r.
Qed.

Lemma ACK_CHAT_parse depth m from :
  ACK_CHAT_wf from -> ACK_CHAT_InternalParse depth (ACK_CHAT_encoding from) m = Parsed (ACK_CHAT_MergeImpl m from, [], 0).
Proof using laws. intros. by apply InternalParse_spec, ACK_CHAT_parses. Qed.

Lemma ACK_CHAT_bytes m : ACK_CHAT_wf m -> Forall is_byte (ACK_CHAT_encoding m).
Proof.
  intros (Hresult & Htarget_count & Hunk). unfold ACK_CHAT_encoding.
  repeat apply Forall_app_2; try apply Forall_nil_2;
    first [apply enc_bool_bytes; lia | apply enc_varint_bytes; lia | apply enc_signed_bytes; lia
          | apply enc_string_bytes; [lia|done]].
Qed.

Lemma ACK_CHAT_merge_default m : ACK_CHAT_wf m -> ACK_CHAT_MergeImpl ACK_CHAT_default m = m.
Proof.
  intros (Hresult & Htarget_count & Hunk). unfold ACK_CHAT_MergeImpl, ACK_CHAT_default. destruct m; simpl in *. subst.
  repeat (case_bool_decide || case_match); simplify_eq/=; bool_lia; by subst.
Qed.

Lemma ACK_CHAT_copied m from : ACK_CHAT_wf from -> ACK_CHAT_CopyFrom m from = from.
Proof. apply (ACK_CHAT_merge_default from). Qed.

Lemma ACK_CHAT_copy_same from : ACK_CHAT_copy from = from.
Proof. destruct from. unfold ACK_CHAT_copy. simpl. by repeat case_bool_decide; subst. Qed.

Lemma ACK_CHAT_progress : field_progress ACK_CHAT_field.
Proof using laws.
  intros tag p m. unfold ACK_CHAT_field. field_cases.
Qed.

(** *** ACK_SEND_CHAT *)

Lemma ACK_SEND_CHAT_size m : ACK_SEND_CHAT_sized m -> ACK_SEND_CHAT_ByteSizeLong m = zlen (ACK_SEND_CHAT_encoding m) /\ 0 <= zlen (ACK_SEND_CHAT_encoding m) <= (8 + zlen (ACK_SEND_CHAT_user_name m)) + (8 + zlen (ACK_SEND_CHAT_message m)).
Proof using laws.
  intros (Hluser_name & Hlmessage & Hunk). pose proof (enc_string_bound 1 (ACK_SEND_CHAT_user_name m) Hluser_name).
  pose proof (enc_string_bound 2 (ACK_SEND_CHAT_message m) Hlmessage).
  unfold ACK_SEND_CHAT_encoding. autorewrite with zlen. split; [|lia].
  unfold ACK_SEND_CHAT_ByteSizeLong, UInt32SizePlusOne, UInt64SizePlusOne. cbv zeta.
  rewrite (size_string_step 1 (ACK_SEND_CHAT_user_name m)) by lia.
  rewrite (size_string_step 2 (ACK_SEND_CHAT_message m)) by lia.
  rewrite Hunk, unknown_size_empty. lia.
Qed.

Lemma ACK_SEND_CHAT_serialize m size target :
  ACK_SEND_CHAT_sized m -> zlen target + zlen (ACK_SEND_CHAT_encoding m) <= size ->
  ACK_SEND_CHAT_InternalSerialize size m target = target ++ ACK_SEND_CHAT_encoding m.
Proof using laws.
  intros (Hluser_name & Hlmessage & Hunk) Hfit. pose proof (enc_string_bound 1 (ACK_SEND_CHAT_user_name m) Hluser_name).
  pose proof (enc_string_bound 2 (ACK_SEND_CHAT_message m) Hlmessage).
  unfold ACK_SEND_CHAT_encoding in *. autorewrite with zlen in Hfit.
  unfold ACK_SEND_CHAT_InternalSerialize, WriteUInt32ToArray, WriteUInt64ToArray. cbv zeta.
  rewrite (write_string_step 1 (ACK_SEND_CHAT_user_name m)) by (autorewrite with zlen; lia).
  rewrite (write_string_step 2 (ACK_SEND_CHAT_message m)) by (autorewrite with zlen; lia).
  rewrite bool_decide_eq_true_2 by done. cbn [negb]. by rewrite app_nil_r, <- ?app_assoc.
Qed.

Lemma ACK_SEND_CHAT_parses m from :
  ACK_SEND_CHAT_wf from ->
  parses ACK_SEND_CHAT_field ACK_SEND_CHAT_unknown (fun u m => m <| ACK_SEND_CHAT_unknown := u |>) (ACK_SEND_CHAT_encoding from) m
    (Parsed (ACK_SEND_CHAT_MergeImpl m from, [], 0)).
Proof using laws.
  intros (Huser_name & Hmessage & Hunk).
  destruct Huser_name as (Hbuser_name & Hluser_name & Huuser_name).
  destruct Hmessage as (Hbmessage & Hlmessage & Humessage).
  unfold ACK_SEND_CHAT_encoding.
  set (m1 := if negb (bool_decide (ACK_SEND_CHAT_user_name from = [])) then m <| ACK_SEND_CHAT_user_name := ACK_SEND_CHAT_user_name from |> else m).
  set (m2 := if negb (bool_decide (ACK_SEND_CHAT_message from = [])) then m1 <| ACK_SEND_CHAT_message := ACK_SEND_CHAT_message from |> else m1).
  apply (parses_string _ _ _ 1 (ACK_SEND_CHAT_user_name from) _ m m1); [lia|..].
  { intros Hne. rewrite (eq_refl : ACK_SEND_CHAT_field (1 * 8 + 2) =
      fun p m => field_string p (fun s => m <| ACK_SEND_CHAT_user_name := s |>)).
    rewrite field_string_spec by done. subst m1. by rewrite bool_decide_eq_false_2 by done. }
  { intros H0. subst m1. by rewrite bool_decide_eq_true_2 by done. }
  apply (parses_string _ _ _ 2 (ACK_SEND_CHAT_message from) _ m1 m2); [lia|..].
  { intros Hne. rewrite (eq_refl : ACK_SEND_CHAT_field (2 * 8 + 2) =
      fun p m => field_string p (fun s => m <| ACK_SEND_CHAT_message := s |>)).
    rewrite field_string_spec by done. subst m2. by rewrite bool_decide_eq_false_2 by done. }
  { intros H0. subst m2. by rewrite bool_decide_eq_true_2 by done. }
  replace (ACK_SEND_CHAT_MergeImpl m from) with m2; [apply parses_done|].
  unfold ACK_SEND_CHAT_MergeImpl. rewrite Hunk. destruct m. subst m1 m2.
  repeat case_match; simpl; by rewrite app_nil_r.
Qed.

Lemma ACK_SEND_CHAT_parse depth m from :
  ACK_SEND_CHAT_wf from -> ACK_SEND_CHAT_InternalParse depth (ACK_SEND_CHAT_encoding from) m = Parsed (ACK_SEND_CHAT_MergeImpl m from, [], 0).
Proof using laws. intros. by apply InternalParse_spec, ACK_SEND_CHAT_parses. Qed.

Lemma ACK_SEND_CHAT_bytes m : ACK_SEND_CHAT_wf m -> Forall is_byte (ACK_SEND_CHAT_encoding m).
Proof.
  intros (Huser_name & Hmessage & Hunk). unfold ACK_SEND_CHAT_encoding.
  destruct Huser_name as (Hbuser_name & Hluser_name & Huuser_name).
  destruct Hmessage as (Hbmessage & Hlmessage & Humessage).
  repeat apply Forall_app_2; try apply Forall_nil_2;
    first [apply enc_bool_bytes; lia | apply enc_varint_bytes; lia | apply enc_signed_bytes; lia
          | apply enc_string_bytes; [lia|done]].
Qed.

Lemma ACK_SEND_CHAT_merge_default m : ACK_SEND_CHAT_wf m -> ACK_SEND_CHAT_MergeImpl ACK_SEND_CHAT_default m = m.
Proof.
  intros (Huser_name & Hmessage & Hunk). unfold ACK_SEND_CHAT_MergeImpl, ACK_SEND_CHAT_default. destruct m; simpl in *. subst.
  repeat (case_bool_decide || case_match); simplify_eq/=; bool_lia; by subst.
Qed.

Lemma ACK_SEND_CHAT_copied m from : ACK_SEND_CHAT_wf from -> ACK_SEND_CHAT_CopyFrom m from = from.
Proof. apply (ACK_SEND_CHAT_merge_default from). Qed.

Lemma ACK_SEND_CHAT_copy_same from : ACK_SEND_CHAT_copy from = from.
Proof. destruct from. unfold ACK_SEND_CHAT_copy. simpl. by repeat case_bool_decide; subst. Qed.

Lemma ACK_SEND_CHAT_progress : field_progress ACK_SEND_CHAT_field.
Proof using laws.
  intros tag p m. unfold ACK_SEND_CHAT_field. field_cases.
Qed.

(** *** REQ_CONNECT_PONG *)

Lemma REQ_CONNECT_PONG_size m : REQ_CONNECT_PONG_wf m -> REQ_CONNECT_PONG_ByteSizeLong m = zlen (REQ_CONNECT_PONG_encoding m) /\ 0 <= zlen (REQ_CONNECT_PONG_encoding m) <= 11.
Proof using laws.
  intros (Hserver_tick & Hunk). pose proof (enc_varint_bound 1 (REQ_CONNECT_PONG_server_tick m) ltac:(lia)).
  unfold REQ_CONNECT_PONG_encoding. autorewrite with zlen. split; [|lia].
  unfold REQ_CONNECT_PONG_ByteSizeLong, UInt32SizePlusOne, UInt64SizePlusOne. cbv zeta.
  rewrite (size_varint_step 1 (REQ_CONNECT_PONG_server_tick m)) by lia.
  rewrite Hunk, unknown_size_empty. lia.
Qed.

Lemma REQ_CONNECT_PONG_serialize m size target :
  REQ_CONNECT_PONG_wf m -> zlen target + zlen (REQ_CONNECT_PONG_encoding m) <= size ->
  REQ_CONNECT_PONG_InternalSerialize size m target = target ++ REQ_CONNECT_PONG_encoding m.
Proof using laws.
  intros (Hserver_tick & Hunk) Hfit. pose proof (enc_varint_bound 1 (REQ_CONNECT_PONG_server_tick m) ltac:(lia)).
  unfold REQ_CONNECT_PONG_encoding in *. autorewrite with zlen in Hfit.
  unfold REQ_CONNECT_PONG_InternalSerialize, WriteUInt32ToArray, WriteUInt64ToArray. cbv zeta.
  rewrite (write_varint_step 1 (REQ_CONNECT_PONG_server_tick m)) by (autorewrite with zlen; lia).
  rewrite bool_decide_eq_true_2 by done. cbn [negb]. by rewrite app_nil_r, <- ?app_assoc.
Qed.

Lemma REQ_CONNECT_PONG_parses m from :
  REQ_CONNECT_PONG_wf from ->
  parses REQ_CONNECT_PONG_field REQ_CONNECT_PONG_unknown (fun u m => m <| REQ_CONNECT_PONG_unknown := u |>) (REQ_CONNECT_PONG_encoding from) m
    (Parsed (REQ_CONNECT_PONG_MergeImpl m from, [], 0)).
Proof using laws.
  intros (Hserver_tick & Hunk).
  unfold REQ_CONNECT_PONG_encoding.
  set (m1 := if negb (REQ_CONNECT_PONG_server_tick from =? 0) then m <| REQ_CONNECT_PONG_server_tick := REQ_CONNECT_PONG_server_tick from |> else m).
  apply (parses_varint _ _ _ 1 (REQ_CONNECT_PONG_server_tick from) _ m m1); [lia|..].
  { intros Hne. rewrite (eq_refl : REQ_CONNECT_PONG_field (1 * 8) =
      fun p m => field_read (ReadVarint64 p) (fun v => m <| REQ_CONNECT_PONG_server_tick := v |>)).
    rewrite ReadVarint64_varint by lia. cbn [field_read]. subst m1.
    by rewrite (proj2 (Z.eqb_neq _ _) Hne). }
  { intros H0. subst m1. by rewrite (proj2 (Z.eqb_eq _ _) H0). }
  replace (REQ_CONNECT_PONG_MergeImpl m from) with m1; [apply parses_done|].
  unfold REQ_CONNECT_PONG_MergeImpl. rewrite Hunk. destruct m. subst m1.
  repeat case_match; simpl; by rewrite app_nil_r.
Qed.

Lemma REQ_CONNECT_PONG_parse depth m from :
  REQ_CONNECT_PONG_wf from -> REQ_CONNECT_PONG_InternalParse depth (REQ_CONNECT_PONG_encoding from) m = Parsed (REQ_CONNECT_PONG_MergeImpl m from, [], 0).
Proof using laws. intros. by apply InternalParse_spec, REQ_CONNECT_PONG_parses. Qed.

Lemma REQ_CONNECT_PONG_bytes m : REQ_CONNECT_PONG_wf m -> Forall is_byte (REQ_CONNECT_PONG_encoding m).
Proof.
  intros (Hserver_tick & Hunk). unfold REQ_CONNECT_PONG_encoding.
  repeat apply Forall_app_2; try apply Forall_nil_2;
    first [apply enc_bool_bytes; lia | apply enc_varint_bytes; lia | apply enc_signed_bytes; lia
          | apply enc_string_bytes; [lia|done]].
Qed.

Lemma REQ_CONNECT_PONG_merge_default m : REQ_CONNECT_PONG_wf m -> REQ_CONNECT_PONG_MergeImpl REQ_CONNECT_PONG_default m = m.
Proof.
  intros (Hserver_tick & Hunk). unfold REQ_CONNECT_PONG_MergeImpl, REQ_CONNECT_PONG_default. destruct m; simpl in *. subst.
  repeat (case_bool_decide || case_match); simplify_eq/=; bool_lia; by subst.
Qed.

Lemma REQ_CONNECT_PONG_copied m from : REQ_CONNECT_PONG_wf from -> REQ_CONNECT_PONG_CopyFrom m from = from.
Proof. apply (REQ_CONNECT_PONG_merge_default from). Qed.

Lemma REQ_CONNECT_PONG_copy_same from : REQ_CONNECT_PONG_copy from = from.
Proof. destruct from. unfold REQ_CONNECT_PONG_copy. simpl. by repeat case_bool_decide; subst. Qed.

Lemma REQ_CONNECT_PONG_progress : field_progress REQ_CONNECT_PONG_field.
Proof using laws.
  intros tag p m. unfold REQ_CONNECT_PONG_field. field_cases.
Qed.

(** *** ACK_SEND_CONNECT_PING *)

Lemma ACK_SEND_CONNECT_PING_size m : ACK_SEND_CONNECT_PING_wf m -> ACK_SEND_CONNECT_PING_ByteSizeLong m = zlen (ACK_SEND_CONNECT_PING_encoding m) /\ 0 <= zlen (ACK_SEND_CONNECT_PING_encoding m) <= 11.
Proof using laws.
  intros (Hserver_tick & Hunk). pose proof (enc_varint_bound 1 (ACK_SEND_CONNECT_PING_server_tick m) ltac:(lia)).
  unfold ACK_SEND_CONNECT_PING_encoding. autorewrite with zlen. split; [|lia].
  unfold ACK_SEND_CONNECT_PING_ByteSizeLong, UInt32SizePlusOne, UInt64SizePlusOne. cbv zeta.
  rewrite (size_varint_step 1 (ACK_SEND_CONNECT_PING_server_tick m)) by lia.
  rewrite Hunk, unknown_size_empty. lia.
Qed.

Lemma ACK_SEND_CONNECT_PING_serialize m size target :
  ACK_SEND_CONNECT_PING_wf m -> zlen target + zlen (ACK_SEND_CONNECT_PING_encoding m) <= size ->
  ACK_SEND_CONNECT_PING_InternalSerialize size m target = target ++ ACK_SEND_CONNECT_PING_encoding m.
Proof using laws.
  intros (Hserver_tick & Hunk) Hfit. pose proof (enc_varint_bound 1 (ACK_SEND_CONNECT_PING_server_tick m) ltac:(lia)).
  unfold ACK_SEND_CONNECT_PING_encoding in *. autorewrite with zlen in Hfit.
  unfold ACK_SEND_CONNECT_PING_InternalSerialize, WriteUInt32ToArray, WriteUInt64ToArray. cbv zeta.
  rewrite (write_varint_step 1 (ACK_SEND_CONNECT_PING_server_tick m)) by (autorewrite with zlen; lia).
  rewrite bool_decide_eq_true_2 by done. cbn [negb]. by rewrite app_nil_r, <- ?app_assoc.
Qed.

Lemma ACK_SEND_CONNECT_PING_parses m from :
  ACK_SEND_CONNECT_PING_wf from ->
  parses ACK_SEND_CONNECT_PING_field ACK_SEND_CONNECT_PING_unknown (fun u m => m <| ACK_SEND_CONNECT_PING_unknown := u |>) (ACK_SEND_CONNECT_PING_encoding from) m
    (Parsed (ACK_SEND_CONNECT_PING_MergeImpl m from, [], 0)).
Proof using laws.
  intros (Hserver_tick & Hunk).
  unfold ACK_SEND_CONNECT_PING_encoding.
  set (m1 := if negb (ACK_SEND_CONNECT_PING_server_tick from =? 0) then m <| ACK_SEND_CONNECT_PING_server_tick := ACK_SEND_CONNECT_PING_server_tick from |> else m).
  apply (parses_varint _ _ _ 1 (ACK_SEND_CONNECT_PING_server_tick from) _ m m1); [lia|..].
  { intros Hne. rewrite (eq_refl : ACK_SEND_CONNECT_PING_field (1 * 8) =
      fun p m => field_read (ReadVarint64 p) (fun v => m <| ACK_SEND_CONNECT_PING_server_tick := v |>)).
    rewrite ReadVarint64_varint by lia. cbn [field_read]. subst m1.
    by rewrite (proj2 (Z.eqb_neq _ _) Hne). }
  { intros H0. subst m1. by rewrite (proj2 (Z.eqb_eq _ _) H0). }
  replace (ACK_SEND_CONNECT_PING_MergeImpl m from) with m1; [apply parses_done|].
  unfold ACK_SEND_CONNECT_PING_MergeImpl. rewrite Hunk. destruct m. subst m1.
  repeat case_match; simpl; by rewrite app_nil_r.
Qed.

Lemma ACK_SEND_CONNECT_PING_parse depth m from :
  ACK_SEND_CONNECT_PING_wf from -> ACK_SEND_CONNECT_PING_InternalParse depth (ACK_SEND_CONNECT_PING_encoding from) m = Parsed (ACK_SEND_CONNECT_PING_MergeImpl m from, [], 0).
Proof using laws. intros. by apply InternalParse_spec, ACK_SEND_CONNECT_PING_parses. Qed.

Lemma ACK_SEND_CONNECT_PING_bytes m : ACK_SEND_CONNECT_PING_wf m -> Forall is_byte (ACK_SEND_CONNECT_PING_encoding m).
Proof.
  intros (Hserver_tick & Hunk). unfold ACK_SEND_CONNECT_PING_encoding.
  repeat apply Forall_app_2; try apply Forall_nil_2;
    first [apply enc_bool_bytes; lia | apply enc_varint_bytes; lia | apply enc_signed_bytes; lia
          | apply enc_string_bytes; [lia|done]].
Qed.

Lemma ACK_SEND_CONNECT_PING_merge_default m : ACK_SEND_CONNECT_PING_wf m -> ACK_SEND_CONNECT_PING_MergeImpl ACK_SEND_CONNECT_PING_default m = m.
Proof.
  intros (Hserver_tick & Hunk). unfold ACK_SEND_CONNECT_PING_MergeImpl, ACK_SEND_CONNECT_PING_default. destruct m; simpl in *. subst.
  repeat (case_bool_decide || case_match); simplify_eq/=; bool_lia; by subst.
Qed.

Lemma ACK_SEND_CONNECT_PING_copied m from : ACK_SEND_CONNECT_PING_wf from -> ACK_SEND_CONNECT_PING_CopyFrom m from = from.
Proof. apply (ACK_SEND_CONNECT_PING_merge_default from). Qed.

Lemma ACK_SEND_CONNECT_PING_copy_same from : ACK_SEND_CONNECT_PING_copy from = from.
Proof. destruct from. unfold ACK_SEND_CONNECT_PING_copy. simpl. by repeat case_bool_decide; subst. Qed.

Lemma ACK_SEND_CONNECT_PING_progress : field_progress ACK_SEND_CONNECT_PING_field.
Proof using laws.
  intros tag p m. unfold ACK_SEND_CONNECT_PING_field. field_cases.
Qed.

(** *** ACK_SERVER_FULL *)

Lemma ACK_SERVER_FULL_size m : ACK_SERVER_FULL_wf m -> ACK_SERVER_FULL_ByteSizeLong m = zlen (ACK_SERVER_FULL_encoding m) /\ 0 <= zlen (ACK_SERVER_FULL_encoding m) <= 11.
Proof using laws.
  intros (Hmax_session_count & Hunk). pose proof (enc_varint_bound 1 (ACK_SERVER_FULL_max_session_count m) ltac:(lia)).
  unfold ACK_SERVER_FULL_encoding. autorewrite with zlen. split; [|lia].
  unfold ACK_SERVER_FULL_ByteSizeLong, UInt32SizePlusOne, UInt64SizePlusOne. cbv zeta.
  rewrite (size_varint_step 1 (ACK_SERVER_FULL_max_session_count m)) by lia.
  rewrite Hunk, unknown_size_empty. lia.
Qed.

Lemma ACK_SERVER_FULL_serialize m size target :
  ACK_SERVER_FULL_wf m -> zlen target + zlen (ACK_SERVER_FULL_encoding m) <= size ->
  ACK_SERVER_FULL_InternalSerialize size m target = target ++ ACK_SERVER_FULL_encoding m.
Proof using laws.
  intros (Hmax_session_count & Hunk) Hfit. pose proof (enc_varint_bound 1 (ACK_SERVER_FULL_max_session_count m) ltac:(lia)).
  unfold ACK_SERVER_FULL_encoding in *. autorewrite with zlen in Hfit.
  unfold ACK_SERVER_FULL_InternalSerialize, WriteUInt32ToArray, WriteUInt64ToArray. cbv zeta.
  rewrite (write_varint_step 1 (ACK_SERVER_FULL_max_session_count m)) by (autorewrite with zlen; lia).
  rewrite bool_decide_eq_true_2 by done. cbn [negb]. by rewrite app_nil_r, <- ?app_assoc.
Qed.

Lemma ACK_SERVER_FULL_parses m from :
  ACK_SERVER_FULL_wf from ->
  parses ACK_SERVER_FULL_field ACK_SERVER_FULL_unknown (fun u m => m <| ACK_SERVER_FULL_unknown := u |>) (ACK_SERVER_FULL_encoding from) m
    (Parsed (ACK_SERVER_FULL_MergeImpl m from, [], 0)).
Proof using laws.
  intros (Hmax_session_count & Hunk).
  unfold ACK_SERVER_FULL_encoding.
  set (m1 := if negb (ACK_SERVER_FULL_max_session_count from =? 0) then m <| ACK_SERVER_FULL_max_session_count := ACK_SERVER_FULL_max_session_count from |> else m).
  apply (parses_varint _ _ _ 1 (ACK_SERVER_FULL_max_session_count from) _ m m1); [lia|..].
  { intros Hne. rewrite (eq_refl : ACK_SERVER_FULL_field (1 * 8) =
      fun p m => field_read (ReadVarint32 p) (fun v => m <| ACK_SERVER_FULL_max_session_count := v |>)).
    rewrite ReadVarint32_varint by lia. cbn [field_read]. rewrite u32_small by lia. subst m1.
    by rewrite (proj2 (Z.eqb_neq _ _) Hne). }
  { intros H0. subst m1. by rewrite (proj2 (Z.eqb_eq _ _) H0). }
  replace (ACK_SERVER_FULL_MergeImpl m from) with m1; [apply parses_done|].
  unfold ACK_SERVER_FULL_MergeImpl. rewrite Hunk. destruct m. subst m1.
  repeat case_match; simpl; by rewrite app_nil_r.
Qed.

Lemma ACK_SERVER_FULL_parse depth m from :
  ACK_SERVER_FULL_wf from -> ACK_SERVER_FULL_InternalParse depth (ACK_SERVER_FULL_encoding from) m = Parsed (ACK_SERVER_FULL_MergeImpl m from, [], 0).
Proof using laws. intros. by apply InternalParse_spec, ACK_SERVER_FULL_parses. Qed.

Lemma ACK_SERVER_FULL_bytes m : ACK_SERVER_FULL_wf m -> Forall is_byte (ACK_SERVER_FULL_encoding m).
Proof.
  intros (Hmax_session_count & Hunk). unfold ACK_SERVER_FULL_encoding.
  repeat apply Forall_app_2; try apply Forall_nil_2;
    first [apply enc_bool_bytes; lia | apply enc_varint_bytes; lia | apply enc_signed_bytes; lia
          | apply enc_string_bytes; [lia|done]].
Qed.

Lemma ACK_SERVER_FULL_merge_default m : ACK_SERVER_FULL_wf m -> ACK_SERVER_FULL_MergeImpl ACK_SERVER_FULL_default m = m.
Proof.
  intros (Hmax_session_count & Hunk). unfold ACK_SERVER_FULL_MergeImpl, ACK_SERVER_FULL_default. destruct m; simpl in *. subst.
  repeat (case_bool_decide || case_match); simplify_eq/=; bool_lia; by subst.
Qed.

Lemma ACK_SERVER_FULL_copied m from : ACK_SERVER_FULL_wf from -> ACK_SERVER_FULL_CopyFrom m from = from.
Proof. apply (ACK_SERVER_FULL_merge_default from). Qed.

Lemma ACK_SERVER_FULL_copy_same from : ACK_SERVER_FULL_copy from = from.
Proof. destruct from. unfold ACK_SERVER_FULL_copy. simpl. by repeat case_bool_decide; subst. Qed.

Lemma ACK_SERVER_FULL_progress : field_progress ACK_SERVER_FULL_field.
Proof using laws.
  intros tag p m. unfold ACK_SERVER_FULL_field. field_cases.
Qed.

(** *** ACK_GET_ROOM_INFO *)

Abbreviation room_enc := (fun r => enc_message 1 (RoomInfo_encoding r)).

Lemma room_enc_len r :
  RoomInfo_wf r ->
  zlen (room_enc r) = 1 + LengthDelimitedSize (RoomInfo_ByteSizeLong r) /\ 0 <= zlen (room_enc r) <= 40.
Proof using laws.
  intros Hr. destruct (RoomInfo_size r Hr) as [-> Hb]. unfold enc_message.
  rewrite zlen_cons, zlen_app, LengthDelimitedSize_spec by lia.
  pose proof (varint_len32 (zlen (RoomInfo_encoding r)) ltac:(lia)).
  rewrite varint_small in * by lia. rewrite zlen_cons, zlen_nil in *. lia.
Qed.

Lemma rooms_len l :
  Forall RoomInfo_wf l -> 0 <= zlen (concat (room_enc <$> l)) <= 40 * zlen l.
Proof using laws.
  induction 1 as [|r l Hr Hl IH]; [done|]. rewrite fmap_cons. cbn [concat].
  rewrite zlen_app, zlen_cons. destruct (room_enc_len r Hr). lia.
Qed.

Lemma rooms_size l total :
  Forall RoomInfo_wf l -> 0 <= total -> total + 40 * zlen l < 2 ^ 64 ->
  foldl (fun t r => u64 (t + LengthDelimitedSize (RoomInfo_ByteSizeLong r))) total l
  = total + zlen (concat (room_enc <$> l)) - zlen l.
Proof using laws.
  intros Hl. revert total. induction Hl as [|r l Hr Hl IH]; intros total H0 Hlt.
  { unfold zlen. simpl. lia. }
  rewrite fmap_cons. cbn [foldl concat]. rewrite zlen_app, zlen_cons in *.
  destruct (room_enc_len r Hr) as [He Hb]. pose proof (rooms_len l Hl). pose proof (zlen_nonneg l).
  assert (0 <= LengthDelimitedSize (RoomInfo_ByteSizeLong r)) by apply u64_range.
  rewrite u64_small by lia. rewrite IH by lia. lia.
Qed.

Lemma ACK_GET_ROOM_INFO_size m :
  ACK_GET_ROOM_INFO_wf m ->
  ACK_GET_ROOM_INFO_ByteSizeLong m = zlen (ACK_GET_ROOM_INFO_encoding m) /\
  0 <= zlen (ACK_GET_ROOM_INFO_encoding m) <= 40 * zlen (ACK_GET_ROOM_INFO_room_info_list m).
Proof using laws.
  intros (Hl & Hn & Hunk). pose proof (rooms_len _ Hl).
  pose proof (zlen_nonneg (ACK_GET_ROOM_INFO_room_info_list m)).
  unfold ACK_GET_ROOM_INFO_encoding. split; [|lia].
  unfold ACK_GET_ROOM_INFO_ByteSizeLong. cbv zeta. rewrite (u64_small (0 + _)) by lia.
  rewrite rooms_size by (done || lia). rewrite Hunk, unknown_size_empty. lia.
Qed.

Lemma rooms_serialize l size target :
  Forall RoomInfo_wf l -> zlen target + zlen (concat (room_enc <$> l)) <= size ->
  foldl (fun target r => InternalWriteMessage size 1
           (fun size target => RoomInfo_InternalSerialize size r target)
           (RoomInfo_ByteSizeLong r) target) target l
  = target ++ concat (room_enc <$> l).
Proof using laws.
  intros Hl. revert target. induction Hl as [|r l Hr Hl IH]; intros target Hfit.
  { simpl. by rewrite app_nil_r. }
  rewrite fmap_cons in *. cbn [foldl concat] in *. pose proof (rooms_len l Hl).
  destruct (RoomInfo_size r Hr) as [Hs Hb].
  rewrite zlen_app in Hfit. unfold enc_message in Hfit at 1. rewrite zlen_cons, zlen_app in Hfit.
  rewrite Hs. rewrite write_message_ok by (rewrite ?zlen_cons; lia).
  rewrite RoomInfo_serialize by (rewrite ?zlen_app, ?zlen_cons; done || lia).
  rewrite IH.
  - unfold enc_message at 2. rewrite <- !app_assoc. cbn [app]. by rewrite <- app_assoc.
  - rewrite !zlen_app, zlen_cons. lia.
Qed.

Lemma ACK_GET_ROOM_INFO_serialize m size target :
  ACK_GET_ROOM_INFO_wf m -> zlen target + zlen (ACK_GET_ROOM_INFO_encoding m) <= size ->
  ACK_GET_ROOM_INFO_InternalSerialize size m target = target ++ ACK_GET_ROOM_INFO_encoding m.
Proof using laws.
  intros (Hl & Hn & Hunk) Hfit. unfold ACK_GET_ROOM_INFO_InternalSerialize. cbv zeta.
  rewrite rooms_serialize by done. by rewrite bool_decide_eq_true_2 by done.
Qed.

Lemma ParseMessage_room depth r rest :
  RoomInfo_wf r -> 1 <= depth ->
  ParseContext_ParseMessage RoomInfo (fun d q => RoomInfo_InternalParse d q RoomInfo_default) depth
    (varint (zlen (RoomInfo_encoding r)) ++ RoomInfo_encoding r ++ rest) = Parsed (r, rest).
Proof using laws.
  intros Hr Hd. destruct (RoomInfo_size r Hr) as [_ Hb]. apply message_ok; [done|lia|].
  unfold RoomInfo_InternalParse. rewrite (InternalParse_spec _ _ _ _ _ _ (RoomInfo_parses _ r Hr)).
  by rewrite RoomInfo_merge_default.
Qed.

Lemma rooms_cons r l :
  concat (room_enc <$> (r :: l)) =
  10 :: varint (zlen (RoomInfo_encoding r)) ++ RoomInfo_encoding r ++ concat (room_enc <$> l).
Proof. rewrite fmap_cons. cbn [concat]. unfold enc_message at 1. cbn [app]. by rewrite <- app_assoc. Qed.

(** The inner loop reads all the remaining entries. *)
Lemma room_loop_spec depth l : forall fuel r acc,
  Forall RoomInfo_wf (r :: l) -> 1 <= depth ->
  (length (varint (zlen (RoomInfo_encoding r)) ++ RoomInfo_encoding r ++ concat (room_enc <$> l)) < fuel)%nat ->
  room_info_list_loop fuel depth
    (varint (zlen (RoomInfo_encoding r)) ++ RoomInfo_encoding r ++ concat (room_enc <$> l)) acc
  = Parsed (acc ++ r :: l, []).
Proof using laws.
  induction l as [|r' l IH]; intros [|fuel] r acc Hl Hd Hf; [lia| |lia|];
    apply Forall_cons_1 in Hl as [Hr Hl]; cbn [room_info_list_loop];
    rewrite ParseMessage_room by done.
  - done.
  - rewrite rooms_cons in *. unfold DataAvailable. rewrite bool_decide_eq_false_2 by done.
    cbn [negb ExpectTag list.tail]. change (10 =? 10) with true. cbv iota. rewrite IH; try done.
    + by rewrite <- app_assoc.
    + rewrite !length_app in *. cbn [length] in Hf. rewrite !length_app in *. lia.
Qed.

Lemma ACK_GET_ROOM_INFO_parses depth m from :
  ACK_GET_ROOM_INFO_wf from -> 1 <= depth ->
  parses (ACK_GET_ROOM_INFO_field depth) ACK_GET_ROOM_INFO_unknown
    (fun u m => m <| ACK_GET_ROOM_INFO_unknown := u |>) (ACK_GET_ROOM_INFO_encoding from) m
    (Parsed (ACK_GET_ROOM_INFO_MergeImpl m from, [], 0)).
Proof using laws.
  intros (Hl & Hn & Hunk) Hd. unfold ACK_GET_ROOM_INFO_encoding, ACK_GET_ROOM_INFO_MergeImpl.
  rewrite Hunk. destruct (ACK_GET_ROOM_INFO_room_info_list from) as [|r l].
  { cbn [fmap list_fmap concat]. destruct m as [rl u]. simpl. rewrite !app_nil_r. apply parses_done. }
  rewrite rooms_cons. rewrite <- (app_nil_r (_ ++ _ ++ concat _)).
  eapply parses_field; [lia| |apply parses_done].
  rewrite (eq_refl : ACK_GET_ROOM_INFO_field depth 10 = fun ptr m =>
    field_read (room_info_list_loop (S (length ptr)) depth ptr (ACK_GET_ROOM_INFO_room_info_list m))
               (fun l => m <| ACK_GET_ROOM_INFO_room_info_list := l |>)).
  rewrite app_nil_r, room_loop_spec by (done || lia).
  destruct m. simpl. by rewrite app_nil_r.
Qed.

Lemma ACK_GET_ROOM_INFO_parse depth m from :
  ACK_GET_ROOM_INFO_wf from -> 1 <= depth ->
  ACK_GET_ROOM_INFO_InternalParse depth (ACK_GET_ROOM_INFO_encoding from) m
  = Parsed (ACK_GET_ROOM_INFO_MergeImpl m from, [], 0).
Proof using laws. intros. by apply InternalParse_spec, ACK_GET_ROOM_INFO_parses. Qed.

Lemma ACK_GET_ROOM_INFO_bytes m : ACK_GET_ROOM_INFO_wf m -> Forall is_byte (ACK_GET_ROOM_INFO_encoding m).
Proof.
  intros (Hl & Hn & Hunk). unfold ACK_GET_ROOM_INFO_encoding.
  induction Hl as [|r l Hr _ IH]; [constructor|]. rewrite fmap_cons. cbn [concat].
  apply Forall_app_2; [|apply IH; rewrite zlen_cons in Hn; lia].
  apply enc_message_bytes; [lia|]. by apply RoomInfo_bytes.
Qed.

Lemma ACK_GET_ROOM_INFO_merge_default m :
  ACK_GET_ROOM_INFO_wf m -> ACK_GET_ROOM_INFO_MergeImpl ACK_GET_ROOM_INFO_default m = m.
Proof. intros (_ & _ & Hunk). destruct m; simpl in *. by subst. Qed.

Lemma ACK_GET_ROOM_INFO_copied m from :
  ACK_GET_ROOM_INFO_wf from -> ACK_GET_ROOM_INFO_CopyFrom m from = from.
Proof. apply (ACK_GET_ROOM_INFO_merge_default from). Qed.

Lemma ACK_GET_ROOM_INFO_copy_same from : ACK_GET_ROOM_INFO_copy from = from.
Proof. by destruct from. Qed.

Lemma ParseMessage_room_total depth p :
  ParseContext_ParseMessage RoomInfo (fun d q => RoomInfo_InternalParse d q RoomInfo_default) depth p <> NoFuel /\
  forall m q, ParseContext_ParseMessage RoomInfo (fun d q => RoomInfo_InternalParse d q RoomInfo_default) depth p = Parsed (m, q) ->
              (length q < length p)%nat.
Proof using laws.
  split; [|intros m q; apply message_consumes].
  apply message_returns. intros d q. unfold RoomInfo_InternalParse, InternalParse.
  apply parse_loop_total; [apply RoomInfo_progress|lia].
Qed.

Lemma room_loop_total depth fuel p acc :
  (length p < fuel)%nat ->
  room_info_list_loop fuel depth p acc <> NoFuel /\
  forall l q, room_info_list_loop fuel depth p acc = Parsed (l, q) -> (length q < length p)%nat.
Proof using laws.
  revert p acc. induction fuel as [|fuel IH]; intros p acc Hf; [lia|]. cbn [room_info_list_loop].
  destruct (ParseMessage_room_total depth p) as [Hn Hc].
  destruct (ParseContext_ParseMessage _ _ depth p) as [[m q]| |] eqn:E; [|done|done].
  specialize (Hc _ _ eq_refl).
  destruct (negb _); [split; [done|]; by intros l q' [= <- <-]|].
  destruct (ExpectTag 10 q); [|split; [done|]; by intros l q' [= <- <-]].
  assert (length (tl q) <= length q)%nat by (destruct q; simpl; lia).
  destruct (IH (tl q) (acc ++ [m])) as [Hn' Hc']; [lia|].
  split; [done|]. intros l q' Hq. specialize (Hc' _ _ Hq). lia.
Qed.

Lemma ACK_GET_ROOM_INFO_progress depth : field_progress (ACK_GET_ROOM_INFO_field depth).
Proof using laws.
  intros tag p m. unfold ACK_GET_ROOM_INFO_field.
  destruct (room_loop_total depth (S (length p)) p (ACK_GET_ROOM_INFO_room_info_list m)) as [Hn Hc]; [lia|].
  repeat case_match; try apply unusual_progress. by apply field_read_progress.
Qed.

(** ** Packets *)

Lemma REQ_GET_ROOM_INFO_empty depth m from :
  REQ_GET_ROOM_INFO_wf from ->
  REQ_GET_ROOM_INFO_InternalParse depth [] m = Parsed (REQ_GET_ROOM_INFO_MergeFrom m from, [], 0).
Proof using laws.
  intros Hunk. unfold REQ_GET_ROOM_INFO_InternalParse, REQ_GET_ROOM_INFO_MergeFrom. rewrite zero_fields_empty.
  destruct m, from; red in Hunk; simpl in *. subst. by rewrite zero_fields_merge.
Qed.

Lemma REQ_EXIT_ROOM_empty depth m from :
  REQ_EXIT_ROOM_wf from ->
  REQ_EXIT_ROOM_InternalParse depth [] m = Parsed (REQ_EXIT_ROOM_MergeFrom m from, [], 0).
Proof using laws.
  intros Hunk. unfold REQ_EXIT_ROOM_InternalParse, REQ_EXIT_ROOM_MergeFrom. rewrite zero_fields_empty.
  destruct m, from; red in Hunk; simpl in *. subst. by rewrite zero_fields_merge.
Qed.

Create HintDb messages.
#[local] Hint Resolve REQ_LOGIN_size ACK_LOGIN_size REQ_BOT_LOGIN_size ACK_BOT_LOGIN_size
   REQ_LOGOUT_size ACK_LOGOUT_size ACK_GET_ROOM_INFO_size REQ_ENTER_ROOM_size ACK_ENTER_ROOM_size
   ACK_EXIT_ROOM_size REQ_CHAT_size ACK_CHAT_size ACK_SEND_CHAT_size REQ_CONNECT_PONG_size
   ACK_SEND_CONNECT_PING_size ACK_SERVER_FULL_size : messages.
#[local] Hint Resolve REQ_LOGIN_serialize ACK_LOGIN_serialize REQ_BOT_LOGIN_serialize
   ACK_BOT_LOGIN_serialize REQ_LOGOUT_serialize ACK_LOGOUT_serialize ACK_GET_ROOM_INFO_serialize
   REQ_ENTER_ROOM_serialize ACK_ENTER_ROOM_serialize ACK_EXIT_ROOM_serialize REQ_CHAT_serialize
   ACK_CHAT_serialize ACK_SEND_CHAT_serialize REQ_CONNECT_PONG_serialize
   ACK_SEND_CONNECT_PING_serialize ACK_SERVER_FULL_serialize : messages.
#[local] Hint Resolve REQ_LOGIN_bytes ACK_LOGIN_bytes REQ_BOT_LOGIN_bytes ACK_BOT_LOGIN_bytes
   REQ_LOGOUT_bytes ACK_LOGOUT_bytes ACK_GET_ROOM_INFO_bytes REQ_ENTER_ROOM_bytes
   ACK_ENTER_ROOM_bytes ACK_EXIT_ROOM_bytes REQ_CHAT_bytes ACK_CHAT_bytes ACK_SEND_CHAT_bytes
   REQ_CONNECT_PONG_bytes ACK_SEND_CONNECT_PING_bytes ACK_SERVER_FULL_bytes : messages.
#[local] Hint Resolve REQ_LOGIN_merge_default ACK_LOGIN_merge_default REQ_BOT_LOGIN_merge_default
   ACK_BOT_LOGIN_merge_default REQ_LOGOUT_merge_default ACK_LOGOUT_merge_default
   ACK_GET_ROOM_INFO_merge_default REQ_ENTER_ROOM_merge_default ACK_ENTER_ROOM_merge_default
   ACK_EXIT_ROOM_merge_default REQ_CHAT_merge_default ACK_CHAT_merge_default
   ACK_SEND_CHAT_merge_default REQ_CONNECT_PONG_merge_default ACK_SEND_CONNECT_PING_merge_default
   ACK_SERVER_FULL_merge_default : messages.
#[local] Hint Resolve REQ_LOGIN_parse ACK_LOGIN_parse REQ_BOT_LOGIN_parse ACK_BOT_LOGIN_parse
   REQ_LOGOUT_parse ACK_LOGOUT_parse ACK_GET_ROOM_INFO_parse REQ_ENTER_ROOM_parse
   ACK_ENTER_ROOM_parse ACK_EXIT_ROOM_parse REQ_CHAT_parse ACK_CHAT_parse ACK_SEND_CHAT_parse
   REQ_CONNECT_PONG_parse ACK_SEND_CONNECT_PING_parse ACK_SERVER_FULL_parse : messages.
#[local] Hint Resolve REQ_LOGIN_progress ACK_LOGIN_progress REQ_BOT_LOGIN_progress
   ACK_BOT_LOGIN_progress REQ_LOGOUT_progress ACK_LOGOUT_progress ACK_GET_ROOM_INFO_progress
   REQ_ENTER_ROOM_progress ACK_ENTER_ROOM_progress ACK_EXIT_ROOM_progress REQ_CHAT_progress
   ACK_CHAT_progress ACK_SEND_CHAT_progress REQ_CONNECT_PONG_progress
   ACK_SEND_CONNECT_PING_progress ACK_SERVER_FULL_progress : messages.
#[local] Hint Resolve REQ_LOGIN_copied ACK_LOGIN_copied REQ_BOT_LOGIN_copied ACK_BOT_LOGIN_copied
   REQ_LOGOUT_copied ACK_LOGOUT_copied ACK_GET_ROOM_INFO_copied REQ_ENTER_ROOM_copied
   ACK_ENTER_ROOM_copied ACK_EXIT_ROOM_copied REQ_CHAT_copied ACK_CHAT_copied
   ACK_SEND_CHAT_copied REQ_CONNECT_PONG_copied ACK_SEND_CONNECT_PING_copied
   ACK_SERVER_FULL_copied : messages.
#[local] Hint Resolve REQ_LOGIN_copy_same ACK_LOGIN_copy_same REQ_BOT_LOGIN_copy_same
   ACK_BOT_LOGIN_copy_same REQ_LOGOUT_copy_same ACK_LOGOUT_copy_same ACK_GET_ROOM_INFO_copy_same
   REQ_ENTER_ROOM_copy_same ACK_ENTER_ROOM_copy_same ACK_EXIT_ROOM_copy_same REQ_CHAT_copy_same
   ACK_CHAT_copy_same ACK_SEND_CHAT_copy_same REQ_CONNECT_PONG_copy_same
   ACK_SEND_CONNECT_PING_copy_same ACK_SERVER_FULL_copy_same : messages.
#[local] Hint Resolve REQ_GET_ROOM_INFO_empty REQ_EXIT_ROOM_empty : messages.

Lemma packet_size p :
  packet_sized p -> packet_ByteSizeLong p = zlen (packet_encoding p) /\ 0 <= zlen (packet_encoding p) <= packet_bound p.
Proof using laws.
  destruct p; cbn [packet_sized packet_wf packet_ByteSizeLong packet_encoding packet_bound];
    try solve [auto with messages].
  all: intros Hunk; unfold REQ_GET_ROOM_INFO_ByteSizeLong, REQ_EXIT_ROOM_ByteSizeLong.
  all: red in Hunk; rewrite Hunk, zero_fields_size; done.
Qed.

Lemma packet_serialize p size target :
  packet_sized p -> zlen target + zlen (packet_encoding p) <= size ->
  packet_InternalSerialize p size target = target ++ packet_encoding p.
Proof using laws.
  destruct p; cbn [packet_sized packet_wf packet_InternalSerialize packet_encoding];
    try solve [auto with messages].
  all: intros Hunk _; unfold REQ_GET_ROOM_INFO_InternalSerialize, REQ_EXIT_ROOM_InternalSerialize.
  all: red in Hunk; rewrite Hunk, zero_fields_serialize, app_nil_r; done.
Qed.

Lemma packet_bytes p : packet_wf p -> Forall is_byte (packet_encoding p).
Proof.
  destruct p; cbn [packet_wf packet_encoding];
    try solve [auto with messages].
  all: intros _; constructor.
Qed.

Lemma parsed_message {M N} (parse : parse_result (M * bytes * Z)) (f : M -> N) m q last :
  parse = Parsed (m, q, last) ->
  (' (m', q, last) <-- parse ;; Parsed (f m', q, last)) = Parsed (f m, q, last).
Proof. by intros ->. Qed.

Lemma packet_parse_encoding p q depth :
  packet_wf q -> packet_id p = packet_id q -> 1 <= depth ->
  packet_InternalParse p depth (packet_encoding q) = Parsed (packet_MergeImpl p q, [], 0).
Proof using laws.
  intros Hq Hid Hd. destruct p, q; try discriminate Hid;
    cbn [packet_wf packet_encoding packet_InternalParse packet_MergeImpl] in *; apply parsed_message;
    auto with messages.
Qed.

Lemma packet_merge_default p : packet_wf p ->
  match p with
  | P_REQ_LOGIN m => REQ_LOGIN_MergeImpl REQ_LOGIN_default m = m
  | P_ACK_LOGIN m => ACK_LOGIN_MergeImpl ACK_LOGIN_default m = m
  | P_REQ_BOT_LOGIN m => REQ_BOT_LOGIN_MergeImpl REQ_BOT_LOGIN_default m = m
  | P_ACK_BOT_LOGIN m => ACK_BOT_LOGIN_MergeImpl ACK_BOT_LOGIN_default m = m
  | P_REQ_LOGOUT m => REQ_LOGOUT_MergeImpl REQ_LOGOUT_default m = m
  | P_ACK_LOGOUT m => ACK_LOGOUT_MergeImpl ACK_LOGOUT_default m = m
  | P_REQ_GET_ROOM_INFO m => REQ_GET_ROOM_INFO_MergeFrom REQ_GET_ROOM_INFO_default m = m
  | P_ACK_GET_ROOM_INFO m => ACK_GET_ROOM_INFO_MergeImpl ACK_GET_ROOM_INFO_default m = m
  | P_REQ_ENTER_ROOM m => REQ_ENTER_ROOM_MergeImpl REQ_ENTER_ROOM_default m = m
  | P_ACK_ENTER_ROOM m => ACK_ENTER_ROOM_MergeImpl ACK_ENTER_ROOM_default m = m
  | P_REQ_EXIT_ROOM m => REQ_EXIT_ROOM_MergeFrom REQ_EXIT_ROOM_default m = m
  | P_ACK_EXIT_ROOM m => ACK_EXIT_ROOM_MergeImpl ACK_EXIT_ROOM_default m = m
  | P_REQ_CHAT m => REQ_CHAT_MergeImpl REQ_CHAT_default m = m
  | P_ACK_CHAT m => ACK_CHAT_MergeImpl ACK_CHAT_default m = m
  | P_ACK_SEND_CHAT m => ACK_SEND_CHAT_MergeImpl ACK_SEND_CHAT_default m = m
  | P_REQ_CONNECT_PONG m => REQ_CONNECT_PONG_MergeImpl REQ_CONNECT_PONG_default m = m
  | P_ACK_SEND_CONNECT_PING m => ACK_SEND_CONNECT_PING_MergeImpl ACK_SEND_CONNECT_PING_default m = m
  | P_ACK_SERVER_FULL m => ACK_SERVER_FULL_MergeImpl ACK_SERVER_FULL_default m = m
  end.
Proof using laws.
  destruct p; cbn [packet_wf];
    try solve [auto with messages].
  all: intros Hunk; red in Hunk; unfold REQ_GET_ROOM_INFO_MergeFrom, REQ_EXIT_ROOM_MergeFrom.
  all: rewrite Hunk, zero_fields_merge; destruct m; simpl in *; by subst.
Qed.

Lemma parse_fresh_ok {M} (parse : Z -> bytes -> M -> parse_result (M * bytes * Z)) m bs r :
  parse default_recursion_limit bs m = Parsed (r, [], 0) -> parse_fresh parse m bs = Some r.
Proof using laws. intros H. unfold parse_fresh. by eapply parse_array_ok. Qed.

Lemma packet_parse_back p : packet_wf p -> packet_ParseFromArray (packet_id p) (packet_encoding p) = Some p.
Proof using laws.
  intros Hp. pose proof recursion_limit_pos as Hlim.
  pose proof (packet_merge_default p Hp) as Hm.
  destruct p; cbn [packet_wf packet_encoding] in *;
    match goal with |- packet_ParseFromArray (packet_id ?p) ?bs = _ =>
      let r := eval vm_compute in (packet_id p) in change (packet_id p) with r end;
    unfold packet_ParseFromArray;
    repeat match goal with |- context [?a =? ?b] =>
      let r := eval vm_compute in (a =? b) in change (a =? b) with r end; cbv iota;
    (erewrite parse_fresh_ok; [reflexivity|]);
    (match type of Hm with ?x = _ => transitivity (Parsed (x, @nil Z, 0)) end;
     [auto with messages|by rewrite Hm]).
Qed.

Lemma packet_array_kind i bs p : packet_ParseFromArray i bs = Some p -> packet_id p = i.
Proof.
  unfold packet_ParseFromArray.
  repeat (case_match; [bool_lia; intros (m & _ & ->)%fmap_Some; simpl; congruence|]). done.
Qed.

Lemma packet_roundtrip_aux p n :
  packet_sized p -> packet_ByteSizeLong p <= n -> n < 2 ^ 31 ->
  packet_SerializeToArray p n = Some (packet_encoding p).
Proof using laws.
  intros Hp Hn Hlt. destruct (packet_size p Hp) as [Hs Hb]. unfold packet_SerializeToArray.
  rewrite serialize_ok by lia. rewrite packet_serialize by (done || (rewrite zlen_nil; lia)). done.
Qed.

#[export] Instance pb_codec_laws : PacketCodecLaws pb_codec.
Proof using laws.
  constructor; cbn [ByteSizeLong SerializeToArray ParseFromArray pb_codec].
  - intros p Hp. destruct (packet_size p Hp) as [-> ?]. done.
  - intros p n Hp Hn Hlt. exists (packet_encoding p). destruct (packet_size p Hp) as [Hs _].
    split; [by apply packet_roundtrip_aux|done].
  - intros p n Hn. by apply serialize_small.
  - intros p n Hp Hn Hlt. exists (packet_encoding p). pose proof (packet_wf_sized p Hp) as Hz.
    destruct (packet_size p Hz) as [Hs _].
    split; [by apply packet_roundtrip_aux|]. split; [done|].
    split; [by apply packet_bytes|by apply packet_parse_back].
  - apply packet_array_kind.
Qed.

(** ** Properties *)

(** C28: wire round trip.  Every well-formed packet serializes into an array of at
    least [ByteSizeLong] bytes; exactly [ByteSizeLong] bytes are produced, they are
    bytes, and parsing them for the packet's id gives the packet back. *)
Theorem packet_roundtrip p n :
  packet_wf p -> packet_ByteSizeLong p <= n -> n < 2 ^ 31 ->
  exists bs, packet_SerializeToArray p n = Some bs /\ zlen bs = packet_ByteSizeLong p /\
             Forall is_byte bs /\ packet_ParseFromArray (packet_id p) bs = Some p.
Proof using laws.
  intros Hp Hn Hlt. exists (packet_encoding p). pose proof (packet_wf_sized p Hp) as Hz.
  destruct (packet_size p Hz) as [Hs _]. split; [by apply packet_roundtrip_aux|]. split; [done|].
  split; [by apply packet_bytes|by apply packet_parse_back].
Qed.

(** Parsing merges.  Parsing the encoding of [q] into an existing message of the
    same class gives what [MergeImpl] of [q] into it gives, and consumes the input
    to its end. *)
Theorem packet_parse_merges p q n bs :
  packet_wf q -> packet_id p = packet_id q ->
  packet_SerializeToArray q n = Some bs -> packet_ByteSizeLong q <= n -> n < 2 ^ 31 ->
  packet_InternalParse p default_recursion_limit bs = Parsed (packet_MergeImpl p q, [], 0).
Proof using laws.
  intros Hq Hid Hbs Hn Hlt. rewrite packet_roundtrip_aux in Hbs by (done || by apply packet_wf_sized). injection Hbs as <-.
  apply packet_parse_encoding; [done|done|apply recursion_limit_pos].
Qed.

(** C30: parsing terminates: on every input, whatever the bytes, the parse functions of
    all message classes return a message or fail; their loops never run on. *)
Theorem packet_parse_terminates p depth ptr : packet_InternalParse p depth ptr <> NoFuel.
Proof using laws.
  destruct p; cbn [packet_InternalParse];
    match goal with |- context [match ?r with Parsed _ => _ | Failed => _ | NoFuel => _ end] =>
      let E := fresh "E" in
      destruct r as [[[? ?] ?]| |] eqn:E; [done|done|]; exfalso; revert E end;
    try (apply parse_loop_total; [auto with messages|lia]).
  all: unfold REQ_GET_ROOM_INFO_InternalParse, REQ_EXIT_ROOM_InternalParse.
  all: by destruct (ZeroFieldsBase_InternalParse _ _) as [[[? ?] ?]|].
Qed.

Lemma packet_copied p q : packet_wf q -> packet_id p = packet_id q -> packet_CopyFrom p q = q.
Proof using laws.
  intros Hq Hid. destruct p, q; try discriminate Hid; cbn [packet_wf packet_CopyFrom] in *;
    f_equal; try solve [auto with messages].
  all: unfold REQ_GET_ROOM_INFO_CopyFrom, REQ_EXIT_ROOM_CopyFrom.
  all: red in Hq; destruct m, m0; simpl in *; by rewrite ?zero_fields_copy; subst.
Qed.

(** Copying is exact: [CopyFrom] into any message of the class, whatever it held,
    and the copy constructor both give the source message. *)
Theorem packet_copy_exact p q :
  packet_wf q -> packet_id p = packet_id q -> packet_CopyFrom p q = q /\ packet_copy q = q.
Proof using laws.
  intros Hq Hid. split; [by apply packet_copied|]. clear Hid.
  destruct q; cbn [packet_copy]; f_equal; try solve [auto with messages]; by destruct m.
Qed.
End Messages.
