(* ===== verification/Accessors.v ===== *)
(** * Accessors, assignment and swapping of the message classes

    The inline members of Protocol.pb.h and Struct.pb.h: the getter, the setter,
    [clear_] and, for strings, [mutable_] of every field, the repeated field of
    [ACK_GET_ROOM_INFO], the assignment operators, the move constructor and [Swap].
    [HandlePacket] moves the parsed packet into the job it posts, and the handlers
    fill their answers through the setters.

    A string field is its value; what a write through the pointer of [mutable_]
    does is a function on that value.  Arenas appear only as the test whether two
    objects have the same one; [release_] and [set_allocated_], which hand out
    ownership, are not modelled. *)

From stdpp Require Import base list numbers option.
From Stdlib Require Import ZArith Lia Program.Equality.
From S2P Require Import Prelude Wire Protocol Messages.

(** ** Fields *)

Record Scalar (M A : Type) := mkScalar {
  acc_get : M -> A;
  acc_set : A -> M -> M;
  acc_clear : M -> M
}.
Arguments mkScalar {M A} _ _ _.
Arguments acc_get {M A} _ _.
Arguments acc_set {M A} _ _ _.
Arguments acc_clear {M A} _ _.

Record StringField (M : Type) := mkStringField {
  sf_scalar :> Scalar M bytes;
  sf_mutable : (bytes -> bytes) -> M -> M
}.
Arguments mkStringField {M} _ _.
Arguments sf_scalar {M} _.
Arguments sf_mutable {M} _ _ _.

Definition RoomInfo_room_id_accessors : Scalar RoomInfo Z :=
  mkScalar RoomInfo_room_id (fun v m => m <| RoomInfo_room_id := v |>) (fun m => m <| RoomInfo_room_id := 0 |>).

Definition RoomInfo_cur_enter_user_count_accessors : Scalar RoomInfo Z :=
  mkScalar RoomInfo_cur_enter_user_count (fun v m => m <| RoomInfo_cur_enter_user_count := v |>) (fun m => m <| RoomInfo_cur_enter_user_count := 0 |>).

Definition RoomInfo_cur_enter_max_count_accessors : Scalar RoomInfo Z :=
  mkScalar RoomInfo_cur_enter_max_count (fun v m => m <| RoomInfo_cur_enter_max_count := v |>) (fun m => m <| RoomInfo_cur_enter_max_count := 0 |>).

Definition REQ_LOGIN_is_create_accessors : Scalar REQ_LOGIN bool :=
  mkScalar REQ_LOGIN_is_create (fun v m => m <| REQ_LOGIN_is_create := v |>) (fun m => m <| REQ_LOGIN_is_create := false |>).

Definition REQ_LOGIN_id_accessors : StringField REQ_LOGIN :=
  mkStringField (mkScalar REQ_LOGIN_id (fun v m => m <| REQ_LOGIN_id := v |>) (fun m => m <| REQ_LOGIN_id := [] |>))
    (fun g m => m <| REQ_LOGIN_id ::= g |>).

Definition REQ_LOGIN_pw_accessors : StringField REQ_LOGIN :=
  mkStringField (mkScalar REQ_LOGIN_pw (fun v m => m <| REQ_LOGIN_pw := v |>) (fun m => m <| REQ_LOGIN_pw := [] |>))
    (fun g m => m <| REQ_LOGIN_pw ::= g |>).

Definition REQ_LOGIN_name_accessors : StringField REQ_LOGIN :=
  mkStringField (mkScalar REQ_LOGIN_name (fun v m => m <| REQ_LOGIN_name := v |>) (fun m => m <| REQ_LOGIN_name := [] |>))
    (fun g m => m <| REQ_LOGIN_name ::= g |>).

Definition ACK_LOGIN_idx_accessors : Scalar ACK_LOGIN Z :=
  mkScalar ACK_LOGIN_idx (fun v m => m <| ACK_LOGIN_idx := v |>) (fun m => m <| ACK_LOGIN_idx := 0 |>).

Definition ACK_LOGIN_user_name_accessors : StringField ACK_LOGIN :=
  mkStringField (mkScalar ACK_LOGIN_user_name (fun v m => m <| ACK_LOGIN_user_name := v |>) (fun m => m <| ACK_LOGIN_user_name := [] |>))
    (fun g m => m <| ACK_LOGIN_user_name ::= g |>).

Definition ACK_LOGIN_result_accessors : Scalar ACK_LOGIN Z :=
  mkScalar ACK_LOGIN_result (fun v m => m <| ACK_LOGIN_result := v |>) (fun m => m <| ACK_LOGIN_result := 0 |>).

Definition REQ_BOT_LOGIN_is_create_accessors : Scalar REQ_BOT_LOGIN bool :=
  mkScalar REQ_BOT_LOGIN_is_create (fun v m => m <| REQ_BOT_LOGIN_is_create := v |>) (fun m => m <| REQ_BOT_LOGIN_is_create := false |>).

Definition REQ_BOT_LOGIN_id_accessors : StringField REQ_BOT_LOGIN :=
  mkStringField (mkScalar REQ_BOT_LOGIN_id (fun v m => m <| REQ_BOT_LOGIN_id := v |>) (fun m => m <| REQ_BOT_LOGIN_id := [] |>))
    (fun g m => m <| REQ_BOT_LOGIN_id ::= g |>).

Definition REQ_BOT_LOGIN_pw_accessors : StringField REQ_BOT_LOGIN :=
  mkStringField (mkScalar REQ_BOT_LOGIN_pw (fun v m => m <| REQ_BOT_LOGIN_pw := v |>) (fun m => m <| REQ_BOT_LOGIN_pw := [] |>))
    (fun g m => m <| REQ_BOT_LOGIN_pw ::= g |>).

Definition REQ_BOT_LOGIN_name_accessors : StringField REQ_BOT_LOGIN :=
  mkStringField (mkScalar REQ_BOT_LOGIN_name (fun v m => m <| REQ_BOT_LOGIN_name := v |>) (fun m => m <| REQ_BOT_LOGIN_name := [] |>))
    (fun g m => m <| REQ_BOT_LOGIN_name ::= g |>).

Definition ACK_BOT_LOGIN_idx_accessors : Scalar ACK_BOT_LOGIN Z :=
  mkScalar ACK_BOT_LOGIN_idx (fun v m => m <| ACK_BOT_LOGIN_idx := v |>) (fun m => m <| ACK_BOT_LOGIN_idx := 0 |>).

Definition ACK_BOT_LOGIN_user_name_accessors : StringField ACK_BOT_LOGIN :=
  mkStringField (mkScalar ACK_BOT_LOGIN_user_name (fun v m => m <| ACK_BOT_LOGIN_user_name := v |>) (fun m => m <| ACK_BOT_LOGIN_user_name := [] |>))
    (fun g m => m <| ACK_BOT_LOGIN_user_name ::= g |>).

Definition ACK_BOT_LOGIN_result_accessors : Scalar ACK_BOT_LOGIN Z :=
  mkScalar ACK_BOT_LOGIN_result (fun v m => m <| ACK_BOT_LOGIN_result := v |>) (fun m => m <| ACK_BOT_LOGIN_result := 0 |>).

Definition REQ_LOGOUT_idx_accessors : Scalar REQ_LOGOUT Z :=
  mkScalar REQ_LOGOUT_idx (fun v m => m <| REQ_LOGOUT_idx := v |>) (fun m => m <| REQ_LOGOUT_idx := 0 |>).

Definition ACK_LOGOUT_result_accessors : Scalar ACK_LOGOUT Z :=
  mkScalar ACK_LOGOUT_result (fun v m => m <| ACK_LOGOUT_result := v |>) (fun m => m <| ACK_LOGOUT_result := 0 |>).

Definition REQ_ENTER_ROOM_room_id_accessors : Scalar REQ_ENTER_ROOM Z :=
  mkScalar REQ_ENTER_ROOM_room_id (fun v m => m <| REQ_ENTER_ROOM_room_id := v |>) (fun m => m <| REQ_ENTER_ROOM_room_id := 0 |>).

Definition ACK_ENTER_ROOM_room_id_accessors : Scalar ACK_ENTER_ROOM Z :=
  mkScalar ACK_ENTER_ROOM_room_id (fun v m => m <| ACK_ENTER_ROOM_room_id := v |>) (fun m => m <| ACK_ENTER_ROOM_room_id := 0 |>).

Definition ACK_ENTER_ROOM_result_accessors : Scalar ACK_ENTER_ROOM Z :=
  mkScalar ACK_ENTER_ROOM_result (fun v m => m <| ACK_ENTER_ROOM_result := v |>) (fun m => m <| ACK_ENTER_ROOM_result := 0 |>).

Definition ACK_EXIT_ROOM_result_accessors : Scalar ACK_EXIT_ROOM Z :=
  mkScalar ACK_EXIT_ROOM_result (fun v m => m <| ACK_EXIT_ROOM_result := v |>) (fun m => m <| ACK_EXIT_ROOM_result := 0 |>).

Definition REQ_CHAT_message_accessors : StringField REQ_CHAT :=
  mkStringField (mkScalar REQ_CHAT_message (fun v m => m <| REQ_CHAT_message := v |>) (fun m => m <| REQ_CHAT_message := [] |>))
    (fun g m => m <| REQ_CHAT_message ::= g |>).

Definition REQ_CHAT_chat_state_accessors : Scalar REQ_CHAT Z :=
  mkScalar REQ_CHAT_chat_state (fun v m => m <| REQ_CHAT_chat_state := v |>) (fun m => m <| REQ_CHAT_chat_state := 0 |>).

Definition REQ_CHAT_room_id_accessors : Scalar REQ_CHAT Z :=
  mkScalar REQ_CHAT_room_id (fun v m => m <| REQ_CHAT_room_id := v |>) (fun m => m <| REQ_CHAT_room_id := 0 |>).

Definition REQ_CHAT_target_name_accessors : StringField REQ_CHAT :=
  mkStringField (mkScalar REQ_CHAT_target_name (fun v m => m <| REQ_CHAT_target_name := v |>) (fun m => m <| REQ_CHAT_target_name := [] |>))
    (fun g m => m <| REQ_CHAT_target_name ::= g |>).

Definition ACK_CHAT_result_accessors : Scalar ACK_CHAT Z :=
  mkScalar ACK_CHAT_result (fun v m => m <| ACK_CHAT_result := v |>) (fun m => m <| ACK_CHAT_result := 0 |>).

Definition ACK_CHAT_target_count_accessors : Scalar ACK_CHAT Z :=
  mkScalar ACK_CHAT_target_count (fun v m => m <| ACK_CHAT_target_count := v |>) (fun m => m <| ACK_CHAT_target_count := 0 |>).

Definition ACK_SEND_CHAT_user_name_accessors : StringField ACK_SEND_CHAT :=
  mkStringField (mkScalar ACK_SEND_CHAT_user_name (fun v m => m <| ACK_SEND_CHAT_user_name := v |>) (fun m => m <| ACK_SEND_CHAT_user_name := [] |>))
    (fun g m => m <| ACK_SEND_CHAT_user_name ::= g |>).

Definition ACK_SEND_CHAT_message_accessors : StringField ACK_SEND_CHAT :=
  mkStringField (mkScalar ACK_SEND_CHAT_message (fun v m => m <| ACK_SEND_CHAT_message := v |>) (fun m => m <| ACK_SEND_CHAT_message := [] |>))
    (fun g m => m <| ACK_SEND_CHAT_message ::= g |>).

Definition REQ_CONNECT_PONG_server_tick_accessors : Scalar REQ_CONNECT_PONG Z :=
  mkScalar REQ_CONNECT_PONG_server_tick (fun v m => m <| REQ_CONNECT_PONG_server_tick := v |>) (fun m => m <| REQ_CONNECT_PONG_server_tick := 0 |>).

Definition ACK_SEND_CONNECT_PING_server_tick_accessors : Scalar ACK_SEND_CONNECT_PING Z :=
  mkScalar ACK_SEND_CONNECT_PING_server_tick (fun v m => m <| ACK_SEND_CONNECT_PING_server_tick := v |>) (fun m => m <| ACK_SEND_CONNECT_PING_server_tick := 0 |>).

Definition ACK_SERVER_FULL_max_session_count_accessors : Scalar ACK_SERVER_FULL Z :=
  mkScalar ACK_SERVER_FULL_max_session_count (fun v m => m <| ACK_SERVER_FULL_max_session_count := v |>) (fun m => m <| ACK_SERVER_FULL_max_session_count := 0 |>).

(** *** The repeated field

    [None] is an index out of range.  [add_room_info_list] appends a default element;
    the caller fills it through the pointer it gets, here the function [fill]. *)

Definition room_info_list_size (m : ACK_GET_ROOM_INFO) : Z := zlen (ACK_GET_ROOM_INFO_room_info_list m).

Definition room_info_list_at (index : Z) (m : ACK_GET_ROOM_INFO) : option RoomInfo :=
  if index <? 0 then None else ACK_GET_ROOM_INFO_room_info_list m !! Z.to_nat index.

Definition mutable_room_info_list (index : Z) (g : RoomInfo -> RoomInfo) (m : ACK_GET_ROOM_INFO)
    : option ACK_GET_ROOM_INFO :=
  x ← room_info_list_at index m;
  Some (m <| ACK_GET_ROOM_INFO_room_info_list ::= <[Z.to_nat index := g x]> |>).

Definition add_room_info_list (fill : RoomInfo -> RoomInfo) (m : ACK_GET_ROOM_INFO) : ACK_GET_ROOM_INFO :=
  m <| ACK_GET_ROOM_INFO_room_info_list ::= fun l => l ++ [fill RoomInfo_default] |>.

(** ** Assignment, moving and swapping

    [same_arena] is the outcome of comparing the owning arenas. *)

Section Moves.
Context {utf8 : Utf8Check} {rt : PbRuntime}.

Definition RoomInfo_assign (m from : RoomInfo) : RoomInfo := RoomInfo_CopyFrom m from.

Definition RoomInfo_move_assign (same_arena : bool) (m from : RoomInfo) : RoomInfo * RoomInfo :=
  if same_arena then RoomInfo_InternalSwap m from else (RoomInfo_CopyFrom m from, from).

Definition RoomInfo_move (same_arena : bool) (from : RoomInfo) : RoomInfo * RoomInfo :=
  RoomInfo_move_assign same_arena RoomInfo_default from.

Definition RoomInfo_Swap (same_arena : bool) (m other : RoomInfo) : RoomInfo * RoomInfo :=
  if same_arena then RoomInfo_InternalSwap m other else GenericSwap RoomInfo m other.

Definition REQ_LOGIN_assign (m from : REQ_LOGIN) : REQ_LOGIN := REQ_LOGIN_CopyFrom m from.

Definition REQ_LOGIN_move_assign (same_arena : bool) (m from : REQ_LOGIN) : REQ_LOGIN * REQ_LOGIN :=
  if same_arena then REQ_LOGIN_InternalSwap m from else (REQ_LOGIN_CopyFrom m from, from).

Definition REQ_LOGIN_move (same_arena : bool) (from : REQ_LOGIN) : REQ_LOGIN * REQ_LOGIN :=
  REQ_LOGIN_move_assign same_arena REQ_LOGIN_default from.

Definition REQ_LOGIN_Swap (same_arena : bool) (m other : REQ_LOGIN) : REQ_LOGIN * REQ_LOGIN :=
  if same_arena then REQ_LOGIN_InternalSwap m other else GenericSwap REQ_LOGIN m other.

Definition ACK_LOGIN_assign (m from : ACK_LOGIN) : ACK_LOGIN := ACK_LOGIN_CopyFrom m from.

Definition ACK_LOGIN_move_assign (same_arena : bool) (m from : ACK_LOGIN) : ACK_LOGIN * ACK_LOGIN :=
  if same_arena then ACK_LOGIN_InternalSwap m from else (ACK_LOGIN_CopyFrom m from, from).

Definition ACK_LOGIN_move (same_arena : bool) (from : ACK_LOGIN) : ACK_LOGIN * ACK_LOGIN :=
  ACK_LOGIN_move_assign same_arena ACK_LOGIN_default from.

Definition ACK_LOGIN_Swap (same_arena : bool) (m other : ACK_LOGIN) : ACK_LOGIN * ACK_LOGIN :=
  if same_arena then ACK_LOGIN_InternalSwap m other else GenericSwap ACK_LOGIN m other.

Definition REQ_BOT_LOGIN_assign (m from : REQ_BOT_LOGIN) : REQ_BOT_LOGIN := REQ_BOT_LOGIN_CopyFrom m from.

Definition REQ_BOT_LOGIN_move_assign (same_arena : bool) (m from : REQ_BOT_LOGIN) : REQ_BOT_LOGIN * REQ_BOT_LOGIN :=
  if same_arena then REQ_BOT_LOGIN_InternalSwap m from else (REQ_BOT_LOGIN_CopyFrom m from, from).

Definition REQ_BOT_LOGIN_move (same_arena : bool) (from : REQ_BOT_LOGIN) : REQ_BOT_LOGIN * REQ_BOT_LOGIN :=
  REQ_BOT_LOGIN_move_assign same_arena REQ_BOT_LOGIN_default from.

Definition REQ_BOT_LOGIN_Swap (same_arena : bool) (m other : REQ_BOT_LOGIN) : REQ_BOT_LOGIN * REQ_BOT_LOGIN :=
  if same_arena then REQ_BOT_LOGIN_InternalSwap m other else GenericSwap REQ_BOT_LOGIN m other.

Definition ACK_BOT_LOGIN_assign (m from : ACK_BOT_LOGIN) : ACK_BOT_LOGIN := ACK_BOT_LOGIN_CopyFrom m from.

Definition ACK_BOT_LOGIN_move_assign (same_arena : bool) (m from : ACK_BOT_LOGIN) : ACK_BOT_LOGIN * ACK_BOT_LOGIN :=
  if same_arena then ACK_BOT_LOGIN_InternalSwap m from else (ACK_BOT_LOGIN_CopyFrom m from, from).

Definition ACK_BOT_LOGIN_move (same_arena : bool) (from : ACK_BOT_LOGIN) : ACK_BOT_LOGIN * ACK_BOT_LOGIN :=
  ACK_BOT_LOGIN_move_assign same_arena ACK_BOT_LOGIN_default from.

Definition ACK_BOT_LOGIN_Swap (same_arena : bool) (m other : ACK_BOT_LOGIN) : ACK_BOT_LOGIN * ACK_BOT_LOGIN :=
  if same_arena then ACK_BOT_LOGIN_InternalSwap m other else GenericSwap ACK_BOT_LOGIN m other.

Definition REQ_LOGOUT_assign (m from : REQ_LOGOUT) : REQ_LOGOUT := REQ_LOGOUT_CopyFrom m from.

Definition REQ_LOGOUT_move_assign (same_arena : bool) (m from : REQ_LOGOUT) : REQ_LOGOUT * REQ_LOGOUT :=
  if same_arena then REQ_LOGOUT_InternalSwap m from else (REQ_LOGOUT_CopyFrom m from, from).

Definition REQ_LOGOUT_move (same_arena : bool) (from : REQ_LOGOUT) : REQ_LOGOUT * REQ_LOGOUT :=
  REQ_LOGOUT_move_assign same_arena REQ_LOGOUT_default from.

Definition REQ_LOGOUT_Swap (same_arena : bool) (m other : REQ_LOGOUT) : REQ_LOGOUT * REQ_LOGOUT :=
  if same_arena then REQ_LOGOUT_InternalSwap m other else GenericSwap REQ_LOGOUT m other.

Definition ACK_LOGOUT_assign (m from : ACK_LOGOUT) : ACK_LOGOUT := ACK_LOGOUT_CopyFrom m from.

Definition ACK_LOGOUT_move_assign (same_arena : bool) (m from : ACK_LOGOUT) : ACK_LOGOUT * ACK_LOGOUT :=
  if same_arena then ACK_LOGOUT_InternalSwap m from else (ACK_LOGOUT_CopyFrom m from, from).

Definition ACK_LOGOUT_move (same_arena : bool) (from : ACK_LOGOUT) : ACK_LOGOUT * ACK_LOGOUT :=
  ACK_LOGOUT_move_assign same_arena ACK_LOGOUT_default from.

Definition ACK_LOGOUT_Swap (same_arena : bool) (m other : ACK_LOGOUT) : ACK_LOGOUT * ACK_LOGOUT :=
  if same_arena then ACK_LOGOUT_InternalSwap m other else GenericSwap ACK_LOGOUT m other.

Definition REQ_GET_ROOM_INFO_InternalSwap (m other : REQ_GET_ROOM_INFO) : REQ_GET_ROOM_INFO * REQ_GET_ROOM_INFO :=
  let (u, v) := ZeroFieldsBase_InternalSwap (REQ_GET_ROOM_INFO_unknown m) (REQ_GET_ROOM_INFO_unknown other) in
  (m <| REQ_GET_ROOM_INFO_unknown := u |>, other <| REQ_GET_ROOM_INFO_unknown := v |>).

Definition REQ_GET_ROOM_INFO_assign (m from : REQ_GET_ROOM_INFO) : REQ_GET_ROOM_INFO := REQ_GET_ROOM_INFO_CopyFrom m from.

Definition REQ_GET_ROOM_INFO_move_assign (same_arena : bool) (m from : REQ_GET_ROOM_INFO) : REQ_GET_ROOM_INFO * REQ_GET_ROOM_INFO :=
  if same_arena then REQ_GET_ROOM_INFO_InternalSwap m from else (REQ_GET_ROOM_INFO_CopyFrom m from, from).

Definition REQ_GET_ROOM_INFO_move (same_arena : bool) (from : REQ_GET_ROOM_INFO) : REQ_GET_ROOM_INFO * REQ_GET_ROOM_INFO :=
  REQ_GET_ROOM_INFO_move_assign same_arena REQ_GET_ROOM_INFO_default from.

Definition REQ_GET_ROOM_INFO_Swap (same_arena : bool) (m other : REQ_GET_ROOM_INFO) : REQ_GET_ROOM_INFO * REQ_GET_ROOM_INFO :=
  if same_arena then REQ_GET_ROOM_INFO_InternalSwap m other else GenericSwap REQ_GET_ROOM_INFO m other.

Definition ACK_GET_ROOM_INFO_assign (m from : ACK_GET_ROOM_INFO) : ACK_GET_ROOM_INFO := ACK_GET_ROOM_INFO_CopyFrom m from.

Definition ACK_GET_ROOM_INFO_move_assign (same_arena : bool) (m from : ACK_GET_ROOM_INFO) : ACK_GET_ROOM_INFO * ACK_GET_ROOM_INFO :=
  if same_arena then ACK_GET_ROOM_INFO_InternalSwap m from else (ACK_GET_ROOM_INFO_CopyFrom m from, from).

Definition ACK_GET_ROOM_INFO_move (same_arena : bool) (from : ACK_GET_ROOM_INFO) : ACK_GET_ROOM_INFO * ACK_GET_ROOM_INFO :=
  ACK_GET_ROOM_INFO_move_assign same_arena ACK_GET_ROOM_INFO_default from.

Definition ACK_GET_ROOM_INFO_Swap (same_arena : bool) (m other : ACK_GET_ROOM_INFO) : ACK_GET_ROOM_INFO * ACK_GET_ROOM_INFO :=
  if same_arena then ACK_GET_ROOM_INFO_InternalSwap m other else GenericSwap ACK_GET_ROOM_INFO m other.

Definition REQ_ENTER_ROOM_assign (m from : REQ_ENTER_ROOM) : REQ_ENTER_ROOM := REQ_ENTER_ROOM_CopyFrom m from.

Definition REQ_ENTER_ROOM_move_assign (same_arena : bool) (m from : REQ_ENTER_ROOM) : REQ_ENTER_ROOM * REQ_ENTER_ROOM :=
  if same_arena then REQ_ENTER_ROOM_InternalSwap m from else (REQ_ENTER_ROOM_CopyFrom m from, from).

Definition REQ_ENTER_ROOM_move (same_arena : bool) (from : REQ_ENTER_ROOM) : REQ_ENTER_ROOM * REQ_ENTER_ROOM :=
  REQ_ENTER_ROOM_move_assign same_arena REQ_ENTER_ROOM_default from.

Definition REQ_ENTER_ROOM_Swap (same_arena : bool) (m other : REQ_ENTER_ROOM) : REQ_ENTER_ROOM * REQ_ENTER_ROOM :=
  if same_arena then REQ_ENTER_ROOM_InternalSwap m other else GenericSwap REQ_ENTER_ROOM m other.

Definition ACK_ENTER_ROOM_assign (m from : ACK_ENTER_ROOM) : ACK_ENTER_ROOM := ACK_ENTER_ROOM_CopyFrom m from.

Definition ACK_ENTER_ROOM_move_assign (same_arena : bool) (m from : ACK_ENTER_ROOM) : ACK_ENTER_ROOM * ACK_ENTER_ROOM :=
  if same_arena then ACK_ENTER_ROOM_InternalSwap m from else (ACK_ENTER_ROOM_CopyFrom m from, from).

Definition ACK_ENTER_ROOM_move (same_arena : bool) (from : ACK_ENTER_ROOM) : ACK_ENTER_ROOM * ACK_ENTER_ROOM :=
  ACK_ENTER_ROOM_move_assign same_arena ACK_ENTER_ROOM_default from.

Definition ACK_ENTER_ROOM_Swap (same_arena : bool) (m other : ACK_ENTER_ROOM) : ACK_ENTER_ROOM * ACK_ENTER_ROOM :=
  if same_arena then ACK_ENTER_ROOM_InternalSwap m other else GenericSwap ACK_ENTER_ROOM m other.

Definition REQ_EXIT_ROOM_InternalSwap (m other : REQ_EXIT_ROOM) : REQ_EXIT_ROOM * REQ_EXIT_ROOM :=
  let (u, v) := ZeroFieldsBase_InternalSwap (REQ_EXIT_ROOM_unknown m) (REQ_EXIT_ROOM_unknown other) in
  (m <| REQ_EXIT_ROOM_unknown := u |>, other <| REQ_EXIT_ROOM_unknown := v |>).

Definition REQ_EXIT_ROOM_assign (m from : REQ_EXIT_ROOM) : REQ_EXIT_ROOM := REQ_EXIT_ROOM_CopyFrom m from.

Definition REQ_EXIT_ROOM_move_assign (same_arena : bool) (m from : REQ_EXIT_ROOM) : REQ_EXIT_ROOM * REQ_EXIT_ROOM :=
  if same_arena then REQ_EXIT_ROOM_InternalSwap m from else (REQ_EXIT_ROOM_CopyFrom m from, from).

Definition REQ_EXIT_ROOM_move (same_arena : bool) (from : REQ_EXIT_ROOM) : REQ_EXIT_ROOM * REQ_EXIT_ROOM :=
  REQ_EXIT_ROOM_move_assign same_arena REQ_EXIT_ROOM_default from.

Definition REQ_EXIT_ROOM_Swap (same_arena : bool) (m other : REQ_EXIT_ROOM) : REQ_EXIT_ROOM * REQ_EXIT_ROOM :=
  if same_arena then REQ_EXIT_ROOM_InternalSwap m other else GenericSwap REQ_EXIT_ROOM m other.

Definition ACK_EXIT_ROOM_assign (m from : ACK_EXIT_ROOM) : ACK_EXIT_ROOM := ACK_EXIT_ROOM_CopyFrom m from.

Definition ACK_EXIT_ROOM_move_assign (same_arena : bool) (m from : ACK_EXIT_ROOM) : ACK_EXIT_ROOM * ACK_EXIT_ROOM :=
  if same_arena then ACK_EXIT_ROOM_InternalSwap m from else (ACK_EXIT_ROOM_CopyFrom m from, from).

Definition ACK_EXIT_ROOM_move (same_arena : bool) (from : ACK_EXIT_ROOM) : ACK_EXIT_ROOM * ACK_EXIT_ROOM :=
  ACK_EXIT_ROOM_move_assign same_arena ACK_EXIT_ROOM_default from.

Definition ACK_EXIT_ROOM_Swap (same_arena : bool) (m other : ACK_EXIT_ROOM) : ACK_EXIT_ROOM * ACK_EXIT_ROOM :=
  if same_arena then ACK_EXIT_ROOM_InternalSwap m other else GenericSwap ACK_EXIT_ROOM m other.

Definition REQ_CHAT_assign (m from : REQ_CHAT) : REQ_CHAT := REQ_CHAT_CopyFrom m from.

Definition REQ_CHAT_move_assign (same_arena : bool) (m from : REQ_CHAT) : REQ_CHAT * REQ_CHAT :=
  if same_arena then REQ_CHAT_InternalSwap m from else (REQ_CHAT_CopyFrom m from, from).

Definition REQ_CHAT_move (same_arena : bool) (from : REQ_CHAT) : REQ_CHAT * REQ_CHAT :=
  REQ_CHAT_move_assign same_arena REQ_CHAT_default from.

Definition REQ_CHAT_Swap (same_arena : bool) (m other : REQ_CHAT) : REQ_CHAT * REQ_CHAT :=
  if same_arena then REQ_CHAT_InternalSwap m other else GenericSwap REQ_CHAT m other.

Definition ACK_CHAT_assign (m from : ACK_CHAT) : ACK_CHAT := ACK_CHAT_CopyFrom m from.

Definition ACK_CHAT_move_assign (same_arena : bool) (m from : ACK_CHAT) : ACK_CHAT * ACK_CHAT :=
  if same_arena then ACK_CHAT_InternalSwap m from else (ACK_CHAT_CopyFrom m from, from).

Definition ACK_CHAT_move (same_arena : bool) (from : ACK_CHAT) : ACK_CHAT * ACK_CHAT :=
  ACK_CHAT_move_assign same_arena ACK_CHAT_default from.

Definition ACK_CHAT_Swap (same_arena : bool) (m other : ACK_CHAT) : ACK_CHAT * ACK_CHAT :=
  if same_arena then ACK_CHAT_InternalSwap m other else GenericSwap ACK_CHAT m other.

Definition ACK_SEND_CHAT_assign (m from : ACK_SEND_CHAT) : ACK_SEND_CHAT := ACK_SEND_CHAT_CopyFrom m from.

Definition ACK_SEND_CHAT_move_assign (same_arena : bool) (m from : ACK_SEND_CHAT) : ACK_SEND_CHAT * ACK_SEND_CHAT :=
  if same_arena then ACK_SEND_CHAT_InternalSwap m from else (ACK_SEND_CHAT_CopyFrom m from, from).

Definition ACK_SEND_CHAT_move (same_arena : bool) (from : ACK_SEND_CHAT) : ACK_SEND_CHAT * ACK_SEND_CHAT :=
  ACK_SEND_CHAT_move_assign same_arena ACK_SEND_CHAT_default from.

Definition ACK_SEND_CHAT_Swap (same_arena : bool) (m other : ACK_SEND_CHAT) : ACK_SEND_CHAT * ACK_SEND_CHAT :=
  if same_arena then ACK_SEND_CHAT_InternalSwap m other else GenericSwap ACK_SEND_CHAT m other.

Definition REQ_CONNECT_PONG_assign (m from : REQ_CONNECT_PONG) : REQ_CONNECT_PONG := REQ_CONNECT_PONG_CopyFrom m from.

Definition REQ_CONNECT_PONG_move_assign (same_arena : bool) (m from : REQ_CONNECT_PONG) : REQ_CONNECT_PONG * REQ_CONNECT_PONG :=
  if same_arena then REQ_CONNECT_PONG_InternalSwap m from else (REQ_CONNECT_PONG_CopyFrom m from, from).

Definition REQ_CONNECT_PONG_move (same_arena : bool) (from : REQ_CONNECT_PONG) : REQ_CONNECT_PONG * REQ_CONNECT_PONG :=
  REQ_CONNECT_PONG_move_assign same_arena REQ_CONNECT_PONG_default from.

Definition REQ_CONNECT_PONG_Swap (same_arena : bool) (m other : REQ_CONNECT_PONG) : REQ_CONNECT_PONG * REQ_CONNECT_PONG :=
  if same_arena then REQ_CONNECT_PONG_InternalSwap m other else GenericSwap REQ_CONNECT_PONG m other.

Definition ACK_SEND_CONNECT_PING_assign (m from : ACK_SEND_CONNECT_PING) : ACK_SEND_CONNECT_PING := ACK_SEND_CONNECT_PING_CopyFrom m from.

Definition ACK_SEND_CONNECT_PING_move_assign (same_arena : bool) (m from : ACK_SEND_CONNECT_PING) : ACK_SEND_CONNECT_PING * ACK_SEND_CONNECT_PING :=
  if same_arena then ACK_SEND_CONNECT_PING_InternalSwap m from else (ACK_SEND_CONNECT_PING_CopyFrom m from, from).

Definition ACK_SEND_CONNECT_PING_move (same_arena : bool) (from : ACK_SEND_CONNECT_PING) : ACK_SEND_CONNECT_PING * ACK_SEND_CONNECT_PING :=
  ACK_SEND_CONNECT_PING_move_assign same_arena ACK_SEND_CONNECT_PING_default from.

Definition ACK_SEND_CONNECT_PING_Swap (same_arena : bool) (m other : ACK_SEND_CONNECT_PING) : ACK_SEND_CONNECT_PING * ACK_SEND_CONNECT_PING :=
  if same_arena then ACK_SEND_CONNECT_PING_InternalSwap m other else GenericSwap ACK_SEND_CONNECT_PING m other.

Definition ACK_SERVER_FULL_assign (m from : ACK_SERVER_FULL) : ACK_SERVER_FULL := ACK_SERVER_FULL_CopyFrom m from.

Definition ACK_SERVER_FULL_move_assign (same_arena : bool) (m from : ACK_SERVER_FULL) : ACK_SERVER_FULL * ACK_SERVER_FULL :=
  if same_arena then ACK_SERVER_FULL_InternalSwap m from else (ACK_SERVER_FULL_CopyFrom m from, from).

Definition ACK_SERVER_FULL_move (same_arena : bool) (from : ACK_SERVER_FULL) : ACK_SERVER_FULL * ACK_SERVER_FULL :=
  ACK_SERVER_FULL_move_assign same_arena ACK_SERVER_FULL_default from.

Definition ACK_SERVER_FULL_Swap (same_arena : bool) (m other : ACK_SERVER_FULL) : ACK_SERVER_FULL * ACK_SERVER_FULL :=
  if same_arena then ACK_SERVER_FULL_InternalSwap m other else GenericSwap ACK_SERVER_FULL m other.

(** The same members of a packet, whatever its class. *)

Definition packet_both {M} (inject : M -> Packet) (p : M * M) : Packet * Packet := (inject (fst p), inject (snd p)).

Definition packet_assign (p from : Packet) : Packet :=
  match p, from with
  | P_REQ_LOGIN x, P_REQ_LOGIN y => P_REQ_LOGIN (REQ_LOGIN_assign x y)
  | P_ACK_LOGIN x, P_ACK_LOGIN y => P_ACK_LOGIN (ACK_LOGIN_assign x y)
  | P_REQ_BOT_LOGIN x, P_REQ_BOT_LOGIN y => P_REQ_BOT_LOGIN (REQ_BOT_LOGIN_assign x y)
  | P_ACK_BOT_LOGIN x, P_ACK_BOT_LOGIN y => P_ACK_BOT_LOGIN (ACK_BOT_LOGIN_assign x y)
  | P_REQ_LOGOUT x, P_REQ_LOGOUT y => P_REQ_LOGOUT (REQ_LOGOUT_assign x y)
  | P_ACK_LOGOUT x, P_ACK_LOGOUT y => P_ACK_LOGOUT (ACK_LOGOUT_assign x y)
  | P_REQ_GET_ROOM_INFO x, P_REQ_GET_ROOM_INFO y => P_REQ_GET_ROOM_INFO (REQ_GET_ROOM_INFO_assign x y)
  | P_ACK_GET_ROOM_INFO x, P_ACK_GET_ROOM_INFO y => P_ACK_GET_ROOM_INFO (ACK_GET_ROOM_INFO_assign x y)
  | P_REQ_ENTER_ROOM x, P_REQ_ENTER_ROOM y => P_REQ_ENTER_ROOM (REQ_ENTER_ROOM_assign x y)
  | P_ACK_ENTER_ROOM x, P_ACK_ENTER_ROOM y => P_ACK_ENTER_ROOM (ACK_ENTER_ROOM_assign x y)
  | P_REQ_EXIT_ROOM x, P_REQ_EXIT_ROOM y => P_REQ_EXIT_ROOM (REQ_EXIT_ROOM_assign x y)
  | P_ACK_EXIT_ROOM x, P_ACK_EXIT_ROOM y => P_ACK_EXIT_ROOM (ACK_EXIT_ROOM_assign x y)
  | P_REQ_CHAT x, P_REQ_CHAT y => P_REQ_CHAT (REQ_CHAT_assign x y)
  | P_ACK_CHAT x, P_ACK_CHAT y => P_ACK_CHAT (ACK_CHAT_assign x y)
  | P_ACK_SEND_CHAT x, P_ACK_SEND_CHAT y => P_ACK_SEND_CHAT (ACK_SEND_CHAT_assign x y)
  | P_REQ_CONNECT_PONG x, P_REQ_CONNECT_PONG y => P_REQ_CONNECT_PONG (REQ_CONNECT_PONG_assign x y)
  | P_ACK_SEND_CONNECT_PING x, P_ACK_SEND_CONNECT_PING y => P_ACK_SEND_CONNECT_PING (ACK_SEND_CONNECT_PING_assign x y)
  | P_ACK_SERVER_FULL x, P_ACK_SERVER_FULL y => P_ACK_SERVER_FULL (ACK_SERVER_FULL_assign x y)
  | _, _ => p
  end.

Definition packet_move_assign (same_arena : bool) (p from : Packet) : Packet * Packet :=
  match p, from with
  | P_REQ_LOGIN x, P_REQ_LOGIN y => packet_both P_REQ_LOGIN (REQ_LOGIN_move_assign same_arena x y)
  | P_ACK_LOGIN x, P_ACK_LOGIN y => packet_both P_ACK_LOGIN (ACK_LOGIN_move_assign same_arena x y)
  | P_REQ_BOT_LOGIN x, P_REQ_BOT_LOGIN y => packet_both P_REQ_BOT_LOGIN (REQ_BOT_LOGIN_move_assign same_arena x y)
  | P_ACK_BOT_LOGIN x, P_ACK_BOT_LOGIN y => packet_both P_ACK_BOT_LOGIN (ACK_BOT_LOGIN_move_assign same_arena x y)
  | P_REQ_LOGOUT x, P_REQ_LOGOUT y => packet_both P_REQ_LOGOUT (REQ_LOGOUT_move_assign same_arena x y)
  | P_ACK_LOGOUT x, P_ACK_LOGOUT y => packet_both P_ACK_LOGOUT (ACK_LOGOUT_move_assign same_arena x y)
  | P_REQ_GET_ROOM_INFO x, P_REQ_GET_ROOM_INFO y => packet_both P_REQ_GET_ROOM_INFO (REQ_GET_ROOM_INFO_move_assign same_arena x y)
  | P_ACK_GET_ROOM_INFO x, P_ACK_GET_ROOM_INFO y => packet_both P_ACK_GET_ROOM_INFO (ACK_GET_ROOM_INFO_move_assign same_arena x y)
  | P_REQ_ENTER_ROOM x, P_REQ_ENTER_ROOM y => packet_both P_REQ_ENTER_ROOM (REQ_ENTER_ROOM_move_assign same_arena x y)
  | P_ACK_ENTER_ROOM x, P_ACK_ENTER_ROOM y => packet_both P_ACK_ENTER_ROOM (ACK_ENTER_ROOM_move_assign same_arena x y)
  | P_REQ_EXIT_ROOM x, P_REQ_EXIT_ROOM y => packet_both P_REQ_EXIT_ROOM (REQ_EXIT_ROOM_move_assign same_arena x y)
  | P_ACK_EXIT_ROOM x, P_ACK_EXIT_ROOM y => packet_both P_ACK_EXIT_ROOM (ACK_EXIT_ROOM_move_assign same_arena x y)
  | P_REQ_CHAT x, P_REQ_CHAT y => packet_both P_REQ_CHAT (REQ_CHAT_move_assign same_arena x y)
  | P_ACK_CHAT x, P_ACK_CHAT y => packet_both P_ACK_CHAT (ACK_CHAT_move_assign same_arena x y)
  | P_ACK_SEND_CHAT x, P_ACK_SEND_CHAT y => packet_both P_ACK_SEND_CHAT (ACK_SEND_CHAT_move_assign same_arena x y)
  | P_REQ_CONNECT_PONG x, P_REQ_CONNECT_PONG y => packet_both P_REQ_CONNECT_PONG (REQ_CONNECT_PONG_move_assign same_arena x y)
  | P_ACK_SEND_CONNECT_PING x, P_ACK_SEND_CONNECT_PING y => packet_both P_ACK_SEND_CONNECT_PING (ACK_SEND_CONNECT_PING_move_assign same_arena x y)
  | P_ACK_SERVER_FULL x, P_ACK_SERVER_FULL y => packet_both P_ACK_SERVER_FULL (ACK_SERVER_FULL_move_assign same_arena x y)
  | _, _ => (p, from)
  end.

Definition packet_move (same_arena : bool) (from : Packet) : Packet * Packet :=
  match from with
  | P_REQ_LOGIN y => packet_both P_REQ_LOGIN (REQ_LOGIN_move same_arena y)
  | P_ACK_LOGIN y => packet_both P_ACK_LOGIN (ACK_LOGIN_move same_arena y)
  | P_REQ_BOT_LOGIN y => packet_both P_REQ_BOT_LOGIN (REQ_BOT_LOGIN_move same_arena y)
  | P_ACK_BOT_LOGIN y => packet_both P_ACK_BOT_LOGIN (ACK_BOT_LOGIN_move same_arena y)
  | P_REQ_LOGOUT y => packet_both P_REQ_LOGOUT (REQ_LOGOUT_move same_arena y)
  | P_ACK_LOGOUT y => packet_both P_ACK_LOGOUT (ACK_LOGOUT_move same_arena y)
  | P_REQ_GET_ROOM_INFO y => packet_both P_REQ_GET_ROOM_INFO (REQ_GET_ROOM_INFO_move same_arena y)
  | P_ACK_GET_ROOM_INFO y => packet_both P_ACK_GET_ROOM_INFO (ACK_GET_ROOM_INFO_move same_arena y)
  | P_REQ_ENTER_ROOM y => packet_both P_REQ_ENTER_ROOM (REQ_ENTER_ROOM_move same_arena y)
  | P_ACK_ENTER_ROOM y => packet_both P_ACK_ENTER_ROOM (ACK_ENTER_ROOM_move same_arena y)
  | P_REQ_EXIT_ROOM y => packet_both P_REQ_EXIT_ROOM (REQ_EXIT_ROOM_move same_arena y)
  | P_ACK_EXIT_ROOM y => packet_both P_ACK_EXIT_ROOM (ACK_EXIT_ROOM_move same_arena y)
  | P_REQ_CHAT y => packet_both P_REQ_CHAT (REQ_CHAT_move same_arena y)
  | P_ACK_CHAT y => packet_both P_ACK_CHAT (ACK_CHAT_move same_arena y)
  | P_ACK_SEND_CHAT y => packet_both P_ACK_SEND_CHAT (ACK_SEND_CHAT_move same_arena y)
  | P_REQ_CONNECT_PONG y => packet_both P_REQ_CONNECT_PONG (REQ_CONNECT_PONG_move same_arena y)
  | P_ACK_SEND_CONNECT_PING y => packet_both P_ACK_SEND_CONNECT_PING (ACK_SEND_CONNECT_PING_move same_arena y)
  | P_ACK_SERVER_FULL y => packet_both P_ACK_SERVER_FULL (ACK_SERVER_FULL_move same_arena y)
  end.

Definition packet_Swap (same_arena : bool) (p other : Packet) : Packet * Packet :=
  match p, other with
  | P_REQ_LOGIN x, P_REQ_LOGIN y => packet_both P_REQ_LOGIN (REQ_LOGIN_Swap same_arena x y)
  | P_ACK_LOGIN x, P_ACK_LOGIN y => packet_both P_ACK_LOGIN (ACK_LOGIN_Swap same_arena x y)
  | P_REQ_BOT_LOGIN x, P_REQ_BOT_LOGIN y => packet_both P_REQ_BOT_LOGIN (REQ_BOT_LOGIN_Swap same_arena x y)
  | P_ACK_BOT_LOGIN x, P_ACK_BOT_LOGIN y => packet_both P_ACK_BOT_LOGIN (ACK_BOT_LOGIN_Swap same_arena x y)
  | P_REQ_LOGOUT x, P_REQ_LOGOUT y => packet_both P_REQ_LOGOUT (REQ_LOGOUT_Swap same_arena x y)
  | P_ACK_LOGOUT x, P_ACK_LOGOUT y => packet_both P_ACK_LOGOUT (ACK_LOGOUT_Swap same_arena x y)
  | P_REQ_GET_ROOM_INFO x, P_REQ_GET_ROOM_INFO y => packet_both P_REQ_GET_ROOM_INFO (REQ_GET_ROOM_INFO_Swap same_arena x y)
  | P_ACK_GET_ROOM_INFO x, P_ACK_GET_ROOM_INFO y => packet_both P_ACK_GET_ROOM_INFO (ACK_GET_ROOM_INFO_Swap same_arena x y)
  | P_REQ_ENTER_ROOM x, P_REQ_ENTER_ROOM y => packet_both P_REQ_ENTER_ROOM (REQ_ENTER_ROOM_Swap same_arena x y)
  | P_ACK_ENTER_ROOM x, P_ACK_ENTER_ROOM y => packet_both P_ACK_ENTER_ROOM (ACK_ENTER_ROOM_Swap same_arena x y)
  | P_REQ_EXIT_ROOM x, P_REQ_EXIT_ROOM y => packet_both P_REQ_EXIT_ROOM (REQ_EXIT_ROOM_Swap same_arena x y)
  | P_ACK_EXIT_ROOM x, P_ACK_EXIT_ROOM y => packet_both P_ACK_EXIT_ROOM (ACK_EXIT_ROOM_Swap same_arena x y)
  | P_REQ_CHAT x, P_REQ_CHAT y => packet_both P_REQ_CHAT (REQ_CHAT_Swap same_arena x y)
  | P_ACK_CHAT x, P_ACK_CHAT y => packet_both P_ACK_CHAT (ACK_CHAT_Swap same_arena x y)
  | P_ACK_SEND_CHAT x, P_ACK_SEND_CHAT y => packet_both P_ACK_SEND_CHAT (ACK_SEND_CHAT_Swap same_arena x y)
  | P_REQ_CONNECT_PONG x, P_REQ_CONNECT_PONG y => packet_both P_REQ_CONNECT_PONG (REQ_CONNECT_PONG_Swap same_arena x y)
  | P_ACK_SEND_CONNECT_PING x, P_ACK_SEND_CONNECT_PING y => packet_both P_ACK_SEND_CONNECT_PING (ACK_SEND_CONNECT_PING_Swap same_arena x y)
  | P_ACK_SERVER_FULL x, P_ACK_SERVER_FULL y => packet_both P_ACK_SERVER_FULL (ACK_SERVER_FULL_Swap same_arena x y)
  | _, _ => (p, other)
  end.
End Moves.

(** ** All the fields

    The scalar and string fields, indexed by their class and the type of their value. *)

Inductive msg :=
  | M_RoomInfo
  | M_REQ_LOGIN
  | M_ACK_LOGIN
  | M_REQ_BOT_LOGIN
  | M_ACK_BOT_LOGIN
  | M_REQ_LOGOUT
  | M_ACK_LOGOUT
  | M_REQ_GET_ROOM_INFO
  | M_ACK_GET_ROOM_INFO
  | M_REQ_ENTER_ROOM
  | M_ACK_ENTER_ROOM
  | M_REQ_EXIT_ROOM
  | M_ACK_EXIT_ROOM
  | M_REQ_CHAT
  | M_ACK_CHAT
  | M_ACK_SEND_CHAT
  | M_REQ_CONNECT_PONG
  | M_ACK_SEND_CONNECT_PING
  | M_ACK_SERVER_FULL.

Definition msg_type (m : msg) : Type :=
  match m with
  | M_RoomInfo => RoomInfo
  | M_REQ_LOGIN => REQ_LOGIN
  | M_ACK_LOGIN => ACK_LOGIN
  | M_REQ_BOT_LOGIN => REQ_BOT_LOGIN
  | M_ACK_BOT_LOGIN => ACK_BOT_LOGIN
  | M_REQ_LOGOUT => REQ_LOGOUT
  | M_ACK_LOGOUT => ACK_LOGOUT
  | M_REQ_GET_ROOM_INFO => REQ_GET_ROOM_INFO
  | M_ACK_GET_ROOM_INFO => ACK_GET_ROOM_INFO
  | M_REQ_ENTER_ROOM => REQ_ENTER_ROOM
  | M_ACK_ENTER_ROOM => ACK_ENTER_ROOM
  | M_REQ_EXIT_ROOM => REQ_EXIT_ROOM
  | M_ACK_EXIT_ROOM => ACK_EXIT_ROOM
  | M_REQ_CHAT => REQ_CHAT
  | M_ACK_CHAT => ACK_CHAT
  | M_ACK_SEND_CHAT => ACK_SEND_CHAT
  | M_REQ_CONNECT_PONG => REQ_CONNECT_PONG
  | M_ACK_SEND_CONNECT_PING => ACK_SEND_CONNECT_PING
  | M_ACK_SERVER_FULL => ACK_SERVER_FULL
  end.

Inductive kind := KBool | KInt | KString.

Definition kind_type (k : kind) : Type := match k with KBool => bool | KInt => Z | KString => bytes end.

Definition kind_default (k : kind) : kind_type k :=
  match k with KBool => false | KInt => 0 | KString => [] end.

Inductive field : msg -> kind -> Type :=
  | F_RoomInfo_room_id : field M_RoomInfo KInt
  | F_RoomInfo_cur_enter_user_count : field M_RoomInfo KInt
  | F_RoomInfo_cur_enter_max_count : field M_RoomInfo KInt
  | F_REQ_LOGIN_is_create : field M_REQ_LOGIN KBool
  | F_REQ_LOGIN_id : field M_REQ_LOGIN KString
  | F_REQ_LOGIN_pw : field M_REQ_LOGIN KString
  | F_REQ_LOGIN_name : field M_REQ_LOGIN KString
  | F_ACK_LOGIN_idx : field M_ACK_LOGIN KInt
  | F_ACK_LOGIN_user_name : field M_ACK_LOGIN KString
  | F_ACK_LOGIN_result : field M_ACK_LOGIN KInt
  | F_REQ_BOT_LOGIN_is_create : field M_REQ_BOT_LOGIN KBool
  | F_REQ_BOT_LOGIN_id : field M_REQ_BOT_LOGIN KString
  | F_REQ_BOT_LOGIN_pw : field M_REQ_BOT_LOGIN KString
  | F_REQ_BOT_LOGIN_name : field M_REQ_BOT_LOGIN KString
  | F_ACK_BOT_LOGIN_idx : field M_ACK_BOT_LOGIN KInt
  | F_ACK_BOT_LOGIN_user_name : field M_ACK_BOT_LOGIN KString
  | F_ACK_BOT_LOGIN_result : field M_ACK_BOT_LOGIN KInt
  | F_REQ_LOGOUT_idx : field M_REQ_LOGOUT KInt
  | F_ACK_LOGOUT_result : field M_ACK_LOGOUT KInt
  | F_REQ_ENTER_ROOM_room_id : field M_REQ_ENTER_ROOM KInt
  | F_ACK_ENTER_ROOM_room_id : field M_ACK_ENTER_ROOM KInt
  | F_ACK_ENTER_ROOM_result : field M_ACK_ENTER_ROOM KInt
  | F_ACK_EXIT_ROOM_result : field M_ACK_EXIT_ROOM KInt
  | F_REQ_CHAT_message : field M_REQ_CHAT KString
  | F_REQ_CHAT_chat_state : field M_REQ_CHAT KInt
  | F_REQ_CHAT_room_id : field M_REQ_CHAT KInt
  | F_REQ_CHAT_target_name : field M_REQ_CHAT KString
  | F_ACK_CHAT_result : field M_ACK_CHAT KInt
  | F_ACK_CHAT_target_count : field M_ACK_CHAT KInt
  | F_ACK_SEND_CHAT_user_name : field M_ACK_SEND_CHAT KString
  | F_ACK_SEND_CHAT_message : field M_ACK_SEND_CHAT KString
  | F_REQ_CONNECT_PONG_server_tick : field M_REQ_CONNECT_PONG KInt
  | F_ACK_SEND_CONNECT_PING_server_tick : field M_ACK_SEND_CONNECT_PING KInt
  | F_ACK_SERVER_FULL_max_session_count : field M_ACK_SERVER_FULL KInt.

(** [k<Name>FieldNumber]. *)
Definition field_number {m k} (f : field m k) : Z :=
  match f with
  | F_RoomInfo_room_id => 1
  | F_RoomInfo_cur_enter_user_count => 2
  | F_RoomInfo_cur_enter_max_count => 3
  | F_REQ_LOGIN_is_create => 1
  | F_REQ_LOGIN_id => 2
  | F_REQ_LOGIN_pw => 3
  | F_REQ_LOGIN_name => 4
  | F_ACK_LOGIN_idx => 1
  | F_ACK_LOGIN_user_name => 2
  | F_ACK_LOGIN_result => 3
  | F_REQ_BOT_LOGIN_is_create => 1
  | F_REQ_BOT_LOGIN_id => 2
  | F_REQ_BOT_LOGIN_pw => 3
  | F_REQ_BOT_LOGIN_name => 4
  | F_ACK_BOT_LOGIN_idx => 1
  | F_ACK_BOT_LOGIN_user_name => 2
  | F_ACK_BOT_LOGIN_result => 3
  | F_REQ_LOGOUT_idx => 1
  | F_ACK_LOGOUT_result => 1
  | F_REQ_ENTER_ROOM_room_id => 1
  | F_ACK_ENTER_ROOM_room_id => 1
  | F_ACK_ENTER_ROOM_result => 2
  | F_ACK_EXIT_ROOM_result => 1
  | F_REQ_CHAT_message => 1
  | F_REQ_CHAT_chat_state => 2
  | F_REQ_CHAT_room_id => 3
  | F_REQ_CHAT_target_name => 4
  | F_ACK_CHAT_result => 1
  | F_ACK_CHAT_target_count => 2
  | F_ACK_SEND_CHAT_user_name => 1
  | F_ACK_SEND_CHAT_message => 2
  | F_REQ_CONNECT_PONG_server_tick => 1
  | F_ACK_SEND_CONNECT_PING_server_tick => 1
  | F_ACK_SERVER_FULL_max_session_count => 1
  end.

Definition accessors {m k} (f : field m k) : Scalar (msg_type m) (kind_type k) :=
  match f in field m k return Scalar (msg_type m) (kind_type k) with
  | F_RoomInfo_room_id => RoomInfo_room_id_accessors
  | F_RoomInfo_cur_enter_user_count => RoomInfo_cur_enter_user_count_accessors
  | F_RoomInfo_cur_enter_max_count => RoomInfo_cur_enter_max_count_accessors
  | F_REQ_LOGIN_is_create => REQ_LOGIN_is_create_accessors
  | F_REQ_LOGIN_id => sf_scalar REQ_LOGIN_id_accessors
  | F_REQ_LOGIN_pw => sf_scalar REQ_LOGIN_pw_accessors
  | F_REQ_LOGIN_name => sf_scalar REQ_LOGIN_name_accessors
  | F_ACK_LOGIN_idx => ACK_LOGIN_idx_accessors
  | F_ACK_LOGIN_user_name => sf_scalar ACK_LOGIN_user_name_accessors
  | F_ACK_LOGIN_result => ACK_LOGIN_result_accessors
  | F_REQ_BOT_LOGIN_is_create => REQ_BOT_LOGIN_is_create_accessors
  | F_REQ_BOT_LOGIN_id => sf_scalar REQ_BOT_LOGIN_id_accessors
  | F_REQ_BOT_LOGIN_pw => sf_scalar REQ_BOT_LOGIN_pw_accessors
  | F_REQ_BOT_LOGIN_name => sf_scalar REQ_BOT_LOGIN_name_accessors
  | F_ACK_BOT_LOGIN_idx => ACK_BOT_LOGIN_idx_accessors
  | F_ACK_BOT_LOGIN_user_name => sf_scalar ACK_BOT_LOGIN_user_name_accessors
  | F_ACK_BOT_LOGIN_result => ACK_BOT_LOGIN_result_accessors
  | F_REQ_LOGOUT_idx => REQ_LOGOUT_idx_accessors
  | F_ACK_LOGOUT_result => ACK_LOGOUT_result_accessors
  | F_REQ_ENTER_ROOM_room_id => REQ_ENTER_ROOM_room_id_accessors
  | F_ACK_ENTER_ROOM_room_id => ACK_ENTER_ROOM_room_id_accessors
  | F_ACK_ENTER_ROOM_result => ACK_ENTER_ROOM_result_accessors
  | F_ACK_EXIT_ROOM_result => ACK_EXIT_ROOM_result_accessors
  | F_REQ_CHAT_message => sf_scalar REQ_CHAT_message_accessors
  | F_REQ_CHAT_chat_state => REQ_CHAT_chat_state_accessors
  | F_REQ_CHAT_room_id => REQ_CHAT_room_id_accessors
  | F_REQ_CHAT_target_name => sf_scalar REQ_CHAT_target_name_accessors
  | F_ACK_CHAT_result => ACK_CHAT_result_accessors
  | F_ACK_CHAT_target_count => ACK_CHAT_target_count_accessors
  | F_ACK_SEND_CHAT_user_name => sf_scalar ACK_SEND_CHAT_user_name_accessors
  | F_ACK_SEND_CHAT_message => sf_scalar ACK_SEND_CHAT_message_accessors
  | F_REQ_CONNECT_PONG_server_tick => REQ_CONNECT_PONG_server_tick_accessors
  | F_ACK_SEND_CONNECT_PING_server_tick => ACK_SEND_CONNECT_PING_server_tick_accessors
  | F_ACK_SERVER_FULL_max_session_count => ACK_SERVER_FULL_max_session_count_accessors
  end.

Definition string_accessors {m} (f : field m KString) : StringField (msg_type m) :=
  match f in field m k return match k with KString => StringField (msg_type m) | _ => unit end with
  | F_REQ_LOGIN_id => REQ_LOGIN_id_accessors
  | F_REQ_LOGIN_pw => REQ_LOGIN_pw_accessors
  | F_REQ_LOGIN_name => REQ_LOGIN_name_accessors
  | F_ACK_LOGIN_user_name => ACK_LOGIN_user_name_accessors
  | F_REQ_BOT_LOGIN_id => REQ_BOT_LOGIN_id_accessors
  | F_REQ_BOT_LOGIN_pw => REQ_BOT_LOGIN_pw_accessors
  | F_REQ_BOT_LOGIN_name => REQ_BOT_LOGIN_name_accessors
  | F_ACK_BOT_LOGIN_user_name => ACK_BOT_LOGIN_user_name_accessors
  | F_REQ_CHAT_message => REQ_CHAT_message_accessors
  | F_REQ_CHAT_target_name => REQ_CHAT_target_name_accessors
  | F_ACK_SEND_CHAT_user_name => ACK_SEND_CHAT_user_name_accessors
  | F_ACK_SEND_CHAT_message => ACK_SEND_CHAT_message_accessors
  | _ => tt
  end.

(** ** Theorems *)

(** A fresh packet of the same class. *)
Definition packet_fresh (p : Packet) : Packet :=
  match p with
  | P_REQ_LOGIN _ => P_REQ_LOGIN REQ_LOGIN_default
  | P_ACK_LOGIN _ => P_ACK_LOGIN ACK_LOGIN_default
  | P_REQ_BOT_LOGIN _ => P_REQ_BOT_LOGIN REQ_BOT_LOGIN_default
  | P_ACK_BOT_LOGIN _ => P_ACK_BOT_LOGIN ACK_BOT_LOGIN_default
  | P_REQ_LOGOUT _ => P_REQ_LOGOUT REQ_LOGOUT_default
  | P_ACK_LOGOUT _ => P_ACK_LOGOUT ACK_LOGOUT_default
  | P_REQ_GET_ROOM_INFO _ => P_REQ_GET_ROOM_INFO REQ_GET_ROOM_INFO_default
  | P_ACK_GET_ROOM_INFO _ => P_ACK_GET_ROOM_INFO ACK_GET_ROOM_INFO_default
  | P_REQ_ENTER_ROOM _ => P_REQ_ENTER_ROOM REQ_ENTER_ROOM_default
  | P_ACK_ENTER_ROOM _ => P_ACK_ENTER_ROOM ACK_ENTER_ROOM_default
  | P_REQ_EXIT_ROOM _ => P_REQ_EXIT_ROOM REQ_EXIT_ROOM_default
  | P_ACK_EXIT_ROOM _ => P_ACK_EXIT_ROOM ACK_EXIT_ROOM_default
  | P_REQ_CHAT _ => P_REQ_CHAT REQ_CHAT_default
  | P_ACK_CHAT _ => P_ACK_CHAT ACK_CHAT_default
  | P_ACK_SEND_CHAT _ => P_ACK_SEND_CHAT ACK_SEND_CHAT_default
  | P_REQ_CONNECT_PONG _ => P_REQ_CONNECT_PONG REQ_CONNECT_PONG_default
  | P_ACK_SEND_CONNECT_PING _ => P_ACK_SEND_CONNECT_PING ACK_SEND_CONNECT_PING_default
  | P_ACK_SERVER_FULL _ => P_ACK_SERVER_FULL ACK_SERVER_FULL_default
  end.

Section MoveTheorems.
Context {utf8 : Utf8Check} {rt : PbRuntime} {laws : PbRuntimeLaws rt}.

Lemma packet_swapped p q : packet_id p = packet_id q -> packet_Swap true p q = (q, p).
Proof using laws.
  intros Hid. destruct p, q; try discriminate Hid; cbn [packet_Swap packet_both fst snd]; try by destruct m, m0.
  all: unfold REQ_GET_ROOM_INFO_Swap, REQ_GET_ROOM_INFO_InternalSwap, REQ_EXIT_ROOM_Swap, REQ_EXIT_ROOM_InternalSwap.
  all: rewrite zero_fields_swap; by destruct m, m0.
Qed.

Lemma generic_swap {M} (inject : M -> Packet) x y :
  packet_both inject (GenericSwap M x y) = (inject y, inject x).
Proof using laws. by rewrite generic_swap_ok. Qed.

(** A move assignment is a swap or a copy. *)
Lemma packet_move_assign_cases b p q :
  packet_id p = packet_id q ->
  packet_move_assign b p q = if b then packet_Swap true p q else (packet_CopyFrom p q, q).
Proof. intros Hid. destruct p, q; try discriminate Hid; by destruct b. Qed.

(** Assigning and moving transfer the whole message: after [operator=], a move
    assignment or the move constructor the target is the source message, whatever it
    held and whichever arenas the objects have; moving within an arena leaves the old
    target in the source, and [Swap] exchanges the two. *)
Theorem packet_move_exact b p q :
  packet_wf q -> packet_id p = packet_id q ->
  packet_assign p q = q /\
  packet_move_assign b p q = (q, if b then p else q) /\
  fst (packet_move b q) = q /\
  packet_Swap b p q = (q, p).
Proof using laws.
  intros Hq Hid. split_and!.
  - rewrite <- (packet_copied p q Hq Hid) at 2. destruct p, q; by try discriminate Hid.
  - rewrite packet_move_assign_cases by done.
    destruct b; [by apply packet_swapped|by rewrite packet_copied].
  - assert (packet_move b q = packet_move_assign b (packet_fresh q) q) as -> by by destruct q.
    assert (packet_id (packet_fresh q) = packet_id q) as Hf by by destruct q.
    rewrite packet_move_assign_cases by done. destruct b; [by rewrite packet_swapped|by apply packet_copied].
  - destruct b; [by apply packet_swapped|]. destruct p, q; try discriminate Hid;
      cbn [packet_Swap]; by apply generic_swap.
Qed.
End MoveTheorems.


Ltac case_field f := destruct f; cbn [msg_type kind_type accessors string_accessors field_number] in *.

(** The accessors of a field act on that field alone: a getter returns what was set,
    setting what is there changes nothing, the last of two values set remains,
    [clear_] sets the default; the accessors of different fields of a class do not
    see one another, and the order of their setters does not matter. *)
Theorem accessors_exact {m k k'} (f : field m k) (g : field m k')
    (v w : kind_type k) (z : kind_type k') (x : msg_type m) :
  field_number f <> field_number g ->
  (acc_get (accessors f) (acc_set (accessors f) v x) = v /\
   acc_set (accessors f) (acc_get (accessors f) x) x = x /\
   acc_set (accessors f) w (acc_set (accessors f) v x) = acc_set (accessors f) w x /\
   acc_clear (accessors f) x = acc_set (accessors f) (kind_default k) x) /\
  (acc_get (accessors f) (acc_set (accessors g) z x) = acc_get (accessors f) x /\
   acc_get (accessors f) (acc_clear (accessors g) x) = acc_get (accessors f) x /\
   acc_set (accessors f) v (acc_set (accessors g) z x) = acc_set (accessors g) z (acc_set (accessors f) v x)).
Proof.
  intros Hn. split.
  - clear g z Hn. case_field f; by destruct x.
  - case_field f; dependent destruction g; cbn [msg_type kind_type accessors field_number] in *;
      by destruct x.
Qed.

Lemma accessors_exact_witness :
  let x := mkREQ_LOGIN true [97] [98] [] [] in
  field_number F_REQ_LOGIN_id <> field_number F_REQ_LOGIN_pw /\
  acc_get REQ_LOGIN_id_accessors (acc_set REQ_LOGIN_pw_accessors [99] x) = [97].
Proof.
  assert (field_number F_REQ_LOGIN_id <> field_number F_REQ_LOGIN_pw) as Hn by (vm_compute; congruence).
  split; [exact Hn|].
  exact (proj1 (proj2 (accessors_exact F_REQ_LOGIN_id F_REQ_LOGIN_pw [100] [101] [99]
                         (mkREQ_LOGIN true [97] [98] [] []) Hn))).
Defined.

(** A write through [mutable_] is a read, the write and a set. *)
Lemma string_mutable {m} (f : field m KString) g x :
  sf_mutable (string_accessors f) g x = acc_set (accessors f) (g (acc_get (accessors f) x)) x.
Proof. dependent destruction f; by destruct x. Qed.

(** The repeated field of rooms is a list: [add_room_info_list] appends one element
    filled through its pointer and keeps the others in their places, the valid indexes
    are those below the size, and a write through [mutable_room_info_list] changes the
    element at its index and no other. *)
Theorem room_info_list_exact m fill g i j :
  room_info_list_size (add_room_info_list fill m) = room_info_list_size m + 1 /\
  room_info_list_at i (add_room_info_list fill m) =
    (if i =? room_info_list_size m then Some (fill RoomInfo_default) else room_info_list_at i m) /\
  (is_Some (room_info_list_at i m) <-> 0 <= i < room_info_list_size m) /\
  (forall m', mutable_room_info_list i g m = Some m' ->
     room_info_list_size m' = room_info_list_size m /\
     room_info_list_at j m' = if j =? i then g <$> room_info_list_at i m else room_info_list_at j m).
Proof.
  destruct m as [l u]. unfold mutable_room_info_list, room_info_list_size, add_room_info_list, room_info_list_at, zlen.
  cbn. split_and!.
  - rewrite length_app. simpl. lia.
  - destruct (i <? 0) eqn:E; bool_lia; [by rewrite (proj2 (Z.eqb_neq _ _)) by lia|].
    destruct (i =? _) eqn:E'; bool_lia.
    + rewrite lookup_app_r by lia. by replace (Z.to_nat i - length l)%nat with 0%nat by lia.
    + destruct (decide (i < Z.of_nat (length l))); [by rewrite lookup_app_l by lia|].
      rewrite !lookup_ge_None_2; [done|lia|rewrite length_app; simpl; lia].
  - destruct (i <? 0) eqn:E; bool_lia; [split; [by intros [? [=]]|lia]|]. rewrite lookup_lt_is_Some. lia.
  - intros m'. destruct (i <? 0) eqn:E; bool_lia; [simpl; discriminate|].
    destruct (l !! Z.to_nat i) as [x|] eqn:Hx; [|simpl; discriminate]. simpl; intros [= <-]. cbn. rewrite length_insert. split; [lia|].
    destruct (j <? 0) eqn:Ej; bool_lia; [by rewrite (proj2 (Z.eqb_neq _ _)) by lia|].
    destruct (j =? i) eqn:Eq; bool_lia; [subst; simpl; apply list_lookup_insert_eq; by eapply lookup_lt_Some|].
    rewrite list_lookup_insert_ne by lia. done.
Qed.
