(* ===== verification/Packets.v ===== *)
(** * Building packets, and string conversion

    [ServerPacketHandler::MakeSendBuffer] (GameServer/Packet/ServerPacketHandler.h)
    and [StringUtil] (ServerCore/Utils/StringUtil.cpp).  The conversion tables of
    the operating system are the parameter [StringApi]. *)

From stdpp Require Import base list numbers option.
From Stdlib Require Import ZArith Lia.
From S2P Require Import Prelude Buffers Framing Wire Protocol.

(** ** MakeSendBuffer *)

Section MakeSendBuffer.
Context {codec : PacketCodec}.

(** [memcpy(&buf[0], data, data.size())]. *)
Definition overwrite (data buf : bytes) : bytes := data ++ drop (length data) buf.

(** [dataSize] and [packetSize] are [uint16].  [None] is the header written
    behind the end of a buffer of less than four bytes.  The result of
    [SerializeToArray] is not checked: when it fails the body keeps the zeros of
    the fresh buffer. *)
Definition MakeSendBuffer (pkt : Packet) : option SendBuffer :=
  let dataSize := u16 (ByteSizeLong pkt) in
  let packetSize := u16 (dataSize + sizeof_PacketHeader) in
  let sendBuffer := SendBuffer_new packetSize in
  if packetSize <? sizeof_PacketHeader then None
  else
    let header := PacketHeader_write (mkPacketHeader packetSize (packet_id pkt)) in
    let body := drop 4 (sb_buffer sendBuffer) in
    let body := match SerializeToArray pkt dataSize with
                | Some bs => overwrite bs body
                | None => body
                end in
    Some (SendBuffer_close packetSize (sendBuffer <| sb_buffer := header ++ body |>)).
End MakeSendBuffer.

(** ** StringUtil *)

(** The conversions of the operating system with their default flags. *)
Class StringApi := {
  utf8_to_utf16 : bytes -> wstring;
  utf16_to_utf8 : wstring -> bytes
}.

Class StringApiLaws {utf8 : Utf8Check} (api : StringApi) : Prop := {
  (** A UTF-8 sequence gives at most one UTF-16 unit per byte, and a UTF-16 unit
      at most three UTF-8 bytes; the result of the second is UTF-8, and so is ASCII. *)
  utf16_len s : zlen (utf8_to_utf16 s) <= zlen s;
  utf8_len w : zlen (utf16_to_utf8 w) <= 3 * zlen w;
  utf8_bytes w : Forall is_byte (utf16_to_utf8 w);
  utf8_valid w : VerifyUTF8 (utf16_to_utf8 w) = true;
  utf8_valid_nil : VerifyUTF8 [] = true;
  utf8_ascii s : Forall (fun c => 0 <= c < 128) s -> VerifyUTF8 s = true
}.

Section StringUtil.
Context {api : StringApi}.

(** [MultiByteToWideChar]/[WideCharToMultiByte]: without room ([0]) the number of
    units needed, otherwise that number and the units written. *)
Definition MultiByteToWideChar (s : bytes) (cch : Z) : Z * wstring :=
  let w := utf8_to_utf16 s in
  if cch =? 0 then (zlen w, []) else if zlen w <=? cch then (zlen w, w) else (0, []).

Definition WideCharToMultiByte (w : wstring) (cb : Z) : Z * bytes :=
  let s := utf16_to_utf8 w in
  if cb =? 0 then (zlen s, []) else if zlen s <=? cb then (zlen s, s) else (0, []).

Definition WStringToUtf8 (wstr : wstring) : bytes :=
  if bool_decide (wstr = []) then []
  else
    let len := fst (WideCharToMultiByte wstr 0) in
    let result := replicate (Z.to_nat len) 0 in
    overwrite (snd (WideCharToMultiByte wstr len)) result.

Definition Utf8ToWString (str : bytes) : wstring :=
  if bool_decide (str = []) then []
  else
    let len := fst (MultiByteToWideChar str 0) in
    let result := replicate (Z.to_nat len) 0 in
    overwrite (snd (MultiByteToWideChar str len)) result.

Lemma overwrite_exact (data : bytes) n : zlen data = n -> overwrite data (replicate (Z.to_nat n) 0) = data.
Proof.
  intros <-. unfold overwrite, zlen. rewrite Nat2Z.id, drop_ge; [by rewrite app_nil_r|].
  rewrite length_replicate. lia.
Qed.

Lemma WStringToUtf8_spec w : WStringToUtf8 w = if bool_decide (w = []) then [] else utf16_to_utf8 w.
Proof.
  unfold WStringToUtf8. case_bool_decide; [done|]. unfold WideCharToMultiByte. simpl.
  destruct (zlen (utf16_to_utf8 w) =? 0) eqn:E; bool_lia; simpl.
  - rewrite E. simpl. symmetry. apply length_zero_iff_nil. unfold zlen in E. lia.
  - rewrite (proj2 (Z.leb_le _ _)) by lia. simpl. by apply overwrite_exact.
Qed.

Lemma Utf8ToWString_spec s : Utf8ToWString s = if bool_decide (s = []) then [] else utf8_to_utf16 s.
Proof.
  unfold Utf8ToWString. case_bool_decide; [done|]. unfold MultiByteToWideChar. simpl.
  destruct (zlen (utf8_to_utf16 s) =? 0) eqn:E; bool_lia; simpl.
  - rewrite E. simpl. symmetry. apply length_zero_iff_nil. unfold zlen in E. lia.
  - rewrite (proj2 (Z.leb_le _ _)) by lia. simpl. by apply overwrite_exact.
Qed.

Section Laws.
Context {utf8 : Utf8Check} {laws : StringApiLaws api}.

Lemma Utf8ToWString_len s : zlen (Utf8ToWString s) <= zlen s.
Proof using laws.
  rewrite Utf8ToWString_spec. case_bool_decide; [rewrite zlen_nil; apply zlen_nonneg|apply utf16_len].
Qed.

Lemma WStringToUtf8_wf w : zlen w < 2 ^ 29 -> string_wf (WStringToUtf8 w) /\ zlen (WStringToUtf8 w) <= 3 * zlen w.
Proof using laws.
  intros Hw. rewrite WStringToUtf8_spec. case_bool_decide.
  - subst. rewrite zlen_nil. split; [|done]. split_and!; [constructor|done|apply utf8_valid_nil].
  - pose proof (utf8_len w). split; [|done]. split_and!; [apply utf8_bytes|lia|apply utf8_valid].
Qed.
End Laws.
End StringUtil.

(** ** Lemmas *)

Section MakeSendBufferLaws.
Context {utf8 : Utf8Check} {codec : PacketCodec} {laws : PacketCodecLaws codec}.

Lemma MakeSendBuffer_serialized p bs :
  SerializeToArray p (ByteSizeLong p) = Some bs -> zlen bs = ByteSizeLong p -> 0 <= ByteSizeLong p <= 65531 ->
  MakeSendBuffer p
    = Some (mkSendBuffer (PacketHeader_write (mkPacketHeader (zlen bs + 4) (packet_id p)) ++ bs) (zlen bs + 4)).
Proof.
  intros Hs Hl Hsz. unfold MakeSendBuffer, sizeof_PacketHeader.
  rewrite (u16_small (ByteSizeLong p)) by lia. rewrite u16_small by lia. rewrite Hs.
  rewrite Z_ltb_false by lia. unfold SendBuffer_close. simpl. do 2 f_equal.
  - unfold overwrite. rewrite drop_drop, drop_ge.
    + by rewrite app_nil_r, Hl.
    + rewrite length_replicate. unfold zlen in Hl. lia.
  - rewrite i32_small by lia. lia.
Qed.

(** What a packet that fits becomes on the wire. *)
Lemma MakeSendBuffer_fits p :
  packet_wf p -> ByteSizeLong p <= 65531 ->
  exists bs, MakeSendBuffer p
      = Some (mkSendBuffer (PacketHeader_write (mkPacketHeader (zlen bs + 4) (packet_id p)) ++ bs) (zlen bs + 4)) /\
    zlen bs = ByteSizeLong p /\ Forall is_byte bs /\ ParseFromArray (packet_id p) bs = Some p.
Proof using laws.
  intros Hp Hsz. pose proof (codec_bound p (packet_wf_sized p Hp)) as [H0 _].
  destruct (codec_roundtrip p (ByteSizeLong p) Hp) as (bs & Hs & Hl & Hb & Hr); [lia..|].
  exists bs. split; [by apply MakeSendBuffer_serialized|done].
Qed.

(** A packet that is small enough becomes a buffer of its size. *)
Lemma MakeSendBuffer_sized p :
  packet_sized p -> packet_bound p <= 65531 ->
  exists sb, MakeSendBuffer p = Some sb /\ SendBuffer_wf sb /\ sb_write_size sb < 2 ^ 16.
Proof using laws.
  intros Hp Hsz. pose proof (codec_bound p Hp) as [H0 H1].
  destruct (codec_serialize p (ByteSizeLong p) Hp) as (bs & Hs & Hl); [lia..|].
  eexists. split; [apply MakeSendBuffer_serialized; [done..|lia]|]. unfold SendBuffer_wf. simpl.
  rewrite !zlen_cons. lia.
Qed.

Lemma packet_id_range p : 0 <= packet_id p < 2 ^ 16.
Proof. destruct p; vm_compute; intuition congruence. Qed.

Lemma header_write_len h : zlen (PacketHeader_write h) = 4.
Proof. reflexivity. Qed.

Lemma header_write_bytes sz i :
  0 <= sz < 2 ^ 16 -> 0 <= i < 2 ^ 16 -> Forall is_byte (PacketHeader_write (mkPacketHeader sz i)).
Proof.
  intros H1 H2. unfold PacketHeader_write, le16, is_byte; simpl.
  repeat apply Forall_cons_2; try apply Forall_nil_2; apply Z.mod_pos_bound; lia.
Qed.

Lemma MakeSendBuffer_frame p :
  packet_wf p -> ByteSizeLong p <= 65531 ->
  exists sb, MakeSendBuffer p = Some sb /\ SendBuffer_wf sb /\
    is_packet (SendBuffer_payload sb) /\ byte_stream (SendBuffer_payload sb) /\
    hdr_id (PacketHeader_read (SendBuffer_payload sb)) = packet_id p /\
    ParseFromArray (packet_id p) (drop 4 (SendBuffer_payload sb)) = Some p.
Proof using laws.
  intros Hp Hsz. destruct (MakeSendBuffer_fits p Hp Hsz) as (bs & -> & Hl & Hb & Hr).
  pose proof (codec_bound p (packet_wf_sized p Hp)) as [H0 _]. pose proof (packet_id_range p) as Hid.
  set (h := mkPacketHeader (zlen bs + 4) (packet_id p)).
  assert (zlen (PacketHeader_write h ++ bs) = zlen bs + 4) as Hlen
    by (rewrite zlen_app, header_write_len; lia).
  eexists. split; [done|]. unfold SendBuffer_payload, SendBuffer_wf; cbn [sb_buffer sb_write_size].
  rewrite <- Hlen, slice_all.
  split; [lia|]. split; [|split; [|split]].
  - split; [lia|]. rewrite header_write_read, Hlen by (simpl; lia). done.
  - apply Forall_app_2; [|done]. apply header_write_bytes; lia.
  - rewrite header_write_read by (simpl; lia). done.
  - done.
Qed.

(** *** Properties *)

(** A packet whose encoding fits ([ByteSizeLong] at most 65531) is framed
    exactly: the buffer holds a header announcing its own length and the packet's
    id, followed by an encoding from which the packet is parsed back. *)
Theorem MakeSendBuffer_exact p :
  packet_wf p -> ByteSizeLong p <= 65531 ->
  exists sb, MakeSendBuffer p = Some sb /\ SendBuffer_wf sb /\
    is_packet (SendBuffer_payload sb) /\ byte_stream (SendBuffer_payload sb) /\
    hdr_id (PacketHeader_read (SendBuffer_payload sb)) = packet_id p /\
    ParseFromArray (packet_id p) (drop 4 (SendBuffer_payload sb)) = Some p.
Proof using laws. apply MakeSendBuffer_frame. Qed.

(** C40: what becomes of a packet that does not fit, which is never reported.  When the
    low 16 bits of its size are 65532 to 65535 the packet size wraps below the size of
    the header, and the header is written outside the buffer.  Every other packet of
    65536 bytes or more is sent as a well-formed frame whose header carries the packet's
    id and a size truncated to 16 bits, with nothing but zeros as body, although
    [SerializeToArray] failed. *)
Theorem MakeSendBuffer_oversize p :
  (65531 < u16 (ByteSizeLong p) -> MakeSendBuffer p = None) /\
  (65536 <= ByteSizeLong p -> u16 (ByteSizeLong p) <= 65531 ->
     exists sb, MakeSendBuffer p = Some sb /\
       SendBuffer_payload sb =
         PacketHeader_write (mkPacketHeader (u16 (ByteSizeLong p) + 4) (packet_id p))
           ++ replicate (Z.to_nat (u16 (ByteSizeLong p))) 0 /\
       is_packet (SendBuffer_payload sb) /\ hdr_id (PacketHeader_read (SendBuffer_payload sb)) = packet_id p).
Proof using laws.
  unfold MakeSendBuffer, sizeof_PacketHeader. pose proof (u16_range (ByteSizeLong p)) as Hr.
  set (n := u16 (ByteSizeLong p)) in *. split.
  - intros Hs. replace (u16 (n + 4)) with (n + 4 - 65536); [by rewrite Z_ltb_true by lia|].
    unfold u16. apply (Z.mod_unique _ _ 1); lia.
  - intros Hs Hw. rewrite u16_small by lia. rewrite Z_ltb_false by lia. rewrite codec_refuse by lia.
    set (h := mkPacketHeader (n + 4) (packet_id p)). pose proof (packet_id_range p) as Hid.
    exists (mkSendBuffer (PacketHeader_write h ++ replicate (Z.to_nat n) 0) (n + 4)). split.
    { unfold SendBuffer_close, SendBuffer_new. replace (Z.to_nat (n + 4)) with (4 + Z.to_nat n)%nat by lia.
      cbn. do 2 f_equal. apply i32_small. lia. }
    assert (zlen (PacketHeader_write h ++ replicate (Z.to_nat n) 0) = n + 4) as Hl.
    { rewrite zlen_app, header_write_len. unfold zlen. rewrite length_replicate. lia. }
    unfold SendBuffer_payload; cbn [sb_buffer sb_write_size]. rewrite <- Hl at 1 2 3. rewrite slice_all.
    unfold is_packet. rewrite Hl, (header_write_read h) by (unfold h; simpl; lia). split_and!; done || (unfold h; simpl; lia).
Qed.
End MakeSendBufferLaws.
