(* ===== verification/Runtime.v ===== *)
(** * A concrete protobuf runtime and string conversion

    Instances of the parameters [PbRuntime], [Utf8Check] and [StringApi] that satisfy
    [PbRuntimeLaws] and [StringApiLaws], so that the theorems proved against those laws can be
    applied to concrete packets.  It decodes varints of any length, accepts
    ASCII strings, and refuses unknown groups; it is used by witnesses only. *)

From stdpp Require Import base list numbers option.
From Stdlib Require Import ZArith Lia.
From S2P Require Import Prelude Buffers Framing Wire Protocol Messages Accessors Packets.

Fixpoint decode_varint (fuel : nat) (p : bytes) : option (Z * bytes) :=
  match fuel, p with
  | S fuel', b :: p' =>
      if b <? 128 then Some (b, p')
      else
        match decode_varint fuel' p' with
        | Some (v, q) => Some (b - 128 + 128 * v, q)
        | None => None
        end
  | _, _ => None
  end.

Definition ref_read (wrap : Z -> Z) (p : bytes) : option (Z * bytes) :=
  match decode_varint 10 p with Some (v, q) => Some (wrap v, q) | None => None end.

Definition ref_string (p : bytes) : option (bytes * bytes) :=
  match decode_varint 5 p with
  | Some (n, q) =>
      if zlen q <? n then None else Some (take (Z.to_nat n) q, drop (Z.to_nat n) q)
  | None => None
  end.

Definition ref_unknown (tag : Z) (u p : bytes) : option (bytes * bytes) :=
  match Z.land tag 7 with
  | 0 => match decode_varint 10 p with
         | Some (v, q) => Some (u ++ varint tag ++ varint v, q)
         | None => None
         end
  | 2 => match ref_string p with
         | Some (s, q) => Some (u ++ varint tag ++ varint (zlen s) ++ s, q)
         | None => None
         end
  | _ => None
  end.

Definition ref_message {M} (parse : Z -> bytes -> parse_result (M * bytes * Z)) (depth : Z) (p : bytes)
    : parse_result (M * bytes) :=
  match ref_string p with
  | Some (body, q) =>
      if depth <? 1 then Failed
      else
        ' (m, _, last) <-- parse (depth - 1) body ;;
        if last =? 0 then Parsed (m, q) else Failed
  | None => Failed
  end.

#[export] Instance ref_utf8 : Utf8Check := fun s => forallb (fun b => b <? 128) s.

#[export] Instance ref_runtime : PbRuntime := {|
  VarintParseSlow32 p _ := ref_read u32 p;
  VarintParseSlow64 p _ := ref_read u64 p;
  ReadTagFallback p _ := ref_read u32 p;
  InlineGreedyStringParser := ref_string;
  UnknownFieldParse := ref_unknown;
  ParseContext_ParseMessage := @ref_message;
  ZeroFieldsBase_InternalParse p u := if bool_decide (p = []) then Some (u, [], 0) else None;
  ZeroFieldsBase_InternalSerialize _ u target := target ++ u;
  ZeroFieldsBase_ByteSizeLong u := zlen u;
  ZeroFieldsBase_MergeImpl u v := u ++ v;
  ZeroFieldsBase_CopyImpl _ v := v;
  ZeroFieldsBase_InternalSwap u v := (v, u);
  GenericSwap _ x y := (y, x);
  EnsureSpaceFallback _ target := target;
  WriteStringMaybeAliasedOutline _ n s target := target ++ n * 8 + 2 :: varint (zlen s) ++ s;
  InternalWriteMessage size n ser cached target := ser size (target ++ n * 8 + 2 :: varint cached);
  InternalSerializeUnknownFieldsToArray _ u target := target ++ u;
  MaybeComputeUnknownFieldsSize u n := n + zlen u;
  MessageLite_SerializeToArray size ser n :=
    if n <? size then None else if 2 ^ 31 <=? size then None else Some (ser size []);
  MessageLite_ParseFromArray M parse bs :=
    match parse bs with
    | Parsed (m, _, last) => if last =? 0 then Some m else None
    | _ => None
    end;
  default_recursion_limit := 100
|}.

Lemma decode_varint_fuel n k v rest :
  0 <= v < 2 ^ (7 * Z.of_nat n) -> (0 < n <= k)%nat ->
  decode_varint k (varint_fuel n v ++ rest) = Some (v, rest).
Proof.
  revert k v. induction n as [|n IH]; intros k v Hv Hk; [lia|].
  destruct k as [|k]; [lia|]. cbn [varint_fuel]. destruct (v <? 128) eqn:E; bool_lia; cbn [app decode_varint].
  { by rewrite Z_ltb_true by lia. }
  pose proof (Z.mod_pos_bound v 128 ltac:(lia)). rewrite Z_ltb_false by lia.
  destruct (decide (n = 0%nat)) as [->|Hn0]; [change (2 ^ (7 * Z.of_nat 1)) with 128 in Hv; lia|].
  rewrite IH.
  - do 2 f_equal. pose proof (Z_div_mod_eq_full v 128). lia.
  - split; [apply Z.div_pos; lia|]. apply Z.div_lt_upper_bound; [lia|].
    change 128 with (2 ^ 7). rewrite <- Z.pow_add_r by lia.
    replace (7 + 7 * Z.of_nat n) with (7 * Z.of_nat (S n)) by lia. lia.
  - lia.
Qed.

Lemma decode_varint_spec v rest : 0 <= v < 2 ^ 64 -> decode_varint 10 (varint v ++ rest) = Some (v, rest).
Proof. intros Hv. apply decode_varint_fuel; [change (7 * Z.of_nat 10) with 70; lia|lia]. Qed.

Lemma decode_varint_consumes n p v q : decode_varint n p = Some (v, q) -> (length q < length p)%nat.
Proof.
  revert p v q. induction n as [|n IH]; intros [|b p] v q; simpl; try done.
  case_match; [intros [= _ <-]; lia|].
  destruct (decode_varint n p) as [[v' q']|] eqn:E; [|done]. intros [= _ <-]. apply IH in E. lia.
Qed.

Lemma ref_read_consumes wrap p v q : ref_read wrap p = Some (v, q) -> (length q < length p)%nat.
Proof.
  unfold ref_read. destruct (decode_varint 10 p) as [[v' q']|] eqn:E; [|done].
  intros [= _ <-]. by apply decode_varint_consumes in E.
Qed.

Lemma ref_string_consumes p s q : ref_string p = Some (s, q) -> (length q < length p)%nat.
Proof.
  unfold ref_string. destruct (decode_varint 5 p) as [[n q']|] eqn:E; [|done].
  apply decode_varint_consumes in E. case_match; [done|]. intros [= _ <-]. rewrite length_drop. lia.
Qed.

Lemma ref_string_spec s rest : zlen s < 2 ^ 31 -> ref_string (varint (zlen s) ++ s ++ rest) = Some (s, rest).
Proof.
  intros Hs. unfold ref_string, varint. pose proof (zlen_nonneg s).
  rewrite (varint_fuel_enough 5 10) by (change (7 * Z.of_nat 5) with 35; lia).
  rewrite decode_varint_fuel by (change (7 * Z.of_nat 5) with 35; lia).
  rewrite Z_ltb_false by (rewrite zlen_app; pose proof (zlen_nonneg rest); lia).
  unfold zlen. by rewrite Nat2Z.id, take_app_length, drop_app_length.
Qed.

#[export] Instance ref_runtime_laws : PbRuntimeLaws ref_runtime.
Proof.
  constructor; cbn -[varint varint_two_bytes ref_read ref_string ref_message ref_unknown u32 u64 zlen Z.pow Z.mul Z.add].
  - intros b0 b1 p v rest Hp Hv. unfold ref_read. rewrite Hp, decode_varint_spec by lia.
    by rewrite u64_small by lia.
  - intros b0 b1 p v rest Hp Hv. unfold ref_read. by rewrite Hp, decode_varint_spec by lia.
  - intros s rest Hs. by apply ref_string_spec.
  - intros p _ v q. apply ref_read_consumes.
  - intros p _ v q. apply ref_read_consumes.
  - intros p _ v q. apply ref_read_consumes.
  - apply ref_string_consumes.
  - intros t u p u' q. unfold ref_unknown.
    destruct (Z.land t 7) as [|[| [] |]|]; try done.
    + destruct (decode_varint 10 p) as [[v q']|] eqn:E; [|done].
      intros [= _ <-]. apply decode_varint_consumes in E. lia.
    + destruct (ref_string p) as [[s q']|] eqn:E; [|done].
      intros [= _ <-]. apply ref_string_consumes in E. lia.
  - intros M parse depth body m rest Hd Hb Hp. unfold ref_message. rewrite ref_string_spec by done.
    by rewrite Z_ltb_false, Hp by lia.
  - intros M parse depth p m q. unfold ref_message.
    destruct (ref_string p) as [[body q']|] eqn:E; [|done]. apply ref_string_consumes in E.
    repeat case_match; by intros; simplify_eq.
  - intros M parse depth p Hp. unfold ref_message. specialize (Hp (depth - 1)).
    destruct (ref_string p) as [[body q']|]; [|done]. specialize (Hp body). by repeat case_match.
  - done.
  - intros size target. apply app_nil_r.
  - done.
  - intros u. apply app_nil_r.
  - done.
  - done.
  - done.
  - done.
  - done.
  - intros n. rewrite zlen_nil. lia.
  - intros size ser n Hn. by rewrite Z_ltb_true by lia.
  - intros size ser n Hs Hlt. rewrite Z_ltb_false by lia. by rewrite (proj2 (Z.leb_gt _ _)) by lia.
  - intros M parse bs m rest ->. done.
  - intros M parse bs ->. done.
  - intros M parse bs m rest last -> Hl. by rewrite (proj2 (Z.eqb_neq _ _)) by done.
  - lia.
Qed.

(** ** Witnesses for the message theorems *)

(** A login request of the bot [ab] with a three-letter password. *)
Definition demo_login : Packet := P_REQ_LOGIN (mkREQ_LOGIN false [97; 98] [112; 119; 49] [] []).

Definition demo_rooms : Packet :=
  P_ACK_GET_ROOM_INFO (mkACK_GET_ROOM_INFO [mkRoomInfo 0 3 100 []; mkRoomInfo 1 (-1) 100 []] []).

Lemma ascii_wf s : forallb (fun b => (0 <=? b) && (b <? 128)) s = true -> zlen s < 2 ^ 31 -> string_wf s.
Proof.
  intros H Hl. split_and!; [|done|].
  - rewrite forallb_forall in H. apply List.Forall_forall. intros b Hb. specialize (H b Hb).
    bool_lia. unfold is_byte. lia.
  - unfold VerifyUTF8, ref_utf8. rewrite forallb_forall in *. intros b Hb. specialize (H b Hb).
    by bool_lia; apply Z.ltb_lt.
Qed.

Lemma demo_login_wf : packet_wf demo_login.
Proof. repeat split; apply ascii_wf; reflexivity. Qed.

Lemma demo_rooms_wf : packet_wf demo_rooms.
Proof.
  split_and!; [|reflexivity|reflexivity].
  repeat apply Forall_cons_2; [split_and!; simpl; lia || done..|apply Forall_nil_2].
Qed.

Example demo_login_bytes :
  packet_SerializeToArray demo_login 9 = Some [18; 2; 97; 98; 26; 3; 112; 119; 49].
Proof. vm_compute. reflexivity. Qed.

Lemma packet_roundtrip_witness :
  exists bs, packet_SerializeToArray demo_login 9 = Some bs /\ zlen bs = packet_ByteSizeLong demo_login /\
             Forall is_byte bs /\ packet_ParseFromArray PKT_REQ_LOGIN bs = Some demo_login.
Proof.
  apply (packet_roundtrip demo_login 9).
  - exact demo_login_wf.
  - vm_compute. congruence.
  - lia.
Defined.

Lemma packet_parse_merges_witness :
  packet_InternalParse (P_REQ_LOGIN (mkREQ_LOGIN true [1] [2] [3] [])) 100
    [18; 2; 97; 98; 26; 3; 112; 119; 49]
  = Parsed (P_REQ_LOGIN (mkREQ_LOGIN true [97; 98] [112; 119; 49] [3] []), [], 0).
Proof.
  refine (packet_parse_merges (P_REQ_LOGIN (mkREQ_LOGIN true [1] [2] [3] [])) demo_login 9
            [18; 2; 97; 98; 26; 3; 112; 119; 49] demo_login_wf eq_refl demo_login_bytes _ _).
  - vm_compute. congruence.
  - lia.
Defined.

Lemma packet_parse_terminates_witness :
  packet_InternalParse demo_rooms 100 [10; 200; 200; 200] <> NoFuel.
Proof. apply (packet_parse_terminates demo_rooms 100 [10; 200; 200; 200]). Defined.

Lemma packet_move_exact_witness :
  packet_move_assign true (P_ACK_GET_ROOM_INFO ACK_GET_ROOM_INFO_default) demo_rooms =
    (demo_rooms, P_ACK_GET_ROOM_INFO ACK_GET_ROOM_INFO_default).
Proof.
  apply (packet_move_exact true (P_ACK_GET_ROOM_INFO ACK_GET_ROOM_INFO_default) demo_rooms).
  - exact demo_rooms_wf.
  - reflexivity.
Defined.

Lemma packet_copy_exact_witness :
  packet_CopyFrom (P_ACK_GET_ROOM_INFO ACK_GET_ROOM_INFO_default) demo_rooms = demo_rooms /\
  packet_copy demo_rooms = demo_rooms.
Proof.
  apply (packet_copy_exact (P_ACK_GET_ROOM_INFO ACK_GET_ROOM_INFO_default) demo_rooms).
  - exact demo_rooms_wf.
  - reflexivity.
Defined.

(** The conversions between UTF-8 and UTF-16 on ASCII text; other units become [?]. *)
#[export] Instance ref_string_api : StringApi := {|
  utf8_to_utf16 s := s;
  utf16_to_utf8 w := (fun c => if (0 <=? c) && (c <? 128) then c else 63) <$> w
|}.

#[export] Instance ref_string_api_laws : StringApiLaws ref_string_api.
Proof.
  assert (forall c, 0 <= (if (0 <=? c) && (c <? 128) then c else 63) < 128) as Hc.
  { intros c. destruct ((0 <=? c) && (c <? 128)) eqn:E; bool_lia; lia. }
  constructor; simpl; try done.
  - intros w. unfold zlen. rewrite length_fmap. lia.
  - intros w. induction w as [|c w IH]; csimpl; [constructor|]. constructor; [|done].
    specialize (Hc c). unfold is_byte. lia.
  - intros w. unfold VerifyUTF8, ref_utf8. induction w as [|c w IH]; csimpl; [done|].
    rewrite IH, andb_true_r. apply Z.ltb_lt. apply Hc.
  - intros s Hs. unfold VerifyUTF8, ref_utf8. apply forallb_forall. intros c Hin.
    rewrite List.Forall_forall in Hs. apply Hs in Hin. apply Z.ltb_lt. lia.
Qed.

(** *** Witnesses of the theorems about [MakeSendBuffer] *)

Lemma MakeSendBuffer_exact_witness :
  exists sb, MakeSendBuffer demo_login = Some sb /\ is_packet (SendBuffer_payload sb) /\
    ParseFromArray PKT_REQ_LOGIN (drop 4 (SendBuffer_payload sb)) = Some demo_login.
Proof.
  destruct (MakeSendBuffer_exact demo_login demo_login_wf) as (sb & H & _ & Hp & _ & _ & Hr).
  - vm_compute. congruence.
  - exists sb. exact (conj H (conj Hp Hr)).
Defined.

(** A chat message of 65537 bytes, and one of 65529 bytes. *)
Definition demo_wrapped : Packet := P_ACK_SEND_CHAT (mkACK_SEND_CHAT [] (replicate 65537 97) []).
Definition demo_oversize : Packet := P_ACK_SEND_CHAT (mkACK_SEND_CHAT [] (replicate 65529 97) []).

Lemma MakeSendBuffer_oversize_witness :
  (exists sb, MakeSendBuffer demo_wrapped = Some sb /\ SendBuffer_payload sb = [9; 0; 246; 3; 0; 0; 0; 0; 0]) /\
  MakeSendBuffer demo_oversize = None.
Proof.
  split.
  - destruct (proj2 (MakeSendBuffer_oversize demo_wrapped)) as (sb & H & Hp & _).
    + vm_compute. congruence.
    + vm_compute. congruence.
    + exists sb. split; [exact H|]. rewrite Hp. vm_compute. reflexivity.
  - apply (proj1 (MakeSendBuffer_oversize demo_oversize)). vm_compute. reflexivity.
Defined.
