(* ===== verification/Config.v ===== *)
(** * Configuration files and start-up settings

    [ConfigReader] of the server (ServerCore/Utils/ConfigReader.{h,cpp}) and of the test
    client (TestClient/Utils/ConfigReader.{h,cpp}), [ClientConfig]
    (TestClient/Utils/ClientConfig.h) and the settings that the [main] of the server
    reads (GameServer/Main/GameServer.cpp).  The two readers share everything but [trim]
    and the reading of integers, so the common part takes [trim] as an argument.

    A [string] is its bytes; the contents of a file are the characters its text stream
    yields.  [None] is an exception: [substr] behind the end of a string, or [stoi] on
    something that is not an [int]. *)

From stdpp Require Import base list numbers option gmap.
From Stdlib Require Import ZArith Lia Ascii.
From Stdlib Require String.
From S2P Require Import Prelude Packets Runtime.

Import String.StringSyntax.
Delimit Scope string_scope with string.

(** A string literal. *)
Definition str (s : String.string) : bytes := (fun c => Z.of_nat (nat_of_ascii c)) <$> String.list_ascii_of_string s.
Arguments str s%_string.

(** ** The operations of [std::string] used *)

Definition npos : Z := 2 ^ 64 - 1.

Fixpoint find_if (p : Z -> bool) (s : bytes) (i : Z) : Z :=
  match s with
  | [] => npos
  | c :: rest => if p c then i else find_if p rest (i + 1)
  end.

Definition find (c : Z) (s : bytes) : Z := find_if (Z.eqb c) s 0.

(** [" \t\r\n"]. *)
Definition whitespace (c : Z) : bool := existsb (Z.eqb c) [32; 9; 13; 10].

Definition find_first_not_of (s : bytes) : Z := find_if (fun c => negb (whitespace c)) s 0.

Definition find_last_not_of (s : bytes) : Z :=
  let k := find_if (fun c => negb (whitespace c)) (reverse s) 0 in
  if k =? npos then npos else zlen s - 1 - k.

(** [s.substr(pos, count)] throws when [pos] is behind the end. *)
Definition substr (pos count : Z) (s : bytes) : option bytes :=
  if pos >? zlen s then None else Some (slice pos count s).

(** [to_string] of an unsigned integer. *)
Fixpoint to_digits (fuel : nat) (n : Z) : bytes :=
  match fuel with
  | O => []
  | S fuel' => if n <? 10 then [48 + n] else to_digits fuel' (n / 10) ++ [48 + n mod 10]
  end.

Definition to_string (n : Z) : bytes := to_digits 20 n.
Arguments to_string : simpl never.

(** [stoi]: white space, a sign, digits; the value and the number of characters read. *)
Definition isspace (c : Z) : bool := existsb (Z.eqb c) [32; 9; 10; 11; 12; 13].

Fixpoint skip_space (s : bytes) : bytes :=
  match s with c :: rest => if isspace c then skip_space rest else s | [] => [] end.

Fixpoint scan_digits (s : bytes) (v n : Z) : Z * Z :=
  match s with
  | c :: rest => if (48 <=? c) && (c <=? 57) then scan_digits rest (v * 10 + (c - 48)) (n + 1) else (v, n)
  | [] => (v, n)
  end.

Definition stoi (s : bytes) : option (Z * Z) :=
  let s1 := skip_space s in
  let '(neg, s2) := match s1 with
                    | c :: rest => if c =? 45 then (true, rest) else if c =? 43 then (false, rest) else (false, s1)
                    | [] => (false, [])
                    end in
  let '(v, n) := scan_digits s2 0 0 in
  let value := if (neg : bool) then - v else v in
  if n =? 0 then None
  else if (value <? INT32_MIN) || (value >? INT32_MAX) then None
  else Some (value, zlen s - zlen s2 + n).

(** ** ConfigReader *)

Abbreviation Sections := (gmap bytes (gmap bytes bytes)).

(** [_sections[section][key] = value]. *)
Definition set_value (section key value : bytes) (secs : Sections) : Sections :=
  <[section := <[key := value]> (secs !!! section)]> secs.

(** [getline] until the stream ends: a last line without newline counts. *)
Fixpoint getlines (line s : bytes) : list bytes :=
  match s with
  | [] => if bool_decide (line = []) then [] else [line]
  | c :: rest => if c =? 10 then line :: getlines [] rest else getlines (line ++ [c]) rest
  end.

Section Load.
Context (trim : bytes -> option bytes).

(** One round of the loop of [load]. *)
Definition load_line (line : bytes) (st : bytes * Sections) : option (bytes * Sections) :=
  let '(current_section, secs) := st in
  line ← trim line;
  match line with
  | [] => Some st
  | c :: _ =>
      if (c =? 35) || (c =? 59) then Some st
      else if (c =? 91) && (List.last line 0 =? 93) then
        name ← substr 1 (u64 (zlen line - 2)) line;
        section ← trim name;
        Some (section, secs)
      else
        let equal_pos := find 61 line in
        if equal_pos =? npos then Some st
        else
          k ← substr 0 equal_pos line;
          key ← trim k;
          v ← substr (equal_pos + 1) npos line;
          value ← trim v;
          if bool_decide (current_section = []) || bool_decide (key = []) then Some st
          else Some (current_section, set_value current_section key value secs)
  end.

Fixpoint load_lines (lines : list bytes) (st : bytes * Sections) : option (bytes * Sections) :=
  match lines with
  | [] => Some st
  | line :: rest => st' ← load_line line st; load_lines rest st'
  end.

(** [load]: [file] is [None] when it cannot be opened. *)
Definition load (file : option bytes) : option (bool * Sections) :=
  match file with
  | None => Some (false, ∅)
  | Some contents =>
      st ← load_lines (getlines [] contents) ([], ∅);
      Some (true, snd st)
  end.
End Load.

Definition get_string (section key default_value : bytes) (secs : Sections) : bytes :=
  match secs !! section with
  | None => default_value
  | Some m => match m !! key with None => default_value | Some v => v end
  end.

Section GetWString.
Context {api : StringApi}.

Definition get_wstring (section key : bytes) (default_value : wstring) (secs : Sections) : wstring :=
  let value := get_string section key [] secs in
  if bool_decide (value = []) then default_value else Utf8ToWString value.
End GetWString.

(** *** Server *)

Definition server_trim (value : bytes) : option bytes :=
  let start := find_first_not_of value in
  if start =? npos then Some []
  else
    let last := find_last_not_of value in
    substr start (u64 (last - start + 1)) value.

Definition server_get_int (section key : bytes) (default_value : Z) (secs : Sections) : Z :=
  let value := get_string section key [] secs in
  if bool_decide (value = []) then default_value
  else match stoi value with Some (v, _) => v | None => default_value end.

(** *** Client *)

Definition client_trim (value : bytes) : option bytes :=
  let start := find_first_not_of value in
  if start =? npos then Some []
  else
    let start :=
      if (zlen value >=? start + 3) && bool_decide (slice start 3 value = [239; 187; 191])
      then start + 3 else start in
    let last := find_last_not_of value in
    if start >? last then Some []
    else substr start (u64 (last - start + 1)) value.

(** The result, and the value left in the [int32&]. *)
Definition get_int_checked (section key : bytes) (default_value : Z) (secs : Sections) : bool * Z :=
  match secs !! section with
  | None => (true, default_value)
  | Some m =>
      match m !! key with
      | None => (true, default_value)
      | Some text =>
          match stoi text with
          | None => (false, default_value)
          | Some (parsed, last) => if negb (last =? zlen text) then (false, default_value) else (true, parsed)
          end
      end
  end.

Definition client_get_int (section key : bytes) (default_value : Z) (secs : Sections) : Z :=
  let '(ok, value) := get_int_checked section key default_value secs in
  if (ok : bool) then value else default_value.

(** ** Settings of the test client *)

Record ClientConfig := mkClientConfig {
  cc_server_ip : wstring;
  cc_port : Z;
  cc_session_count : Z;
  cc_worker_thread_count : Z;
  cc_bot_thread_count : Z;
  cc_chat_interval_ms : Z;
  cc_bot_room_count : Z;
  cc_all_chat_interval : Z;
  cc_whisper_interval : Z
}.

#[export] Instance ClientConfig_settable : Settable ClientConfig :=
  fun c => mkClientConfig (cc_server_ip c) (cc_port c) (cc_session_count c) (cc_worker_thread_count c)
    (cc_bot_thread_count c) (cc_chat_interval_ms c) (cc_bot_room_count c) (cc_all_chat_interval c)
    (cc_whisper_interval c).

Definition ClientConfig_new : ClientConfig := mkClientConfig [] 0 0 0 0 0 0 0 0.

Definition read_range (secs : Sections) (section key : bytes) (minimum maximum default_value : Z) : bool * Z :=
  let '(ok, value) := get_int_checked section key default_value secs in
  (ok && negb (value <? minimum) && negb (value >? maximum), value).

Section ClientConfig.
Context {api : StringApi}.

(** The conjunction of the source stops at the first setting that is refused, whose value
    has been stored. *)
Definition ClientConfig_load_client (secs : Sections) (c : ClientConfig) : bool * ClientConfig :=
  let read key := read_range secs (str "client") (str key) in
  let '(ok, v) := read "session_count"%string 1 100000 0 in
  let c := c <| cc_session_count := v |> in
  if negb ok then (false, c) else
  let '(ok, v) := read "worker_thread_count"%string 1 256 0 in
  let c := c <| cc_worker_thread_count := v |> in
  if negb ok then (false, c) else
  let '(ok, v) := read "bot_thread_count"%string 1 256 0 in
  let c := c <| cc_bot_thread_count := v |> in
  if negb ok then (false, c) else
  let '(ok, v) := read "chat_interval_ms"%string 1 60000 0 in
  let c := c <| cc_chat_interval_ms := v |> in
  if negb ok then (false, c) else
  let '(ok, v) := read "bot_room_count"%string 1 256 10 in
  let c := c <| cc_bot_room_count := v |> in
  if negb ok then (false, c) else
  let '(ok, v) := read "all_chat_interval"%string 1 INT32_MAX 10 in
  let c := c <| cc_all_chat_interval := v |> in
  if negb ok then (false, c) else
  let '(ok, v) := read "whisper_interval"%string 1 INT32_MAX 15 in
  (ok, c <| cc_whisper_interval := v |>).

Definition ClientConfig_load (secs : Sections) (load_test : bool) (c : ClientConfig) : bool * ClientConfig :=
  let c := c <| cc_server_ip := get_wstring (str "server") (str "ip") [] secs |> in
  if bool_decide (cc_server_ip c = []) then (false, c)
  else
    let '(ok, port_value) := read_range secs (str "server") (str "port") 1 65535 0 in
    if negb ok then (false, c)
    else
      let c := c <| cc_port := u16 port_value |> in
      if negb load_test then (true, c) else ClientConfig_load_client secs c.

(** ** Settings of the server *)

Record ServerSettings := mkServerSettings {
  ss_server_ip : wstring;
  ss_port : Z;
  ss_session_max_count : Z;
  ss_worker_thread_count : Z
}.

(** What [main] does before it starts the service: it goes on with the settings or returns
    an exit code. *)
Inductive Startup := StartWith (settings : ServerSettings) | ExitCode (code : Z).

Definition main_settings (file : option bytes) : option Startup :=
  r ← load server_trim file;
  let '(loaded, secs) := r in
  if negb loaded then Some (ExitCode 1)
  else
    let server_ip := get_wstring (str "server") (str "ip") [] secs in
    let port_value := u16 (server_get_int (str "server") (str "port") 0 secs) in
    let session_max_count := server_get_int (str "server") (str "session_max_count") 0 secs in
    let worker_thread_count := server_get_int (str "server") (str "work_thread_count") 0 secs in
    if (port_value <=? 0) || (port_value >? 65535) then Some (ExitCode 0)
    else if session_max_count <=? 0 then Some (ExitCode 0)
    else if worker_thread_count <=? 0 then Some (ExitCode 0)
    else Some (StartWith (mkServerSettings server_ip port_value session_max_count worker_thread_count)).
End ClientConfig.

(** ** Lemmas on strings *)

Lemma find_if_cases p s i :
  (Forall (fun c => p c = false) s /\ find_if p s i = npos) \/
  (exists a c b, s = a ++ c :: b /\ Forall (fun c => p c = false) a /\ p c = true /\ find_if p s i = i + zlen a).
Proof.
  revert i. induction s as [|c s IH]; intros i; cbn [find_if]; [by left|].
  destruct (p c) eqn:E.
  - right. exists [], c, s. rewrite zlen_nil. split_and!; [done|done|done|lia].
  - destruct (IH (i + 1)) as [[Hf ->]|(a & c' & b & -> & Ha & Hc & ->)]; [left; by repeat constructor|].
    right. exists (c :: a), c', b. rewrite zlen_cons. split_and!; [done|by constructor|done|lia].
Qed.

Lemma find_if_app p a c b i :
  Forall (fun c => p c = false) a -> p c = true -> find_if p (a ++ c :: b) i = i + zlen a.
Proof.
  revert i. induction a as [|x a IH]; intros i Ha Hc; cbn [app find_if].
  - rewrite Hc, zlen_nil. lia.
  - apply Forall_cons_1 in Ha as [-> Ha]. rewrite IH, zlen_cons by done. lia.
Qed.

Lemma substr_some pos count s : pos <= zlen s -> substr pos count s = Some (slice pos count s).
Proof. intros H. unfold substr. by rewrite Z_gtb_false. Qed.

Lemma find_first_bound s : find_first_not_of s = npos \/ 0 <= find_first_not_of s < zlen s.
Proof.
  unfold find_first_not_of. destruct (find_if_cases (fun c => negb (whitespace c)) s 0)
    as [[_ ->]|(a & c & b & Hs & _ & _ & ->)]; [by left|right]. rewrite Hs, zlen_app, zlen_cons.
  pose proof (zlen_nonneg a). pose proof (zlen_nonneg b). lia.
Qed.

(** *** A string without white space at its ends is left as it is *)

Definition tight (s : bytes) : Prop :=
  match s with
  | [] => True
  | c :: _ => whitespace c = false /\ whitespace (List.last s 0) = false /\ zlen s < 2 ^ 64 - 1
  end.

Lemma reverse_last (c : Z) s : exists r, reverse (c :: s) = List.last (c :: s) 0 :: r.
Proof.
  destruct (exists_last (l := c :: s)) as (l & x & ->); [done|].
  rewrite reverse_snoc, List.last_last. by eexists.
Qed.

Lemma tight_first c s : tight (c :: s) -> find_first_not_of (c :: s) = 0.
Proof. intros [H _]. unfold find_first_not_of. cbn [find_if]. by rewrite H. Qed.

Lemma tight_last c s : tight (c :: s) -> find_last_not_of (c :: s) = zlen (c :: s) - 1.
Proof.
  intros (_ & H & _). unfold find_last_not_of. destruct (reverse_last c s) as [r ->].
  cbn [find_if]. rewrite H. cbn [negb]. change (0 =? npos) with false. cbv iota. lia.
Qed.

Lemma server_trim_tight s : tight s -> server_trim s = Some s.
Proof.
  destruct s as [|c s]; [done|]. intros H. unfold server_trim. rewrite tight_first, tight_last by done.
  change (0 =? npos) with false. cbv iota. rewrite substr_some by apply zlen_nonneg.
  destruct H as (_ & _ & H). pose proof (zlen_nonneg (c :: s)).
  rewrite u64_small by lia. replace (zlen (c :: s) - 1 - 0 + 1) with (zlen (c :: s)) by lia. by rewrite slice_all.
Qed.

Definition no_bom (s : bytes) : Prop := take 3 s <> [239; 187; 191].

Lemma client_trim_tight s : tight s -> no_bom s -> client_trim s = Some s.
Proof.
  destruct s as [|c s]; [done|]. intros H Hb. unfold client_trim. rewrite tight_first, tight_last by done.
  change (0 =? npos) with false. change (slice 0 3 (c :: s)) with (take 3 (c :: s)). cbv iota.
  rewrite (bool_decide_eq_false_2 _ Hb), andb_false_r.
  destruct H as (_ & _ & H). pose proof (zlen_nonneg s). rewrite zlen_cons in *.
  rewrite Z_gtb_false by lia. rewrite substr_some by (rewrite zlen_cons; lia).
  rewrite u64_small by lia. replace (zlen s + 1 - 1 - 0 + 1) with (zlen (c :: s)) by (rewrite zlen_cons; lia).
  by rewrite slice_all.
Qed.

Lemma server_trim_total s : exists r, server_trim s = Some r.
Proof.
  unfold server_trim. destruct (find_first_bound s) as [->|H]; [by exists []|].
  destruct (_ =? npos); [by exists []|]. rewrite substr_some by lia. by eexists.
Qed.

Lemma client_trim_total s : exists r, client_trim s = Some r.
Proof.
  unfold client_trim. destruct (find_first_bound s) as [->|H]; [by exists []|].
  destruct (_ =? npos); [by exists []|].
  destruct ((zlen s >=? _) && _)%bool eqn:E; bool_lia; (destruct (_ >? _); [by exists []|]);
    rewrite substr_some by lia; by eexists.
Qed.

(** ** Loading *)

Section LoadTotal.
Context (trim : bytes -> option bytes) (trim_total : forall s, exists r, trim s = Some r).

Lemma load_line_total line st : exists st', load_line trim line st = Some st'.
Proof using trim_total.
  destruct st as [cur secs]. unfold load_line. destruct (trim_total line) as [l ->]. simpl.
  destruct l as [|c l]; [by eexists|]. destruct (_ || _)%bool; [by eexists|].
  pose proof (zlen_nonneg l).
  destruct ((c =? 91) && _)%bool.
  { rewrite substr_some by (rewrite zlen_cons; lia). simpl.
    destruct (trim_total (slice 1 (u64 (zlen (c :: l) - 2)) (c :: l))) as [r ->]. by eexists. }
  unfold find. destruct (find_if_cases (Z.eqb 61) (c :: l) 0) as [[_ ->]|(a & x & b & Hs & _ & _ & ->)]; [by eexists|].
  destruct (_ =? npos); [by eexists|].
  pose proof (zlen_nonneg a). pose proof (zlen_nonneg b).
  assert (zlen (c :: l) = zlen a + zlen b + 1) as Hlen by (rewrite Hs, zlen_app, zlen_cons; lia).
  rewrite !substr_some by lia. simpl.
  destruct (trim_total (slice 0 (0 + zlen a) (c :: l))) as [k ->]. simpl.
  destruct (trim_total (slice (0 + zlen a + 1) npos (c :: l))) as [v ->]. simpl.
  destruct (_ || _)%bool; by eexists.
Qed.

Lemma load_lines_total lines st : exists st', load_lines trim lines st = Some st'.
Proof using trim_total.
  revert st. induction lines as [|l lines IH]; intros st; simpl; [by eexists|].
  destruct (load_line_total l st) as [st' ->]. apply IH.
Qed.

Lemma load_total file : exists ok secs, load trim file = Some (ok, secs) /\ (ok = true <-> is_Some file).
Proof using trim_total.
  destruct file as [s|]; simpl; [|exists false, ∅; split; [done|]; split; [done|by intros [? ?]]].
  destruct (load_lines_total (getlines [] s) ([], ∅)) as [st ->]. simpl.
  exists true, (snd st). split; [done|]. split; [by eexists|done].
Qed.
End LoadTotal.

(** *** Writing a configuration file *)

Abbreviation config := (list (bytes * list (bytes * bytes))).

Definition entry_line (e : bytes * bytes) : bytes := fst e ++ 61 :: snd e.
Definition section_line (name : bytes) : bytes := 91 :: name ++ [93].

Definition config_lines (c : config) : list bytes :=
  concat ((fun s => section_line (fst s) :: (entry_line <$> snd s)) <$> c).

Definition print_config (c : config) : bytes := concat ((fun l => l ++ [10]) <$> config_lines c).

(** The sections such a file denotes; a later value of the same key wins. *)
Definition config_sections (c : config) : Sections :=
  foldl (fun secs s => foldl (fun secs e => set_value (fst s) (fst e) (snd e) secs) secs (snd s)) ∅ c.

(** Text that can be written: no white space at its ends, no newline. *)
Record text_ok (s : bytes) : Prop := {
  tx_tight : tight s;
  tx_bom : no_bom s;
  tx_line : 10 ∉ s;
  tx_short : zlen s < 2 ^ 32
}.

(** A key has no [=] and does not begin like a comment or a section. *)
Record entry_ok (e : bytes * bytes) : Prop := {
  en_key : text_ok (fst e);
  en_value : text_ok (snd e);
  en_equal : 61 ∉ fst e;
  en_head : match fst e with [] => False | c :: _ => c <> 35 /\ c <> 59 /\ c <> 91 end
}.

Definition config_ok (c : config) : Prop :=
  Forall (fun s => text_ok (fst s) /\ fst s <> [] /\ Forall entry_ok (snd s)) c.

Lemma getlines_line l s : 10 ∉ l -> forall cur, getlines cur (l ++ 10 :: s) = (cur ++ l) :: getlines [] s.
Proof.
  induction l as [|c l IH]; intros Hl cur; cbn [app getlines].
  - change (10 =? 10) with true. cbv iota. by rewrite app_nil_r.
  - apply not_elem_of_cons in Hl as [Hc Hl]. rewrite (proj2 (Z.eqb_neq c 10)) by congruence.
    rewrite IH by done. by rewrite <- app_assoc.
Qed.

Lemma getlines_print lines :
  Forall (fun l => 10 ∉ l) lines -> getlines [] (concat ((fun l => l ++ [10]) <$> lines)) = lines.
Proof.
  induction 1 as [|l lines Hl _ IH]; [done|]. cbn [fmap list_fmap concat].
  rewrite <- app_assoc. simpl. rewrite getlines_line by done. by rewrite IH.
Qed.

Lemma text_nil : text_ok [].
Proof. by constructor; [|intros [=]|apply not_elem_of_nil|]. Qed.

Lemma last_app_cons (a : bytes) x b : List.last (a ++ x :: b) 0 = List.last (x :: b) 0.
Proof.
  destruct (exists_last (l := x :: b)) as (r & y & Hr); [done|].
  rewrite Hr, app_assoc, !List.last_last. done.
Qed.

Lemma entry_tight e : entry_ok e -> tight (entry_line e) /\ no_bom (entry_line e).
Proof.
  destruct e as [k v]. intros [Hk Hv Heq Hh]. unfold entry_line. simpl in *.
  destruct k as [|c k]; [done|]. pose proof (tx_short _ Hk). pose proof (tx_short _ Hv). split.
  - destruct (tx_tight _ Hk) as (Hc & _ & _). cbn [app tight]. split_and!.
    + done.
    + change (c :: k ++ 61 :: v) with ((c :: k) ++ 61 :: v). rewrite last_app_cons.
      destruct v as [|x v]; [done|]. destruct (tx_tight _ Hv) as (_ & Hl & _). exact Hl.
    + rewrite zlen_cons, zlen_app, zlen_cons. rewrite zlen_cons in *. lia.
  - pose proof (tx_bom _ Hk) as Hb. intros E. apply Hb.
    destruct k as [|c1 [|c2 k]]; simpl in E; [by simplify_eq..|done].
Qed.

Lemma section_tight name : text_ok name -> tight (section_line name) /\ no_bom (section_line name).
Proof.
  intros Hn. pose proof (tx_short _ Hn). split; [|done]. cbn [section_line tight]. split_and!; [done| |].
  - pose proof (last_app_cons (91 :: name) 93 []) as E. cbn [app] in E. unfold section_line. by rewrite E.
  - unfold section_line. rewrite zlen_cons, zlen_app, zlen_cons, zlen_nil. lia.
Qed.

Section RoundTrip.
Context (trim : bytes -> option bytes) (trim_ok : forall s, tight s -> no_bom s -> trim s = Some s).

Lemma trim_text s : text_ok s -> trim s = Some s.
Proof using trim_ok. intros []. by apply trim_ok. Qed.

Lemma load_section name st :
  text_ok name -> load_line trim (section_line name) st = Some (name, snd st).
Proof using trim_ok.
  intros Hn. destruct st as [cur secs]. unfold load_line. rewrite trim_ok by by apply section_tight.
  unfold section_line. cbn [mbind option_bind]. change (91 =? 35) with false. change (91 =? 59) with false.
  change (91 =? 91) with true. cbn [orb andb].
  change (91 :: name ++ [93]) with ((91 :: name) ++ [93]). rewrite List.last_last.
  change (93 =? 93) with true. cbv iota. pose proof (zlen_nonneg name). pose proof (tx_short _ Hn).
  assert (zlen ((91 :: name) ++ [93]) = zlen name + 2) as Hl by (rewrite zlen_app, !zlen_cons, zlen_nil; lia).
  rewrite substr_some by lia. cbn [mbind option_bind]. rewrite u64_small by lia.
  replace (slice 1 (zlen ((91 :: name) ++ [93]) - 2) ((91 :: name) ++ [93])) with name; [by rewrite trim_text|].
  rewrite Hl. replace (zlen name + 2 - 2) with (zlen name) by lia. unfold slice, zlen. rewrite Nat2Z.id. simpl.
  rewrite drop_0, take_app_length. done.
Qed.

Lemma load_entry e name secs :
  entry_ok e -> name <> [] ->
  load_line trim (entry_line e) (name, secs) = Some (name, set_value name (fst e) (snd e) secs).
Proof using trim_ok.
  intros He Hname. unfold load_line. rewrite trim_ok by by apply entry_tight.
  destruct e as [k v]. destruct He as [Hk Hv Heq Hh]. unfold entry_line in *. cbn [fst snd] in *.
  destruct k as [|c k]; [done|]. destruct Hh as (H1 & H2 & H3). cbn [mbind option_bind app].
  rewrite (proj2 (Z.eqb_neq _ _) H1), (proj2 (Z.eqb_neq _ _) H2), (proj2 (Z.eqb_neq _ _) H3). cbn [orb andb].
  change (c :: k ++ 61 :: v) with ((c :: k) ++ 61 :: v). unfold find.
  rewrite find_if_app; [|apply List.Forall_forall; intros x Hx; apply Z.eqb_neq; intros <-; apply Heq; by apply list_elem_of_In|done].
  pose proof (tx_short _ Hk). pose proof (tx_short _ Hv). pose proof (zlen_nonneg (c :: k)). pose proof (zlen_nonneg v).
  rewrite Z.add_0_l. rewrite (proj2 (Z.eqb_neq (zlen (c :: k)) npos)) by (unfold npos; lia).
  assert (zlen ((c :: k) ++ 61 :: v) = zlen (c :: k) + zlen v + 1) as Hl by (rewrite zlen_app, (zlen_cons 61); lia).
  rewrite !substr_some by lia.
  replace (slice 0 (zlen (c :: k)) ((c :: k) ++ 61 :: v)) with (c :: k).
  2: { unfold slice, zlen. rewrite Nat2Z.id. change (Z.to_nat 0) with 0%nat. by rewrite drop_0, take_app_length. }
  replace (slice (zlen (c :: k) + 1) npos ((c :: k) ++ 61 :: v)) with v.
  2: { unfold slice, npos. rewrite drop_app_ge by (unfold zlen; lia).
       replace (Z.to_nat (zlen (c :: k) + 1) - length (c :: k))%nat with 1%nat by (unfold zlen; lia).
       simpl. rewrite drop_0, take_ge; [done|]. unfold zlen in *. lia. }
  cbn [mbind option_bind]. rewrite !trim_text by done. cbn [mbind option_bind].
  by rewrite !bool_decide_eq_false_2 by done.
Qed.

Lemma load_entries es : forall name secs rest,
  Forall entry_ok es -> name <> [] ->
  load_lines trim ((entry_line <$> es) ++ rest) (name, secs) =
  load_lines trim rest (name, foldl (fun secs e => set_value name (fst e) (snd e) secs) secs es).
Proof using trim_ok.
  induction es as [|e es IH]; intros name secs rest Hes Hn; [done|]. apply Forall_cons_1 in Hes as [He Hes].
  cbn [fmap list_fmap app load_lines foldl]. rewrite load_entry by done. cbn [mbind option_bind]. by apply IH.
Qed.

Lemma load_config c : forall st, config_ok c ->
  snd <$> load_lines trim (config_lines c) st =
  Some (foldl (fun secs s => foldl (fun secs e => set_value (fst s) (fst e) (snd e) secs) secs (snd s)) (snd st) c).
Proof using trim_ok.
  induction c as [|[name es] c IH]; intros st Hc; [done|]. apply Forall_cons_1 in Hc as [(Hn & Hne & Hes) Hc].
  unfold config_lines. cbn [fmap list_fmap concat app fst snd load_lines]. rewrite load_section by done.
  cbn [mbind option_bind]. rewrite load_entries by done. fold (config_lines c). rewrite IH by done. done.
Qed.

Lemma config_lines_ok c : config_ok c -> Forall (fun l => 10 ∉ l) (config_lines c).
Proof.
  unfold config_lines. induction 1 as [|[name es] c (Hn & _ & Hes) _ IH]; [constructor|].
  cbn [fmap list_fmap concat]. apply Forall_app_2; [|done]. constructor.
  - pose proof (tx_line _ Hn). unfold section_line. simpl in *. set_solver.
  - apply Forall_fmap. eapply Forall_impl; [exact Hes|]. intros [k v] [Hk Hv _ _]. simpl in *.
    pose proof (tx_line _ Hk). pose proof (tx_line _ Hv). unfold entry_line. simpl. set_solver.
Qed.

Lemma load_print c : config_ok c -> load trim (Some (print_config c)) = Some (true, config_sections c).
Proof using trim_ok.
  intros Hc. unfold load, print_config. rewrite getlines_print by by apply config_lines_ok.
  pose proof (load_config c ([], ∅) Hc) as H. destruct (load_lines _ _ _) as [st|]; [|done].
  simpl in *. injection H as ->. done.
Qed.
End RoundTrip.

(** *** Decimal numbers *)

Definition is_digit (c : Z) : Prop := 48 <= c <= 57.

Lemma to_digits_digits fuel n : 0 <= n -> Forall is_digit (to_digits fuel n).
Proof.
  revert n. induction fuel as [|fuel IH]; intros n Hn; simpl; [constructor|].
  destruct (n <? 10) eqn:E; bool_lia; [repeat constructor; unfold is_digit; lia|].
  apply Forall_app_2; [apply IH; apply Z.div_pos; lia|]. repeat constructor; unfold is_digit.
  - pose proof (Z.mod_pos_bound n 10). lia.
  - pose proof (Z.mod_pos_bound n 10). lia.
Qed.

Lemma scan_app a b v k : Forall is_digit a ->
  scan_digits (a ++ b) v k = let '(v', k') := scan_digits a v k in scan_digits b v' k'.
Proof.
  intros Ha. revert v k. induction Ha as [|c a Hc _ IH]; intros v k; [done|]. cbn [app scan_digits].
  unfold is_digit in Hc. rewrite (proj2 (Z.leb_le 48 c)), (proj2 (Z.leb_le c 57)) by lia. apply IH.
Qed.

Lemma scan_to_digits fuel n :
  (0 < fuel)%nat -> 0 <= n < 10 ^ Z.of_nat fuel ->
  scan_digits (to_digits fuel n) 0 0 = (n, zlen (to_digits fuel n)) /\ to_digits fuel n <> [].
Proof.
  revert n. induction fuel as [|fuel IH]; intros n Hf Hn; [lia|]. cbn [to_digits].
  destruct (n <? 10) eqn:E; bool_lia.
  { split; [|done]. cbn [scan_digits]. rewrite (proj2 (Z.leb_le 48 _)), (proj2 (Z.leb_le _ 57)) by lia.
    cbn [andb]. change (zlen [48 + n]) with 1. f_equal; lia. }
  split; [|by intros []%app_nil].
  destruct (decide (fuel = 0%nat)) as [->|Hf0]; [change (10 ^ Z.of_nat 1) with 10 in Hn; lia|].
  assert (0 <= n / 10 < 10 ^ Z.of_nat fuel) as Hd.
  { split; [apply Z.div_pos; lia|]. apply Z.div_lt_upper_bound; [lia|].
    replace (Z.of_nat (S fuel)) with (1 + Z.of_nat fuel) in Hn by lia. rewrite Z.pow_add_r in Hn by lia. lia. }
  destruct (IH (n / 10)) as [Hs _]; [lia|done|].
  rewrite scan_app by (apply to_digits_digits; lia). rewrite Hs. cbn [scan_digits].
  pose proof (Z.mod_pos_bound n 10 ltac:(lia)). rewrite (proj2 (Z.leb_le 48 _)), (proj2 (Z.leb_le _ 57)) by lia.
  cbn [andb]. rewrite zlen_app. change (zlen [_]) with 1. pose proof (Z_div_mod_eq_full n 10). f_equal; lia.
Qed.

Lemma to_string_cases n : 0 <= n < 2 ^ 32 ->
  exists c s, to_string n = c :: s /\ is_digit c /\ Forall is_digit s /\
    scan_digits (to_string n) 0 0 = (n, zlen (to_string n)) /\ zlen (to_string n) <= 20.
Proof.
  intros Hn. destruct (scan_to_digits 20 n) as [Hs Hne]; [lia|lia|].
  pose proof (to_digits_digits 20 n ltac:(lia)) as Hd. unfold to_string in *.
  assert (forall f m, zlen (to_digits f m) <= Z.of_nat f) as Hlen.
  { induction f as [|f IH]; intros m; [done|]. cbn [to_digits].
    destruct (m <? 10); [rewrite zlen_cons, zlen_nil; lia|].
    rewrite zlen_app, zlen_cons, zlen_nil. specialize (IH (m / 10)). lia. }
  specialize (Hlen 20%nat n). destruct (to_digits 20 n) as [|c s]; [done|].
  apply Forall_cons_1 in Hd as [? ?]. by exists c, s.
Qed.

Lemma stoi_to_string n : 0 <= n < 2 ^ 31 -> stoi (to_string n) = Some (n, zlen (to_string n)).
Proof.
  intros Hn. destruct (to_string_cases n) as (c & s & Hc & Hd & _ & Hs & _); [lia|]. unfold stoi.
  unfold is_digit in Hd.
  assert (skip_space (to_string n) = to_string n) as ->.
  { rewrite Hc. cbn [skip_space]. unfold isspace. cbn [existsb].
    rewrite !(proj2 (Z.eqb_neq c _)) by lia. done. }
  rewrite Hc at 1. rewrite (proj2 (Z.eqb_neq c 45)), (proj2 (Z.eqb_neq c 43)) by lia. rewrite Hs.
  assert (zlen (to_string n) <> 0) by (rewrite Hc, zlen_cons; pose proof (zlen_nonneg s); lia).
  rewrite (proj2 (Z.eqb_neq (zlen _) 0)) by done. unfold INT32_MIN, INT32_MAX.
  rewrite Z_ltb_false, Z_gtb_false by lia. cbn [orb]. do 2 f_equal. lia.
Qed.

Lemma digit_not_space c : is_digit c -> whitespace c = false.
Proof. unfold is_digit, whitespace. intros H. cbn [existsb]. by rewrite !(proj2 (Z.eqb_neq c _)) by lia. Qed.

Lemma to_string_ok n : 0 <= n < 2 ^ 32 -> text_ok (to_string n).
Proof.
  intros Hn. destruct (to_string_cases n) as (c & s & Hc & Hd & Hs & _ & Hl); [lia|]. rewrite Hc in *.
  assert (Forall is_digit (c :: s)) as Hall by by constructor. constructor.
  - cbn [tight]. split_and!; [by apply digit_not_space| |lia]. apply digit_not_space.
    destruct (exists_last (l := c :: s)) as (l & x & E); [done|]. rewrite E, List.last_last.
    rewrite E in Hall. apply Forall_app in Hall as [_ Hx]. by apply Forall_cons_1 in Hx as [? _].
  - intros E. unfold is_digit in Hd. destruct s as [|? [|? ?]]; simpl in E; simplify_eq; lia.
  - intros Hin. rewrite List.Forall_forall in Hall. apply list_elem_of_In in Hin. apply Hall in Hin.
    unfold is_digit in Hin. lia.
  - lia.
Qed.

(** *** Looking up what was written *)

Lemma get_string_set section key value def secs s' k' :
  get_string s' k' def (set_value section key value secs) =
  if decide (s' = section /\ k' = key) then value else get_string s' k' def secs.
Proof.
  unfold get_string, set_value. destruct (decide (s' = section)) as [->|Hs].
  - rewrite lookup_insert_eq. destruct (decide (k' = key)) as [->|Hk].
    + rewrite lookup_insert_eq. by rewrite decide_True.
    + rewrite lookup_insert_ne by congruence. rewrite decide_False by naive_solver.
      rewrite lookup_total_alt. destruct (secs !! section); simpl; [done|]. by rewrite lookup_empty.
  - rewrite lookup_insert_ne by congruence. by rewrite decide_False by naive_solver.
Qed.

(** C35: a configuration file that is written as sections of [key=value] lines is read back
    by both readers as exactly the sections it was written from, the later of two values
    of a key winning. *)
Theorem config_roundtrip c :
  config_ok c ->
  load server_trim (Some (print_config c)) = Some (true, config_sections c) /\
  load client_trim (Some (print_config c)) = Some (true, config_sections c).
Proof.
  intros Hc. split; apply load_print; try done.
  - intros s Hs _. by apply server_trim_tight.
  - apply client_trim_tight.
Qed.

(** ** Settings *)

Section Settings.
Context {api : StringApi}.

Lemma stoi_range s v n : stoi s = Some (v, n) -> -2 ^ 31 <= v < 2 ^ 31.
Proof.
  unfold stoi, INT32_MIN, INT32_MAX. destruct (match skip_space s with [] => _ | _ => _ end) as [neg s2].
  destruct (scan_digits s2 0 0) as [w k]. destruct (k =? 0); [done|].
  destruct (_ || _)%bool eqn:E; bool_lia; [done|]. intros; simplify_eq. lia.
Qed.

Lemma server_get_int_range section key secs : -2 ^ 31 <= server_get_int section key 0 secs < 2 ^ 31.
Proof.
  unfold server_get_int. case_bool_decide; [lia|].
  destruct (stoi _) as [[v n]|] eqn:E; [by apply stoi_range in E|lia].
Qed.

Definition server_file (ip : bytes) (port session_max_count work_thread_count : Z) : config :=
  [(str "server", [(str "ip", ip); (str "port", to_string port);
                   (str "session_max_count", to_string session_max_count);
                   (str "work_thread_count", to_string work_thread_count)])].

(** Literal text is checked by evaluation. *)
Definition text_okb (s : bytes) : bool :=
  match s with
  | [] => true
  | c :: _ => negb (whitespace c) && negb (whitespace (List.last s 0))
  end && negb (bool_decide (take 3 s = [239; 187; 191])) && forallb (fun c => negb (c =? 10)) s && (zlen s <? 2 ^ 32).

Lemma text_okb_sound s : text_okb s = true -> text_ok s.
Proof.
  unfold text_okb. intros H. bool_lia. apply bool_decide_eq_false in H2. constructor; [|done| |done].
  - destruct s as [|c s]; [done|]. bool_lia. repeat split; [done|done|lia].
  - rewrite forallb_forall in H1. intros Hin. apply list_elem_of_In, H1 in Hin. done.
Qed.

Definition entry_keyb (k : bytes) : bool :=
  text_okb k && forallb (fun c => negb (c =? 61)) k &&
  match k with [] => false | c :: _ => negb (c =? 35) && negb (c =? 59) && negb (c =? 91) end.

Lemma entry_okb k v : entry_keyb k = true -> text_ok v -> entry_ok (k, v).
Proof.
  unfold entry_keyb. intros H Hv. bool_lia. constructor; [by apply text_okb_sound|done| |].
  - rewrite forallb_forall in H1. intros Hin. apply list_elem_of_In, H1 in Hin. done.
  - simpl. destruct k as [|c k]; [done|]. by bool_lia.
Qed.

Lemma section_okb name es :
  text_okb name && negb (bool_decide (name = [])) = true -> Forall entry_ok es ->
  text_ok (fst (name, es)) /\ fst (name, es) <> [] /\ Forall entry_ok (snd (name, es)).
Proof. intros H Hes. bool_lia. case_bool_decide; [done|]. split_and!; [by apply text_okb_sound|done|done]. Qed.

(** A file of literal names and keys, with numbers and given texts as its values. *)
Ltac solve_config_ok :=
  repeat (apply Forall_cons_2; [apply section_okb; [reflexivity|]|]);
  repeat (apply Forall_cons_2; [apply entry_okb; [reflexivity|first [assumption|apply to_string_ok; lia]]|]);
  try apply Forall_nil_2.

Lemma server_file_ok ip p m w :
  text_ok ip -> 0 <= p < 2 ^ 31 -> 0 <= m < 2 ^ 31 -> 0 <= w < 2 ^ 31 -> config_ok (server_file ip p m w).
Proof. intros. unfold config_ok, server_file. solve_config_ok. Qed.

Lemma get_int_written section key n secs :
  get_string section key [] secs = to_string n -> 0 <= n < 2 ^ 31 -> server_get_int section key 0 secs = n.
Proof.
  intros E Hn. unfold server_get_int. rewrite E, stoi_to_string by done.
  destruct (to_string_cases n) as (c & s & -> & _); [lia|]. by rewrite bool_decide_eq_false_2.
Qed.

(** Looking up a literal key in the sections of a written file. *)
Ltac lookup_written :=
  unfold config_sections; cbn [foldl fst snd]; rewrite !get_string_set;
  repeat first [rewrite decide_True by (split; reflexivity)
               |rewrite decide_False by (intros [Es Ek]; first [discriminate Es|discriminate Ek])];
  reflexivity.

(** C36: the server starts only with checked settings: on every file [main] either goes on
    with a port from 1 to 65535, a positive session limit and a positive number of workers,
    or returns an exit code.  On a file with the settings written out it takes them as they
    are, except for the port, which is reduced modulo 65536 before it is checked. *)
Theorem server_settings_exact :
  (forall file, exists r, main_settings file = Some r /\
     match r with
     | StartWith s => 0 < ss_port s < 2 ^ 16 /\ 0 < ss_session_max_count s < 2 ^ 31 /\
                      0 < ss_worker_thread_count s < 2 ^ 31
     | ExitCode c => c = (if file then 0 else 1)
     end) /\
  (forall ip p m w, text_ok ip -> ip <> [] -> 0 <= p < 2 ^ 31 -> 0 <= m < 2 ^ 31 -> 0 <= w < 2 ^ 31 ->
     main_settings (Some (print_config (server_file ip p m w))) =
     Some (if (u16 p =? 0) || (m =? 0) || (w =? 0) then ExitCode 0
           else StartWith (mkServerSettings (Utf8ToWString ip) (u16 p) m w))).
Proof.
  split.
  - intros file. unfold main_settings.
    destruct (load_total server_trim server_trim_total file) as (ok & secs & -> & Hok). cbn [mbind option_bind].
    destruct ok; cbn [negb].
    + destruct file as [f|]; [|by destruct (proj1 Hok eq_refl)].
      pose proof (server_get_int_range (str "server") (str "session_max_count") secs).
      pose proof (server_get_int_range (str "server") (str "work_thread_count") secs).
      pose proof (u16_range (server_get_int (str "server") (str "port") 0 secs)).
      repeat (split_match; bool_lia; [by eexists|]). eexists. split; [done|]. simpl. lia.
    + destruct file as [f|]; [discriminate (proj2 Hok (ex_intro _ f eq_refl))|]. by eexists.
  - intros ip p m w Hip Hne Hp Hm Hw. unfold main_settings.
    rewrite (load_print server_trim); [|intros; by apply server_trim_tight|by apply server_file_ok].
    cbn [mbind option_bind negb]. unfold server_file.
    rewrite (get_int_written _ _ p), (get_int_written _ _ m), (get_int_written _ _ w); try lia; try lookup_written.
    unfold get_wstring.
    match goal with |- context [get_string ?a ?b ?c ?d] => replace (get_string a b c d) with ip by lookup_written end.
    rewrite bool_decide_eq_false_2 by done. pose proof (u16_range p).
    destruct (u16 p =? 0) eqn:E0; bool_lia.
    { rewrite (proj2 (Z.leb_le _ _)) by lia. done. }
    rewrite (proj2 (Z.leb_gt (u16 p) _)), Z_gtb_false by lia. cbn [orb].
    destruct (m =? 0) eqn:E1; bool_lia.
    { rewrite (proj2 (Z.leb_le _ _)) by lia. done. }
    rewrite (proj2 (Z.leb_gt m _)) by lia. cbn [orb].
    destruct (w =? 0) eqn:E2; bool_lia; [rewrite (proj2 (Z.leb_le _ _)) by lia|rewrite (proj2 (Z.leb_gt w _)) by lia]; done.
Qed.

(** *** The settings of the test client *)

Definition in_range (v minimum maximum : Z) : Prop := minimum <= v <= maximum.

(** The ranges [ClientConfig::load] accepts. *)
Definition client_limits (c : ClientConfig) : Prop :=
  in_range (cc_session_count c) 1 100000 /\ in_range (cc_worker_thread_count c) 1 256 /\
  in_range (cc_bot_thread_count c) 1 256 /\ in_range (cc_chat_interval_ms c) 1 60000 /\
  in_range (cc_bot_room_count c) 1 256 /\ in_range (cc_all_chat_interval c) 1 INT32_MAX /\
  in_range (cc_whisper_interval c) 1 INT32_MAX.

Lemma read_range_ok secs s k lo hi d v : read_range secs s k lo hi d = (true, v) -> in_range v lo hi.
Proof.
  unfold read_range, in_range. destruct (get_int_checked s k d secs) as [ok w]. intros [= E <-]. bool_lia. lia.
Qed.

Lemma read_range_written secs s k lo hi d n :
  (forall d', get_string s k d' secs = to_string n) -> 0 <= lo -> in_range n lo hi -> hi <= INT32_MAX ->
  read_range secs s k lo hi d = (true, n).
Proof.
  unfold in_range, INT32_MAX. intros E Hlo Hn Hhi. unfold read_range, get_int_checked. unfold get_string in E.
  destruct (to_string_cases n) as (c & t & Hc & _); [lia|].
  destruct (secs !! s) as [m|]; [|by rewrite <- (E []) in Hc].
  destruct (m !! k) as [v|]; [|by rewrite <- (E []) in Hc].
  rewrite (E []), stoi_to_string by lia. rewrite Z.eqb_refl. cbn [negb andb].
  by rewrite Z_ltb_false, Z_gtb_false by lia.
Qed.

Ltac read_written v :=
  rewrite (read_range_written _ _ _ _ _ _ v); [|intros; lookup_written|lia|assumption|unfold INT32_MAX; lia];
  cbn [negb].

Definition client_file (ip : bytes) (c : ClientConfig) : config :=
  [(str "server", [(str "ip", ip); (str "port", to_string (cc_port c))]);
   (str "client", [(str "session_count", to_string (cc_session_count c));
                   (str "worker_thread_count", to_string (cc_worker_thread_count c));
                   (str "bot_thread_count", to_string (cc_bot_thread_count c));
                   (str "chat_interval_ms", to_string (cc_chat_interval_ms c));
                   (str "bot_room_count", to_string (cc_bot_room_count c));
                   (str "all_chat_interval", to_string (cc_all_chat_interval c));
                   (str "whisper_interval", to_string (cc_whisper_interval c))])].

Lemma load_client_ok secs c c' : ClientConfig_load_client secs c = (true, c') -> client_limits c'.
Proof.
  unfold ClientConfig_load_client. intros H.
  repeat match type of H with
  | (let '(_, _) := ?r in _) = _ => let E := fresh "E" in destruct r as [[] ?] eqn:E; cbn [negb] in H; [|discriminate H]
  end.
  injection H as <-. unfold client_limits.
  repeat match goal with E : read_range _ _ _ _ _ _ = _ |- _ => apply read_range_ok in E end. by split_and!.
Qed.

Lemma client_file_ok ip c :
  text_ok ip -> in_range (cc_port c) 1 65535 -> client_limits c -> config_ok (client_file ip c).
Proof.
  unfold client_limits, in_range, INT32_MAX. intros. destruct_and!. unfold config_ok, client_file. solve_config_ok.
Qed.

(** C37: whatever the file holds, settings the test client accepts are within the ranges
    the program checks, the port included; and settings within these ranges that are
    written to a file are loaded back as they were. *)
Theorem client_settings_exact :
  (forall secs load_test c c', ClientConfig_load secs load_test c = (true, c') ->
     cc_server_ip c' <> [] /\ in_range (cc_port c') 1 65535 /\ (load_test = true -> client_limits c')) /\
  (forall ip c, text_ok ip -> ip <> [] -> Utf8ToWString ip = cc_server_ip c -> cc_server_ip c <> [] ->
     in_range (cc_port c) 1 65535 -> client_limits c ->
     exists secs, load client_trim (Some (print_config (client_file ip c))) = Some (true, secs) /\
       ClientConfig_load secs true ClientConfig_new = (true, c)).
Proof.
  split.
  - intros secs load_test c c'. unfold ClientConfig_load. case_bool_decide as Hip; [done|].
    destruct (read_range _ _ _ _ _ _) as [[] v] eqn:Ep; [|done]. apply read_range_ok in Ep. unfold in_range in Ep.
    cbn [negb]. intros H.
    assert (forall d, ClientConfig_load_client secs d = (true, c') ->
      cc_server_ip c' = cc_server_ip d /\ cc_port c' = cc_port d) as Hkeep.
    { intros d. unfold ClientConfig_load_client. intros E.
      repeat match type of E with (let '(_, _) := ?r in _) = _ => destruct r as [[] ?]; cbn [negb] in E; [|discriminate E] end.
      by injection E as <-. }
    destruct load_test; cbn [negb] in H.
    + destruct (Hkeep _ H) as [-> ->]. split_and!; [done| |intros _; by apply load_client_ok in H].
      unfold in_range. cbn. rewrite u16_small by lia. lia.
    + injection H as <-. split_and!; [done| |done]. unfold in_range. cbn. rewrite u16_small by lia. lia.
  - intros ip c Hip Hne Hw Hwne Hp Hl. eexists. split.
    { apply load_print; [apply client_trim_tight|by apply client_file_ok]. }
    unfold client_limits in Hl. destruct_and!. unfold client_file, ClientConfig_load, ClientConfig_load_client, get_wstring.
    match goal with |- context [get_string ?a ?b ?c ?d] => replace (get_string a b c d) with ip by lookup_written end.
    rewrite (bool_decide_eq_false_2 (ip = [])), Hw by done. rewrite bool_decide_eq_false_2 by exact Hwne.
    read_written (cc_port c). read_written (cc_session_count c). read_written (cc_worker_thread_count c).
    read_written (cc_bot_thread_count c). read_written (cc_chat_interval_ms c). read_written (cc_bot_room_count c).
    read_written (cc_all_chat_interval c). read_written (cc_whisper_interval c).
    unfold in_range in *. rewrite u16_small by lia. by destruct c.
Qed.
End Settings.

(** *** Witnesses *)

Definition demo_config : config :=
  [(str "server", [(str "ip", str "127.0.0.1"); (str "port", str "7777")]); (str "client", [(str "session_count", str "3")])].

Lemma config_roundtrip_witness :
  load server_trim (Some (print_config demo_config)) = Some (true, config_sections demo_config) /\
  load client_trim (Some (print_config demo_config)) = Some (true, config_sections demo_config).
Proof.
  apply (config_roundtrip demo_config).
  repeat (apply Forall_cons_2; [apply section_okb; [reflexivity|]|]); try apply Forall_nil_2.
  all: repeat (apply Forall_cons_2; [apply entry_okb; [reflexivity|apply text_okb_sound; reflexivity]|]).
  all: apply Forall_nil_2.
Defined.

(** A port of 65536 + 80 is accepted and becomes 80. *)
Lemma server_settings_exact_witness :
  main_settings (Some (print_config (server_file (str "127.0.0.1") 65616 100 4))) =
  Some (StartWith (mkServerSettings (Utf8ToWString (str "127.0.0.1")) 80 100 4)).
Proof.
  apply (proj2 server_settings_exact (str "127.0.0.1") 65616 100 4); [|done|lia|lia|lia].
  apply text_okb_sound. reflexivity.
Defined.

Definition demo_client_config : ClientConfig := mkClientConfig (str "127.0.0.1") 7777 1000 4 8 500 10 10 15.

Lemma client_settings_exact_witness :
  exists secs, load client_trim (Some (print_config (client_file (str "127.0.0.1") demo_client_config))) = Some (true, secs) /\
    ClientConfig_load secs true ClientConfig_new = (true, demo_client_config).
Proof.
  apply (proj2 client_settings_exact (str "127.0.0.1") demo_client_config).
  - apply text_okb_sound. reflexivity.
  - done.
  - vm_compute. reflexivity.
  - done.
  - unfold in_range. simpl. lia.
  - unfold client_limits, in_range, INT32_MAX. simpl. lia.
Defined.
