(* ===== verification/Accounts.v ===== *)
(** * Accounts and login

    [AccountInfo] (GameServer/Struct_info/AccountInfo.h) and [Login]
    (GameServer/Login/Login.{h,cpp}): the in-memory account table, the set of
    user names, the account counter and the set of accounts logged in.  Every
    operation holds the lock of the object, so it is one state transition. *)

From stdpp Require Import base list numbers option gmap.
From Stdlib Require Import ZArith Lia.
From S2P Require Import Prelude Protocol.

Record AccountInfo := mkAccountInfo {
  ai_account_id : Z;
  ai_id : bytes;
  ai_pw : bytes;
  ai_user_name : wstring
}.

Record Login := mkLogin {
  lg_memory_login_info_db : gmap bytes AccountInfo;
  lg_name_sessions_info_db : gset wstring;
  lg_account_id : Z;
  lg_login_list : gset Z
}.

#[export] Instance Login_settable : Settable Login :=
  fun r => mkLogin (lg_memory_login_info_db r) (lg_name_sessions_info_db r)
                   (lg_account_id r) (lg_login_list r).

Definition Login_new : Login := mkLogin ∅ ∅ 1 ∅.

(** [create_account] returns the result code and the [OUT] account id, which is
    left as the caller passed it ([account_id]) on the error paths. *)
Definition Login_create_account (id pw : bytes) (user_name : wstring) (account_id : Z) (lg : Login)
    : Z * Z * Login :=
  let db := lg_memory_login_info_db lg in
  let refused :=
    if negb (bool_decide (db = ∅)) then
      if bool_decide (is_Some (db !! id)) then Some LOGIN_CREATE_HAS_ACCOUNT
      else if bool_decide (user_name ∈ lg_name_sessions_info_db lg) then Some LOGIN_USER_DUPLICATION
      else None
    else None in
  match refused with
  | Some err => (err, account_id, lg)
  | None =>
      let idx := lg_account_id lg in
      (LOGIN_SUCCESS, idx,
       lg <| lg_account_id := u64 (idx + 1) |>
          <| lg_memory_login_info_db ::= fun db =>
               match db !! id with Some _ => db | None => <[id := mkAccountInfo idx id pw user_name]> db end |>
          <| lg_name_sessions_info_db ::= fun ns => {[user_name]} ∪ ns |>
          <| lg_login_list ::= fun l => {[idx]} ∪ l |>)
  end.

(** [login]: result code, [OUT] user name, [OUT] account id. *)
Definition Login_login (id pw : bytes) (user_name : wstring) (account_id : Z) (lg : Login)
    : Z * wstring * Z * Login :=
  let db := lg_memory_login_info_db lg in
  if bool_decide (db = ∅) then (LOGIN_ID_NONE, user_name, account_id, lg)
  else
    match db !! id with
    | None => (LOGIN_ID_NONE, user_name, account_id, lg)
    | Some info =>
        if negb (bool_decide (ai_pw info = pw)) then (LOGIN_PW_NONE, user_name, account_id, lg)
        else if bool_decide (ai_account_id info ∈ lg_login_list lg)
        then (LOGIN_ALREADY_LOGIN, user_name, account_id, lg)
        else (LOGIN_SUCCESS, ai_user_name info, ai_account_id info,
              lg <| lg_login_list ::= fun l => {[ai_account_id info]} ∪ l |>)
    end.

Definition Login_logout (account_id : Z) (lg : Login) : bool * Login :=
  if bool_decide (lg_login_list lg = ∅) then (false, lg)
  else if negb (bool_decide (account_id ∈ lg_login_list lg)) then (false, lg)
  else (true, lg <| lg_login_list ::= fun l => l ∖ {[account_id]} |>).

(** ** Invariant

    Account ids are the numbers 1, 2, ... in the order of creation, distinct
    accounts have distinct ids and distinct names, and only existing accounts are
    logged in.  The 64-bit counter has not wrapped. *)
Record Login_wf (lg : Login) : Prop := {
  lgw_counter : 1 <= lg_account_id lg < 2 ^ 64;
  lgw_ids : forall id info, lg_memory_login_info_db lg !! id = Some info ->
              ai_id info = id /\ 1 <= ai_account_id info < lg_account_id lg /\
              ai_user_name info ∈ lg_name_sessions_info_db lg;
  lgw_inj : forall i j x y, lg_memory_login_info_db lg !! i = Some x ->
              lg_memory_login_info_db lg !! j = Some y ->
              ai_account_id x = ai_account_id y \/ ai_user_name x = ai_user_name y -> i = j;
  lgw_logged : forall a, a ∈ lg_login_list lg ->
                 exists id info, lg_memory_login_info_db lg !! id = Some info /\ ai_account_id info = a
}.

(** The account behind an account id. *)
Definition account_of (a : Z) (lg : Login) (info : AccountInfo) : Prop :=
  lg_memory_login_info_db lg !! ai_id info = Some info /\ ai_account_id info = a.

Lemma Login_new_wf : Login_wf Login_new.
Proof.
  constructor; simpl; [lia| | |]; intros *; try (by rewrite lookup_empty). set_solver.
Qed.

Section Lemmas.
Context (lg : Login) (Hwf : Login_wf lg).

Lemma account_of_unique a x y : account_of a lg x -> account_of a lg y -> x = y.
Proof using Hwf.
  intros [Hx Ha] [Hy Hb]. assert (ai_id x = ai_id y) as Hid.
  { eapply (lgw_inj lg Hwf); [exact Hx|exact Hy|]. left. congruence. }
  rewrite Hid in Hx. congruence.
Qed.

(** Creation on every branch. *)
Lemma create_account_cases id pw name a :
  lg_account_id lg + 1 < 2 ^ 64 ->
  (is_Some (lg_memory_login_info_db lg !! id) /\
     Login_create_account id pw name a lg = (LOGIN_CREATE_HAS_ACCOUNT, a, lg)) \/
  (lg_memory_login_info_db lg !! id = None /\ lg_memory_login_info_db lg <> ∅ /\
   name ∈ lg_name_sessions_info_db lg /\
     Login_create_account id pw name a lg = (LOGIN_USER_DUPLICATION, a, lg)) \/
  (lg_memory_login_info_db lg !! id = None /\
   (name ∉ lg_name_sessions_info_db lg \/ lg_memory_login_info_db lg = ∅) /\
   Login_create_account id pw name a lg =
     (LOGIN_SUCCESS, lg_account_id lg,
      mkLogin (<[id := mkAccountInfo (lg_account_id lg) id pw name]> (lg_memory_login_info_db lg))
              ({[name]} ∪ lg_name_sessions_info_db lg) (lg_account_id lg + 1)
              ({[lg_account_id lg]} ∪ lg_login_list lg))).
Proof using Hwf.
  intros Hc. destruct Hwf as [Hcnt _ _ _]. unfold Login_create_account.
  destruct (decide (lg_memory_login_info_db lg = ∅)) as [He|He].
  - right. right. rewrite He, lookup_empty. split; [done|]. split; [by right|].
    rewrite bool_decide_eq_true_2 by done. cbn [negb]. rewrite u64_small by lia.
    destruct lg; simpl in *. by rewrite He, lookup_empty.
  - rewrite bool_decide_eq_false_2 by done. cbn [negb].
    destruct (lg_memory_login_info_db lg !! id) as [info|] eqn:Ei.
    { left. split; [by eexists|]. by rewrite bool_decide_eq_true_2 by by eexists. }
    rewrite bool_decide_eq_false_2 by (by intros [? ?]).
    destruct (decide (name ∈ lg_name_sessions_info_db lg)) as [Hn|Hn].
    { right. left. by rewrite bool_decide_eq_true_2. }
    right. right. rewrite bool_decide_eq_false_2 by done. split; [done|]. split; [by left|].
    rewrite u64_small by lia. destruct lg; simpl in *. by rewrite Ei.
Qed.

(** The name set of an empty account table is empty in a reachable state, so the
    emptiness test of [create_account] does not let a duplicate name through. *)
Definition names_have_accounts : Prop :=
  forall n, n ∈ lg_name_sessions_info_db lg ->
    exists id info, lg_memory_login_info_db lg !! id = Some info /\ ai_user_name info = n.

Lemma names_empty : names_have_accounts -> lg_memory_login_info_db lg = ∅ -> forall n, n ∉ lg_name_sessions_info_db lg.
Proof. intros Hn He n (id & info & H & _)%Hn. by rewrite He, lookup_empty in H. Qed.

Lemma login_cases id pw name a :
  (lg_memory_login_info_db lg !! id = None /\
     Login_login id pw name a lg = (LOGIN_ID_NONE, name, a, lg)) \/
  (exists info, lg_memory_login_info_db lg !! id = Some info /\
     ((ai_pw info <> pw /\ Login_login id pw name a lg = (LOGIN_PW_NONE, name, a, lg)) \/
      (ai_pw info = pw /\ ai_account_id info ∈ lg_login_list lg /\
         Login_login id pw name a lg = (LOGIN_ALREADY_LOGIN, name, a, lg)) \/
      (ai_pw info = pw /\ ai_account_id info ∉ lg_login_list lg /\
         Login_login id pw name a lg =
           (LOGIN_SUCCESS, ai_user_name info, ai_account_id info,
            lg <| lg_login_list := {[ai_account_id info]} ∪ lg_login_list lg |>)))).
Proof.
  unfold Login_login. destruct (lg_memory_login_info_db lg !! id) as [info|] eqn:Ei.
  - right. exists info. split; [done|]. rewrite bool_decide_eq_false_2.
    2: { intros He. by rewrite He, lookup_empty in Ei. }
    case_bool_decide; simpl; [|by left]. case_bool_decide; simpl.
    + right. by left.
    + right. by right.
  - left. split; [done|]. by case_bool_decide.
Qed.

(** The same, for an account that exists. *)
Lemma login_wrong id pw name a info :
  lg_memory_login_info_db lg !! id = Some info -> ai_pw info <> pw ->
  Login_login id pw name a lg = (LOGIN_PW_NONE, name, a, lg).
Proof. intros Hi Hp. destruct (login_cases id pw name a) as [[? _]|(x & ? & [[_ ?]|[[? _]|[? _]]])]; congruence. Qed.

Lemma login_listed id pw name a info :
  lg_memory_login_info_db lg !! id = Some info -> ai_pw info = pw -> ai_account_id info ∈ lg_login_list lg ->
  Login_login id pw name a lg = (LOGIN_ALREADY_LOGIN, name, a, lg).
Proof.
  intros Hi Hp Hl. destruct (login_cases id pw name a) as [[? _]|(x & Hx & [[? _]|[(_ & _ & ?)|(_ & Hn & _)]])]; congruence.
Qed.

Lemma login_free id pw name a info :
  lg_memory_login_info_db lg !! id = Some info -> ai_pw info = pw -> ai_account_id info ∉ lg_login_list lg ->
  Login_login id pw name a lg =
    (LOGIN_SUCCESS, ai_user_name info, ai_account_id info, lg <| lg_login_list := {[ai_account_id info]} ∪ lg_login_list lg |>).
Proof.
  intros Hi Hp Hl. destruct (login_cases id pw name a) as [[? _]|(x & Hx & [[? _]|[(_ & Hn & _)|(_ & _ & ->)]])]; [congruence| | |];
    rewrite Hi in Hx; injection Hx as <-; done.
Qed.
End Lemmas.

Lemma logout_spec lg a :
  Login_logout a lg =
    if bool_decide (a ∈ lg_login_list lg)
    then (true, lg <| lg_login_list := lg_login_list lg ∖ {[a]} |>) else (false, lg).
Proof.
  unfold Login_logout. case_bool_decide as He; case_bool_decide as Ha; try done.
  exfalso. rewrite He in Ha. set_solver.
Qed.

(** ** Preservation *)

Lemma create_account_wf lg id pw name a :
  Login_wf lg -> names_have_accounts lg -> lg_account_id lg + 1 < 2 ^ 64 ->
  Login_wf (snd (Login_create_account id pw name a lg)) /\
  names_have_accounts (snd (Login_create_account id pw name a lg)).
Proof.
  intros Hwf Hn Hc.
  destruct (create_account_cases lg Hwf id pw name a Hc) as [[_ ->]|[(_ & _ & _ & ->)|(Hi & Hnew & ->)]];
    simpl; [done|done|].
  assert (name ∉ lg_name_sessions_info_db lg) as Hfresh.
  { destruct Hnew as [?|He]; [done|]. by apply names_empty. }
  destruct Hwf as [Hcnt Hids Hinj Hlog]. split; [constructor; simpl|].
  - lia.
  - intros i info [[<- <-]|[_ H]]%lookup_insert_Some; simpl; [split_and!; [done|lia|lia|set_solver]|].
    apply Hids in H as (? & ? & ?). split_and!; [done|lia|lia|set_solver].
  - intros i j x y Hx Hy Hs. apply lookup_insert_Some in Hx as [[<- <-]|[Hix Hx]];
      apply lookup_insert_Some in Hy as [[<- <-]|[Hjy Hy]]; [done| | |by eapply Hinj].
    + apply Hids in Hy as (_ & ? & ?). simpl in Hs. destruct Hs as [|Hs]; [lia|]. by rewrite <- Hs in *.
    + apply Hids in Hx as (_ & ? & ?). simpl in Hs. destruct Hs as [|Hs]; [lia|]. by rewrite Hs in *.
  - intros b [->%elem_of_singleton|Hb]%elem_of_union.
    + eexists id, _. by rewrite lookup_insert_eq.
    + destruct (Hlog b Hb) as (i & info & H & ?). exists i, info. split; [|done].
      rewrite lookup_insert_ne; [done|]. intros <-. congruence.
  - unfold names_have_accounts; simpl. intros n [->%elem_of_singleton|Hb]%elem_of_union.
    + eexists id, _. by rewrite lookup_insert_eq.
    + destruct (Hn n Hb) as (i & info & H & ?). exists i, info. split; [|done]. simpl.
      rewrite lookup_insert_ne; [done|]. intros <-. congruence.
Qed.

Lemma login_wf lg id pw name a :
  Login_wf lg -> names_have_accounts lg ->
  Login_wf (snd (Login_login id pw name a lg)) /\ names_have_accounts (snd (Login_login id pw name a lg)).
Proof.
  intros Hwf Hn.
  destruct (login_cases lg id pw name a) as [[_ ->]|(info & Hi & [[_ ->]|[(_ & _ & ->)|(_ & Hl & ->)]])];
    simpl; [done|done|done|].
  destruct Hwf as [Hcnt Hids Hinj Hlog]. split; [constructor; simpl; [exact Hcnt|exact Hids|exact Hinj|]|exact Hn].
  intros b [->%elem_of_singleton|Hb]%elem_of_union; [by exists id, info|by apply Hlog].
Qed.

Lemma logout_wf lg a :
  Login_wf lg -> names_have_accounts lg ->
  Login_wf (snd (Login_logout a lg)) /\ names_have_accounts (snd (Login_logout a lg)).
Proof.
  intros Hwf Hn. rewrite logout_spec. case_bool_decide; [|done]. simpl.
  destruct Hwf as [Hcnt Hids Hinj Hlog]. split; [constructor; simpl; [exact Hcnt|exact Hids|exact Hinj|]|exact Hn].
  intros b Hb. apply Hlog. set_solver.
Qed.

(** ** Sequences of operations *)

Inductive login_op :=
| OpCreate (id pw : bytes) (name : wstring)
| OpLogin (id pw : bytes)
| OpLogout (account_id : Z).

Definition run_op (op : login_op) (lg : Login) : Login :=
  match op with
  | OpCreate id pw name => snd (Login_create_account id pw name 0 lg)
  | OpLogin id pw => snd (Login_login id pw [] 0 lg)
  | OpLogout a => snd (Login_logout a lg)
  end.

Definition run_ops (ops : list login_op) (lg : Login) : Login := foldl (fun lg op => run_op op lg) lg ops.

Lemma run_op_counter op lg :
  Login_wf lg -> lg_account_id lg + 1 < 2 ^ 64 ->
  lg_account_id lg <= lg_account_id (run_op op lg) <= lg_account_id lg + 1.
Proof.
  intros Hwf Hc. destruct op as [id pw name|id pw|a]; simpl.
  - destruct (create_account_cases lg Hwf id pw name 0 Hc) as [[_ ->]|[(_ & _ & _ & ->)|(_ & _ & ->)]];
      simpl; lia.
  - destruct (login_cases lg id pw [] 0) as [[_ ->]|(info & _ & [[_ ->]|[(_ & _ & ->)|(_ & _ & ->)]])];
      simpl; lia.
  - rewrite logout_spec. case_bool_decide; simpl; lia.
Qed.

Lemma run_op_wf op lg :
  Login_wf lg -> names_have_accounts lg -> lg_account_id lg + 1 < 2 ^ 64 ->
  Login_wf (run_op op lg) /\ names_have_accounts (run_op op lg).
Proof.
  intros Hwf Hn Hc. destruct op; simpl;
    [by apply create_account_wf|by apply login_wf|by apply logout_wf].
Qed.

Lemma run_ops_wf ops : forall lg,
  Login_wf lg -> names_have_accounts lg -> lg_account_id lg + zlen ops < 2 ^ 64 ->
  Login_wf (run_ops ops lg) /\ names_have_accounts (run_ops ops lg).
Proof.
  induction ops as [|op ops IH]; intros lg Hwf Hn Hc; [done|].
  rewrite zlen_cons in Hc. pose proof (zlen_nonneg ops). cbn [run_ops foldl].
  pose proof (run_op_counter op lg Hwf ltac:(lia)).
  destruct (run_op_wf op lg Hwf Hn ltac:(lia)). apply IH; [done|done|lia].
Qed.

(** ** Properties *)

(** The account tables stay consistent under every sequence of operations that
    does not exhaust the 64-bit counter: ids and user names of distinct accounts are
    distinct, ids are positive (so never the id 0 of a session that is not logged
    in), and only existing accounts are logged in. *)
Theorem accounts_consistent ops :
  zlen ops < 2 ^ 64 - 1 -> Login_wf (run_ops ops Login_new).
Proof.
  intros Hn. apply run_ops_wf; [apply Login_new_wf| |simpl; lia].
  unfold names_have_accounts. simpl. set_solver.
Qed.

(** C39: the life of an account, in any consistent state of the tables and while the counter does not
    run out.  A created account is logged in at once; its id cannot be created again; while it is
    logged in a second login is refused.  Its logout succeeds once and a second one fails.  After it
    the id with any other password is refused, and the id with its password logs the account in
    again, with the account id and the name it was created with and the tables as before the
    logout.  A refusal changes nothing. *)
Theorem account_life_cycle lg id pw name a lg1 :
  Login_wf lg -> lg_account_id lg + 1 < 2 ^ 64 ->
  Login_create_account id pw name 0 lg = (LOGIN_SUCCESS, a, lg1) ->
  a ∈ lg_login_list lg1 /\
  (forall pw' name', Login_create_account id pw' name' 0 lg1 = (LOGIN_CREATE_HAS_ACCOUNT, 0, lg1)) /\
  Login_login id pw [] 0 lg1 = (LOGIN_ALREADY_LOGIN, [], 0, lg1) /\
  exists lg2, Login_logout a lg1 = (true, lg2) /\ a ∉ lg_login_list lg2 /\ Login_logout a lg2 = (false, lg2) /\
    (forall pw', pw' <> pw -> Login_login id pw' [] 0 lg2 = (LOGIN_PW_NONE, [], 0, lg2)) /\
    Login_login id pw [] 0 lg2 = (LOGIN_SUCCESS, name, a, lg1).
Proof.
  intros Hwf Hc Hcr.
  destruct (create_account_cases lg Hwf id pw name 0 Hc) as [[_ H]|[(_ & _ & _ & H)|(Hi & _ & H)]];
    rewrite H in Hcr; [discriminate|discriminate|]. injection Hcr as <- <-.
  set (info := mkAccountInfo (lg_account_id lg) id pw name).
  set (lg1 := mkLogin _ _ _ _).
  assert (lg_memory_login_info_db lg1 !! id = Some info) as Hinfo by (simpl; by rewrite lookup_insert_eq).
  assert (lg_account_id lg ∈ lg_login_list lg1) as Hin by (simpl; set_solver).
  assert (lg_memory_login_info_db lg1 <> ∅) as Hne by (intros He; by rewrite He, lookup_empty in Hinfo).
  split; [done|]. split.
  { intros pw' name'. unfold Login_create_account. rewrite Hinfo, bool_decide_eq_false_2 by done. cbn [negb].
    by rewrite bool_decide_eq_true_2 by by eexists. }
  split; [by apply (login_listed lg1 id pw [] 0 info)|].
  rewrite logout_spec, bool_decide_eq_true_2 by done. eexists. split; [done|].
  set (lg2 := _ <| lg_login_list := _ |>).
  assert (lg_account_id lg ∉ lg_login_list lg2) as Hout by (simpl; set_solver).
  split; [done|]. split; [by rewrite logout_spec, bool_decide_eq_false_2|].
  split; [intros pw' Hpw; apply (login_wrong lg2 id pw' [] 0 info); [done|by apply not_eq_sym]|].
  rewrite (login_free lg2 id pw [] 0 info) by done. do 2 f_equal.
  unfold lg2, lg1. simpl. f_equal. apply set_eq. intros x. destruct (decide (x = lg_account_id lg)); set_solver.
Qed.

Lemma accounts_consistent_witness :
  Login_wf (run_ops [OpCreate [97] [112] [65]; OpLogout 1; OpCreate [98] [112] [65]; OpLogin [97] [112]] Login_new).
Proof. apply accounts_consistent. vm_compute. reflexivity. Defined.

(** A second account, created while the first is logged out, logs out and in again. *)
Lemma account_life_cycle_witness :
  let lg := run_ops [OpCreate [97] [112] [65]; OpLogout 1] Login_new in
  let lg1 := run_ops [OpCreate [98] [113] [66]] lg in
  exists lg2, Login_logout 2 lg1 = (true, lg2) /\ Login_login [98] [113] [] 0 lg2 = (LOGIN_SUCCESS, [66], 2, lg1).
Proof.
  intros lg lg1. assert (Login_wf lg) as Hwf by (apply run_ops_wf; [apply Login_new_wf|unfold names_have_accounts; simpl; set_solver|vm_compute; reflexivity]).
  destruct (account_life_cycle lg [98] [113] [66] 2 lg1 Hwf) as (_ & _ & _ & lg2 & H1 & _ & _ & _ & H2);
    [vm_compute; reflexivity|vm_compute; reflexivity|].
  exists lg2. exact (conj H1 H2).
Defined.
