(* ===== verification/Rooms.v ===== *)
(** * Rooms

    [Room] and [RoomManager] (GameServer/Room/).  A session is referred to by its
    object identity, a [nat]. *)

From stdpp Require Import base list numbers option gmap.
From Stdlib Require Import ZArith Lia.
From S2P Require Import Prelude.

Record Room := mkRoom {
  rm_room_max_count : Z;
  rm_room_cur_count : Z;
  rm_room_id : Z;
  rm_room_session_list : gmap Z nat
}.

#[export] Instance Room_settable : Settable Room :=
  fun r => mkRoom (rm_room_max_count r) (rm_room_cur_count r) (rm_room_id r) (rm_room_session_list r).

(** The constructor takes a [BYTE] room id. *)
Definition Room_new (room_id room_max_count : Z) : Room := mkRoom room_max_count 0 (u8 room_id) ∅.

(** [account_id < 0] is a test on a [uint64], so it is never true. *)
Definition Room_enter_user (account_id : Z) (session : nat) (rm : Room) : bool * Room :=
  if account_id <? 0 then (false, rm)
  else if rm_room_max_count rm <=? rm_room_cur_count rm then (false, rm)
  else if bool_decide (is_Some (rm_room_session_list rm !! account_id)) then (false, rm)
  else (true, rm <| rm_room_session_list ::= fun l => <[account_id := session]> l |>
                 <| rm_room_cur_count ::= fun c => i32 (c + 1) |>).

Definition Room_exit_user (account_id : Z) (rm : Room) : bool * Room :=
  match rm_room_session_list rm !! account_id with
  | None => (false, rm)
  | Some _ => (true, rm <| rm_room_session_list ::= fun l => delete account_id l |>
                        <| rm_room_cur_count ::= fun c => i32 (c - 1) |>)
  end.

(** ** RoomManager *)

Definition room_size : Z := 100.
Definition max_room_count : Z := 10.

Abbreviation RoomManager := (gmap Z Room).

(** [create_room]: [emplace] of the rooms 0, 1, ..., [max_room_count - 1]. *)
Definition RoomManager_create_room : RoomManager :=
  foldl (fun rl k => match rl !! Z.of_nat k with
                     | Some _ => rl
                     | None => <[Z.of_nat k := Room_new (Z.of_nat k) room_size]> rl
                     end) ∅ (seq 0 (Z.to_nat max_room_count)).

Definition RoomManager_enter_room (enter_room_id account_id : Z) (session : nat) (rl : RoomManager)
    : bool * RoomManager :=
  match rl !! enter_room_id with
  | None => (false, rl)
  | Some room =>
      let (ok, room') := Room_enter_user account_id session room in
      (ok, <[enter_room_id := room']> rl)
  end.

Definition RoomManager_exit_room (exit_room_id account_id : Z) (rl : RoomManager) : bool * RoomManager :=
  match rl !! exit_room_id with
  | None => (false, rl)
  | Some room =>
      let (ok, room') := Room_exit_user account_id room in
      (ok, <[exit_room_id := room']> rl)
  end.

(** ** Invariant: the counter is the number of entries and within the limit *)

Record Room_wf (rm : Room) : Prop := {
  rmw_count : rm_room_cur_count rm = Z.of_nat (size (rm_room_session_list rm));
  rmw_bound : rm_room_cur_count rm <= rm_room_max_count rm;
  rmw_max : 0 <= rm_room_max_count rm < 2 ^ 31
}.

Definition rooms_wf (rl : RoomManager) : Prop := map_Forall (fun _ rm => Room_wf rm) rl.

(** Who is in a room. *)
Definition room_members (rl : RoomManager) (room_id : Z) : gmap Z nat :=
  match rl !! room_id with Some rm => rm_room_session_list rm | None => ∅ end.

Lemma Room_enter_cases a s rm :
  Room_wf rm -> 0 <= a ->
  (Room_enter_user a s rm = (false, rm) /\
     (rm_room_max_count rm <= rm_room_cur_count rm \/ is_Some (rm_room_session_list rm !! a))) \/
  (rm_room_session_list rm !! a = None /\ rm_room_cur_count rm < rm_room_max_count rm /\
   exists rm', Room_enter_user a s rm = (true, rm') /\ Room_wf rm' /\
     rm_room_session_list rm' = <[a := s]> (rm_room_session_list rm) /\
     rm_room_max_count rm' = rm_room_max_count rm /\ rm_room_id rm' = rm_room_id rm).
Proof.
  intros [Hc Hb Hm] Ha. unfold Room_enter_user. rewrite Z_ltb_false by lia.
  destruct (_ <=? _) eqn:E; bool_lia; [by left; eauto|].
  case_bool_decide as Hs; [by left; eauto|]. right.
  assert (rm_room_session_list rm !! a = None) as Hn by (by apply eq_None_not_Some).
  split; [done|]. split; [done|]. eexists. split; [done|]. split; [|done].
  constructor; simpl; [|rewrite i32_small; lia|done].
  rewrite i32_small, map_size_insert_None by (done || lia). lia.
Qed.

Lemma Room_exit_cases a rm :
  Room_wf rm ->
  (Room_exit_user a rm = (false, rm) /\ rm_room_session_list rm !! a = None) \/
  (is_Some (rm_room_session_list rm !! a) /\
   exists rm', Room_exit_user a rm = (true, rm') /\ Room_wf rm' /\
     rm_room_session_list rm' = delete a (rm_room_session_list rm) /\
     rm_room_max_count rm' = rm_room_max_count rm /\ rm_room_id rm' = rm_room_id rm).
Proof.
  intros [Hc Hb Hm]. unfold Room_exit_user.
  destruct (rm_room_session_list rm !! a) as [s|] eqn:E; [|by left]. right. split; [by eexists|].
  assert (size (rm_room_session_list rm) <> 0%nat) as Hs.
  { intros H0%map_size_empty_inv. by rewrite H0, lookup_empty in E. }
  eexists. split; [done|]. split; [|done].
  constructor; simpl; [|rewrite i32_small; lia|done].
  rewrite i32_small, map_size_delete_Some by (eauto || lia). lia.
Qed.

Lemma rooms_insert rl k rm : rooms_wf rl -> Room_wf rm -> rooms_wf (<[k := rm]> rl).
Proof. intros Hr Hm. by apply map_Forall_insert_2. Qed.

Lemma members_insert rl k rm j :
  room_members (<[k := rm]> rl) j = if decide (j = k) then rm_room_session_list rm else room_members rl j.
Proof.
  unfold room_members. case_decide as E.
  - subst. by rewrite lookup_insert_eq.
  - by rewrite lookup_insert_ne.
Qed.

Lemma rooms_initial :
  rooms_wf RoomManager_create_room /\
  (forall k, is_Some (RoomManager_create_room !! k) <-> 0 <= k < max_room_count) /\
  (forall k, room_members RoomManager_create_room k = ∅).
Proof.
  assert (forall n rl,
    rl = foldl (fun rl k => match rl !! Z.of_nat k with
                     | Some _ => rl
                     | None => <[Z.of_nat k := Room_new (Z.of_nat k) room_size]> rl
                     end) ∅ (seq 0 n) ->
    rooms_wf rl /\ (forall k, is_Some (rl !! k) <-> 0 <= k < Z.of_nat n) /\ (forall k, room_members rl k = ∅))
    as Hn.
  { induction n as [|n IH]; intros rl ->.
    - split; [apply map_Forall_empty|]. split; [|done].
      intros k. simpl. rewrite lookup_empty. split; [by intros [? ?]|lia].
    - rewrite seq_S, foldl_app. simpl. destruct (IH _ eq_refl) as (Hw & Hk & Hm).
      set (rl := foldl _ _ _) in *.
      destruct (rl !! Z.of_nat n) as [rm|] eqn:E.
      { exfalso. assert (is_Some (rl !! Z.of_nat n)) as H by eauto. apply Hk in H. lia. }
      split; [|split].
      + apply rooms_insert; [done|]. constructor; simpl; [by rewrite map_size_empty|..]; unfold room_size; lia.
      + intros k. destruct (decide (k = Z.of_nat n)) as [->|Hne].
        * rewrite lookup_insert_eq. split; [lia|by eexists].
        * rewrite lookup_insert_ne, Hk by done. lia.
      + intros k. rewrite members_insert. by case_decide. }
  apply (Hn (Z.to_nat max_room_count)). done.
Qed.

(** The same rooms, with other users. *)
Definition same_rooms (rl rl' : RoomManager) : Prop :=
  forall k, rm_room_id <$> rl' !! k = rm_room_id <$> rl !! k.

Lemma same_rooms_insert (rl : RoomManager) k rm rm' :
  rl !! k = Some rm -> rm_room_id rm' = rm_room_id rm -> same_rooms rl (<[k := rm']> rl).
Proof.
  intros Hk Hid j. destruct (decide (j = k)) as [->|Hne].
  - rewrite lookup_insert_eq, Hk. simpl. by rewrite Hid.
  - by rewrite lookup_insert_ne.
Qed.

(** *** The manager on every branch *)

Lemma enter_room_cases rl k a s :
  rooms_wf rl -> 0 <= a ->
  (exists rl', RoomManager_enter_room k a s rl = (false, rl') /\ rooms_wf rl' /\
     (forall j, rl' !! j = rl !! j)) \/
  (exists rm rl', rl !! k = Some rm /\ rm_room_session_list rm !! a = None /\
     rm_room_cur_count rm < rm_room_max_count rm /\
     RoomManager_enter_room k a s rl = (true, rl') /\ rooms_wf rl' /\
     (forall j, room_members rl' j = if decide (j = k) then <[a := s]> (room_members rl k) else room_members rl j) /\
     same_rooms rl rl').
Proof.
  intros Hr Ha. unfold RoomManager_enter_room. destruct (rl !! k) as [rm|] eqn:E; [|by left; eauto].
  destruct (Room_enter_cases a s rm (Hr k rm E) Ha) as [[-> _]|(Hn & Hc & rm' & -> & Hw & Hl & _ & Hid)].
  - left. eexists. split; [done|]. by rewrite insert_id.
  - right. exists rm. eexists. split; [done|]. split; [done|]. split; [done|]. split; [done|].
    split; [by apply rooms_insert|]. split; [|by eapply same_rooms_insert].
    intros j. rewrite members_insert, Hl. unfold room_members. rewrite E. done.
Qed.

Lemma exit_room_cases rl k a :
  rooms_wf rl ->
  (exists rl', RoomManager_exit_room k a rl = (false, rl') /\ rooms_wf rl' /\
     (forall j, rl' !! j = rl !! j) /\ room_members rl k !! a = None) \/
  (exists rl', RoomManager_exit_room k a rl = (true, rl') /\ is_Some (room_members rl k !! a) /\ rooms_wf rl' /\
     (forall j, room_members rl' j = if decide (j = k) then delete a (room_members rl k) else room_members rl j) /\
     same_rooms rl rl').
Proof.
  intros Hr. unfold RoomManager_exit_room, room_members at 1 2.
  destruct (rl !! k) as [rm|] eqn:E; [|by left; eauto using lookup_empty].
  destruct (Room_exit_cases a rm (Hr k rm E)) as [[-> Hn]|(Hs & rm' & -> & Hw & Hl & _ & Hid)].
  - left. eexists. split; [done|]. by rewrite insert_id.
  - right. eexists. split; [done|]. split; [done|]. split; [by apply rooms_insert|].
    split; [|by eapply same_rooms_insert].
    intros j. rewrite members_insert, Hl. unfold room_members. rewrite E. done.
Qed.

(** ** Sequences of operations *)

Inductive room_op := OpEnter (room account : Z) (session : nat) | OpExit (room account : Z).

Definition run_room_op (op : room_op) (rl : RoomManager) : bool * RoomManager :=
  match op with
  | OpEnter k a s => RoomManager_enter_room k a s rl
  | OpExit k a => RoomManager_exit_room k a rl
  end.

Definition room_op_ok (op : room_op) : Prop :=
  match op with OpEnter _ a _ => 0 <= a < 2 ^ 64 | OpExit _ a => 0 <= a < 2 ^ 64 end.

Definition run_room_ops (ops : list room_op) (rl : RoomManager) : RoomManager :=
  foldl (fun rl op => snd (run_room_op op rl)) rl ops.

Lemma run_room_op_wf op rl : room_op_ok op -> rooms_wf rl -> rooms_wf (snd (run_room_op op rl)).
Proof.
  intros Hok Hr. destruct op as [k a s|k a]; simpl in *.
  - destruct (enter_room_cases rl k a s Hr ltac:(lia)) as [(rl' & -> & ? & _)|(? & rl' & _ & _ & _ & -> & ? & _)]; done.
  - destruct (exit_room_cases rl k a Hr) as [(rl' & -> & ? & _)|(rl' & -> & _ & ? & _)]; done.
Qed.

(** In every state reached by entering and leaving rooms, the user count of a room
    is the number of accounts in it and does not exceed its limit. *)
Theorem rooms_counted ops rl k rm :
  Forall room_op_ok ops -> rl = run_room_ops ops RoomManager_create_room -> rl !! k = Some rm ->
  rm_room_cur_count rm = Z.of_nat (size (rm_room_session_list rm)) /\
  0 <= rm_room_cur_count rm <= rm_room_max_count rm.
Proof.
  intros Hok -> Hk.
  assert (rooms_wf (run_room_ops ops RoomManager_create_room)) as Hw.
  { clear Hk. destruct rooms_initial as [Hi _]. revert Hi. generalize RoomManager_create_room.
    induction Hok as [|op ops Ho _ IH]; intros rl Hr; [done|]. apply IH. by apply run_room_op_wf. }
  destruct (Hw k rm Hk) as [Hc Hb _]. lia.
Qed.

(** Entering an existing room succeeds exactly when the account is not in it and the
    room is not full; success adds exactly that account, failure changes nothing, and
    leaving afterwards restores the room. *)
Theorem enter_room_exact rl k a s rm :
  rooms_wf rl -> 0 <= a < 2 ^ 64 -> rl !! k = Some rm ->
  exists ok rl', RoomManager_enter_room k a s rl = (ok, rl') /\
    (ok = true <-> rm_room_session_list rm !! a = None /\ rm_room_cur_count rm < rm_room_max_count rm) /\
    (ok = false -> rl' = rl) /\
    (ok = true -> room_members rl' k = <[a := s]> (room_members rl k) /\
                  RoomManager_exit_room k a rl' = (true, rl)).
Proof.
  intros Hr Ha Hk. unfold RoomManager_enter_room. rewrite Hk.
  pose proof (Hr k rm Hk) as Hw.
  destruct (Room_enter_cases a s rm Hw ltac:(lia)) as [[-> Hf]|(Hn & Hc & rm' & He & Hw' & Hl & Hmax & Hid)].
  - exists false. eexists. split; [done|]. split; [|split; [intros _; by apply insert_id|done]].
    split; [done|]. intros [Hn Hc]. destruct Hf as [?|Hs]; [lia|]. rewrite Hn in Hs. by destruct Hs.
  - rewrite He. exists true. eexists. split; [done|]. split; [done|]. split; [done|]. intros _. split.
    + rewrite members_insert, decide_True by done. unfold room_members. by rewrite Hk, Hl.
    + unfold RoomManager_exit_room, Room_exit_user. rewrite lookup_insert_eq, Hl, lookup_insert_eq.
      f_equal. rewrite insert_insert_eq. apply insert_id. rewrite Hk. f_equal.
      destruct Hw as [Hcnt Hb Hm], Hw' as [Hcnt' _ _].
      assert (rm_room_cur_count rm' = rm_room_cur_count rm + 1) as Hcc.
      { rewrite Hcnt', Hcnt, Hl, map_size_insert_None by done. lia. }
      destruct rm as [mx cur i l], rm' as [mx' cur' i' l']; simpl in *. subst.
      rewrite delete_insert_id by done. rewrite i32_small by lia. f_equal. lia.
Qed.

Lemma rooms_counted_witness :
  exists rm, run_room_ops [OpEnter 3 7 0; OpEnter 3 8 1; OpExit 3 7] RoomManager_create_room !! 3 = Some rm /\
    rm_room_cur_count rm = Z.of_nat (size (rm_room_session_list rm)) /\
    0 <= rm_room_cur_count rm <= rm_room_max_count rm.
Proof.
  eexists. split; [vm_compute; reflexivity|].
  eapply (rooms_counted [OpEnter 3 7 0; OpEnter 3 8 1; OpExit 3 7]
            (run_room_ops [OpEnter 3 7 0; OpEnter 3 8 1; OpExit 3 7] RoomManager_create_room) 3).
  - repeat constructor; simpl; lia.
  - reflexivity.
  - vm_compute. reflexivity.
Defined.

Lemma enter_room_exact_witness :
  exists ok rl', RoomManager_enter_room 3 7 0 RoomManager_create_room = (ok, rl') /\
    (ok = true -> RoomManager_exit_room 3 7 rl' = (true, RoomManager_create_room)).
Proof.
  destruct (enter_room_exact RoomManager_create_room 3 7 0%nat (Room_new 3 100)) as (ok & rl' & H & _ & _ & Ho).
  - apply rooms_initial.
  - lia.
  - vm_compute. reflexivity.
  - exists ok, rl'. split; [exact H|]. intros E. apply Ho. exact E.
Defined.
