(* ===== verification/Sessions.v ===== *)
(** * Sessions: the network side

    [Session] (ServerCore/NetWork/Session.{h,cpp}), [IocpObject]
    (ServerCore/NetWork/IocpObject.h) and the overrides of [GameSession]
    (GameServer/Main/GameSession.cpp) that concern the network.

    Every method here touches one session, the global statistics and the
    operating system, so the state is one session and an environment, threaded by
    an option monad: [None] is a failed [ASSERT_CRASH], an access out of range, or
    the reuse of an [OVERLAPPED] that is still in flight, which Windows leaves
    undefined.  A method is one step; the file Connections has the same methods with
    their actions interleaving, and ConnectionRefinement relates the two. *)

From stdpp Require Import base list numbers option.
From Stdlib Require Import ZArith Lia.
From S2P Require Import Prelude Buffers SendEvents Framing JobQueues Wire Protocol Packets.

(** ** State *)

(** A job of the logic queue: the lambda of [ServerPacketHandler::HandlePacket]
    with its parsed packet, or the one of [Session::process_disconnect]. *)
Inductive SessionJob := PacketJob (pkt : Packet) | CleanupJob.

(** The members of [Session], [IocpObject] and [GameSession].  Of an event only
    whether its owner is set matters ([_owner] keeps the session alive while the
    event is in flight); of the socket only whether it is open. *)
Record Session := mkSession {
  s_socket_open : bool;
  s_pending_io : Z;
  s_shutdown_started : bool;
  s_was_connected : bool;
  s_pending_jobs : Z;
  s_logic_stopped : bool;
  s_cleanup_done : bool;
  s_logic_queue : list SessionJob;
  s_is_connect : bool;
  s_is_disconnect : bool;
  s_close_after_send : bool;
  s_account_idx : Z;
  s_enter_room_id : Z;
  s_user_name : wstring;
  s_is_login : bool;
  s_recv_buffer : RecvBuffer;
  s_send_queue : list SendBuffer;
  s_is_send_register : bool;
  s_send_event : SendEvent;
  s_recv_owner : bool;
  s_send_owner : bool;
  s_disconnect_owner : bool;
  s_last_pong_tick : Z;
  s_last_ping_tick : Z;
  s_waiting_pong : bool
}.

#[export] Instance Session_settable : Settable Session :=
  fun s => mkSession (s_socket_open s) (s_pending_io s) (s_shutdown_started s) (s_was_connected s)
    (s_pending_jobs s) (s_logic_stopped s) (s_cleanup_done s) (s_logic_queue s) (s_is_connect s)
    (s_is_disconnect s) (s_close_after_send s) (s_account_idx s) (s_enter_room_id s) (s_user_name s)
    (s_is_login s) (s_recv_buffer s) (s_send_queue s) (s_is_send_register s) (s_send_event s)
    (s_recv_owner s) (s_send_owner s) (s_disconnect_owner s) (s_last_pong_tick s)
    (s_last_ping_tick s) (s_waiting_pong s).

Definition MAX_SEND_QUEUE_SIZE : Z := 1000.

Definition Session_new : Session :=
  mkSession true 0 false false 0 false false [] false false false 0 (-1) [] false
    (RecvBuffer_new BUFFER_SIZE) [] false SendEvent_new false false false 0 0 false.

(** [GServerStats]. *)
Record ServerStats := mkServerStats {
  st_connect : Z;
  st_login : Z;
  st_recv_chat : Z;
  st_broadcast_packet : Z;
  st_broadcast_target : Z;
  st_send_complete : Z;
  st_send_complete_bytes : Z;
  st_disconnect : Z
}.

#[export] Instance ServerStats_settable : Settable ServerStats :=
  fun s => mkServerStats (st_connect s) (st_login s) (st_recv_chat s) (st_broadcast_packet s)
    (st_broadcast_target s) (st_send_complete s) (st_send_complete_bytes s) (st_disconnect s).

Definition ServerStats_zero : ServerStats := mkServerStats 0 0 0 0 0 0 0 0.

(** An atomic [uint64] counter. *)
Definition bump (n : Z) (c : Z) : Z := u64 (c + n).

(** The results of overlapped calls, in the order in which they are made. *)
Inductive IoResult := IoDone | IoPending | IoError (code : Z).

Class Os := os_io : nat -> IoResult.

Record Env := mkEnv { e_io : nat; e_stats : ServerStats }.

#[export] Instance Env_settable : Settable Env := fun e => mkEnv (e_io e) (e_stats e).

(** ** The session monad *)

Definition SM (A : Type) := Session * Env -> option (A * (Session * Env)).

#[export] Instance SM_ret : MRet SM := fun A a w => Some (a, w).
#[export] Instance SM_bind : MBind SM :=
  fun A B f m w => match m w with Some (a, w') => f a w' | None => None end.

Definition crash {A} : SM A := fun _ => None.
Definition get : SM Session := fun w => Some (fst w, w).
Definition modify (f : Session -> Session) : SM () := fun w => Some ((), (f (fst w), snd w)).
Definition stat (f : ServerStats -> ServerStats) : SM () :=
  fun w => Some ((), (fst w, snd w <| e_stats ::= f |>)).

Section Session.
Context {codec : PacketCodec} {os : Os}.

Definition overlapped_call : SM IoResult :=
  fun w => Some (os (e_io (snd w)), (fst w, snd w <| e_io ::= Datatypes.S |>)).

(** *** IocpObject *)

Definition begin_io : SM () := modify (fun s => s <| s_pending_io ::= fun n => u32 (n + 1) |>).

Definition finish_io : SM () :=
  s ← get;
  if s_pending_io s >? 0 then modify (fun s => s <| s_pending_io ::= fun n => u32 (n - 1) |>)
  else crash.

(** *** Logic queue *)

Definition Session_queue_logic (job : SessionJob) (cleanup : bool) (s : Session) : Session :=
  if s_logic_stopped s && negb cleanup then s
  else s <| s_pending_jobs ::= fun n => u32 (n + 1) |>
         <| s_logic_queue ::= LockQueue_push job |>.

Definition Session_post_logic (job : SessionJob) (s : Session) : Session := Session_queue_logic job false s.

(** The end of a job: [ASSERT_CRASH(_pending_jobs > 0)] and the decrement. *)
Definition Session_job_done : SM () :=
  s ← get;
  if s_pending_jobs s >? 0 then modify (fun s => s <| s_pending_jobs ::= fun n => u32 (n - 1) |>)
  else crash.

(** *** Disconnecting *)

Definition Session_process_disconnect : SM () :=
  s ← get;
  if s_is_disconnect s then mret ()
  else
    modify (fun s => s <| s_is_disconnect := true |>
                       <| s_is_connect := false |>
                       <| s_is_send_register := false |>);;
    modify (Session_queue_logic CleanupJob true).

Definition Session_register_disconnect : SM bool :=
  s ← get;
  if s_shutdown_started s then mret false
  else if s_disconnect_owner s then crash
  else
    modify (fun s => s <| s_disconnect_owner := true |>);;
    begin_io;;
    r ← overlapped_call;
    match r with
    | IoError _ => modify (fun s => s <| s_disconnect_owner := false |>);; finish_io;; mret false
    | _ => mret true
    end.

Definition Session_disconnect : SM () :=
  s ← get;
  if negb (s_is_connect s) then mret ()
  else
    modify (fun s => s <| s_is_connect := false |>);;
    ok ← Session_register_disconnect;
    if (ok : bool) then mret () else Session_process_disconnect.

Definition Session_begin_shutdown : SM () :=
  s ← get;
  if s_shutdown_started s then mret ()
  else
    modify (fun s => s <| s_shutdown_started := true |>
                       <| s_logic_stopped := true |>
                       <| s_is_connect := false |>
                       <| s_socket_open := false |>);;
    Session_process_disconnect.

(** The condition [wait_for_shutdown] waits for, and what it does then. *)
Definition Session_shutdown_complete (s : Session) : bool :=
  (s_pending_io s =? 0) && (s_cleanup_done s && (s_pending_jobs s =? 0)).

Definition Session_wait_for_shutdown : SM () :=
  modify (fun s => s <| s_send_queue := [] |> <| s_send_event ::= SendEvent_clear |>).

(** *** Sending *)

(** A partial send continues with its own buffers; otherwise the queue is moved
    into the event. *)
Definition Session_fill_send_event (s : Session) : Session :=
  if negb (SendEvent_has_pending_data (s_send_event s))
  then s <| s_send_event := foldl (fun ev b => SendEvent_push b ev) (s_send_event s) (s_send_queue s) |>
         <| s_send_queue := [] |>
  else s.

(** Nothing is in flight any more: the event is emptied and unregistered. *)
Definition Session_reset_send (s : Session) : Session :=
  s <| s_send_owner := false |> <| s_send_event ::= SendEvent_clear |> <| s_is_send_register := false |>.

(** The part of [register_send] from [build_wsabufs] on. *)
Definition Session_submit_send : SM () :=
  s ← get;
  match SendEvent_build_wsabufs (s_send_event s) with
  | [] =>
      modify Session_reset_send;;
      if s_close_after_send s then Session_disconnect else mret ()
  | _ =>
      begin_io;;
      r ← overlapped_call;
      match r with
      | IoError _ => modify Session_reset_send;; finish_io;; Session_disconnect
      | _ => mret ()
      end
  end.

Definition Session_register_send : SM () :=
  s ← get;
  if s_shutdown_started s then mret ()
  else if negb (s_is_connect s) then mret ()
  else if s_send_owner s then crash
  else
    modify (fun s => s <| s_send_owner := true |>);;
    modify Session_fill_send_event;;
    Session_submit_send.

Definition Session_send (sendBuffer : SendBuffer) : SM () :=
  s ← get;
  if negb (s_is_connect s) then mret ()
  else if zlen (s_send_queue s) >=? MAX_SEND_QUEUE_SIZE then Session_disconnect
  else
    modify (fun s => s <| s_send_queue ::= fun q => q ++ [sendBuffer] |>
                       <| s_is_send_register := true |>);;
    if s_is_send_register s then mret () else Session_register_send.

(** [MakeSendBuffer] followed by [send], the macro [SEND_PACKET]. *)
Definition SEND_PACKET (pkt : Packet) : SM () :=
  match MakeSendBuffer pkt with
  | None => crash
  | Some sendBuffer => Session_send sendBuffer
  end.

Definition GameSession_make_server_full_notice (max_session_count : Z) : option SendBuffer :=
  MakeSendBuffer (P_ACK_SERVER_FULL (ACK_SERVER_FULL_default <| ACK_SERVER_FULL_max_session_count := u32 max_session_count |>)).

(** [MakeSendBuffer] never returns a null buffer, so the null check of the source
    is not reached; [None] is its write out of range. *)
Definition Session_reject_connection (max_session_count : Z) : SM () :=
  s ← get;
  if s_is_connect s then mret ()
  else
    modify (fun s => s <| s_is_connect := true |>
                       <| s_was_connected := true |>
                       <| s_close_after_send := true |>);;
    stat (fun st => st <| st_connect ::= bump 1 |>);;
    match GameSession_make_server_full_notice max_session_count with
    | None => crash
    | Some notice => Session_send notice
    end.

Definition GameSession_on_send (len : Z) : SM () :=
  stat (fun st => st <| st_send_complete ::= bump 1 |> <| st_send_complete_bytes ::= bump len |>).

Definition Session_process_send (numOfBytes : Z) : SM () :=
  modify (fun s => s <| s_send_owner := false |>);;
  s ← get;
  if negb (s_is_connect s) then modify (fun s => s <| s_send_event ::= SendEvent_clear |>)
  else
    match SendEvent_consume_sent_bytes numOfBytes (s_send_event s) with
    | None => crash
    | Some (false, _) =>
        modify (fun s => s <| s_send_event ::= SendEvent_clear |> <| s_is_send_register := false |>);;
        Session_disconnect
    | Some (true, ev) =>
        modify (fun s => s <| s_send_event := ev |>);;
        GameSession_on_send numOfBytes;;
        if SendEvent_has_pending_data ev then Session_register_send
        else
          modify (fun s => s <| s_send_event ::= SendEvent_clear |>);;
          if s_close_after_send s then
            modify (fun s => s <| s_is_send_register := false |>);; Session_disconnect
          else
            match s_send_queue s with
            | [] => modify (fun s => s <| s_is_send_register := false |>)
            | _ => Session_register_send
            end
    end.

(** *** Receiving *)

Definition Session_register_recv : SM () :=
  s ← get;
  if s_shutdown_started s || negb (s_is_connect s) then mret ()
  else if s_recv_owner s then crash
  else
    modify (fun s => s <| s_recv_owner := true |>);;
    begin_io;;
    r ← overlapped_call;
    match r with
    | IoError _ =>
        modify (fun s => s <| s_recv_owner := false |>);;
        finish_io;;
        Session_disconnect
    | _ => mret ()
    end.

Definition Session_process_connect : SM () :=
  modify (fun s => s <| s_was_connected := true |> <| s_is_connect := true |>);;
  stat (fun st => st <| st_connect ::= bump 1 |>);;
  Session_register_recv.

(** [ServerPacketHandler::Init]: the ids with a handler. *)
Definition registered (id : Z) : bool :=
  bool_decide (id ∈ [PKT_REQ_LOGIN; PKT_REQ_BOT_LOGIN; PKT_REQ_LOGOUT; PKT_REQ_GET_ROOM_INFO;
                     PKT_REQ_ENTER_ROOM; PKT_REQ_EXIT_ROOM; PKT_REQ_CHAT; PKT_REQ_CONNECT_PONG]).

(** [ServerPacketHandler::HandlePacket], both overloads: the lookup in
    [GPacketHandler] and the template that parses and posts the job.  The session
    and the buffer are not null. *)
Definition HandlePacket (buffer : bytes) (len : Z) (s : Session) : bool * Session :=
  if len <? sizeof_PacketHeader then (false, s)
  else
    let header := PacketHeader_read buffer in
    if hdr_id header >=? UINT16_MAX then (false, s)
    else if negb (registered (hdr_id header)) then (false, s)
    else
      match ParseFromArray (hdr_id header) (slice 4 (len - sizeof_PacketHeader) buffer) with
      | None => (false, s)
      | Some pkt => (true, Session_post_logic (PacketJob pkt) s)
      end.

(** [GameSession::on_recv_packet]: a failed packet is only logged. *)
Definition GameSession_on_recv_packet (buffer : bytes) (s : Session) : Session :=
  snd (HandlePacket buffer (zlen buffer) s).

Definition Session_process_recv (numOfBytes : Z) : SM () :=
  modify (fun s => s <| s_recv_owner := false |>);;
  s ← get;
  if negb (s_is_connect s) then mret ()
  else if numOfBytes =? 0 then Session_disconnect
  else
    match process_recv_buffer s_is_connect GameSession_on_recv_packet numOfBytes (s_recv_buffer s) s with
    | None => crash
    | Some (outcome, rb, s') =>
        modify (fun _ => s' <| s_recv_buffer := rb |>);;
        match outcome with
        | RecvDone => Session_register_recv
        | RecvOverflow | RecvBad => Session_disconnect
        end
    end.

(** *** Heartbeat *)

Definition GameSession_send_ping (now : Z) : SM () :=
  modify (fun s => s <| s_last_ping_tick := now |> <| s_waiting_pong := true |>);;
  SEND_PACKET (P_ACK_SEND_CONNECT_PING (ACK_SEND_CONNECT_PING_default <| ACK_SEND_CONNECT_PING_server_tick := now |>)).

(** *** Completions *)

(** [Session::dispatch]; a session has no accept events. *)
Definition Session_dispatch (type : EventType) (numOfBytes : Z) : SM () :=
  match type with
  | EventType_connect => Session_process_connect
  | EventType_disconnect =>
      modify (fun s => s <| s_disconnect_owner := false |>);; Session_process_disconnect
  | EventType_Recv => Session_process_recv numOfBytes
  | EventType_send => Session_process_send numOfBytes
  | EventType_Accept => mret ()
  end.

(** The part of [IocpCore::dispatch] after the completion was dequeued, for an
    event owned by a session: a failed completion counts as zero bytes. *)
Definition IocpCore_dispatch (type : EventType) (failed : bool) (numOfBytes : Z) : SM () :=
  Session_dispatch type (if failed then 0 else numOfBytes);;
  finish_io.

End Session.
