(* ===== verification/SessionSafety.v ===== *)
(** * Sessions: invariant and safety

    The invariant of a session and the proof that every method keeps it and never
    reaches a crash: the count of pending overlapped operations is the number of
    events in flight, no [OVERLAPPED] is reused, a connected session is always
    receiving (or is being turned away), the send side is either idle and empty or
    has a send in flight, and the cleanup job is queued exactly once. *)

From stdpp Require Import base list numbers option.
From Stdlib Require Import ZArith Lia.
From S2P Require Import Prelude Buffers SendEvents Framing JobQueues Wire Protocol Packets Sessions.

(** ** Weakest preconditions of the session monad *)

Definition wp {A} (m : SM A) (Q : A -> Session -> Env -> Prop) (s : Session) (e : Env) : Prop :=
  exists a s' e', m (s, e) = Some (a, (s', e')) /\ Q a s' e'.

Lemma wp_ret {A} (a : A) Q s e : Q a s e -> wp (mret a) Q s e.
Proof. intros H. by exists a, s, e. Qed.

Lemma wp_bind {A B} (m : SM A) (f : A -> SM B) Q s e :
  wp m (fun a s' e' => wp (f a) Q s' e') s e -> wp (m ≫= f) Q s e.
Proof.
  intros (a & s' & e' & Hm & b & s'' & e'' & Hf & HQ). exists b, s'', e''. split; [|done].
  unfold mbind, SM_bind. by rewrite Hm.
Qed.

Lemma wp_get Q s e : Q s s e -> wp get Q s e.
Proof. intros H. by exists s, s, e. Qed.

Lemma wp_modify f Q s e : Q () (f s) e -> wp (modify f) Q s e.
Proof. intros H. by exists (), (f s), e. Qed.

Lemma wp_stat f Q s e : (forall e', Q () s e') -> wp (stat f) Q s e.
Proof. intros H. by eexists (), s, _. Qed.

Lemma wp_call {os : Os} Q s e : (forall r e', Q r s e') -> wp overlapped_call Q s e.
Proof. intros H. by eexists _, s, _. Qed.

Lemma wp_mono {A} (m : SM A) (P Q : A -> Session -> Env -> Prop) s e :
  wp m P s e -> (forall a s' e', P a s' e' -> Q a s' e') -> wp m Q s e.
Proof. intros (a & s' & e' & Hm & HP) H. exists a, s', e'. split; [done|by apply H]. Qed.

(** ** The invariant *)

Definition b2z (b : bool) : Z := if b then 1 else 0.

Definition is_cleanup (j : SessionJob) : bool := match j with CleanupJob => true | _ => false end.

(** Cleanup jobs waiting in the queue. *)
Definition cleanups (q : list SessionJob) : Z := sumZ (fun j => b2z (is_cleanup j)) q.

Definition buffer_ok (b : SendBuffer) : Prop := SendBuffer_wf b /\ sb_write_size b < 2 ^ 16.

(** A receive buffer between two completions: the bytes kept are the beginning of a
    packet, and there is room for a whole [BUFFER_SIZE]. *)
Record recv_ready (rb : RecvBuffer) : Prop := {
  rr_wf : RecvBuffer_wf rb;
  rr_size : rb_Buffer_size rb = BUFFER_SIZE;
  rr_bytes : byte_stream (RecvBuffer_data rb);
  rr_tail : incomplete (RecvBuffer_data rb);
  rr_room : BUFFER_SIZE <= RecvBuffer_free_size rb
}.

(** What holds throughout a callback.  [d] counts the completion being dispatched,
    [r] the job being run, [k] whether that job is the cleanup. *)
Record session_core (d r k : Z) (s : Session) : Prop := {
  sc_io : s_pending_io s =
            b2z (s_recv_owner s) + b2z (s_send_owner s) + b2z (s_disconnect_owner s) + d;
  sc_jobs : s_pending_jobs s = zlen (s_logic_queue s) + r;
  sc_conn : s_is_connect s = true ->
              s_is_disconnect s = false /\ s_shutdown_started s = false /\
              s_was_connected s = true /\ s_disconnect_owner s = false;
  sc_event : SendEvent_wf (s_send_event s);
  sc_queue : Forall buffer_ok (s_send_queue s) /\ zlen (s_send_queue s) <= MAX_SEND_QUEUE_SIZE;
  sc_cleanup : cleanups (s_logic_queue s) + k + b2z (s_cleanup_done s) = b2z (s_is_disconnect s);
  sc_stop : s_logic_stopped s = s_shutdown_started s /\
            (s_shutdown_started s = true -> s_is_disconnect s = true);
  sc_buffer : s_was_connected s = false \/ s_is_connect s = true -> recv_ready (s_recv_buffer s)
}.

(** The send side of a connected session: idle and empty, or one send in flight.
    A rejected session is never idle. *)
Definition sending (s : Session) : Prop :=
  s_is_connect s = true ->
  s_is_send_register s = s_send_owner s /\
  (s_send_owner s = false ->
     s_send_queue s = [] /\ s_send_event s = SendEvent_new /\ s_close_after_send s = false).

Abbreviation only_cleanups := (Forall (fun j => is_cleanup j = true)).

(** The receive side: a receive is in flight, unless the session is rejected; a
    rejected session never receives, so it has no packets to handle. *)
Definition receiving (s : Session) : Prop :=
  (s_is_connect s = true -> s_recv_owner s = negb (s_close_after_send s)) /\
  (s_close_after_send s = true -> s_recv_owner s = false /\ only_cleanups (s_logic_queue s)).

(** A session whose connection was not accepted yet. *)
Definition untouched (s : Session) : Prop :=
  s_was_connected s = false ->
  s_is_connect s = false /\ s_is_disconnect s = s_shutdown_started s /\
  s_recv_owner s = false /\ s_send_owner s = false /\ s_disconnect_owner s = false /\
  s_send_queue s = [] /\ s_send_event s = SendEvent_new /\
  s_is_send_register s = false /\ s_close_after_send s = false /\ only_cleanups (s_logic_queue s).

(** Between callbacks; [r] and [k] as above. *)
Definition session_inv_at (r k : Z) (s : Session) : Prop :=
  session_core 0 r k s /\ sending s /\ receiving s /\ untouched s.

Abbreviation session_inv := (session_inv_at 0 0).

(** Room for one more job, and few enough callbacks that counters cannot wrap. *)
Definition roomy (d r : Z) (s : Session) : Prop :=
  0 <= d <= 1 /\ 0 <= r <= 1 /\ zlen (s_logic_queue s) < 2 ^ 31.

(** What sending and disconnecting leave alone: the identity of the session, its
    buffers and flags; the queue grows by the cleanup job at most, when the session
    becomes disconnected, and a connection is never made. *)
Record io_frame (s s' : Session) : Prop := {
  fr_account : s_account_idx s' = s_account_idx s;
  fr_room : s_enter_room_id s' = s_enter_room_id s;
  fr_name : s_user_name s' = s_user_name s;
  fr_login : s_is_login s' = s_is_login s;
  fr_cleanup : s_cleanup_done s' = s_cleanup_done s;
  fr_was : s_was_connected s' = s_was_connected s;
  fr_close : s_close_after_send s' = s_close_after_send s;
  fr_shutdown : s_shutdown_started s' = s_shutdown_started s;
  fr_recv : s_recv_buffer s' = s_recv_buffer s;
  fr_conn : s_is_connect s' = true -> s_is_connect s = true;
  fr_disc : s_is_disconnect s = true -> s_is_disconnect s' = true;
  fr_queue : s_logic_queue s' = s_logic_queue s ++
               (if s_is_disconnect s' && negb (s_is_disconnect s) then [CleanupJob] else [])
}.

Lemma io_frame_refl s : io_frame s s.
Proof. constructor; try done. destruct (s_is_disconnect s); by rewrite app_nil_r. Qed.

Lemma io_frame_trans a b c : io_frame a b -> io_frame b c -> io_frame a c.
Proof.
  intros [] []. constructor; try congruence; [auto..|].
  rewrite fr_queue1, fr_queue0, <- app_assoc. f_equal.
  destruct (s_is_disconnect a) eqn:Ea; simpl in *.
  - rewrite fr_disc0 by done. rewrite !andb_false_r. done.
  - destruct (s_is_disconnect b) eqn:Eb; simpl.
    + rewrite fr_disc1 by done. done.
    + done.
Qed.

Lemma cleanups_app p q : cleanups (p ++ q) = cleanups p + cleanups q.
Proof. apply sumZ_app. Qed.

Lemma pending_bounds d r k s : session_core d r k s -> 0 <= d <= 1 -> 0 <= s_pending_io s <= 4.
Proof.
  intros Hc Hd. rewrite (sc_io _ _ _ _ Hc).
  destruct (s_recv_owner s), (s_send_owner s), (s_disconnect_owner s); simpl; lia.
Qed.

#[export] Hint Resolve io_frame_refl : server.

(** ** Methods *)

Ltac wp_simpl :=
  repeat lazymatch goal with
  | |- wp (_ ≫= _) _ _ _ => apply wp_bind
  | |- wp get _ _ _ => apply wp_get
  | |- wp (modify _) _ _ _ => apply wp_modify
  | |- wp (stat _) _ _ _ => apply wp_stat; intros ?e
  | |- wp (mret _) _ _ _ => apply wp_ret
  | |- wp begin_io _ _ _ => unfold begin_io
  | |- wp finish_io _ _ _ => unfold finish_io
  end; cbv beta.

Section Methods.
Context {codec : PacketCodec} {os : Os}.

(** What [process_disconnect] and [disconnect] also leave alone. *)
Definition same_io (s s' : Session) : Prop :=
  s_recv_owner s' = s_recv_owner s /\ s_send_owner s' = s_send_owner s /\
  s_send_queue s' = s_send_queue s /\ s_send_event s' = s_send_event s.

Lemma same_io_refl s : same_io s s.
Proof. done. Qed.

Lemma same_io_trans a b c : same_io a b -> same_io b c -> same_io a c.
Proof. intros (? & ? & ? & ?) (? & ? & ? & ?). split_and!; congruence. Qed.

Hint Resolve same_io_refl : server.

Lemma process_disconnect_wp d r k s e :
  session_core d r k s -> roomy d r s ->
  wp Session_process_disconnect (fun _ s' _ =>
    session_core d r k s' /\ io_frame s s' /\ same_io s s' /\
    (s_is_disconnect s = false -> s_is_connect s' = false) /\ s_is_disconnect s' = true) s e.
Proof.
  intros Hc (Hd & Hr & Hq). unfold Session_process_disconnect. wp_simpl.
  destruct (s_is_disconnect s) eqn:Ed.
  { apply wp_ret. split; [done|]. split; [auto with server|]. done. }
  wp_simpl. unfold Session_queue_logic. rewrite andb_false_r. pose proof (zlen_nonneg (s_logic_queue s)).
  destruct Hc as [Hio Hj Hcn He Hsq Hcl Hst Hb]. split; [|split; [|done]].
  - constructor; simpl; try done.
    + rewrite Hj. unfold LockQueue_push. rewrite zlen_app, zlen_cons, zlen_nil, u32_small; lia.
    + unfold LockQueue_push. rewrite cleanups_app. rewrite Ed in Hcl. simpl in *. lia.
    + by destruct Hst.
    + intros [Hw|?]; [|done]. apply Hb. by left.
  - constructor; simpl; try done. by rewrite Ed.
Qed.

Lemma register_disconnect_wp d r k s e :
  session_core d r k s -> roomy d r s -> s_is_connect s = false -> s_disconnect_owner s = false ->
  wp Session_register_disconnect (fun _ s' _ =>
    session_core d r k s' /\ io_frame s s' /\ same_io s s' /\
    s_is_connect s' = false /\ s_logic_queue s' = s_logic_queue s) s e.
Proof.
  intros Hc (Hd & Hr & Hq) Hn Ho. unfold Session_register_disconnect. wp_simpl.
  destruct (s_shutdown_started s); [apply wp_ret; auto 6 with server|]. rewrite Ho.
  wp_simpl. apply wp_call. intros res e'.
  pose proof (pending_bounds d r k s Hc Hd) as Hp.
  destruct Hc as [Hio Hj Hcn He Hsq Hcl Hst Hb].
  assert (u32 (s_pending_io s + 1) = s_pending_io s + 1) as Hu by (apply u32_small; lia).
  destruct res as [| |code].
  1, 2: apply wp_ret; (split; [|split; [|done]]); constructor; simpl; try done;
    first [ rewrite Hu, Hio, Ho; simpl; lia | by rewrite Hn | by rewrite andb_negb_r, app_nil_r ].
  wp_simpl. simpl. rewrite Hu, Z_gtb_true by lia. wp_simpl. simpl.
  rewrite (u32_small (_ - 1)) by lia.
  split; [|split; [|done]].
  - constructor; simpl; try done; [|by rewrite Hn]. rewrite Hio, Ho. simpl. lia.
  - constructor; simpl; try done. by rewrite andb_negb_r, app_nil_r.
Qed.

(** What closing a connection needs: nothing about the receive buffer. *)
Definition closable (d r k : Z) (s : Session) : Prop :=
  session_core d r k (s <| s_is_connect := false |>) /\
  (s_is_connect s = true -> s_disconnect_owner s = false).

Lemma core_closable d r k s : session_core d r k s -> closable d r k s.
Proof.
  intros Hc. split; [|apply Hc]. destruct Hc as [Hio Hj Hcn He Hsq Hcl Hst Hb].
  constructor; simpl; try done. intros [?|?]; [auto|done].
Qed.

Lemma close_connection_wp d r k s e :
  closable d r k s -> roomy d r s ->
  wp Session_disconnect (fun _ s' _ =>
    session_core d r k s' /\ io_frame s s' /\ same_io s s' /\ s_is_connect s' = false) s e.
Proof.
  intros [Hc1 Ho] Hr. unfold Session_disconnect. wp_simpl.
  set (s1 := s <| s_is_connect := false |>) in *.
  destruct (s_is_connect s) eqn:En; cbn [negb].
  2: { assert (s1 = s) as Hs by (unfold s1; destruct s; simpl in *; congruence).
       rewrite Hs in Hc1. apply wp_ret; auto 6 with server. }
  wp_simpl. fold s1.
  assert (io_frame s s1) as Hf1.
  { constructor; simpl; try done. by rewrite andb_negb_r, app_nil_r. }
  eapply wp_mono; [apply (register_disconnect_wp d r k); auto|].
  intros ok s2 e2 (Hc2 & Hf2 & Hs2 & Hn2 & Hq2). destruct ok.
  - apply wp_ret. split; [done|]. split; [by eapply io_frame_trans|]. done.
  - eapply wp_mono; [apply (process_disconnect_wp d r k); [done|]|].
    { destruct Hr as (? & ? & ?). split_and!; try done; [lia..|]. by rewrite Hq2. }
    intros _ s3 e3 (Hc3 & Hf3 & Hs3 & Hn3 & Hd3). split; [done|].
    split; [by eapply io_frame_trans, io_frame_trans|]. split.
    + by eapply same_io_trans, same_io_trans.
    + destruct (s_is_connect s3) eqn:E3; [|done]. by rewrite (fr_conn s2 s3 Hf3 E3) in Hn2.
Qed.

Lemma disconnect_wp d r k s e :
  session_core d r k s -> roomy d r s ->
  wp Session_disconnect (fun _ s' _ =>
    session_core d r k s' /\ io_frame s s' /\ same_io s s' /\ s_is_connect s' = false) s e.
Proof. intros. apply (close_connection_wp d r k); [by apply core_closable|done]. Qed.

(** *** Sending *)

Lemma push_all q ev :
  foldl (fun ev b => SendEvent_push b ev) ev q = ev <| se_send_Buffers := se_send_Buffers ev ++ q |>.
Proof.
  revert ev. induction q as [|b q IH]; intros ev; simpl.
  - destruct ev; simpl. by rewrite app_nil_r.
  - rewrite IH. unfold SendEvent_push; simpl. by rewrite <- app_assoc.
Qed.

Lemma SendEvent_new_wf : SendEvent_wf SendEvent_new.
Proof. constructor; simpl; [constructor|unfold zlen; simpl; lia..|done]. Qed.

Lemma SendEvent_clear_new ev : SendEvent_clear ev = SendEvent_new.
Proof. done. Qed.

Lemma drained_wf q :
  Forall buffer_ok q -> zlen q <= MAX_SEND_QUEUE_SIZE -> SendEvent_wf (mkSendEvent q 0 0).
Proof.
  intros Hq Hn. pose proof (zlen_nonneg q). constructor; simpl; [done|unfold MAX_SEND_QUEUE_SIZE in Hn; lia|lia|].
  unfold SendEvent_rest. simpl. destruct Hq as [|b q [[? ?] ?] _]; [done|]. simpl. lia.
Qed.

Lemma build_nil ev : SendEvent_build_wsabufs ev = [] -> SendEvent_rest ev = [].
Proof. unfold SendEvent_build_wsabufs. by destruct (SendEvent_rest ev). Qed.

(** The send side when [register_send] may be called: registered, nothing in
    flight, and the event holds the rest of a partial send or nothing. *)
Record ready_to_send (s : Session) : Prop := {
  rs_reg : s_is_send_register s = true;
  rs_owner : s_send_owner s = false;
  rs_event : SendEvent_has_pending_data (s_send_event s) = true \/ s_send_event s = SendEvent_new
}.

(** The bytes a session still has to send: what is left of the send in flight, then
    the queue. *)
Definition outgoing (s : Session) : bytes :=
  SendEvent_pending (s_send_event s) ++ payloads (s_send_queue s).

Definition send_post (d r k : Z) (out : bytes) (s s' : Session) : Prop :=
  session_core d r k s' /\ io_frame s s' /\ sending s' /\ s_recv_owner s' = s_recv_owner s /\
  (s_is_connect s' = true -> outgoing s' = out).

Lemma sending_disconnected s : s_is_connect s = false -> sending s.
Proof. intros H ?. congruence. Qed.

(** After a failed or finished send the connection is closed: what remains to show
    is about a session that is not connected any more. *)
Lemma close_wp d r k out s0 s e :
  session_core d r k s -> roomy d r s -> io_frame s0 s -> s_recv_owner s = s_recv_owner s0 ->
  wp Session_disconnect (fun _ s' _ => send_post d r k out s0 s') s e.
Proof.
  intros Hc Hr Hf Ho. eapply wp_mono; [by apply (disconnect_wp d r k)|].
  intros _ s' e' (Hc' & Hf' & (Hro & _) & Hn). split; [done|].
  split; [by eapply io_frame_trans|]. split; [by apply sending_disconnected|]. split; congruence.
Qed.

(** An event taken out of flight, or put in flight with a bumped counter. *)
Lemma core_update d r k s s' :
  session_core d r k s ->
  s_pending_io s' = b2z (s_recv_owner s') + b2z (s_send_owner s') + b2z (s_disconnect_owner s') + d ->
  s_disconnect_owner s' = s_disconnect_owner s ->
  s_pending_jobs s' = s_pending_jobs s -> s_logic_queue s' = s_logic_queue s ->
  s_is_connect s' = s_is_connect s -> s_is_disconnect s' = s_is_disconnect s ->
  s_shutdown_started s' = s_shutdown_started s -> s_logic_stopped s' = s_logic_stopped s ->
  s_was_connected s' = s_was_connected s -> s_cleanup_done s' = s_cleanup_done s ->
  s_recv_buffer s' = s_recv_buffer s ->
  SendEvent_wf (s_send_event s') ->
  Forall buffer_ok (s_send_queue s') /\ zlen (s_send_queue s') <= MAX_SEND_QUEUE_SIZE ->
  session_core d r k s'.
Proof.
  intros [Hio Hj Hcn He Hsq Hcl Hst Hb] Hio' Ho Hj' Hq Hc Hd Hsh Hl Hw Hcd Hrb He' Hsq'.
  constructor; rewrite ?Hj', ?Hq, ?Hc, ?Hd, ?Hsh, ?Hl, ?Hw, ?Hcd, ?Hrb, ?Ho; try done.
  by rewrite <- Ho.
Qed.

Lemma frame_update s s' :
  s_account_idx s' = s_account_idx s -> s_enter_room_id s' = s_enter_room_id s ->
  s_user_name s' = s_user_name s -> s_is_login s' = s_is_login s ->
  s_cleanup_done s' = s_cleanup_done s -> s_was_connected s' = s_was_connected s ->
  s_close_after_send s' = s_close_after_send s -> s_shutdown_started s' = s_shutdown_started s ->
  s_recv_buffer s' = s_recv_buffer s -> s_is_connect s' = s_is_connect s ->
  s_is_disconnect s' = s_is_disconnect s -> s_logic_queue s' = s_logic_queue s -> io_frame s s'.
Proof.
  intros. constructor; try congruence. replace (s_is_disconnect s') with (s_is_disconnect s).
  by rewrite andb_negb_r, app_nil_r.
Qed.

(** What is in the event after it was filled. *)
Lemma fill_send_event_spec d r k s :
  session_core d r k s -> ready_to_send s ->
  exists ev q, Session_fill_send_event s = s <| s_send_event := ev |> <| s_send_queue := q |> /\
    SendEvent_wf ev /\ Forall buffer_ok q /\ zlen q <= MAX_SEND_QUEUE_SIZE /\
    (SendEvent_rest ev = [] -> q = []) /\ SendEvent_pending ev ++ payloads q = outgoing s.
Proof.
  intros Hc [_ _ Hev]. pose proof (sc_queue d r k s Hc) as [Hq1 Hq2].
  unfold Session_fill_send_event. destruct Hev as [Hp|Hn].
  - rewrite Hp. exists (s_send_event s), (s_send_queue s). split; [by destruct s|].
    split; [apply (sc_event _ _ _ _ Hc)|]. split; [done|]. split; [done|]. split; [|done].
    intros Hr. exfalso. apply (f_equal length) in Hr. unfold SendEvent_rest in Hr.
    rewrite length_drop in Hr. unfold SendEvent_has_pending_data in Hp. bool_lia.
    destruct (sc_event _ _ _ _ Hc) as [_ _ ? _]. unfold zlen in *. simpl in Hr. lia.
  - rewrite Hn. cbn [negb SendEvent_has_pending_data]. change (SendEvent_has_pending_data SendEvent_new) with false.
    cbn [negb]. rewrite push_all. exists (mkSendEvent (s_send_queue s) 0 0), []. split; [done|].
    split; [by apply drained_wf|]. split; [constructor|].
    split; [unfold MAX_SEND_QUEUE_SIZE; rewrite zlen_nil; lia|]. split; [done|].
    unfold outgoing. rewrite Hn. simpl. apply app_nil_r.
Qed.

Lemma register_send_wp d r k s e :
  session_core d r k s -> roomy d r s -> ready_to_send s ->
  wp Session_register_send (fun _ s' _ => send_post d r k (outgoing s) s s') s e.
Proof.
  intros Hc Hr Hrdy. pose proof Hrdy as [Hreg Hown _]. pose proof Hr as (Hd & _ & _).
  unfold Session_register_send. wp_simpl.
  destruct (s_is_connect s) eqn:En.
  2: { assert (send_post d r k (outgoing s) s s) by (split_and!; auto using sending_disconnected with server).
       destruct (s_shutdown_started s); cbn [negb]; by apply wp_ret. }
  destruct (sc_conn d r k s Hc En) as (_ & -> & _ & _). cbn [negb]. rewrite Hown. wp_simpl.
  pose proof (pending_bounds d r k s Hc Hd) as Hp. pose proof (sc_io d r k s Hc) as Hio. rewrite Hown in Hio.
  destruct (fill_send_event_spec d r k s Hc Hrdy) as (ev & q & Hfill & Hew & Hq1 & Hq2 & Hq3 & Hout).
  replace (Session_fill_send_event (s <| s_send_owner := true |>))
    with (s <| s_send_owner := true |> <| s_send_event := ev |> <| s_send_queue := q |>).
  2: { unfold Session_fill_send_event in *. simpl. destruct (negb _); destruct s; simpl in *; congruence. }
  unfold Session_submit_send. wp_simpl. simpl.
  destruct (SendEvent_build_wsabufs ev) as [|wb wbs] eqn:Eb.
  - apply build_nil in Eb. specialize (Hq3 Eb). subst q. wp_simpl.
    set (s1 := Session_reset_send _).
    assert (session_core d r k s1) as Hc1.
    { apply (core_update d r k s); try done; simpl; auto using SendEvent_new_wf. }
    assert (io_frame s s1) as Hf1 by by apply frame_update.
    destruct (s_close_after_send s) eqn:Ec.
    + by apply (close_wp d r k).
    + apply wp_ret. split; [done|]. split; [done|]. split; [done|]. split; [done|]. intros _.
      rewrite <- Hout. unfold SendEvent_pending. rewrite Eb. by destruct (Z.to_nat _).
  - wp_simpl. apply wp_call. intros res e'. simpl.
    assert (u32 (s_pending_io s + 1) = s_pending_io s + 1) as Hu by (apply u32_small; lia).
    destruct res as [| |code].
    1, 2: apply wp_ret; split; [|split; [by apply frame_update|split; [|by split]]];
      [ apply (core_update d r k s); simpl; try done; rewrite Hu, Hio; simpl; lia
      | intros _; simpl; by rewrite Hreg ].
    wp_simpl. simpl. rewrite Hu, Z_gtb_true by lia. wp_simpl.
    apply (close_wp d r k); try done.
    + apply (core_update d r k s); simpl; try done; auto using SendEvent_new_wf.
      rewrite u32_small, Hio by lia. simpl. lia.
    + by apply frame_update.
Qed.

Lemma send_wp d r k s b e :
  session_core d r k s -> roomy d r s -> sending s -> buffer_ok b ->
  wp (Session_send b) (fun _ s' _ => send_post d r k (outgoing s ++ SendBuffer_payload b) s s') s e.
Proof.
  intros Hc Hr Hs Hb. unfold Session_send. wp_simpl.
  destruct (s_is_connect s) eqn:En; cbn [negb].
  2: { apply wp_ret. split_and!; auto with server. congruence. }
  pose proof (sc_queue d r k s Hc) as [Hq1 Hq2].
  rewrite Z.geb_leb. destruct (_ <=? zlen _) eqn:Ef; bool_lia.
  { apply (close_wp d r k); auto with server. }
  wp_simpl. set (s1 := s <| s_send_queue ::= _ |> <| s_is_send_register := true |>).
  assert (session_core d r k s1) as Hc1.
  { apply (core_update d r k s); simpl; try done; [apply (sc_io _ _ _ _ Hc)|apply (sc_event _ _ _ _ Hc)|].
    split; [by apply Forall_app_2; [|apply Forall_singleton]|].
    rewrite zlen_app, zlen_cons, zlen_nil. lia. }
  assert (io_frame s s1) as Hf1 by by apply frame_update.
  assert (outgoing s1 = outgoing s ++ SendBuffer_payload b) as Hout.
  { unfold outgoing. simpl. rewrite payloads_app, payloads_cons, <- app_assoc. by rewrite app_nil_r. }
  destruct (Hs En) as [Hreg Hidle]. destruct (s_is_send_register s) eqn:Er.
  - apply wp_ret. split; [done|]. split; [done|]. split; [|done]. intros _. simpl. by rewrite <- Hreg.
  - symmetry in Hreg. destruct (Hidle Hreg) as (Hq & He & Hcl).
    eapply wp_mono; [apply (register_send_wp d r k s1); [done|done|]|].
    + constructor; simpl; [done|done|]. by right.
    + intros _ s' e' (? & ? & ? & ? & ?). split; [done|]. split; [by eapply io_frame_trans|].
      rewrite <- Hout. done.
Qed.

Lemma send_post_trans d r k out a b c :
  io_frame a b -> s_recv_owner b = s_recv_owner a -> send_post d r k out b c -> send_post d r k out a c.
Proof.
  intros Hf Ho (? & ? & ? & ? & ?). split; [done|]. split; [by eapply io_frame_trans|].
  split; [done|]. split; [congruence|done].
Qed.

(** The send event when its completion is dispatched: its owner is dropped, and the
    completion itself is what is still counted. *)
Lemma send_taken r k s :
  session_core 0 r k s -> s_send_owner s = true ->
  session_core 1 r k (s <| s_send_owner := false |>).
Proof.
  intros [Hio Hj Hcn He Hsq Hcl Hst Hb] Ho. constructor; simpl; try done. rewrite Hio, Ho. simpl. lia.
Qed.

Lemma has_pending_false ev :
  SendEvent_wf ev -> SendEvent_has_pending_data ev = false -> SendEvent_pending ev = [].
Proof.
  intros [_ _ Hi Ho] Hp. unfold SendEvent_has_pending_data in Hp. bool_lia.
  unfold SendEvent_pending. assert (SendEvent_rest ev = []) as ->; [|by destruct (Z.to_nat _)].
  unfold SendEvent_rest. apply drop_ge. unfold zlen in *. lia.
Qed.

Lemma consume_total ev n :
  SendEvent_wf ev -> n < 2 ^ 31 ->
  exists ok ev', SendEvent_consume_sent_bytes n ev = Some (ok, ev') /\ SendEvent_wf ev' /\
    (ok = true -> (Z.to_nat n <= length (SendEvent_pending ev))%nat /\
                  SendEvent_pending ev' = drop (Z.to_nat n) (SendEvent_pending ev)).
Proof.
  intros Hwf Hn. destruct (decide (0 < n <= zlen (SendEvent_pending ev))) as [H|H].
  - destruct (consume_accepts ev Hwf n H) as (ev' & ? & ? & _ & ?). unfold zlen in H.
    exists true, ev'. split_and!; [done|done|]. intros _. split; [lia|done].
  - exists false, ev. split_and!; [|done|done]. apply consume_rejects; [done|lia].
Qed.

Ltac solve_core H :=
  eapply (core_update _ _ _ _ _ H); simpl;
  first [done | apply SendEvent_new_wf | exact (sc_io _ _ _ _ H) | exact (sc_event _ _ _ _ H) | exact (sc_queue _ _ _ _ H)].

Lemma process_send_wp r k s n e :
  session_core 0 r k s -> roomy 1 r s -> s_send_owner s = true -> sending s -> n < 2 ^ 31 ->
  wp (Session_process_send n) (fun _ s' _ => send_post 1 r k (drop (Z.to_nat n) (outgoing s)) s s') s e.
Proof.
  intros Hc Hr Ho Hs Hn. pose proof (send_taken r k s Hc Ho) as Hc1.
  unfold Session_process_send. wp_simpl. set (s1 := s <| s_send_owner := false |>) in *.
  assert (io_frame s s1) as Hf1 by by apply frame_update.
  change (s_is_connect s1) with (s_is_connect s). destruct (s_is_connect s) eqn:En; cbn [negb].
  2: { wp_simpl. split; [|split; [by apply frame_update|split; [by apply sending_disconnected|split; [done|intros E; simpl in E; congruence]]]].
       by solve_core Hc1. }
  destruct (Hs En) as [Hreg _]. rewrite Ho in Hreg.
  destruct (consume_total (s_send_event s1) n) as (ok & ev & Hev & Hwf & Hpend); [apply Hc1|done|].
  rewrite Hev. destruct ok.
  2: { wp_simpl. apply (close_wp 1 r k); try done.
       - by solve_core Hc1.
       - by apply frame_update. }
  unfold GameSession_on_send. wp_simpl. set (s2 := s1 <| s_send_event := ev |>).
  assert (session_core 1 r k s2) as Hc2.
  { by solve_core Hc1. }
  assert (io_frame s s2) as Hf2 by by apply frame_update.
  assert (outgoing s2 = drop (Z.to_nat n) (outgoing s)) as Hout.
  { destruct (Hpend eq_refl) as [Hle He]. unfold outgoing. simpl. rewrite He. by rewrite drop_app_le. }
  destruct (SendEvent_has_pending_data ev) eqn:Ep.
  { eapply wp_mono; [apply (register_send_wp 1 r k); try done|].
    - constructor; simpl; auto.
    - intros ? ? ?. rewrite <- Hout. by apply send_post_trans. }
  wp_simpl. change (SendEvent_clear (s_send_event s2)) with SendEvent_new.
  set (s3 := s2 <| s_send_event ::= SendEvent_clear |>).
  assert (session_core 1 r k s3) as Hc3.
  { by solve_core Hc1. }
  assert (io_frame s s3) as Hf3 by by apply frame_update.
  assert (outgoing s3 = drop (Z.to_nat n) (outgoing s)) as Hout3.
  { rewrite <- Hout. unfold outgoing. simpl. by rewrite (has_pending_false ev). }
  change (s_close_after_send s1) with (s_close_after_send s). destruct (s_close_after_send s) eqn:Ecl.
  { wp_simpl. apply (close_wp 1 r k); try done.
    - by solve_core Hc3.
    - by apply frame_update. }
  change (s_send_queue s1) with (s_send_queue s). destruct (s_send_queue s) eqn:Eq.
  - wp_simpl. split; [by solve_core Hc3|].
    split; [by apply frame_update|]. split; [done|]. split; [done|]. intros _. by rewrite <- Hout3.
  - eapply wp_mono; [apply (register_send_wp 1 r k); try done|].
    + constructor; simpl; auto.
    + intros ? ? ?. rewrite <- Hout3. by apply send_post_trans.
Qed.

(** *** Receiving *)

Definition recv_post (d r k : Z) (s s' : Session) : Prop :=
  session_core d r k s' /\ io_frame s s' /\ sending s' /\
  (s_is_connect s' = true -> s_recv_owner s' = true).

Lemma recv_closed_wp d r k s0 s e :
  closable d r k s -> roomy d r s -> io_frame s0 s ->
  wp Session_disconnect (fun _ s' _ => recv_post d r k s0 s' /\ s_is_connect s' = false) s e.
Proof.
  intros Hc Hr Hf. eapply wp_mono; [by apply (close_connection_wp d r k)|].
  intros _ s' e' (Hc' & Hf' & _ & Hn). split; [|done]. split; [done|]. split; [by eapply io_frame_trans|].
  split; [by apply sending_disconnected|congruence].
Qed.

Lemma register_recv_wp d r k s e :
  session_core d r k s -> roomy d r s -> sending s -> s_recv_owner s = false ->
  wp Session_register_recv (fun _ s' _ => recv_post d r k s s') s e.
Proof.
  intros Hc Hr Hs Ho. pose proof Hr as (Hd & _ & _). unfold Session_register_recv. wp_simpl.
  destruct (s_is_connect s) eqn:En.
  2: { rewrite orb_true_r. apply wp_ret. split; [done|]. split; [auto with server|]. split; [done|congruence]. }
  destruct (sc_conn d r k s Hc En) as (_ & -> & _ & _). cbn [negb orb]. rewrite Ho. wp_simpl.
  apply wp_call. intros res e'.
  pose proof (pending_bounds d r k s Hc Hd) as Hp. pose proof (sc_io d r k s Hc) as Hio. rewrite Ho in Hio.
  assert (u32 (s_pending_io s + 1) = s_pending_io s + 1) as Hu by (apply u32_small; lia).
  destruct res as [| |code].
  1, 2: apply wp_ret; (split; [|split; [by apply frame_update|split; done]]);
    apply (core_update d r k s); simpl; try done;
      [rewrite Hu, Hio; simpl; lia | apply (sc_event _ _ _ _ Hc) | apply (sc_queue _ _ _ _ Hc)].
  wp_simpl. simpl. rewrite Hu, Z_gtb_true by lia. wp_simpl.
  eapply wp_mono; [apply (recv_closed_wp d r k s); [|done|by apply frame_update]|by intros ? ? ? [? _]].
  apply core_closable, (core_update d r k s); simpl; try done;
    [rewrite u32_small, Hio by lia; simpl; lia | apply (sc_event _ _ _ _ Hc) | apply (sc_queue _ _ _ _ Hc)].
Qed.

(** The packet a complete frame is decoded to, if it has a handler and parses. *)
Definition decode (p : bytes) : option Packet :=
  let id := hdr_id (PacketHeader_read p) in
  if registered id then ParseFromArray id (slice 4 (zlen p - sizeof_PacketHeader) p) else None.

Definition decoded (ps : list bytes) : list SessionJob := PacketJob <$> omap decode ps.

Lemma registered_bound id : registered id = true -> id < UINT16_MAX.
Proof.
  unfold registered. rewrite bool_decide_eq_true, !elem_of_cons, elem_of_nil. unfold UINT16_MAX.
  intros Hid. repeat destruct Hid as [->|Hid]; done.
Qed.

Lemma on_recv_packet_decode p s :
  is_packet p ->
  GameSession_on_recv_packet p s =
    match decode p with Some pkt => Session_post_logic (PacketJob pkt) s | None => s end.
Proof.
  intros [Hl _]. unfold GameSession_on_recv_packet, HandlePacket, decode.
  rewrite Z_ltb_false by done. rewrite Z.geb_leb. destruct (registered _) eqn:Er.
  - rewrite (proj2 (Z.leb_gt _ _)) by by apply registered_bound. simpl. by destruct (ParseFromArray _ _).
  - by destruct (_ <=? _).
Qed.

Lemma cleanups_decoded ps : cleanups (decoded ps) = 0.
Proof.
  unfold decoded, cleanups. by induction (omap decode ps).
Qed.

Lemma decoded_cons p ps :
  decoded (p :: ps) = match decode p with Some j => [PacketJob j] | None => [] end ++ decoded ps.
Proof. unfold decoded. simpl. by destruct (decode p). Qed.

Lemma decoded_len ps : zlen (decoded ps) <= zlen ps.
Proof.
  induction ps as [|p ps IH]; [done|]. rewrite decoded_cons, zlen_cons, zlen_app.
  destruct (decode p); rewrite ?zlen_cons, ?zlen_nil; lia.
Qed.

(** Delivering packets queues one job for each that decodes, in order. *)
Lemma deliver_jobs ps s :
  Forall is_packet ps -> s_logic_stopped s = false ->
  0 <= s_pending_jobs s -> s_pending_jobs s + zlen ps < 2 ^ 32 ->
  deliver GameSession_on_recv_packet ps s =
    s <| s_pending_jobs := s_pending_jobs s + zlen (decoded ps) |>
      <| s_logic_queue := s_logic_queue s ++ decoded ps |>.
Proof.
  intros Hps. revert s. induction Hps as [|p ps Hp _ IH]; intros s Hl Hj Hb.
  { destruct s; simpl. by rewrite app_nil_r, Z.add_0_r. }
  change (deliver GameSession_on_recv_packet (p :: ps) s)
    with (deliver GameSession_on_recv_packet ps (GameSession_on_recv_packet p s)).
  rewrite on_recv_packet_decode, decoded_cons by done.
  rewrite zlen_cons in Hb. pose proof (zlen_nonneg ps). destruct (decode p) as [pkt|].
  - unfold Session_post_logic, Session_queue_logic. rewrite Hl. cbn [andb].
    rewrite IH; simpl; rewrite ?u32_small by lia; try done; [|lia..].
    unfold LockQueue_push. rewrite <- app_assoc, zlen_cons.
    replace (s_pending_jobs s + 1 + zlen (decoded ps)) with (s_pending_jobs s + (zlen (decoded ps) + 1)) by lia.
    done.
  - rewrite IH by (done || lia). done.
Qed.

Lemma packets_bounded ps : Forall is_packet ps -> zlen ps <= zlen (concat ps).
Proof.
  induction 1 as [|p ps [Hp _] _ IH]; [done|]. rewrite concat_single_app, zlen_app, zlen_cons. lia.
Qed.

(** Packets only queue jobs, so a session stays connected while they are delivered. *)
Lemma on_recv_packet_connected p s :
  s_is_connect (GameSession_on_recv_packet p s) = s_is_connect s.
Proof.
  unfold GameSession_on_recv_packet, HandlePacket, Session_post_logic, Session_queue_logic.
  repeat case_match; done.
Qed.

Lemma deliver_connected ps s :
  s_is_connect s = true -> stays_connected s_is_connect GameSession_on_recv_packet ps s.
Proof.
  revert s. induction ps as [|p ps IH]; intros s Hs; [done|]. simpl. rewrite on_recv_packet_connected.
  split; [done|]. apply IH. by rewrite on_recv_packet_connected.
Qed.

(** One receive completion: the packets completed by the chunk become jobs. *)
Lemma recv_completion rb chunk s :
  recv_ready rb -> byte_stream chunk -> zlen chunk <= RecvBuffer_free_size rb ->
  s_is_connect s = true -> s_logic_stopped s = false -> 0 <= s_pending_jobs s < 2 ^ 31 ->
  exists ps tail rb',
    RecvBuffer_data rb ++ chunk = concat ps ++ tail /\ Forall is_packet ps /\ zlen ps < 2 ^ 20 /\
    (incomplete tail \/ malformed tail) /\
    process_recv_buffer s_is_connect GameSession_on_recv_packet (zlen chunk) (RecvBuffer_os_store chunk rb) s
      = Some (if decide (malformed tail) then RecvBad else RecvDone, rb',
              s <| s_pending_jobs := s_pending_jobs s + zlen (decoded ps) |>
                <| s_logic_queue := s_logic_queue s ++ decoded ps |>) /\
    (~ malformed tail -> recv_ready rb' /\ RecvBuffer_data rb' = tail).
Proof.
  intros Hrr Hb Hfit Hcn Hl Hj. destruct Hrr as [Hwf Hsz Hbs Htail Hroom].
  assert (byte_stream (RecvBuffer_data rb ++ chunk)) as Hall by by apply Forall_app_2.
  destruct (stream_divides (length (RecvBuffer_data rb ++ chunk)) (RecvBuffer_data rb ++ chunk))
    as (ps & tail & Hd & Hps & Ht); [done..|].
  destruct (process_recv_buffer_spec s_is_connect GameSession_on_recv_packet rb Hwf Hsz chunk ps tail s)
    as (rb' & Heq & Hrb'); [done..|by rewrite <- Hd|done|done|by apply deliver_connected|done|].
  assert (zlen ps < 2 ^ 20) as Hlen.
  { pose proof (packets_bounded ps Hps) as Hp. pose proof (f_equal zlen Hd) as He.
    rewrite !zlen_app, (data_len rb Hwf) in He. rewrite (free_size_eq rb Hwf) in Hfit.
    pose proof (zlen_nonneg tail). destruct Hwf. rewrite Hsz in *. unfold BUFFER_SIZE in *. lia. }
  exists ps, tail, rb'. split; [done|]. split; [done|]. split; [done|]. split; [done|]. split.
  - rewrite Heq, deliver_jobs by (done || lia). unfold malformed. by repeat case_decide.
  - intros Hm. destruct (Hrb' Hm) as (Hwf' & Hsz' & Hdata & Hroom'). split; [|done].
    constructor; try done; rewrite Hdata.
    + rewrite Hd in Hall. by apply Forall_app in Hall as [_ ?].
    + destruct Ht; [done|]. by destruct Hm.
Qed.

(** The session after the packets [ps] of a completion were queued. *)
Definition received (ps : list bytes) (rb : RecvBuffer) (s : Session) : Session :=
  s <| s_recv_buffer := rb |> <| s_logic_queue := s_logic_queue s ++ decoded ps |>.

(** What a receive completion of [n] bytes does: nothing on a session that is not
    connected any more; otherwise the packets completed by the chunk are queued and
    the rest is kept.  A completion of zero bytes or a malformed header closes the
    connection. *)
Definition recv_result (chunk : bytes) (n : Z) (s s' : Session) : Prop :=
  exists ps rb, io_frame (received ps rb s) s' /\
    (s_is_connect s = false -> ps = []) /\
    (s_is_connect s = true ->
       exists tail, RecvBuffer_data (s_recv_buffer s) ++ chunk = concat ps ++ tail /\ Forall is_packet ps /\
         (if n =? 0 then ps = [] /\ s_is_connect s' = false
          else (incomplete tail \/ malformed tail) /\ (malformed tail -> s_is_connect s' = false) /\
               (incomplete tail -> RecvBuffer_data rb = tail))).

Definition completion_post (r k : Z) (chunk : bytes) (n : Z) (s s' : Session) : Prop :=
  session_core 1 r k s' /\ sending s' /\ (s_is_connect s' = true -> s_recv_owner s' = true) /\
  recv_result chunk n s s'.

Lemma received_nil s : received [] (s_recv_buffer s) s = s.
Proof. destruct s. unfold received. simpl. by rewrite app_nil_r. Qed.

Lemma recv_taken r k s rb :
  session_core 0 r k s -> s_recv_owner s = true -> (s_is_connect s = true -> recv_ready rb) ->
  s_was_connected s = true ->
  session_core 1 r k (s <| s_recv_owner := false |> <| s_recv_buffer := rb |>).
Proof.
  intros [Hio Hj Hcn He Hsq Hcl Hst Hb] Ho Hrb Hw. constructor; simpl; try done.
  - rewrite Hio, Ho. simpl. lia.
  - intros [?|?]; [congruence|auto].
Qed.

Lemma os_store_ready rb chunk :
  recv_ready rb -> zlen chunk <= RecvBuffer_free_size rb -> recv_ready (RecvBuffer_os_store chunk rb).
Proof.
  intros [Hwf Hsz Hbs Htail Hroom] Hfit.
  pose proof (os_store_data rb Hwf chunk) as Hd.
  pose proof (os_store_len rb Hwf chunk Hfit) as Hl.
  constructor; rewrite ?Hd; try done. destruct Hwf. by constructor.
Qed.

Lemma queue_decoded r k s ps rb :
  session_core 1 r k s -> (s_is_connect s = true -> recv_ready rb) -> s_was_connected s = true ->
  session_core 1 r k (s <| s_pending_jobs := s_pending_jobs s + zlen (decoded ps) |>
                        <| s_logic_queue := s_logic_queue s ++ decoded ps |>
                        <| s_recv_buffer := rb |>).
Proof.
  intros [Hio Hj Hcn He Hsq Hcl Hst Hb] Hrb Hw. constructor; simpl; try done.
  - rewrite zlen_app. lia.
  - rewrite cleanups_app, cleanups_decoded. lia.
  - intros [?|?]; [congruence|auto].
Qed.

Lemma process_recv_wp r k s chunk n e :
  session_core 0 r k s -> 0 <= r <= 1 -> zlen (s_logic_queue s) < 2 ^ 30 ->
  s_recv_owner s = true -> s_was_connected s = true -> sending s ->
  byte_stream chunk -> (s_is_connect s = true -> zlen chunk <= RecvBuffer_free_size (s_recv_buffer s)) ->
  n = zlen chunk \/ n = 0 ->
  wp (Session_process_recv n) (fun _ s' _ => completion_post r k chunk n s s')
     (s <| s_recv_buffer ::= RecvBuffer_os_store chunk |>) e.
Proof.
  intros Hc Hr Hq Ho Hw Hs Hb Hfit Hn. set (rb := s_recv_buffer s) in *.
  unfold Session_process_recv. wp_simpl.
  set (s1 := s <| s_recv_buffer ::= RecvBuffer_os_store chunk |> <| s_recv_owner := false |>).
  change (upd s_recv_owner _ _) with s1.
  assert (s_is_connect s = true -> recv_ready rb) as Hrr.
  { intros En. apply (sc_buffer _ _ _ _ Hc). by right. }
  assert (session_core 1 r k s1) as Hc1.
  { apply (recv_taken r k s); [done..| |done]. intros En. apply os_store_ready; auto. }
  assert (io_frame (received [] (RecvBuffer_os_store chunk rb) s) s1) as Hf1.
  { apply frame_update; try done. simpl. by rewrite app_nil_r. }
  change (s_is_connect s1) with (s_is_connect s). destruct (s_is_connect s) eqn:En; cbn [negb].
  2: { apply wp_ret. split; [exact Hc1|]. split; [by apply sending_disconnected|].
       split; [intros E; simpl in E; congruence|]. eexists [], _. split; [done|]. split; [done|congruence]. }
  specialize (Hrr eq_refl). specialize (Hfit eq_refl).
  destruct (n =? 0) eqn:E0; bool_lia.
  { eapply wp_mono; [apply (recv_closed_wp 1 r k s1); [by apply core_closable|split_and!; simpl; lia|auto with server]|].
    intros _ s' e' ((Hc' & Hf' & Hs' & Ho') & Hn'). split; [done|]. split; [done|]. split; [done|].
    eexists [], _. split; [by eapply io_frame_trans|]. split; [congruence|]. intros _.
    eexists. split; [done|]. split; [constructor|]. by rewrite (proj2 (Z.eqb_eq n 0)). }
  destruct Hn as [->|?]; [|done].
  destruct (recv_completion rb chunk s1) as (ps & tail & rb' & Hd & Hps & Hlen & Ht & Heq & Hrb'); try done.
  1: { simpl. destruct (sc_stop _ _ _ _ Hc) as [-> _]. apply (sc_conn _ _ _ _ Hc En). }
  1: { simpl. rewrite (sc_jobs _ _ _ _ Hc). pose proof (zlen_nonneg (s_logic_queue s)). lia. }
  change (s_recv_buffer s1) with (RecvBuffer_os_store chunk rb). rewrite Heq. wp_simpl.
  set (s2 := _ <| s_recv_buffer := rb' |>).
  assert (io_frame (received ps rb' s) s2) as Hf2 by by apply frame_update.
  assert (roomy 1 r s2) as Hr2.
  { pose proof (decoded_len ps). split_and!; simpl; rewrite ?zlen_app; lia. }
  case_decide as Hm.
  - eapply wp_mono; [apply (recv_closed_wp 1 r k s2); [|done|auto with server]|].
    + split; [|intros; apply (sc_conn _ _ _ _ Hc En)].
      assert (session_core 1 r k (s1 <| s_is_connect := false |>)) as Hc3 by by apply core_closable.
      pose proof (queue_decoded r k _ ps rb' Hc3) as Hqd. by apply Hqd.
    + intros _ s' e' ((Hc' & Hf' & Hs' & Ho') & Hn'). split; [done|]. split; [done|]. split; [done|].
      exists ps, rb'. split; [by eapply io_frame_trans|]. split; [congruence|]. intros _. exists tail.
      split; [done|]. split; [done|]. rewrite (proj2 (Z.eqb_neq (zlen chunk) 0)) by done.
      split; [done|]. split; [done|]. intros Hinc. by destruct (incomplete_not_malformed _ Hinc).
  - destruct (Hrb' Hm) as [Hrdy Hdata].
    eapply wp_mono; [apply (register_recv_wp 1 r k s2); [|done|done|done]|].
    + by apply (queue_decoded r k s1).
    + intros _ s' e' (Hc' & Hf' & Hs' & Ho'). split; [done|]. split; [done|]. split; [done|].
      exists ps, rb'. split; [by eapply io_frame_trans|]. split; [congruence|]. intros _. exists tail.
      split; [done|]. split; [done|]. rewrite (proj2 (Z.eqb_neq (zlen chunk) 0)) by done. done.
Qed.

Lemma only_cleanups_frame s s' :
  io_frame s s' -> only_cleanups (s_logic_queue s) -> only_cleanups (s_logic_queue s').
Proof.
  intros Hf Hq. rewrite (fr_queue _ _ Hf). apply Forall_app_2; [done|]. case_match; repeat constructor.
Qed.

(** A receive side that is left alone. *)
Lemma receiving_frame s s' :
  io_frame s s' -> s_recv_owner s' = s_recv_owner s -> receiving s -> receiving s'.
Proof.
  intros Hf Ho [Hv Hrej]. split; [|]; rewrite ?Ho, ?(fr_close _ _ Hf).
  - intros Hn. apply Hv. by apply (fr_conn _ _ Hf).
  - intros Hcl. destruct (Hrej Hcl) as [Hr Hq]. split; [done|]. by eapply only_cleanups_frame.
Qed.

(** A session that is not being rejected. *)
Lemma receiving_open s :
  s_close_after_send s = false -> (s_is_connect s = true -> s_recv_owner s = true) -> receiving s.
Proof. intros Hcl Ho. unfold receiving. rewrite Hcl. split; [done|congruence]. Qed.

(** *** Connecting, shutting down, completing *)

Definition fresh (s : Session) : Prop :=
  session_inv s /\ s_was_connected s = false /\ s_shutdown_started s = false.

(** A session made connected, before anything is sent or received. *)
Lemma connected_core (closing : bool) s :
  fresh s ->
  session_core 0 0 0 (s <| s_is_connect := true |> <| s_was_connected := true |> <| s_close_after_send := closing |>).
Proof.
  intros ((Hc & _ & _ & Hu) & Hw & Hsh). destruct (Hu Hw) as (_ & Hd & _ & _ & Ho & _).
  destruct Hc as [Hio Hj Hcn He Hsq Hcl Hst Hb]. constructor; simpl; try done.
  - intros _. rewrite Hd. done.
  - intros _. apply Hb. by left.
Qed.

Definition connected_by (s : Session) (closing : bool) (s' : Session) : Prop :=
  io_frame (s <| s_is_connect := true |> <| s_was_connected := true |> <| s_close_after_send := closing |>) s'.

Lemma inv_of_recv s s' :
  recv_post 0 0 0 s s' -> s_close_after_send s = false -> s_was_connected s = true -> session_inv s'.
Proof.
  intros (Hc & Hf & Hs & Ho) Hcl Hw. split; [done|]. split; [done|]. split.
  - apply receiving_open; [|done]. by rewrite (fr_close _ _ Hf).
  - intros Hw'. rewrite (fr_was _ _ Hf) in Hw'. congruence.
Qed.

Lemma process_connect_wp s e :
  fresh s -> zlen (s_logic_queue s) < 2 ^ 31 ->
  wp Session_process_connect (fun _ s' _ => session_inv s' /\ connected_by s false s') s e.
Proof.
  intros Hfr Hq. pose proof (connected_core false s Hfr) as Hc1.
  destruct Hfr as ((_ & _ & _ & Hu) & Hw & _). destruct (Hu Hw) as (_ & _ & Hro & Hso & _ & Hqe & Hev & Hreg & Hcl & _).
  unfold Session_process_connect. wp_simpl.
  set (s1 := s <| s_was_connected := true |> <| s_is_connect := true |>).
  assert (s <| s_is_connect := true |> <| s_was_connected := true |> <| s_close_after_send := false |> = s1) as Hs1.
  { unfold s1. destruct s; simpl in *. congruence. }
  unfold connected_by. rewrite Hs1 in *.
  eapply wp_mono; [apply (register_recv_wp 0 0 0 s1); [done|split_and!; simpl; lia| |done]|].
  - intros _. simpl. by rewrite Hreg, Hso, Hqe, Hev, Hcl.
  - intros ? s' e2 Hp. split; [by apply (inv_of_recv s1)|]. apply Hp.
Qed.

Lemma begin_shutdown_wp d r k s e :
  session_core d r k s -> roomy d r s ->
  wp Session_begin_shutdown (fun _ s' _ =>
    session_core d r k s' /\ io_frame (s <| s_shutdown_started := true |>) s' /\ same_io s s' /\
    s_is_connect s' = false /\ s_is_disconnect s' = true /\ s_disconnect_owner s' = s_disconnect_owner s /\
    (s_is_send_register s = false -> s_is_send_register s' = false)) s e.
Proof.
  intros Hc (Hd & Hr & Hq). unfold Session_begin_shutdown. wp_simpl.
  destruct (s_shutdown_started s) eqn:Es.
  { apply wp_ret. split; [done|]. split; [by apply frame_update|]. split; [done|].
    split; [|split; [by apply (sc_stop _ _ _ _ Hc)|done]].
    destruct (s_is_connect s) eqn:En; [|done]. destruct (sc_conn _ _ _ _ Hc En) as (_ & ? & _). congruence. }
  wp_simpl. unfold Session_process_disconnect, Session_queue_logic. wp_simpl. simpl.
  pose proof (zlen_nonneg (s_logic_queue s)).
  destruct Hc as [Hio Hj Hcn He Hsq Hcl Hst Hb].
  destruct (s_is_disconnect s) eqn:Ed; [apply wp_ret|wp_simpl];
    (split; [|split; [|done]]); constructor; simpl; try done.
  - intros [?|?]; [auto|done].
  - by rewrite app_nil_r.
  - rewrite Hj. unfold LockQueue_push. rewrite zlen_app, zlen_cons, zlen_nil, u32_small; lia.
  - unfold LockQueue_push. rewrite cleanups_app. simpl in *. lia.
  - intros [?|?]; [auto|done].
Qed.

(** The end of a dispatch. *)
Lemma finish_io_wp r k s e :
  session_core 1 r k s ->
  wp finish_io (fun _ s' _ => session_core 0 r k s' /\ s' = s <| s_pending_io := s_pending_io s - 1 |>) s e.
Proof.
  intros Hc. pose proof (pending_bounds 1 r k s Hc) as Hp. pose proof (sc_io _ _ _ _ Hc) as Hio.
  assert (0 < s_pending_io s) as H0.
  { rewrite Hio. destruct (s_recv_owner s), (s_send_owner s), (s_disconnect_owner s); simpl; lia. }
  wp_simpl. rewrite Z_gtb_true by lia. wp_simpl.
  assert (u32 (s_pending_io s - 1) = s_pending_io s - 1) as Hu by (apply u32_small; lia).
  split; [|destruct s; simpl in *; by rewrite Hu].
  destruct Hc as [_ Hj Hcn He Hsq Hcl Hst Hb]. constructor; simpl; try done. rewrite Hu. lia.
Qed.

Lemma disconnect_completed_wp r k s n e :
  session_core 0 r k s -> roomy 1 r s -> s_disconnect_owner s = true ->
  wp (Session_dispatch EventType_disconnect n) (fun _ s' _ =>
    session_core 1 r k s' /\ io_frame s s' /\ same_io s s' /\ s_is_connect s' = false) s e.
Proof.
  intros Hc Hr Ho. unfold Session_dispatch. wp_simpl.
  assert (s_is_connect s = false) as Hn.
  { destruct (s_is_connect s) eqn:En; [|done]. destruct (sc_conn _ _ _ _ Hc En) as (_ & _ & _ & ?). congruence. }
  set (s1 := s <| s_disconnect_owner := false |>).
  assert (session_core 1 r k s1) as Hc1.
  { destruct Hc as [Hio Hj Hcn He Hsq Hcl Hst Hb]. constructor; simpl; try done.
    - rewrite Hio, Ho. simpl. lia.
    - by rewrite Hn. }
  eapply wp_mono; [by apply (process_disconnect_wp 1 r k s1)|].
  intros _ s' e' (Hc' & Hf' & Hs' & _). split; [done|].
  split; [eapply io_frame_trans; [|done]; by apply frame_update|]. split; [done|].
  destruct (s_is_connect s') eqn:E; [|done]. pose proof (fr_conn _ _ Hf' E) as Hx. simpl in Hx. congruence.
Qed.
End Methods.

(** ** Operations of other components on a session *)

Section Operations.
Context {utf8 : Utf8Check} {codec : PacketCodec} {laws : PacketCodecLaws codec} {os : Os}.

Lemma made_buffer_ok p :
  packet_sized p -> packet_bound p <= 65531 -> exists b, MakeSendBuffer p = Some b /\ buffer_ok b.
Proof using laws. apply MakeSendBuffer_sized. Qed.

Lemma untouched_frame s s' :
  io_frame s s' -> s_was_connected s = true -> untouched s'.
Proof. intros Hf Hw Hu. rewrite (fr_was _ _ Hf) in Hu. congruence. Qed.

(** A session that was never connected does not send. *)
Lemma send_inv r k s b e :
  session_inv_at r k s -> 0 <= r <= 1 -> zlen (s_logic_queue s) < 2 ^ 31 -> buffer_ok b ->
  wp (Session_send b) (fun _ s' _ =>
    session_inv_at r k s' /\ io_frame s s' /\
    (s_is_connect s' = true -> outgoing s' = outgoing s ++ SendBuffer_payload b)) s e.
Proof.
  intros (Hc & Hs & Hv & Hu) Hr Hq Hb. destruct (s_is_connect s) eqn:En.
  2: { unfold Session_send. wp_simpl. rewrite En. apply wp_ret.
       split; [done|]. split; [auto with server|congruence]. }
  eapply wp_mono; [apply (send_wp 0 r k s); try done; lia|].
  intros _ s' e' (Hc' & Hf & Hs' & Ho & Hout). split; [|done].
  split; [done|]. split; [done|]. split.
  - by eapply receiving_frame.
  - eapply untouched_frame; [done|]. by apply (sc_conn _ _ _ _ Hc En).
Qed.

Lemma disconnect_inv r k s e :
  session_inv_at r k s -> 0 <= r <= 1 -> zlen (s_logic_queue s) < 2 ^ 31 ->
  wp Session_disconnect (fun _ s' _ =>
    session_inv_at r k s' /\ io_frame s s' /\ s_is_connect s' = false) s e.
Proof.
  intros (Hc & Hs & Hv & Hu) Hr Hq. destruct (s_is_connect s) eqn:En.
  2: { unfold Session_disconnect. wp_simpl. rewrite En. apply wp_ret.
       split; [done|]. split; [auto with server|done]. }
  eapply wp_mono; [apply (disconnect_wp 0 r k s); try done; lia|].
  intros _ s' e' (Hc' & Hf & (Ho & _) & Hn). split; [|done]. split; [done|].
  split; [by apply sending_disconnected|]. split; [by eapply receiving_frame|].
  eapply untouched_frame; [done|]. by apply (sc_conn _ _ _ _ Hc En).
Qed.

Lemma begin_shutdown_inv r k s e :
  session_inv_at r k s -> 0 <= r <= 1 -> zlen (s_logic_queue s) < 2 ^ 31 ->
  wp Session_begin_shutdown (fun _ s' _ =>
    session_inv_at r k s' /\ io_frame (s <| s_shutdown_started := true |>) s' /\
    s_is_connect s' = false /\ s_is_disconnect s' = true) s e.
Proof.
  intros (Hc & Hs & Hv & Hu) Hr Hq. eapply wp_mono; [apply (begin_shutdown_wp 0 r k s); try done; lia|].
  intros _ s' e' (Hc' & Hf & (Hro & Hso & Hqs & Hes) & Hn & Hd & Hdo & Hreg). split; [|done]. split; [done|].
  split; [by apply sending_disconnected|]. split; [by eapply receiving_frame|].
  intros Hw. rewrite (fr_was _ _ Hf) in Hw. simpl in Hw. destruct (Hu Hw) as (? & ? & ? & ? & ? & ? & ? & ? & ? & ?).
  pose proof (fr_shutdown _ _ Hf) as Hsh. pose proof (fr_close _ _ Hf) as Hcl. simpl in Hsh, Hcl.
  split_and!; try congruence; [auto|]. by apply (only_cleanups_frame _ _ Hf).
Qed.

(** A rejected session sends its notice; it never receives. *)
Lemma reject_connection_inv s n e :
  fresh s -> zlen (s_logic_queue s) < 2 ^ 31 ->
  wp (Session_reject_connection n) (fun _ s' _ => session_inv s' /\ connected_by s true s') s e.
Proof using laws.
  intros Hfr Hq. pose proof (connected_core true s Hfr) as Hc1.
  destruct Hfr as ((_ & _ & _ & Hu) & Hw & _). destruct (Hu Hw) as (Hn & _ & Hro & Hso & _ & Hqe & Hev & Hreg & Hcl & Hjobs).
  unfold Session_reject_connection, GameSession_make_server_full_notice. wp_simpl. rewrite Hn. wp_simpl.
  set (s1 := s <| s_is_connect := true |> <| s_was_connected := true |> <| s_close_after_send := true |>) in *.
  destruct (made_buffer_ok (P_ACK_SERVER_FULL
    (ACK_SERVER_FULL_default <| ACK_SERVER_FULL_max_session_count := u32 n |>))) as (b & -> & Hb).
  { split; simpl; [apply u32_range|done]. }
  { simpl. lia. }
  unfold Session_send. wp_simpl.
  change (s_is_connect s1) with true. change (s_send_queue s1) with (s_send_queue s).
  change (s_is_send_register s1) with (s_is_send_register s). rewrite Hqe, Hreg. cbn [negb].
  change (zlen [] >=? MAX_SEND_QUEUE_SIZE) with false. cbv match. wp_simpl.
  set (s2 := s1 <| s_send_queue ::= fun q => q ++ [b] |> <| s_is_send_register := true |>).
  change (upd s_is_send_register _ _) with s2.
  assert (session_core 0 0 0 s2) as Hc2.
  { apply (core_update 0 0 0 s1); simpl; try done; [apply (sc_io _ _ _ _ Hc1)|apply (sc_event _ _ _ _ Hc1)|].
    rewrite Hqe. split; [by apply Forall_singleton|done]. }
  eapply wp_mono; [apply (register_send_wp 0 0 0 s2); [done|split_and!; simpl; lia|by constructor; auto]|].
  intros _ s' e' (Hc' & Hf & Hs' & Ho & _).
  assert (io_frame s1 s') as Hf' by (eapply io_frame_trans; [by apply (frame_update s1 s2)|done]).
  split; [|done]. split; [done|]. split; [done|]. split.
  - apply (receiving_frame s1); [done..|]. split; [by simpl; rewrite Hro|]. intros _. done.
  - by eapply untouched_frame.
Qed.

Lemma send_ping_inv r k s now e :
  session_inv_at r k s -> 0 <= r <= 1 -> zlen (s_logic_queue s) < 2 ^ 31 -> 0 <= now < 2 ^ 64 ->
  wp (GameSession_send_ping now) (fun _ s' _ => session_inv_at r k s' /\ io_frame s s') s e.
Proof using laws.
  intros Hi Hr Hq Hn. unfold GameSession_send_ping, SEND_PACKET. wp_simpl.
  set (pkt := P_ACK_SEND_CONNECT_PING _).
  assert (packet_wf pkt) as Hwf by by split.
  destruct (made_buffer_ok pkt Hwf) as (b & -> & Hb).
  { simpl. lia. }
  set (s1 := s <| s_last_ping_tick := now |> <| s_waiting_pong := true |>).
  assert (session_inv_at r k s1) as Hi1.
  { destruct Hi as ([] & ? & ? & ?). split; [|done]. by constructor. }
  eapply wp_mono; [by apply (send_inv r k s1)|].
  intros _ s' e' (? & ? & _). split; [done|]. eapply io_frame_trans; [|done]. by apply frame_update.
Qed.

(** ** Completions *)

(** A completion the operating system reports: the bytes stored for a receive, or
    the number of bytes taken by a send. *)
Inductive Completion :=
  | RecvCompletion (chunk : bytes)
  | SendCompletion (numOfBytes : Z)
  | DisconnectCompletion.

(** What happens to a session when a completion is dequeued. *)
Definition complete (c : Completion) (failed : bool) : SM () :=
  match c with
  | RecvCompletion chunk =>
      modify (fun s => s <| s_recv_buffer ::= RecvBuffer_os_store chunk |>);;
      IocpCore_dispatch EventType_Recv failed (zlen chunk)
  | SendCompletion n => IocpCore_dispatch EventType_send failed n
  | DisconnectCompletion => IocpCore_dispatch EventType_disconnect failed 0
  end.

(** The operation is in flight, and the system keeps to the buffer it was given. *)
Definition in_flight (c : Completion) (s : Session) : Prop :=
  match c with
  | RecvCompletion chunk =>
      s_recv_owner s = true /\ byte_stream chunk /\ zlen chunk <= RecvBuffer_free_size (s_recv_buffer s)
  | SendCompletion n => s_send_owner s = true /\ 0 <= n < 2 ^ 31
  | DisconnectCompletion => s_disconnect_owner s = true
  end.

(** What a completion does to the session beyond its own event. *)
Definition completion_result (c : Completion) (failed : bool) (s s' : Session) : Prop :=
  match c with
  | RecvCompletion chunk => recv_result chunk (if failed then 0 else zlen chunk) s s'
  | SendCompletion n =>
      io_frame s s' /\
      (s_is_connect s' = true -> outgoing s' = drop (Z.to_nat (if failed then 0 else n)) (outgoing s))
  | DisconnectCompletion => io_frame s s' /\ s_is_connect s' = false
  end.

Lemma was_connected r k s c : session_inv_at r k s -> in_flight c s -> s_was_connected s = true.
Proof.
  intros (_ & _ & _ & Hu) Hc. destruct (s_was_connected s) eqn:Hw; [done|].
  destruct (Hu Hw) as (_ & _ & ? & ? & ? & _). destruct c; simpl in Hc; destruct_and?; congruence.
Qed.

Lemma finish_frame s s1 : io_frame s s1 -> io_frame s (s1 <| s_pending_io := s_pending_io s1 - 1 |>).
Proof. intros Hf. eapply io_frame_trans; [done|]. by apply frame_update. Qed.

(** Every completion is dispatched without a crash and keeps the invariant. *)
Lemma complete_inv r k s c failed e :
  session_inv_at r k s -> 0 <= r <= 1 -> zlen (s_logic_queue s) < 2 ^ 30 -> in_flight c s ->
  wp (complete c failed) (fun _ s' _ => session_inv_at r k s' /\ completion_result c failed s s') s e.
Proof.
  intros Hi Hr Hq Hfl. pose proof (was_connected r k s c Hi Hfl) as Hw. pose proof Hi as (Hc & Hs & Hv & Hu).
  destruct c as [chunk|n|]; unfold complete, IocpCore_dispatch; simpl in Hfl.
  - destruct Hfl as (Ho & Hb & Hfit). wp_simpl. cbn [Session_dispatch].
    eapply wp_mono; [apply (process_recv_wp r k s chunk); try done; destruct failed; auto|].
    intros _ s1 e1 (Hc1 & Hs1 & Hv1 & ps & rb & Hf & Hres).
    eapply wp_mono; [by apply (finish_io_wp r k)|]. intros _ s' e' [Hc' ->].
    split; [split; [done|split; [done|split]]|].
    + apply receiving_open; [|done]. simpl. rewrite (fr_close _ _ Hf). simpl.
      destruct (s_close_after_send s) eqn:E; [|done]. destruct Hv as [_ Hrej].
      destruct (Hrej E) as [? _]. congruence.
    + eapply untouched_frame; [by apply finish_frame, Hf|done].
    + exists ps, rb. split; [by apply finish_frame|done].
  - destruct Hfl as [Ho Hn]. wp_simpl. cbn [Session_dispatch].
    eapply wp_mono; [apply (process_send_wp r k s (if failed then 0 else n)); try done|].
    { split_and!; lia. }
    { destruct failed; lia. }
    intros _ s1 e1 (Hc1 & Hf & Hs1 & Ho1 & Hout).
    eapply wp_mono; [by apply (finish_io_wp r k)|]. intros _ s' e' [Hc' ->].
    split; [split; [done|split; [done|split]]|].
    + eapply receiving_frame; [by apply finish_frame, Hf|done|done].
    + eapply untouched_frame; [by apply finish_frame, Hf|done].
    + split; [by apply finish_frame|done].
  - wp_simpl. eapply wp_mono; [apply (disconnect_completed_wp r k s); try done; split_and!; lia|].
    intros _ s1 e1 (Hc1 & Hf & (Ho1 & _) & Hn).
    eapply wp_mono; [by apply (finish_io_wp r k)|]. intros _ s' e' [Hc' ->].
    split; [split; [done|split; [by apply sending_disconnected|split]]|].
    + eapply receiving_frame; [by apply finish_frame, Hf|done|done].
    + eapply untouched_frame; [by apply finish_frame, Hf|done].
    + split; [by apply finish_frame|done].
Qed.
End Operations.
