(* ===== verification/SessionTheorems.v ===== *)
(** * Sessions: what holds of every operation

    The theorems about [Session] proved from the weakest preconditions of
    [SessionSafety]: safety of every operation, what a receive completion queues,
    the order of the bytes sent, and how a session drains when the service is
    closed. *)

From stdpp Require Import base list numbers option.
From Stdlib Require Import ZArith Lia.
From S2P Require Import Prelude Buffers SendEvents Framing JobQueues Wire Protocol Messages Packets Runtime Sessions SessionSafety.

(** ** Operations *)

(** The calls other components make on a session, and the completions. *)
Inductive SessionOp :=
  | OpConnect
  | OpReject (max_session_count : Z)
  | OpSend (sendBuffer : SendBuffer)
  | OpPing (now : Z)
  | OpDisconnect
  | OpShutdown
  | OpComplete (c : Completion) (failed : bool).

(** When each may happen.  The listener hands over a session once, and not after
    the service started to close; the buffers are those of [MakeSendBuffer]. *)
Definition op_ok (op : SessionOp) (s : Session) : Prop :=
  match op with
  | OpConnect | OpReject _ => s_was_connected s = false /\ s_shutdown_started s = false
  | OpSend b => buffer_ok b
  | OpPing now => 0 <= now < 2 ^ 64
  | OpDisconnect | OpShutdown => True
  | OpComplete c _ => in_flight c s
  end.

Section Theorems.
Context {utf8 : Utf8Check} {codec : PacketCodec} {laws : PacketCodecLaws codec} {os : Os}.

Definition exec_op (op : SessionOp) : SM () :=
  match op with
  | OpConnect => Session_process_connect
  | OpReject n => Session_reject_connection n
  | OpSend b => Session_send b
  | OpPing now => GameSession_send_ping now
  | OpDisconnect => Session_disconnect
  | OpShutdown => Session_begin_shutdown
  | OpComplete c failed => complete c failed
  end.

Lemma recv_ready_new : recv_ready (RecvBuffer_new BUFFER_SIZE).
Proof.
  destruct (RecvBuffer_new_wf BUFFER_SIZE) as (Hwf & Hd & Hs); [done..|].
  split; [done|done|rewrite Hd; apply Forall_nil_2|rewrite Hd; by left|].
  rewrite (free_size_eq _ Hwf), (rbw_cap _ Hwf), Hs. simpl rb_write_pos. unfold BUFFER_SIZE. lia.
Qed.

Lemma session_inv_new : session_inv Session_new.
Proof.
  split; [|split; [by apply sending_disconnected|split; [by split|]]].
  2: { intros _. by split_and!. }
  split; [done|done|discriminate|apply SendEvent_new_wf| |done|done|intros _; apply recv_ready_new].
  split; [apply Forall_nil_2|done].
Qed.

Lemma exec_op_inv s op e :
  session_inv s -> zlen (s_logic_queue s) < 2 ^ 30 -> op_ok op s ->
  wp (exec_op op) (fun _ s' _ => session_inv s') s e.
Proof using laws.
  intros Hi Hq Hok.
  destruct op as [|n|b|now| | |c failed]; cbn [exec_op]; simpl in Hok.
  - eapply wp_mono; [apply process_connect_wp; [by split|lia]|]. by intros ? ? ? [? _].
  - eapply wp_mono; [apply reject_connection_inv; [by split|lia]|]. by intros ? ? ? [? _].
  - eapply wp_mono; [apply (send_inv 0 0 s); try done; lia|]. by intros ? ? ? [? _].
  - eapply wp_mono; [apply (send_ping_inv 0 0 s); try done; lia|]. by intros ? ? ? [? _].
  - eapply wp_mono; [apply (disconnect_inv 0 0 s); try done; lia|]. by intros ? ? ? [? _].
  - eapply wp_mono; [apply (begin_shutdown_inv 0 0 s); try done; lia|]. by intros ? ? ? [? _].
  - eapply wp_mono; [apply (complete_inv 0 0 s c failed); try done; lia|]. by intros ? ? ? [? _].
Qed.

(** ** Properties *)

(** From a session in a state that satisfies the invariant, every operation
    returns without a failed assertion, without an access out of range and without
    reusing an [OVERLAPPED] that is in flight, and keeps the invariant: the count of
    pending operations is the number of events whose owner is set, a connected
    session is receiving unless it is being turned away, and its send side is idle
    with an empty queue or has exactly one send in flight.  A new session satisfies
    the invariant. *)
Theorem session_operations_safe s e op :
  session_inv s -> zlen (s_logic_queue s) < 2 ^ 30 -> op_ok op s ->
  session_inv Session_new /\
  exists s' e', exec_op op (s, e) = Some ((), (s', e')) /\ session_inv s' /\
    s_pending_io s' = b2z (s_recv_owner s') + b2z (s_send_owner s') + b2z (s_disconnect_owner s') /\
    (s_is_connect s' = true ->
       s_recv_owner s' = negb (s_close_after_send s') /\ s_is_send_register s' = s_send_owner s' /\
       (s_send_owner s' = false -> outgoing s' = [])).
Proof using laws.
  intros Hi Hq Hok. split; [apply session_inv_new|].
  destruct (exec_op_inv s op e Hi Hq Hok) as ([] & s' & e' & Heq & Hi').
  exists s', e'. split; [done|]. split; [done|]. destruct Hi' as (Hc & Hs & [Hv _] & _).
  split; [rewrite (sc_io _ _ _ _ Hc); lia|]. intros Hn. split; [by apply Hv|].
  destruct (Hs Hn) as [Hreg Hidle]. split; [done|]. intros Ho.
  destruct (Hidle Ho) as (Hqe & Hev & _). unfold outgoing. by rewrite Hqe, Hev.
Qed.

(** A receive completion on a connected session queues one job for every packet
    that the bytes received so far complete and that decodes to a known request, in
    the order in which they were sent, and keeps the rest for the next completion;
    only a malformed header closes the connection. *)
Theorem recv_completion_exact s e chunk :
  session_inv s -> zlen (s_logic_queue s) < 2 ^ 30 -> s_is_connect s = true ->
  in_flight (RecvCompletion chunk) s -> chunk <> [] ->
  exists s' e' ps tail,
    complete (RecvCompletion chunk) false (s, e) = Some ((), (s', e')) /\
    RecvBuffer_data (s_recv_buffer s) ++ chunk = concat ps ++ tail /\
    Forall is_packet ps /\ (incomplete tail \/ malformed tail) /\
    take (length (s_logic_queue s) + length (omap decode ps)) (s_logic_queue s')
      = s_logic_queue s ++ (PacketJob <$> omap decode ps) /\
    (malformed tail -> s_is_connect s' = false) /\
    (incomplete tail -> RecvBuffer_data (s_recv_buffer s') = tail).
Proof.
  intros Hi Hq Hn Hfl Hne.
  destruct (complete_inv 0 0 s (RecvCompletion chunk) false e) as ([] & s' & e' & Heq & _ & Hres);
    [done|lia|done|done|].
  destruct Hres as (ps & rb & Hf & _ & Hres). destruct (Hres Hn) as (tail & Hd & Hps & Hcase).
  assert (zlen chunk <> 0) as Hz by (unfold zlen; destruct chunk; simpl; [done|lia]).
  rewrite (proj2 (Z.eqb_neq _ _)) in Hcase by done. destruct Hcase as (Ht & Hm & Hinc).
  exists s', e', ps, tail. split; [done|]. split; [done|]. split; [done|]. split; [done|].
  split; [|split; [done|]].
  - rewrite (fr_queue _ _ Hf). unfold received, decoded. simpl. apply take_app_length'.
    by rewrite length_app, length_fmap.
  - intros Ht'. by rewrite (fr_recv _ _ Hf), <- (Hinc Ht').
Qed.

(** The bytes of a session go out in the order of the [send] calls: a send
    appends its payload to the bytes still to be sent, a completion of [n] bytes
    takes exactly the first [n] of them, and both hold for as long as the session
    stays connected. *)
Theorem send_order s e :
  session_inv s -> zlen (s_logic_queue s) < 2 ^ 30 ->
  (forall b, buffer_ok b ->
     exists s' e', Session_send b (s, e) = Some ((), (s', e')) /\
       (s_is_connect s' = true -> outgoing s' = outgoing s ++ SendBuffer_payload b)) /\
  (forall n, in_flight (SendCompletion n) s ->
     exists s' e', complete (SendCompletion n) false (s, e) = Some ((), (s', e')) /\
       (s_is_connect s' = true -> outgoing s' = drop (Z.to_nat n) (outgoing s))).
Proof.
  intros Hi Hq. split.
  - intros b Hb. destruct (send_inv 0 0 s b e) as ([] & s' & e' & Heq & _ & _ & Ho); try (done || lia).
    by exists s', e'.
  - intros n Hfl. destruct (complete_inv 0 0 s (SendCompletion n) false e) as ([] & s' & e' & Heq & _ & _ & Ho);
      try (done || lia).
    by exists s', e'.
Qed.

Lemma shutdown_disconnected r k s :
  session_inv_at r k s -> s_shutdown_started s = true -> s_is_connect s = false /\ s_is_disconnect s = true.
Proof.
  intros (Hc & _) Hs. split; [|by apply (sc_stop _ _ _ _ Hc)].
  destruct (s_is_connect s) eqn:En; [|done]. destruct (sc_conn _ _ _ _ Hc En) as (_ & ? & _). congruence.
Qed.

(** A completion on a session that was shut down only takes its event back. *)
Lemma complete_after_shutdown s c failed e :
  session_inv s -> s_shutdown_started s = true -> in_flight c s ->
  wp (complete c failed) (fun _ s' _ =>
    s_pending_io s' = s_pending_io s - 1 /\ s_logic_queue s' = s_logic_queue s /\
    s_shutdown_started s' = true) s e.
Proof.
  intros Hi Hs Hfl. pose proof (shutdown_disconnected 0 0 s Hi Hs) as [Hn Hd].
  destruct Hi as (Hc & _). pose proof (pending_bounds 0 0 0 s Hc) as Hp. pose proof (sc_io _ _ _ _ Hc) as Hio.
  assert (0 < s_pending_io s) as H0.
  { rewrite Hio. destruct c; simpl in Hfl; destruct_and?;
      destruct (s_recv_owner s), (s_send_owner s), (s_disconnect_owner s); simpl; first [done|lia]. }
  assert ((s_pending_io s >? 0) = true) as Hg by (rewrite Z_gtb_true; [done|lia]).
  assert (u32 (s_pending_io s - 1) = s_pending_io s - 1) as Hu by (apply u32_small; lia).
  destruct c; unfold complete, IocpCore_dispatch; wp_simpl; unfold Session_dispatch,
    Session_process_recv, Session_process_send, Session_process_disconnect; wp_simpl; simpl;
    rewrite ?Hn, ?Hd; cbn [negb]; wp_simpl; simpl; rewrite Hg; wp_simpl; by simpl.
Qed.

(** Once a session was shut down, each completion of an operation in flight
    takes exactly one off the pending operations and queues no job, and when the
    last operation completed and the last job ran, the condition that
    [wait_for_shutdown] waits for holds: the cleanup ran and nothing is pending. *)
Theorem shutdown_completes s e :
  session_inv s -> s_shutdown_started s = true ->
  (forall c failed, in_flight c s ->
     exists s' e', complete c failed (s, e) = Some ((), (s', e')) /\
       s_pending_io s' = s_pending_io s - 1 /\ s_logic_queue s' = s_logic_queue s /\
       s_shutdown_started s' = true) /\
  (s_pending_io s > 0 ->
     s_recv_owner s = true \/ s_send_owner s = true \/ s_disconnect_owner s = true) /\
  (s_pending_io s = 0 -> s_logic_queue s = [] -> Session_shutdown_complete s = true).
Proof.
  intros Hi Hs. split; [|split].
  - intros c failed Hfl.
    destruct (complete_after_shutdown s c failed e Hi Hs Hfl) as ([] & s' & e' & Heq & ?). by exists s', e'.
  - intros Hp. destruct Hi as (Hc & _). pose proof (sc_io _ _ _ _ Hc) as Hio.
    destruct (s_recv_owner s), (s_send_owner s), (s_disconnect_owner s); simpl in Hio; auto. lia.
  - intros Hp Hq. destruct (shutdown_disconnected 0 0 s Hi Hs) as [_ Hd]. destruct Hi as (Hc & _).
    unfold Session_shutdown_complete. rewrite (sc_jobs _ _ _ _ Hc), Hp, Hq. simpl.
    pose proof (sc_cleanup _ _ _ _ Hc) as Hcl. rewrite Hq, Hd in Hcl. simpl in Hcl.
    destruct (s_cleanup_done s); [done|]. simpl in Hcl. lia.
Qed.
End Theorems.

(** ** Witnesses *)

(** An operating system that accepts every overlapped call. *)
#[local] Instance demo_os : Os := fun _ => IoPending.

Definition demo_env : Env := mkEnv 0 ServerStats_zero.

(** A connected session with a receive in flight, the same session while it sends,
    and a session that was shut down while receiving. *)
Definition demo_connected : Session :=
  Session_new <| s_was_connected := true |> <| s_is_connect := true |>
              <| s_recv_owner := true |> <| s_pending_io := 1 |>.

Definition demo_buffer : SendBuffer := mkSendBuffer [5; 0; 232; 3; 7] 5.

Definition demo_sending : Session :=
  demo_connected <| s_send_owner := true |> <| s_pending_io := 2 |> <| s_is_send_register := true |>
                 <| s_send_event := mkSendEvent [demo_buffer] 0 0 |>.

Definition demo_closed : Session :=
  demo_connected <| s_is_connect := false |> <| s_is_disconnect := true |> <| s_shutdown_started := true |>
                 <| s_logic_stopped := true |> <| s_pending_jobs := 1 |> <| s_logic_queue := [CleanupJob] |>.

Lemma demo_connected_inv : session_inv demo_connected.
Proof.
  split; [|split; [done|split; [by split|intros ?; discriminate]]].
  split; [done|done|done|apply SendEvent_new_wf| |done|done|intros _; apply recv_ready_new].
  split; [apply Forall_nil_2|done].
Qed.

Lemma demo_buffer_ok : buffer_ok demo_buffer.
Proof. vm_compute. intuition congruence. Qed.

Lemma demo_sending_inv : session_inv demo_sending.
Proof.
  split; [|split; [intros _; split; [done|intros ?; discriminate]|split; [by split|intros ?; discriminate]]].
  split; [done|done|done| | |done|done|intros _; apply recv_ready_new].
  - apply drained_wf; [by apply Forall_singleton, demo_buffer_ok|done].
  - split; [apply Forall_nil_2|done].
Qed.

Lemma demo_closed_inv : session_inv demo_closed.
Proof.
  split; [|split; [intros ?; discriminate|split; [by split|intros ?; discriminate]]].
  split; [done|done|intros ?; discriminate|apply SendEvent_new_wf| |done|done|].
  - split; [apply Forall_nil_2|done].
  - intros [?|?]; discriminate.
Qed.

Lemma session_operations_safe_witness :
  exists s' e', exec_op OpConnect (Session_new, demo_env) = Some ((), (s', e')) /\ session_inv s'.
Proof.
  destruct (session_operations_safe Session_new demo_env OpConnect session_inv_new eq_refl (conj eq_refl eq_refl))
    as (_ & s' & e' & H & Hi & _).
  exists s', e'. exact (conj H Hi).
Defined.

Lemma recv_completion_exact_witness :
  exists s' e' ps tail,
    complete (RecvCompletion [4; 0; 239; 3; 9]) false (demo_connected, demo_env) = Some ((), (s', e')) /\
    RecvBuffer_data (s_recv_buffer demo_connected) ++ [4; 0; 239; 3; 9] = concat ps ++ tail /\
    Forall is_packet ps.
Proof.
  destruct (recv_completion_exact demo_connected demo_env [4; 0; 239; 3; 9] demo_connected_inv eq_refl eq_refl)
    as (s' & e' & ps & tail & H & Hd & Hp & _).
  - split; [reflexivity|]. split; [repeat constructor; vm_compute; congruence|].
    pose proof (rr_room _ recv_ready_new) as Hroom. unfold BUFFER_SIZE in Hroom.
    change (zlen [4; 0; 239; 3; 9]) with 5. change (s_recv_buffer demo_connected) with (RecvBuffer_new 65536). lia.
  - congruence.
  - exists s', e', ps, tail. exact (conj H (conj Hd Hp)).
Defined.

Lemma send_order_witness :
  exists s' e', complete (SendCompletion 2) false (demo_sending, demo_env) = Some ((), (s', e')) /\
    (s_is_connect s' = true -> outgoing s' = [232; 3; 7]).
Proof.
  destruct (send_order demo_sending demo_env demo_sending_inv eq_refl) as [_ H].
  apply (H 2). split; [reflexivity|]. lia.
Defined.

Lemma shutdown_completes_witness :
  exists s' e', complete (RecvCompletion []) true (demo_closed, demo_env) = Some ((), (s', e')) /\
    s_pending_io s' = 0.
Proof.
  destruct (shutdown_completes demo_closed demo_env demo_closed_inv eq_refl) as [H _].
  destruct (H (RecvCompletion []) true) as (s' & e' & Heq & Hp & _).
  - split; [reflexivity|]. split; [constructor|].
    pose proof (rr_room _ recv_ready_new) as Hroom. unfold BUFFER_SIZE in Hroom.
    change (zlen []) with 0. change (s_recv_buffer demo_closed) with (RecvBuffer_new 65536). lia.
  - exists s', e'. split; [exact Heq|]. rewrite Hp. reflexivity.
Defined.
