(* ===== verification/Managers.v ===== *)
(** * The server's shared state, and SessionManager

    [SessionManager] (ServerCore/NetWork/SessionManager.{h,cpp}), over the state the
    whole game server shares: the session objects, the login table, the rooms and
    the global statistics.  A session is referred to by its identity, a [nat], as the
    [shared_ptr]s of the source do; the objects live in one store. *)

From stdpp Require Import base list numbers option gmap sorting.
From Stdlib Require Import ZArith Lia.
From S2P Require Import Prelude Buffers SendEvents Framing JobQueues Wire Protocol Packets Accounts Rooms Sessions.

(** ** State *)

Record SessionManager := mkSessionManager {
  sm_sessions : gset nat;
  sm_account_sessions : gmap Z nat;
  sm_name_sessions : gmap wstring nat;
  sm_session_count : Z;
  sm_max_session_count : Z
}.

#[export] Instance SessionManager_settable : Settable SessionManager :=
  fun m => mkSessionManager (sm_sessions m) (sm_account_sessions m) (sm_name_sessions m)
             (sm_session_count m) (sm_max_session_count m).

Definition SessionManager_new (sessionMaxCount : Z) : SessionManager :=
  mkSessionManager ∅ ∅ ∅ 0 sessionMaxCount.

(** The session objects ([Service::_live_sessions] and everything that holds a
    reference), [GLogin], the room list, the session manager, the statistics, and
    whether the service is closing. *)
Record Server := mkServer {
  sv_sessions : gmap nat Session;
  sv_next : nat;
  sv_login : Login;
  sv_rooms : RoomManager;
  sv_mgr : SessionManager;
  sv_env : Env;
  sv_closing : bool
}.

#[export] Instance Server_settable : Settable Server :=
  fun v => mkServer (sv_sessions v) (sv_next v) (sv_login v) (sv_rooms v) (sv_mgr v) (sv_env v) (sv_closing v).

Definition Server_new (session_max_count : Z) : Server :=
  mkServer ∅ 0 Login_new RoomManager_create_room (SessionManager_new session_max_count)
    (mkEnv 0 ServerStats_zero) false.

(** ** The server monad *)

Definition WM (A : Type) := Server -> option (A * Server).

#[export] Instance WM_ret : MRet WM := fun A a v => Some (a, v).
#[export] Instance WM_bind : MBind WM :=
  fun A B f m v => match m v with Some (a, v') => f a v' | None => None end.

Definition wgets {A} (f : Server -> A) : WM A := fun v => Some (f v, v).
Definition wmodify (f : Server -> Server) : WM () := fun v => Some ((), f v).
Definition wstat (f : ServerStats -> ServerStats) : WM () :=
  wmodify (fun v => v <| sv_env ::= fun e => e <| e_stats ::= f |> |>).

(** A method of a session.  A reference always points to an object, so [None] for an
    unknown identity is a dangling reference. *)
Definition on_session {A} (sid : nat) (m : SM A) : WM A :=
  fun v =>
    match sv_sessions v !! sid with
    | None => None
    | Some s =>
        match m (s, sv_env v) with
        | None => None
        | Some (a, (s', e')) => Some (a, v <| sv_sessions ::= insert sid s' |> <| sv_env := e' |>)
        end
    end.

(** The getters. *)
Definition session_get (sid : nat) : WM Session := on_session sid get.

(** The setters. *)
Definition session_set (sid : nat) (f : Session -> Session) : WM () := on_session sid (modify f).

Fixpoint for_each (l : list nat) (body : nat -> WM ()) : WM () :=
  match l with
  | [] => mret ()
  | sid :: rest => body sid;; for_each rest body
  end.

(** ** SessionManager *)

(** A [std::set]/[std::map] is walked in the order of its keys; the keys of
    [_sessions] are addresses, for which identities stand. *)
Definition set_order (ss : gset nat) : list nat := merge_sort le (elements ss).
Definition map_order {A} (m : gmap Z A) : list Z := merge_sort Z.le (elements (dom m)).

Section SessionManager.
Context {codec : PacketCodec} {os : Os}.

Definition SessionManager_add_session (session : nat) : WM bool :=
  m ← wgets sv_mgr;
  if bool_decide (session ∈ sm_sessions m) then mret true
  else if sm_session_count m >=? sm_max_session_count m then mret false
  else
    wmodify (fun v => v <| sv_mgr ::= fun m => m <| sm_sessions ::= fun ss => {[session]} ∪ ss |>
                                                <| sm_session_count ::= fun n => i32 (n + 1) |> |>);;
    on_session session Session_process_connect;;
    mret true.

Definition SessionManager_add_account_session (account_id : Z) (session : nat) (m : SessionManager)
    : SessionManager :=
  if account_id =? 0 then m else m <| sm_account_sessions ::= insert account_id session |>.

Definition SessionManager_add_name_session (name : wstring) (session : nat) (m : SessionManager)
    : SessionManager :=
  if bool_decide (name = []) then m else m <| sm_name_sessions ::= insert name session |>.

(** Only the session that registered the account may take it out. *)
Definition SessionManager_release_logout_session (account_id : Z) (expected_session : nat)
    (m : SessionManager) : SessionManager :=
  if account_id =? 0 then m
  else
    match sm_account_sessions m !! account_id with
    | Some owner =>
        if bool_decide (owner = expected_session) then m <| sm_account_sessions ::= delete account_id |> else m
    | None => m
    end.

Definition SessionManager_release_name_session (user_name : wstring) (expected_session : nat)
    (m : SessionManager) : SessionManager :=
  if bool_decide (user_name = []) then m
  else
    match sm_name_sessions m !! user_name with
    | Some owner =>
        if bool_decide (owner = expected_session) then m <| sm_name_sessions ::= delete user_name |> else m
    | None => m
    end.

Definition SessionManager_erase_session (session : nat) (m : SessionManager) : SessionManager :=
  if bool_decide (session ∈ sm_sessions m)
  then m <| sm_sessions ::= fun ss => ss ∖ {[session]} |> <| sm_session_count ::= fun n => i32 (n - 1) |>
  else m.

Definition SessionManager_release_session (session : nat) : WM () :=
  s ← session_get session;
  wmodify (fun v => v <| sv_mgr ::= SessionManager_release_logout_session (s_account_idx s) session |>);;
  wmodify (fun v => v <| sv_mgr ::= SessionManager_release_name_session (s_user_name s) session |>);;
  wmodify (fun v => v <| sv_mgr ::= SessionManager_erase_session session |>).

Definition SessionManager_on_connected (session : nat) : WM bool := SessionManager_add_session session.
Definition SessionManager_on_disconnected (session : nat) : WM () := SessionManager_release_session session.

Definition SessionManager_is_whisper_target_find (target_name : wstring) (m : SessionManager) : bool :=
  bool_decide (is_Some (sm_name_sessions m !! target_name)).

(** The loops of [broad_cast], [all_chat] and [normal_chat]: the sessions that pass
    the test are sent the buffer and counted. *)
Fixpoint send_each (test : Session -> bool) (sessions : list nat) (sendBuffer : SendBuffer) (count : Z) : WM Z :=
  match sessions with
  | [] => mret count
  | sid :: rest =>
      s ← session_get sid;
      if test s then
        on_session sid (Session_send sendBuffer);;
        send_each test rest sendBuffer (i32 (count + 1))
      else send_each test rest sendBuffer count
  end.

Definition SessionManager_broad_cast (sendBuffer : SendBuffer) : WM Z :=
  m ← wgets sv_mgr;
  send_each s_is_connect (set_order (sm_sessions m)) sendBuffer 0.

Definition SessionManager_all_chat (sendBuffer : SendBuffer) : WM Z :=
  m ← wgets sv_mgr;
  send_each (fun s => s_is_connect s && negb (s_enter_room_id s <? 0)) (set_order (sm_sessions m)) sendBuffer 0.

(** The first loop of [normal_chat], under the lock of the manager. *)
Fixpoint normal_chat_targets (room_id : Z) (m : gmap Z nat) (accounts : list Z) : WM (list nat) :=
  match accounts with
  | [] => mret []
  | a :: rest =>
      match m !! a with
      | None => normal_chat_targets room_id m rest
      | Some sid =>
          s ← session_get sid;
          l ← normal_chat_targets room_id m rest;
          mret (if s_is_connect s && (s_enter_room_id s =? room_id) then sid :: l else l)
      end
  end.

Definition SessionManager_normal_chat (room_id : Z) (sendBuffer : SendBuffer) : WM Z :=
  m ← wgets sv_mgr;
  sessions ← normal_chat_targets room_id (sm_account_sessions m) (map_order (sm_account_sessions m));
  send_each (fun _ => true) sessions sendBuffer 0.

Definition SessionManager_whisper_chat (target_name : wstring) (sendBuffer : SendBuffer) : WM Z :=
  m ← wgets sv_mgr;
  match sm_name_sessions m !! target_name with
  | None => mret 0
  | Some sid =>
      s ← session_get sid;
      if negb (s_is_connect s) then mret 0
      else on_session sid (Session_send sendBuffer);; mret 1
  end.

Definition PONG_TIMEOUT_MS : Z := 15000.

(** One round of [check_heartbeat]. *)
Definition check_heartbeat_session (now : Z) (sid : nat) : WM () :=
  s ← session_get sid;
  if negb (s_is_connect s) then mret ()
  else if s_waiting_pong s then
    if u64 (now - s_last_ping_tick s) >? PONG_TIMEOUT_MS then on_session sid Session_disconnect else mret ()
  else on_session sid (GameSession_send_ping now).

Definition SessionManager_check_heartbeat (now : Z) : WM () :=
  m ← wgets sv_mgr;
  for_each (set_order (sm_sessions m)) (check_heartbeat_session now).
End SessionManager.
