(* ===== verification/Handlers.v ===== *)
(** * Packet handlers, session cleanup, and the server's operations

    The handlers of GameServer/Packet/ServerPacketHandler.cpp,
    [GameSession::on_disconnect] (GameServer/Main/GameSession.cpp), the cleanup job of
    [Session::process_disconnect], the tail of [Listener::process_accept] and
    [Service::close_service].  A handler runs as one job of its session's queue; the
    service outlives its sessions, so the weak references to it are never expired. *)

From stdpp Require Import base list numbers option gmap sorting.
From Stdlib Require Import ZArith Lia.
From S2P Require Import Prelude Buffers SendEvents Framing JobQueues Wire Protocol Packets Accounts Rooms Sessions SessionSafety Managers.

Section Handlers.
Context {codec : PacketCodec} {api : StringApi} {os : Os}.

(** [SEND_PACKET]. *)
Definition SEND (session : nat) (pkt : Packet) : WM () := on_session session (SEND_PACKET pkt).

(** ** Login *)

(** The body that [Handle_REQ_LOGIN] and [Handle_REQ_BOT_LOGIN] share; [ack] builds
    the answer from the account id, the name and the result. *)
Definition login_request (session : nat) (is_create : bool) (id pw name : bytes)
    (ack : Z -> bytes -> Z -> Packet) : WM bool :=
  if bool_decide (id = []) || (zlen id >? 32) then mret false
  else if bool_decide (pw = []) || (zlen pw >? 32) then mret false
  else if is_create && (bool_decide (name = []) || (zlen name >? 32)) then mret false
  else
    s ← session_get session;
    if s_is_login s then on_session session Session_disconnect;; mret false
    else
      lg ← wgets sv_login;
      let '(result, user_name, idx, lg') :=
        if is_create then
          let user_name := Utf8ToWString name in
          let '(result, idx, lg') := Login_create_account id pw user_name 0 lg in
          (result, user_name, idx, lg')
        else Login_login id pw [] 0 lg in
      wmodify (fun v => v <| sv_login := lg' |>);;
      (if result =? LOGIN_SUCCESS then
         session_set session (fun s => s <| s_is_login := true |>);;
         session_set session (fun s => s <| s_account_idx := idx |>);;
         session_set session (fun s => s <| s_user_name := user_name |>);;
         wmodify (fun v => v <| sv_mgr ::= SessionManager_add_account_session idx session |>);;
         wmodify (fun v => v <| sv_mgr ::= SessionManager_add_name_session user_name session |>);;
         wstat (fun st => st <| st_login ::= bump 1 |>)
       else mret ());;
      SEND session (ack idx (WStringToUtf8 user_name) result);;
      mret true.

Definition Handle_REQ_LOGIN (session : nat) (pkt : REQ_LOGIN) : WM bool :=
  login_request session (REQ_LOGIN_is_create pkt) (REQ_LOGIN_id pkt) (REQ_LOGIN_pw pkt) (REQ_LOGIN_name pkt)
    (fun idx user_name result => P_ACK_LOGIN (mkACK_LOGIN idx user_name result [])).

Definition Handle_REQ_BOT_LOGIN (session : nat) (pkt : REQ_BOT_LOGIN) : WM bool :=
  login_request session (REQ_BOT_LOGIN_is_create pkt) (REQ_BOT_LOGIN_id pkt) (REQ_BOT_LOGIN_pw pkt)
    (REQ_BOT_LOGIN_name pkt)
    (fun idx user_name result => P_ACK_BOT_LOGIN (mkACK_BOT_LOGIN idx user_name result [])).

(** The check at the head of the handlers of a user who must be logged in. *)
Definition require_login (session : nat) (body : WM bool) : WM bool :=
  s ← session_get session;
  if negb (s_is_login s) then on_session session Session_disconnect;; mret false
  else body.

(** [RoomManager::exit_room] as a transition of the server. *)
Definition exit_room (room_id account_id : Z) : WM bool :=
  rl ← wgets sv_rooms;
  let (ok, rl') := RoomManager_exit_room room_id account_id rl in
  wmodify (fun v => v <| sv_rooms := rl' |>);;
  mret ok.

Definition logout (account_id : Z) : WM bool :=
  lg ← wgets sv_login;
  let (ok, lg') := Login_logout account_id lg in
  wmodify (fun v => v <| sv_login := lg' |>);;
  mret ok.

Definition Handle_REQ_LOGOUT (session : nat) (pkt : REQ_LOGOUT) : WM bool :=
  require_login session (
    s ← session_get session;
    (if negb (s_enter_room_id s <? 0) then
       exit_room (s_enter_room_id s) (s_account_idx s);;
       session_set session (fun s => s <| s_enter_room_id := -1 |>)
     else mret ());;
    ok ← logout (s_account_idx s);
    if negb ok then
      SEND session (P_ACK_LOGOUT (mkACK_LOGOUT LOGOUT_FAILE []));; mret true
    else
      wmodify (fun v => v <| sv_mgr ::= SessionManager_release_logout_session (s_account_idx s) session |>);;
      wmodify (fun v => v <| sv_mgr ::= SessionManager_release_name_session (s_user_name s) session |>);;
      session_set session (fun s => s <| s_account_idx := 0 |>);;
      session_set session (fun s => s <| s_user_name := [] |>);;
      session_set session (fun s => s <| s_is_login := false |>);;
      SEND session (P_ACK_LOGOUT (mkACK_LOGOUT LOGOUT_SUCCESS []));;
      mret true).

(** ** Rooms *)

(** The loop over the rooms in the order of their ids. *)
Definition room_info_list (rl : RoomManager) : list RoomInfo :=
  omap (fun k => (fun rm => mkRoomInfo (rm_room_id rm) (rm_room_cur_count rm) (rm_room_max_count rm) []) <$> rl !! k)
    (map_order rl).

Definition Handle_REQ_GET_ROOM_INFO (session : nat) (pkt : REQ_GET_ROOM_INFO) : WM bool :=
  require_login session (
    rl ← wgets sv_rooms;
    SEND session (P_ACK_GET_ROOM_INFO (mkACK_GET_ROOM_INFO (room_info_list rl) []));;
    mret true).

Definition Handle_REQ_ENTER_ROOM (session : nat) (pkt : REQ_ENTER_ROOM) : WM bool :=
  require_login session (
    s ← session_get session;
    let enter_room_id := REQ_ENTER_ROOM_room_id pkt in
    if negb (s_enter_room_id s <? 0) then
      SEND session (P_ACK_ENTER_ROOM (mkACK_ENTER_ROOM 0 ENTER_ROOM_FAIL []));; mret true
    else
      rl ← wgets sv_rooms;
      let (ok, rl') := RoomManager_enter_room enter_room_id (s_account_idx s) session rl in
      wmodify (fun v => v <| sv_rooms := rl' |>);;
      if negb ok then
        SEND session (P_ACK_ENTER_ROOM (mkACK_ENTER_ROOM 0 ENTER_ROOM_FAIL []));; mret true
      else
        session_set session (fun s => s <| s_enter_room_id := enter_room_id |>);;
        SEND session (P_ACK_ENTER_ROOM (mkACK_ENTER_ROOM enter_room_id ENTER_ROOM_SUCCESS []));;
        mret true).

Definition Handle_REQ_EXIT_ROOM (session : nat) (pkt : REQ_EXIT_ROOM) : WM bool :=
  require_login session (
    s ← session_get session;
    let exit_room_id := s_enter_room_id s in
    left ← (if exit_room_id <? 0 then mret false else exit_room exit_room_id (s_account_idx s));
    if negb left then
      SEND session (P_ACK_EXIT_ROOM (mkACK_EXIT_ROOM EXIT_ROOM_FAIL []));; mret true
    else
      session_set session (fun s => s <| s_enter_room_id := -1 |>);;
      SEND session (P_ACK_EXIT_ROOM (mkACK_EXIT_ROOM EXIT_ROOM_SUCCESS []));;
      mret true).

(** ** Chat *)

Definition chat_fail (session : nat) (result : Z) : WM bool :=
  SEND session (P_ACK_CHAT (mkACK_CHAT result 0 []));; mret true.

(** The tail the three kinds of chat share: the buffer is built and handed to
    [deliver], the statistics and the answer get the number of targets. *)
Definition chat_deliver (session : nat) (user_name : wstring) (message : bytes) (deliver : SendBuffer -> WM Z)
    : WM bool :=
  match MakeSendBuffer (P_ACK_SEND_CHAT (mkACK_SEND_CHAT (WStringToUtf8 user_name) message [])) with
  | None => fun _ => None
  | Some sendBuffer =>
      targetCount ← deliver sendBuffer;
      wstat (fun st => st <| st_broadcast_packet ::= bump 1 |> <| st_broadcast_target ::= bump targetCount |>);;
      wstat (fun st => st <| st_recv_chat ::= bump 1 |>);;
      SEND session (P_ACK_CHAT (mkACK_CHAT CHAT_ERROR_SUCCESS (u32 targetCount) []));;
      mret true
  end.

Definition Handle_REQ_CHAT (session : nat) (pkt : REQ_CHAT) : WM bool :=
  require_login session (
    s ← session_get session;
    let message := REQ_CHAT_message pkt in
    if bool_decide (message = []) || (zlen message >? 256) then chat_fail session CHAT_ERROR_FAIL
    else if REQ_CHAT_chat_state pkt =? CHAT_NORMAL then
      if s_enter_room_id s <? 0 then chat_fail session CHAT_ERROR_FAIL
      else if negb (s_enter_room_id s =? REQ_CHAT_room_id pkt) then chat_fail session CHAT_ERROR_FAIL
      else chat_deliver session (s_user_name s) message (SessionManager_normal_chat (REQ_CHAT_room_id pkt))
    else if REQ_CHAT_chat_state pkt =? CHAT_ALL then
      chat_deliver session (s_user_name s) message SessionManager_all_chat
    else if REQ_CHAT_chat_state pkt =? CHAT_WHISPER then
      let target := REQ_CHAT_target_name pkt in
      if bool_decide (target = []) || (zlen target >? 32) then chat_fail session CHAT_ERROR_FAIL
      else
        m ← wgets sv_mgr;
        if negb (SessionManager_is_whisper_target_find (Utf8ToWString target) m)
        then chat_fail session CHAT_ERROR_NOT_TARGET
        else chat_deliver session (s_user_name s) message (SessionManager_whisper_chat (Utf8ToWString target))
    else chat_fail session CHAT_ERROR_FAIL).

(** [now] is [GetTickCount64()]. *)
Definition Handle_REQ_CONNECT_PONG (session : nat) (now : Z) (pkt : REQ_CONNECT_PONG) : WM bool :=
  session_set session (fun s => s <| s_last_pong_tick := now |>);;
  session_set session (fun s => s <| s_waiting_pong := false |>);;
  mret true.

(** ** Jobs *)

(** The functions [ServerPacketHandler::Init] registers; the other packets have no
    handler and are never queued. *)
Definition packet_handler (session : nat) (now : Z) (pkt : Packet) : WM bool :=
  match pkt with
  | P_REQ_LOGIN m => Handle_REQ_LOGIN session m
  | P_REQ_BOT_LOGIN m => Handle_REQ_BOT_LOGIN session m
  | P_REQ_LOGOUT m => Handle_REQ_LOGOUT session m
  | P_REQ_GET_ROOM_INFO m => Handle_REQ_GET_ROOM_INFO session m
  | P_REQ_ENTER_ROOM m => Handle_REQ_ENTER_ROOM session m
  | P_REQ_EXIT_ROOM m => Handle_REQ_EXIT_ROOM session m
  | P_REQ_CHAT m => Handle_REQ_CHAT session m
  | P_REQ_CONNECT_PONG m => Handle_REQ_CONNECT_PONG session now m
  | _ => mret false
  end.

Definition GameSession_on_disconnect (session : nat) : WM () :=
  wstat (fun st => st <| st_disconnect ::= bump 1 |>);;
  s ← session_get session;
  (if negb (s_enter_room_id s <? 0) then
     exit_room (s_enter_room_id s) (s_account_idx s);;
     session_set session (fun s => s <| s_enter_room_id := -1 |>)
   else mret ());;
  session_set session (fun s => s <| s_is_login := false |>);;
  if s_is_login s then logout (s_account_idx s);; mret () else mret ().

(** The job queued by [process_disconnect]. *)
Definition cleanup_job (session : nat) : WM () :=
  s ← session_get session;
  (if s_was_connected s then GameSession_on_disconnect session else mret ());;
  SessionManager_on_disconnected session;;
  session_set session (fun s => s <| s_account_idx := 0 |>);;
  session_set session (fun s => s <| s_user_name := [] |>);;
  session_set session (fun s => s <| s_enter_room_id := -1 |>);;
  session_set session (fun s => s <| s_cleanup_done := true |>).

(** One job of a session's queue, from the lambda of [HandlePacket] or of
    [process_disconnect] to the end of the wrapper of [queue_logic]. *)
Definition run_job (session : nat) (now : Z) (job : SessionJob) : WM () :=
  match job with
  | PacketJob pkt =>
      s ← session_get session;
      if s_is_connect s then packet_handler session now pkt;; mret () else mret ()
  | CleanupJob => cleanup_job session
  end.

Definition next_job (session : nat) (now : Z) : WM () :=
  s ← session_get session;
  match s_logic_queue s with
  | [] => mret ()
  | job :: rest =>
      session_set session (fun s => s <| s_logic_queue := rest |>);;
      run_job session now job;;
      on_session session Session_job_done
  end.

(** ** Accepting, and closing the service *)

(** [Service::create_session]; [made] tells whether the factory made an object with a
    socket and the completion port took it. *)
Definition Service_create_session (made : bool) : WM (option nat) :=
  v ← wgets id;
  if sv_closing v then mret None
  else if negb made then mret None
  else
    wmodify (fun v => v <| sv_sessions ::= insert (sv_next v) Session_new |> <| sv_next ::= S |>);;
    mret (Some (sv_next v)).

(** The part of [Listener::process_accept] after the checks of the socket. *)
Definition accept_session (session : nat) : WM () :=
  ok ← SessionManager_on_connected session;
  if (ok : bool) then mret ()
  else
    m ← wgets sv_mgr;
    on_session session (Session_reject_connection (sm_max_session_count m)).

(** [Service::close_service] up to its waiting. *)
Definition Service_close_service : WM () :=
  wmodify (fun v => v <| sv_closing := true |>);;
  v ← wgets id;
  for_each (set_order (dom (sv_sessions v))) (fun session => on_session session Session_begin_shutdown).

(** What can happen to the server. *)
Inductive ServerOp :=
  | SvCreate (made : bool)
  | SvAccept (session : nat)
  | SvCompletion (session : nat) (c : Completion) (failed : bool)
  | SvJob (session : nat) (now : Z)
  | SvHeartbeat (now : Z)
  | SvClose.

Definition exec (op : ServerOp) : WM () :=
  match op with
  | SvCreate made => Service_create_session made;; mret ()
  | SvAccept session => accept_session session
  | SvCompletion session c failed => on_session session (complete c failed)
  | SvJob session now => next_job session now
  | SvHeartbeat now => SessionManager_check_heartbeat now
  | SvClose => Service_close_service
  end.
End Handlers.
