(* ===== verification/Users.v ===== *)
(** * Users: what ties sessions, accounts, rooms and the session manager together

    The server keeps the same facts in several places: whether a session is logged
    in and as whom, the list of accounts logged in, the manager's maps from accounts
    and names to sessions, and the members of the rooms.  [user_inv] says that they
    agree.  The lemmas are the transitions the handlers make, as pure steps; the
    code is shown to make them in [ServerSafety]. *)

From stdpp Require Import base list numbers option gmap.
From Stdlib Require Import ZArith Lia.
From S2P Require Import Prelude Wire Protocol Accounts Rooms Sessions Managers.

(** ** The view of a session *)

(** What the other components know of a session. *)
Record View := mkView {
  v_account : Z;
  v_room : Z;
  v_name : wstring;
  v_login : bool;
  v_cleaned : bool;
  v_was : bool;
  v_rejected : bool;
  v_down : bool
}.

#[export] Instance View_settable : Settable View :=
  fun v => mkView (v_account v) (v_room v) (v_name v) (v_login v) (v_cleaned v) (v_was v) (v_rejected v) (v_down v).

Definition view (s : Session) : View :=
  mkView (s_account_idx s) (s_enter_room_id s) (s_user_name s) (s_is_login s) (s_cleanup_done s)
    (s_was_connected s) (s_close_after_send s) (s_shutdown_started s).

(** A session the manager counts: accepted, not turned away, not cleaned up. *)
Definition v_member (v : View) : bool := v_was v && negb (v_rejected v) && negb (v_cleaned v).

(** ** The invariant *)

Record user_inv (vs : gmap nat View) (lg : Login) (rl : RoomManager) (m : SessionManager) : Prop := {
  ui_login : forall sid v, vs !! sid = Some v -> v_login v = true ->
    v_member v = true /\ v_account v ∈ lg_login_list lg /\ (v_room v = -1 \/ 0 <= v_room v) /\
    exists info, account_of (v_account v) lg info /\ ai_user_name info = v_name v;
  ui_anonymous : forall sid v, vs !! sid = Some v -> v_login v = false ->
    v_account v = 0 /\ v_name v = [] /\ v_room v = -1;
  ui_owner : forall a, a ∈ lg_login_list lg ->
    exists sid v, vs !! sid = Some v /\ v_login v = true /\ v_account v = a;
  ui_accounts : forall a sid, sm_account_sessions m !! a = Some sid <->
    exists v, vs !! sid = Some v /\ v_login v = true /\ v_account v = a;
  ui_names : forall w sid, sm_name_sessions m !! w = Some sid <->
    w <> [] /\ exists v, vs !! sid = Some v /\ v_login v = true /\ v_name v = w;
  ui_rooms : forall k a sid, room_members rl k !! a = Some sid <->
    0 <= k /\ exists v, vs !! sid = Some v /\ v_login v = true /\ v_account v = a /\ v_room v = k;
  ui_members : forall sid, sid ∈ sm_sessions m <-> exists v, vs !! sid = Some v /\ v_member v = true;
  ui_count : sm_session_count m = Z.of_nat (size (sm_sessions m)) /\
             sm_session_count m <= sm_max_session_count m < 2 ^ 31
}.

(** The tables themselves. *)
Record tables_inv (lg : Login) (rl : RoomManager) : Prop := {
  ti_login : Login_wf lg;
  ti_names : names_have_accounts lg;
  ti_short : forall id info, lg_memory_login_info_db lg !! id = Some info -> zlen (ai_user_name info) <= 32;
  ti_rooms : rooms_wf rl;
  ti_ids : forall k, is_Some (rl !! k) -> 0 <= k < max_room_count;
  ti_room : forall k rm, rl !! k = Some rm -> 0 <= rm_room_id rm < 256
}.

Lemma user_inv_init n :
  0 <= n < 2 ^ 31 -> user_inv ∅ Login_new RoomManager_create_room (SessionManager_new n).
Proof.
  intros Hn. constructor; try (intros *; rewrite lookup_empty; done).
  - unfold Login_new. simpl. set_solver.
  - intros a sid. unfold SessionManager_new. simpl. rewrite lookup_empty. split; [done|]. intros (v & Hv & _). by rewrite lookup_empty in Hv.
  - intros w sid. unfold SessionManager_new. simpl. rewrite lookup_empty. split; [done|]. intros (_ & v & Hv & _). by rewrite lookup_empty in Hv.
  - intros k a sid. destruct rooms_initial as (_ & _ & ->). rewrite lookup_empty. split; [done|].
    intros (_ & v & Hv & _). by rewrite lookup_empty in Hv.
  - intros sid. unfold SessionManager_new. cbn [sm_sessions]. split; [set_solver|]. intros (v & Hv & _). by rewrite lookup_empty in Hv.
  - unfold SessionManager_new. cbn [sm_session_count sm_sessions sm_max_session_count].
    rewrite size_empty. simpl. lia.
Qed.

Lemma insert_view_iff (P : View -> Prop) (vs : gmap nat View) sid v j :
  (exists w, <[sid := v]> vs !! j = Some w /\ P w) <->
  (j = sid /\ P v) \/ (j <> sid /\ exists w, vs !! j = Some w /\ P w).
Proof.
  split.
  - intros (w & H & HP). apply lookup_insert_Some in H as [[-> ->]|[Hne H]]; [by left|right; eauto].
  - intros [[-> HP]|(Hne & w & H & HP)]; [exists v; by rewrite lookup_insert_eq|].
    exists w. by rewrite lookup_insert_ne.
Qed.

Lemma insert_keeps_iff (P : View -> Prop) (vs : gmap nat View) sid v v' :
  (P v' <-> P v) -> vs !! sid = Some v -> forall j,
  (exists w, <[sid := v']> vs !! j = Some w /\ P w) <-> (exists w, vs !! j = Some w /\ P w).
Proof.
  intros HP Hv j. rewrite insert_view_iff. split.
  - intros [[-> H]|[_ H]]; [exists v; split; [done|by apply HP]|done].
  - intros (w & H & Hw). destruct (decide (j = sid)) as [->|Hne]; [left|right; eauto].
    split; [done|]. apply HP. congruence.
Qed.

(** A change that leaves the facts of [user_inv] as they are. *)
Lemma user_inv_same vs lg rl m sid v v' :
  user_inv vs lg rl m -> vs !! sid = Some v ->
  v_account v' = v_account v -> v_room v' = v_room v -> v_name v' = v_name v -> v_login v' = v_login v ->
  v_member v' = v_member v -> user_inv (<[sid := v']> vs) lg rl m.
Proof.
  intros Hi Hv Ha Hr Hn Hl Hm.
  pose proof (fun P HP => insert_keeps_iff P vs sid v v' HP Hv) as Hiff.
  destruct Hi as [H1 H2 H3 H4 H5 H6 H7 H8]. constructor; try done.
  - intros j w [[<- <-]|[Hne H]]%lookup_insert_Some Hw; [|by eapply H1].
    rewrite Hl in Hw. rewrite Ha, Hr, Hn, Hm. by eapply H1.
  - intros j w [[<- <-]|[Hne H]]%lookup_insert_Some Hw; [|by eapply H2].
    rewrite Hl in Hw. rewrite Ha, Hr, Hn. by eapply H2.
  - intros a Hin. destruct (H3 a Hin) as (j & w & Hj & Hw & Haw).
    exists j. apply (Hiff (fun w => v_login w = true /\ v_account w = a)); [by rewrite Hl, Ha|eauto].
  - intros a j. rewrite H4. symmetry. apply (Hiff (fun w => v_login w = true /\ v_account w = a)). by rewrite Hl, Ha.
  - intros w j. rewrite H5. apply and_iff_compat_l. symmetry.
    apply (Hiff (fun x => v_login x = true /\ v_name x = w)). by rewrite Hl, Hn.
  - intros k a j. rewrite H6. apply and_iff_compat_l. symmetry.
    apply (Hiff (fun x => v_login x = true /\ v_account x = a /\ v_room x = k)). by rewrite Hl, Ha, Hr.
  - intros j. rewrite H7. symmetry. apply (Hiff (fun x => v_member x = true)). by rewrite Hm.
Qed.

(** ** Logging in *)

(** What a successful [create_account] or [login] does to the login table. *)
Record login_grants (lg : Login) (a : Z) (w : wstring) (lg' : Login) : Prop := {
  gr_fresh : a ∉ lg_login_list lg;
  gr_list : lg_login_list lg' = {[a]} ∪ lg_login_list lg;
  gr_account : exists info, account_of a lg' info /\ ai_user_name info = w;
  gr_keep : forall b info, account_of b lg info -> account_of b lg' info;
  gr_range : 0 < a < 2 ^ 64
}.

Lemma account_name_inj lg a b x y :
  Login_wf lg -> account_of a lg x -> account_of b lg y -> ai_user_name x = ai_user_name y -> a = b.
Proof.
  intros Hwf [Hx <-] [Hy <-] Hn. assert (ai_id x = ai_id y) as Hid.
  { eapply (lgw_inj lg Hwf); [exact Hx|exact Hy|by right]. }
  rewrite Hid in Hx. congruence.
Qed.

Section Transitions.
Context (vs : gmap nat View) (lg : Login) (rl : RoomManager) (m : SessionManager).
Context (Hi : user_inv vs lg rl m) (sid : nat) (v : View) (Hv : vs !! sid = Some v).

Lemma not_owner a : a ∉ lg_login_list lg -> forall j w, vs !! j = Some w -> v_login w = true -> v_account w <> a.
Proof using Hi. intros Ha j w Hj Hl <-. destruct (ui_login _ _ _ _ Hi j w Hj Hl) as (_ & ? & _). done. Qed.

Lemma add_account_lookup a b s mm :
  a <> 0 -> sm_account_sessions (SessionManager_add_account_session a s mm) !! b = <[a := s]> (sm_account_sessions mm) !! b.
Proof using. intros Ha. unfold SessionManager_add_account_session. by rewrite (proj2 (Z.eqb_neq a 0)). Qed.

Lemma user_login a w lg' :
  v_login v = false -> v_member v = true -> Login_wf lg' -> login_grants lg a w lg' ->
  user_inv (<[sid := v <| v_login := true |> <| v_account := a |> <| v_name := w |>]> vs) lg' rl
    (SessionManager_add_name_session w sid (SessionManager_add_account_session a sid m)).
Proof using Hi Hv.
  intros Hl Hmem Hwf [Hfresh Hlist (info & Hacc & Hname) Hkeep Ha].
  pose proof (not_owner a Hfresh) as Hno. destruct Hi as [H1 H2 H3 H4 H5 H6 H7 H8].
  destruct (H2 sid v Hv Hl) as (Hva & Hvn & Hvr).
  assert (forall j x, j <> sid -> vs !! j = Some x -> v_login x = true -> v_name x <> w) as Hnn.
  { intros j x Hj Hx Hlx Hw. destruct (H1 j x Hx Hlx) as (_ & _ & _ & i & Hai & Hni).
    apply (Hno j x Hx Hlx). eapply (account_name_inj lg'); [done|by apply Hkeep|done|congruence]. }
  assert (forall j x, vs !! j = Some x -> v_login x = true -> j <> sid) as Hother.
  { intros j x Hj Hx ->. congruence. }
  constructor.
  - intros j x [[<- <-]|[Hne H]]%lookup_insert_Some Hx; simpl in *.
    + split; [done|]. split; [set_solver|]. split; [by left|]. by exists info.
    + destruct (H1 j x H Hx) as (? & ? & ? & i & ? & ?). split; [done|]. split; [set_solver|].
      split; [done|]. exists i. auto.
  - intros j x [[<- <-]|[Hne H]]%lookup_insert_Some Hx; [done|by eapply H2].
  - intros b Hb. rewrite Hlist in Hb. destruct (decide (b = a)) as [->|Hba].
    + exists sid. eexists. rewrite lookup_insert_eq. done.
    + destruct (H3 b) as (j & x & Hj & Hx & ?); [set_solver|]. exists j, x.
      rewrite lookup_insert_ne; [done|]. intros <-. congruence.
  - intros b j. transitivity (sm_account_sessions (SessionManager_add_account_session a sid m) !! b = Some j).
    { unfold SessionManager_add_name_session. by case_bool_decide. }
    rewrite add_account_lookup by lia.
    rewrite (insert_view_iff (fun x => v_login x = true /\ v_account x = b)), lookup_insert_Some, H4. simpl.
    split.
    + intros [[-> ->]|[Hne (x & Hx & ? & ?)]]; [by left|]. right. eauto 6.
    + intros [(-> & _ & ->)|(Hne & x & Hx & Hlx & <-)]; [by left|]. right. split; [|eauto].
      intros Heq. by apply (Hno j x Hx Hlx).
  - intros x j. unfold SessionManager_add_name_session.
    rewrite (insert_view_iff (fun y => v_login y = true /\ v_name y = x)). simpl.
    assert (sm_name_sessions (SessionManager_add_account_session a sid m) = sm_name_sessions m) as Hsm.
    { unfold SessionManager_add_account_session. by case_match. }
    case_bool_decide as Hw; simpl; rewrite ?lookup_insert_Some, Hsm, H5.
    + split; [intros (? & y & Hy & ? & ?); split; [done|]; right; eauto 6|].
      intros (? & [(-> & _ & ->)|(_ & ?)]); [done|]. done.
    + split.
      * intros [[-> ->]|(Hne & ? & y & Hy & ? & ?)]; [by auto|]. split; [done|]. right. eauto 6.
      * intros (Hx & [(-> & _ & ->)|(Hne & y & Hy & Hly & <-)]); [by left|]. right. split; [|eauto].
        intros Heq. by apply (Hnn j y).
  - intros k b j. rewrite H6, (insert_view_iff (fun x => v_login x = true /\ v_account x = b /\ v_room x = k)). simpl.
    split.
    + intros (Hk & x & Hx & ? & ? & ?). split; [done|]. right. eauto 8.
    + intros (Hk & [(_ & _ & _ & ?)|(_ & ?)]); [lia|done].
  - intros j. transitivity (j ∈ sm_sessions m).
    { unfold SessionManager_add_name_session, SessionManager_add_account_session. by repeat case_match. }
    rewrite H7, (insert_view_iff (fun x => v_member x = true)). split.
    + intros (x & Hx & ?). destruct (decide (j = sid)) as [->|]; [left|right; eauto]. split; [done|].
      by replace x with v in * by congruence.
    + intros [(-> & _)|(_ & ?)]; [eauto|done].
  - unfold SessionManager_add_name_session, SessionManager_add_account_session. by repeat case_match.
Qed.

(** ** Rooms *)

Lemma session_account_unique j x :
  vs !! j = Some x -> v_login x = true -> v_login v = true -> v_account x = v_account v -> j = sid.
Proof using Hi Hv.
  intros Hj Hx Hl Ha. assert (sm_account_sessions m !! v_account v = Some sid) as E1.
  { apply (ui_accounts _ _ _ _ Hi). eauto. }
  assert (sm_account_sessions m !! v_account v = Some j) as E2.
  { apply (ui_accounts _ _ _ _ Hi). eauto. }
  congruence.
Qed.

(** A room change touches the room facts only. *)
Lemma user_room k rl' :
  v_login v = true -> k = -1 \/ 0 <= k ->
  (forall r a j, room_members rl' r !! a = Some j <->
     0 <= r /\ ((j = sid /\ a = v_account v /\ r = k) \/
                (j <> sid /\ exists x, vs !! j = Some x /\ v_login x = true /\ v_account x = a /\ v_room x = r))) ->
  user_inv (<[sid := v <| v_room := k |>]> vs) lg rl' m.
Proof using Hi Hv.
  intros Hl Hk Hrooms.
  pose proof (fun P HP => insert_keeps_iff P vs sid v (v <| v_room := k |>) HP Hv) as Hiff.
  destruct Hi as [H1 H2 H3 H4 H5 H6 H7 H8]. constructor; try done.
  - intros j x [[<- <-]|[Hne H]]%lookup_insert_Some Hx; [|by eapply H1].
    destruct (H1 sid v Hv Hl) as (? & ? & _ & ?). done.
  - intros j x [[<- <-]|[Hne H]]%lookup_insert_Some Hx; [simpl in Hx; congruence|by eapply H2].
  - intros a Hin. destruct (H3 a Hin) as (j & w & Hj & Hw & Haw).
    exists j. apply (Hiff (fun w => v_login w = true /\ v_account w = a)); [done|eauto].
  - intros a j. rewrite H4. symmetry. by apply (Hiff (fun w => v_login w = true /\ v_account w = a)).
  - intros w j. rewrite H5. apply and_iff_compat_l. symmetry.
    by apply (Hiff (fun x => v_login x = true /\ v_name x = w)).
  - intros r a j. rewrite Hrooms. apply and_iff_compat_l.
    rewrite (insert_view_iff (fun x => v_login x = true /\ v_account x = a /\ v_room x = r)). simpl.
    split; (intros [(-> & ?)|?]; [left|by right]); naive_solver.
  - intros j. rewrite H7. symmetry. by apply (Hiff (fun x => v_member x = true)).
Qed.

Lemma user_enter k rl' :
  v_login v = true -> v_room v = -1 -> 0 <= k ->
  (forall j, room_members rl' j = if decide (j = k) then <[v_account v := sid]> (room_members rl k) else room_members rl j) ->
  user_inv (<[sid := v <| v_room := k |>]> vs) lg rl' m.
Proof using Hi Hv.
  intros Hl Hr Hk Hm. apply user_room; [done|by right|]. intros r a j. rewrite Hm.
  assert (forall r a j, room_members rl r !! a = Some j <->
    0 <= r /\ (j <> sid /\ exists x, vs !! j = Some x /\ v_login x = true /\ v_account x = a /\ v_room x = r)) as H6.
  { intros r' a' j'. rewrite (ui_rooms _ _ _ _ Hi).
    split; [|by intros (? & _ & ?)]. intros (H0 & x & Hx & ? & ? & ?). split; [done|]. split; [|eauto 6].
    intros ->. rewrite Hv in Hx. injection Hx as <-. lia. }
  case_decide as Hd; [subst r; rewrite lookup_insert_Some|]; rewrite H6.
  - split.
    + intros [[<- <-]|(Hne & ? & ?)]; [split; [done|]; by left|]. split; [done|]. by right.
    + intros (_ & [(-> & -> & _)|(Hne & x & Hx & Hlx & Hax & Hrx)]); [by left|]. right. split; [|eauto 8].
      intros <-. apply Hne. by eapply session_account_unique.
  - split; [intros (? & ?); split; [done|by right]|]. intros (? & [(_ & _ & ?)|?]); [done|]. done.
Qed.

Lemma user_exit rl' :
  v_login v = true -> 0 <= v_room v ->
  (forall j, room_members rl' j = if decide (j = v_room v) then delete (v_account v) (room_members rl (v_room v))
                                  else room_members rl j) ->
  user_inv (<[sid := v <| v_room := -1 |>]> vs) lg rl' m.
Proof using Hi Hv.
  intros Hl Hr Hm. apply user_room; [done|by left|]. intros r a j. rewrite Hm.
  assert (0 <= r /\ (j <> sid /\ exists x, vs !! j = Some x /\ v_login x = true /\ v_account x = a /\ v_room x = r)
    <-> 0 <= r /\ (j = sid /\ a = v_account v /\ r = -1 \/
         j <> sid /\ exists x, vs !! j = Some x /\ v_login x = true /\ v_account x = a /\ v_room x = r)) as <-.
  { split; [intros (? & ?); split; [done|by right]|]. intros (? & [(_ & _ & ?)|?]); [lia|done]. }
  case_decide as Hd; [subst r; rewrite lookup_delete_Some|]; rewrite (ui_rooms _ _ _ _ Hi).
  - split.
    + intros (Hne & ? & x & Hx & ? & ? & ?). split; [done|]. split; [|eauto 6]. intros ->. congruence.
    + intros (? & Hne & x & Hx & ? & ? & ?). split; [|eauto 8]. intros <-. apply Hne. by eapply session_account_unique.
  - split.
    + intros (? & x & Hx & ? & ? & ?). split; [done|]. split; [|eauto 6]. intros ->. congruence.
    + intros (? & _ & ?). done.
Qed.

(** ** Logging out *)

Lemma account_positive : Login_wf lg -> v_login v = true -> v_account v <> 0.
Proof using Hi Hv.
  intros Hwf Hl. destruct (ui_login _ _ _ _ Hi sid v Hv Hl) as (_ & _ & _ & info & [Hd <-] & _).
  destruct (lgw_ids lg Hwf _ _ Hd) as (_ & ? & _). lia.
Qed.

Lemma release_account_lookup b j :
  Login_wf lg -> v_login v = true ->
  sm_account_sessions (SessionManager_release_logout_session (v_account v) sid m) !! b = Some j <->
  b <> v_account v /\ sm_account_sessions m !! b = Some j.
Proof using Hi Hv.
  intros Hwf Hl. assert (sm_account_sessions m !! v_account v = Some sid) as E.
  { apply (ui_accounts _ _ _ _ Hi). eauto. }
  unfold SessionManager_release_logout_session.
  rewrite (proj2 (Z.eqb_neq _ _)) by by apply account_positive.
  rewrite E, bool_decide_eq_true_2 by done. simpl. rewrite lookup_delete_Some. naive_solver.
Qed.

Lemma release_name_lookup mm x j :
  sm_name_sessions mm = sm_name_sessions m -> v_login v = true ->
  sm_name_sessions (SessionManager_release_name_session (v_name v) sid mm) !! x = Some j <->
  x <> v_name v /\ sm_name_sessions m !! x = Some j.
Proof using Hi Hv.
  intros Hmm Hl. unfold SessionManager_release_name_session. case_bool_decide as E0.
  - rewrite Hmm. split; [|by intros [_ ?]]. intros H. split; [|done].
    apply (ui_names _ _ _ _ Hi) in H as [? _]. congruence.
  - assert (sm_name_sessions m !! v_name v = Some sid) as E.
    { apply (ui_names _ _ _ _ Hi). eauto. }
    rewrite Hmm, E, bool_decide_eq_true_2 by done. simpl. rewrite lookup_delete_Some, Hmm. naive_solver.
Qed.

Lemma session_name_unique j x :
  vs !! j = Some x -> v_login x = true -> v_login v = true -> v_name x = v_name v -> v_name v <> [] -> j = sid.
Proof using Hi Hv.
  intros Hj Hx Hl Ha Hne. assert (sm_name_sessions m !! v_name v = Some sid) as E1.
  { apply (ui_names _ _ _ _ Hi). eauto. }
  assert (sm_name_sessions m !! v_name v = Some j) as E2.
  { apply (ui_names _ _ _ _ Hi). eauto. }
  congruence.
Qed.

Lemma user_logout :
  Login_wf lg -> v_login v = true -> v_room v = -1 ->
  user_inv (<[sid := v <| v_login := false |> <| v_account := 0 |> <| v_name := [] |>]> vs)
    (lg <| lg_login_list := lg_login_list lg ∖ {[v_account v]} |>) rl
    (SessionManager_release_name_session (v_name v) sid
       (SessionManager_release_logout_session (v_account v) sid m)).
Proof using Hi Hv.
  intros Hwf Hl Hr. set (v' := v <| v_login := false |> <| v_account := 0 |> <| v_name := [] |>).
  assert (sm_name_sessions (SessionManager_release_logout_session (v_account v) sid m) = sm_name_sessions m) as Hsm.
  { unfold SessionManager_release_logout_session. by repeat case_match. }
  pose proof session_account_unique as Hau. pose proof session_name_unique as Hnu.
  pose proof (fun x j => release_name_lookup _ x j Hsm Hl) as Hrn.
  pose proof (fun b j => release_account_lookup b j Hwf Hl) as Hra.
  destruct Hi as [H1 H2 H3 H4 H5 H6 H7 H8]. constructor.
  - intros j x [[<- <-]|[Hne H]]%lookup_insert_Some Hx; [done|].
    destruct (H1 j x H Hx) as (? & ? & ? & ?). split; [done|]. split; [|done]. simpl.
    apply elem_of_difference. split; [done|]. intros E%elem_of_singleton. apply Hne. symmetry. by eapply Hau.
  - intros j x [[<- <-]|[Hne H]]%lookup_insert_Some Hx; [done|by eapply H2].
  - intros b [Hb Hnb]%elem_of_difference. destruct (H3 b Hb) as (j & x & Hj & Hx & Ha). exists j, x.
    rewrite lookup_insert_ne; [done|]. intros <-. rewrite Hv in Hj. injection Hj as <-. set_solver.
  - intros b j. transitivity (sm_account_sessions (SessionManager_release_logout_session (v_account v) sid m) !! b = Some j).
    { unfold SessionManager_release_name_session. by repeat case_match. }
    rewrite Hra, H4, (insert_view_iff (fun x => v_login x = true /\ v_account x = b)). split.
    + intros (Hb & x & Hx & ? & ?). right. split; [|eauto]. intros ->. congruence.
    + intros [(_ & ? & _)|(Hne & x & Hx & Hlx & <-)]; [done|]. split; [|eauto]. intros E. apply Hne. by eapply Hau.
  - intros x j. rewrite Hrn, H5, (insert_view_iff (fun y => v_login y = true /\ v_name y = x)). split.
    + intros (Hx & ? & y & Hy & ? & ?). split; [done|]. right. split; [|eauto]. intros ->. congruence.
    + intros (? & [(_ & ? & _)|(Hne & y & Hy & Hly & <-)]); [done|]. split; [|eauto]. intros E. apply Hne.
      eapply Hnu; [done..|]. congruence.
  - intros k a j. rewrite H6, (insert_view_iff (fun x => v_login x = true /\ v_account x = a /\ v_room x = k)).
    split.
    + intros (? & x & Hx & ? & ? & ?). split; [done|]. right. split; [|eauto 6]. intros ->.
      rewrite Hv in Hx. injection Hx as <-. lia.
    + intros (? & [(_ & ? & _)|(_ & ?)]); [done|]. done.
  - intros j. transitivity (j ∈ sm_sessions m).
    { unfold SessionManager_release_name_session, SessionManager_release_logout_session. by repeat case_match. }
    rewrite H7. symmetry. by apply (insert_keeps_iff (fun x => v_member x = true) vs sid v v').
  - unfold SessionManager_release_name_session, SessionManager_release_logout_session. by repeat case_match.
Qed.

(** ** Connecting and leaving *)

(** The set of sessions and its counter change together. *)
Lemma user_member v' m' :
  v_account v' = v_account v -> v_room v' = v_room v -> v_name v' = v_name v -> v_login v' = v_login v ->
  v_login v = false -> sm_account_sessions m' = sm_account_sessions m -> sm_name_sessions m' = sm_name_sessions m ->
  (forall j, j ∈ sm_sessions m' <-> (j = sid /\ v_member v' = true) \/ (j <> sid /\ j ∈ sm_sessions m)) ->
  sm_session_count m' = Z.of_nat (size (sm_sessions m')) ->
  sm_session_count m' <= sm_max_session_count m' < 2 ^ 31 ->
  user_inv (<[sid := v']> vs) lg rl m'.
Proof using Hi Hv.
  intros Ha Hr Hn Hl Hl0 Hsa Hsn Hmem Hcnt Hmax.
  pose proof (fun P HP => insert_keeps_iff P vs sid v v' HP Hv) as Hiff.
  destruct Hi as [H1 H2 H3 H4 H5 H6 H7 H8]. constructor; try done.
  - intros j w [[<- <-]|[Hne H]]%lookup_insert_Some Hw; [congruence|by eapply H1].
  - intros j w [[<- <-]|[Hne H]]%lookup_insert_Some Hw; [|by eapply H2].
    rewrite Ha, Hr, Hn. by eapply H2.
  - intros a Hin. destruct (H3 a Hin) as (j & w & Hj & Hw & Haw).
    exists j. apply (Hiff (fun w => v_login w = true /\ v_account w = a)); [by rewrite Hl, Ha|eauto].
  - intros a j. rewrite Hsa, H4. symmetry.
    apply (Hiff (fun w => v_login w = true /\ v_account w = a)). by rewrite Hl, Ha.
  - intros w j. rewrite Hsn, H5. apply and_iff_compat_l. symmetry.
    apply (Hiff (fun x => v_login x = true /\ v_name x = w)). by rewrite Hl, Hn.
  - intros k a j. rewrite H6. apply and_iff_compat_l. symmetry.
    apply (Hiff (fun x => v_login x = true /\ v_account x = a /\ v_room x = k)). by rewrite Hl, Ha, Hr.
  - intros j. rewrite Hmem, (insert_view_iff (fun x => v_member x = true)), H7. done.
Qed.

Lemma not_member : v_member v = false -> sid ∉ sm_sessions m.
Proof using Hi Hv. intros Hn (x & Hx & ?)%(ui_members _ _ _ _ Hi). congruence. Qed.

Lemma user_connected :
  v_was v = false -> v_login v = false -> v_rejected v = false -> v_cleaned v = false ->
  sm_session_count m < sm_max_session_count m ->
  user_inv (<[sid := v <| v_was := true |>]> vs) lg rl
    (m <| sm_sessions := {[sid]} ∪ sm_sessions m |> <| sm_session_count := sm_session_count m + 1 |>).
Proof using Hi Hv.
  intros Hw Hl Hrj Hc Hlt. assert (sid ∉ sm_sessions m) as Hn.
  { apply not_member. unfold v_member. by rewrite Hw. }
  destruct (ui_count _ _ _ _ Hi) as [Hcnt Hmax]. apply user_member; try done; simpl.
  - intros j. unfold v_member. simpl. rewrite Hrj, Hc. set_solver.
  - rewrite size_union by set_solver. rewrite size_singleton. lia.
  - lia.
Qed.

Lemma user_cleaned :
  v_login v = false ->
  user_inv (<[sid := v <| v_cleaned := true |>]> vs) lg rl (SessionManager_erase_session sid m).
Proof using Hi Hv.
  intros Hl. assert (v_member (v <| v_cleaned := true |>) = false) as Hm.
  { unfold v_member. simpl. by rewrite andb_false_r. }
  destruct (ui_count _ _ _ _ Hi) as [Hcnt Hmax].
  assert (sid ∈ sm_sessions m -> size (sm_sessions m ∖ {[sid]}) = (size (sm_sessions m) - 1)%nat /\ (0 < size (sm_sessions m))%nat) as Hsz.
  { intros Hin. rewrite size_difference by set_solver. rewrite size_singleton. split; [done|].
    destruct (decide (size (sm_sessions m) = 0%nat)) as [E%size_empty_inv|]; [set_solver|lia]. }
  unfold SessionManager_erase_session. case_bool_decide as Hin.
  - destruct (Hsz Hin) as [Hs1 Hs2]. apply user_member; try done; cbn.
    + intros j. cbn in Hm. rewrite Hm. set_solver.
    + rewrite i32_small by lia. rewrite Hs1. lia.
    + rewrite i32_small by lia. lia.
  - apply user_member; try done. intros j. rewrite Hm. split; [|set_solver]. intros Hj. right.
    split; [|done]. by intros ->.
Qed.
End Transitions.

Lemma user_created vs lg rl m sid :
  user_inv vs lg rl m -> vs !! sid = None -> user_inv (<[sid := view Session_new]> vs) lg rl m.
Proof.
  intros Hi Hn. destruct Hi as [H1 H2 H3 H4 H5 H6 H7 H8].
  assert (forall P : View -> Prop, ~ P (view Session_new) -> forall j,
    (exists w, <[sid := view Session_new]> vs !! j = Some w /\ P w) <-> (exists w, vs !! j = Some w /\ P w)) as Hiff.
  { intros P HP j. rewrite insert_view_iff. split; [intros [[_ ?]|[_ ?]]; done|].
    intros (w & Hw & ?). right. split; [congruence|eauto]. }
  constructor; try done.
  - intros j w [[<- <-]|[Hne H]]%lookup_insert_Some Hw; [done|by eapply H1].
  - intros j w [[<- <-]|[Hne H]]%lookup_insert_Some Hw; [done|by eapply H2].
  - intros a Hin. destruct (H3 a Hin) as (j & w & Hj & Hw & Haw).
    exists j. apply (Hiff (fun w => v_login w = true /\ v_account w = a)); [by intros [? _]|eauto].
  - intros a j. rewrite H4. symmetry. apply (Hiff (fun w => v_login w = true /\ v_account w = a)). by intros [? _].
  - intros w j. rewrite H5. apply and_iff_compat_l. symmetry.
    apply (Hiff (fun x => v_login x = true /\ v_name x = w)). by intros [? _].
  - intros k a j. rewrite H6. apply and_iff_compat_l. symmetry.
    apply (Hiff (fun x => v_login x = true /\ v_account x = a /\ v_room x = k)). by intros [? _].
  - intros j. rewrite H7. symmetry. by apply (Hiff (fun x => v_member x = true)).
Qed.
