(* ===== verification/ServerSafety.v ===== *)
(** * The server: invariant and safety

    Every operation of the server ([Handlers.exec]) runs to its end in every
    reachable state: no assertion fails, no buffer is accessed out of range, no
    [OVERLAPPED] is reused.  The invariant is that of every session
    ([SessionSafety]) and the agreement of sessions, accounts, rooms and the session
    manager ([Users]). *)

From stdpp Require Import base list numbers option gmap sorting.
From Stdlib Require Import ZArith Lia.
From S2P Require Import Prelude Buffers SendEvents Framing JobQueues Wire Protocol Packets Accounts Rooms Sessions SessionSafety Managers Handlers Users SessionTheorems.

(** ** Weakest preconditions of the server monad *)

Definition wpw {A} (m : WM A) (Q : A -> Server -> Prop) (v : Server) : Prop :=
  exists a v', m v = Some (a, v') /\ Q a v'.

Lemma wpw_ret {A} (a : A) Q v : Q a v -> wpw (mret a) Q v.
Proof. intros H. by exists a, v. Qed.

Lemma wpw_bind {A B} (m : WM A) (f : A -> WM B) Q v :
  wpw m (fun a v' => wpw (f a) Q v') v -> wpw (m ≫= f) Q v.
Proof.
  intros (a & v' & Hm & b & v'' & Hf & HQ). exists b, v''. split; [|done].
  unfold mbind, WM_bind. by rewrite Hm.
Qed.

Lemma wpw_gets {A} (f : Server -> A) Q v : Q (f v) v -> wpw (wgets f) Q v.
Proof. intros H. by exists (f v), v. Qed.

Lemma wpw_modify f Q v : Q () (f v) -> wpw (wmodify f) Q v.
Proof. intros H. by exists (), (f v). Qed.

Lemma wpw_mono {A} (m : WM A) (P Q : A -> Server -> Prop) v :
  wpw m P v -> (forall a v', P a v' -> Q a v') -> wpw m Q v.
Proof. intros (a & v' & Hm & HP) H. exists a, v'. split; [done|by apply H]. Qed.

Lemma wpw_on_session {A} (m : SM A) sid s Q v :
  sv_sessions v !! sid = Some s ->
  wp m (fun a s' e' => Q a (v <| sv_sessions := <[sid := s']> (sv_sessions v) |> <| sv_env := e' |>)) s (sv_env v) ->
  wpw (on_session sid m) Q v.
Proof.
  intros Hs (a & s' & e' & Hm & HQ). eexists a, _. split; [|exact HQ]. unfold on_session. by rewrite Hs, Hm.
Qed.

Lemma wpw_session_get sid s Q v :
  sv_sessions v !! sid = Some s -> Q s v -> wpw (session_get sid) Q v.
Proof.
  intros Hs HQ. apply (wpw_on_session _ sid s); [done|]. apply wp_get.
  rewrite insert_id by done. by destruct v.
Qed.

Lemma wpw_session_set sid s f Q v :
  sv_sessions v !! sid = Some s -> Q () (v <| sv_sessions := <[sid := f s]> (sv_sessions v) |>) ->
  wpw (session_set sid f) Q v.
Proof.
  intros Hs HQ. apply (wpw_on_session _ sid s); [done|]. apply wp_modify. by destruct v.
Qed.

(** ** The invariant *)

(** The session whose job is running, if any, and whether that job is the cleanup. *)
Abbreviation running := (option (nat * Z)).

Definition run_of (cur : running) (j : nat) : Z :=
  match cur with Some (i, _) => if decide (j = i) then 1 else 0 | None => 0 end.
Definition clean_of (cur : running) (j : nat) : Z :=
  match cur with Some (i, k) => if decide (j = i) then k else 0 | None => 0 end.

(** Room for the jobs a session can still get without receiving: the cleanup. *)
Definition session_ok (cur : running) (j : nat) (s : Session) : Prop :=
  session_inv_at (run_of cur j) (clean_of cur j) s /\
  zlen (s_logic_queue s) + b2z (negb (s_is_disconnect s)) < 2 ^ 31.

Definition sessions_at (cur : running) (v : Server) : Prop :=
  forall j s, sv_sessions v !! j = Some s -> session_ok cur j s.

Definition views (v : Server) : gmap nat View := view <$> sv_sessions v.

(** What the other components agree on. *)
Record users_ok (vs : gmap nat View) (lg : Login) (rl : RoomManager) (m : SessionManager)
    (next : nat) (closing : bool) : Prop := {
  uo_users : user_inv vs lg rl m;
  uo_tables : tables_inv lg rl;
  uo_next : forall j, (next <= j)%nat -> vs !! j = None;
  uo_closing : closing = true -> forall j w, vs !! j = Some w -> v_down w = true
}.

Definition server_ok (v : Server) : Prop :=
  users_ok (views v) (sv_login v) (sv_rooms v) (sv_mgr v) (sv_next v) (sv_closing v).

Definition srv_inv (cur : running) (v : Server) : Prop := sessions_at cur v /\ server_ok v.

(** ** Steps that only concern the network *)

Lemma frame_view s s' : io_frame s s' -> view s' = view s.
Proof. intros []. unfold view. congruence. Qed.

Lemma frame_bound s s' :
  io_frame s s' ->
  zlen (s_logic_queue s') + b2z (negb (s_is_disconnect s')) <= zlen (s_logic_queue s) + b2z (negb (s_is_disconnect s)).
Proof.
  intros Hf. rewrite (fr_queue _ _ Hf), zlen_app. pose proof (fr_disc _ _ Hf) as Hd.
  destruct (s_is_disconnect s), (s_is_disconnect s'); simpl; rewrite ?zlen_cons, ?zlen_nil; try lia.
Qed.

Definition quiet (v v' : Server) : Prop :=
  views v' = views v /\ sv_login v' = sv_login v /\ sv_rooms v' = sv_rooms v /\ sv_mgr v' = sv_mgr v /\
  sv_next v' = sv_next v /\ sv_closing v' = sv_closing v.

Lemma quiet_refl v : quiet v v.
Proof. done. Qed.

Lemma quiet_trans a b c : quiet a b -> quiet b c -> quiet a c.
Proof. intros (? & ? & ? & ? & ? & ?) (? & ? & ? & ? & ? & ?). split_and!; congruence. Qed.

Lemma quiet_ok v v' : quiet v v' -> server_ok v -> server_ok v'.
Proof. intros (Hv & Hl & Hr & Hm & Hn & Hc) Hok. unfold server_ok. by rewrite Hv, Hl, Hr, Hm, Hn, Hc. Qed.

#[export] Hint Resolve quiet_refl : server.

Lemma views_insert v v' sid s' :
  sv_sessions v' = <[sid := s']> (sv_sessions v) -> views v' = <[sid := view s']> (views v).
Proof. intros H. unfold views. by rewrite H, fmap_insert. Qed.

Lemma views_lookup v sid s : sv_sessions v !! sid = Some s -> views v !! sid = Some (view s).
Proof. intros H. unfold views. by rewrite lookup_fmap, H. Qed.

Lemma sessions_insert cur v v' sid s' :
  sessions_at cur v -> sv_sessions v' = <[sid := s']> (sv_sessions v) -> session_ok cur sid s' ->
  sessions_at cur v'.
Proof.
  intros Hs Hv Hok j s. rewrite Hv. intros [[<- <-]|[_ H]]%lookup_insert_Some; [done|by apply Hs].
Qed.

Lemma run_of_range cur j : 0 <= run_of cur j <= 1.
Proof. unfold run_of. repeat case_match; lia. Qed.

(** A step of one session on the network. *)
Definition net_step (cur : running) (v v' : Server) : Prop := sessions_at cur v' /\ quiet v v'.

Lemma net_step_trans cur a b c : net_step cur a b -> net_step cur b c -> net_step cur a c.
Proof. intros [_ H1] [H2 H3]. split; [done|by eapply quiet_trans]. Qed.

Lemma on_session_net {A} (m : SM A) cur v sid s (R : Session -> Prop) :
  sessions_at cur v -> sv_sessions v !! sid = Some s ->
  (forall e, wp m (fun _ s' _ => session_inv_at (run_of cur sid) (clean_of cur sid) s' /\ io_frame s s' /\ R s') s e) ->
  wpw (on_session sid m) (fun _ v' => net_step cur v v' /\
    exists s', sv_sessions v' = <[sid := s']> (sv_sessions v) /\ io_frame s s' /\ R s') v.
Proof.
  intros Hs Hsid Hm. apply (wpw_on_session m sid s); [done|].
  eapply wp_mono; [apply Hm|]. intros a s' e' (Hi & Hf & HR). split; [split|eauto].
  - eapply (sessions_insert cur v); [done|done|]. split; [done|].
    destruct (Hs sid s Hsid) as [_ Hb]. pose proof (frame_bound s s' Hf). lia.
  - split_and!; try done. rewrite (views_insert v _ sid s') by done.
    rewrite (frame_view s s' Hf). apply insert_id. by apply views_lookup.
Qed.

(** *** Setters *)

(** The part of a session the network invariant speaks about. *)
Definition net_part (s : Session) : Session :=
  s <| s_account_idx := 0 |> <| s_enter_room_id := 0 |> <| s_user_name := [] |> <| s_is_login := false |>
    <| s_last_pong_tick := 0 |> <| s_waiting_pong := false |>.

Lemma net_part_inv r k s : session_inv_at r k (net_part s) <-> session_inv_at r k s.
Proof. split; intros ([] & ? & ? & ?); (split; [by constructor|done]). Qed.

Lemma net_part_ok cur j s s' : net_part s' = net_part s -> session_ok cur j s -> session_ok cur j s'.
Proof.
  intros H [Hi Hb]. split; [by apply net_part_inv; rewrite H; apply net_part_inv|].
  pose proof (f_equal s_logic_queue H) as Hq. pose proof (f_equal s_is_disconnect H) as Hd.
  simpl in Hq, Hd. by rewrite Hq, Hd.
Qed.

(** A session known to satisfy the invariant, with other identity fields. *)
Lemma sessions_ident cur v v' sid s s' :
  sessions_at cur v -> sv_sessions v !! sid = Some s -> sv_sessions v' = <[sid := s']> (sv_sessions v) ->
  net_part s' = net_part s -> sessions_at cur v'.
Proof.
  intros Hs Hsid Hv Hn. eapply sessions_insert; [done|done|]. eapply net_part_ok; [done|by apply Hs].
Qed.

Ltac wpw_simpl :=
  repeat lazymatch goal with
  | |- wpw (_ ≫= _) _ _ => apply wpw_bind
  | |- wpw (mret _) _ _ => apply wpw_ret
  | |- wpw (wgets _) _ _ => apply wpw_gets
  | |- wpw (wmodify _) _ _ => apply wpw_modify
  | |- wpw (wstat _) _ _ => unfold wstat; apply wpw_modify
  end; cbv beta.

Lemma set_rooms_same v : v <| sv_rooms := sv_rooms v |> = v.
Proof. by destruct v. Qed.

Lemma set_login_same v : v <| sv_login := sv_login v |> = v.
Proof. by destruct v. Qed.

Section Server.
Context {utf8 : Utf8Check} {codec : PacketCodec} {laws : PacketCodecLaws codec}.
Context {api : StringApi} {api_laws : StringApiLaws api} {os : Os}.

Lemma queue_room cur v sid s :
  sessions_at cur v -> sv_sessions v !! sid = Some s ->
  session_inv_at (run_of cur sid) (clean_of cur sid) s /\ zlen (s_logic_queue s) < 2 ^ 31.
Proof.
  intros Hs H. destruct (Hs sid s H) as [Hi Hb]. split; [done|].
  destruct (s_is_disconnect s); simpl in Hb; lia.
Qed.

Lemma send_net cur v sid s b :
  sessions_at cur v -> sv_sessions v !! sid = Some s -> buffer_ok b ->
  wpw (on_session sid (Session_send b)) (fun _ v' => net_step cur v v' /\
    exists s', sv_sessions v' = <[sid := s']> (sv_sessions v) /\ io_frame s s' /\
      (s_is_connect s' = true -> outgoing s' = outgoing s ++ SendBuffer_payload b)) v.
Proof.
  intros Hs Hsid Hb. destruct (queue_room cur v sid s Hs Hsid) as [Hi Hq].
  apply on_session_net; [done..|]. intros e. apply send_inv; try done. apply run_of_range.
Qed.

Lemma disconnect_net cur v sid s :
  sessions_at cur v -> sv_sessions v !! sid = Some s ->
  wpw (on_session sid Session_disconnect) (fun _ v' => net_step cur v v') v.
Proof.
  intros Hs Hsid. destruct (queue_room cur v sid s Hs Hsid) as [Hi Hq].
  eapply wpw_mono; [apply (on_session_net _ cur v sid s (fun s' => s_is_connect s' = false)); [done..|]|].
  - intros e. apply disconnect_inv; try done. apply run_of_range.
  - by intros ? ? [? _].
Qed.

Lemma SEND_net cur v sid s pkt :
  sessions_at cur v -> sv_sessions v !! sid = Some s -> packet_sized pkt -> packet_bound pkt <= 65531 ->
  wpw (SEND sid pkt) (fun _ v' => net_step cur v v') v.
Proof using laws.
  intros Hs Hsid Hp Hb. destruct (made_buffer_ok pkt Hp Hb) as (b & Heq & Hok).
  unfold SEND, SEND_PACKET. rewrite Heq. eapply wpw_mono; [by eapply send_net|]. by intros ? ? [? _].
Qed.

(** ** Handlers *)

Section Handler.
Context (cur : running) (v : Server) (sid : nat) (s : Session).
Context (Hinv : srv_inv cur v) (Hsid : sv_sessions v !! sid = Some s).

Definition handled (v' : Server) : Prop := srv_inv cur v' /\ is_Some (sv_sessions v' !! sid).

Lemma handled_same : handled v.
Proof using Hinv Hsid. split; [done|]. rewrite Hsid. eauto. Qed.

Lemma net_step_handled v1 v2 : handled v1 -> net_step cur v1 v2 -> handled v2.
Proof using.
  intros [[_ Hok] Hs] [Hat Hq]. split; [split; [done|by eapply quiet_ok]|].
  destruct Hq as [Hv _]. destruct Hs as [s1 Hs1]. apply views_lookup in Hs1. rewrite <- Hv in Hs1.
  unfold views in Hs1. rewrite lookup_fmap in Hs1. destruct (sv_sessions v2 !! sid); [eauto|done].
Qed.

(** An answer ends a handler. *)
Lemma answer_handled v1 s1 pkt (b : bool) :
  handled v1 -> sv_sessions v1 !! sid = Some s1 -> packet_sized pkt -> packet_bound pkt <= 65531 ->
  wpw (SEND sid pkt) (fun _ v' => wpw (mret b) (fun _ v'' => handled v'') v') v1.
Proof using laws.
  intros Hh Hs1 Hp Hb. eapply wpw_mono; [apply (SEND_net cur v1 sid s1); [apply Hh|done..]|].
  intros ? v2 Hn. wpw_simpl. by eapply net_step_handled.
Qed.

Lemma require_login_handled body :
  (s_is_login s = true -> wpw body (fun _ v' => handled v') v) ->
  wpw (require_login sid body) (fun _ v' => handled v') v.
Proof using Hinv Hsid.
  intros Hb. unfold require_login. wpw_simpl. apply (wpw_session_get sid s); [done|].
  destruct (s_is_login s); cbn [negb]; [by apply Hb|]. wpw_simpl.
  eapply wpw_mono; [apply (disconnect_net cur v sid s); [apply Hinv|done]|].
  intros ? v2 Hn. wpw_simpl. eapply net_step_handled; [apply handled_same|done].
Qed.

Lemma omap_len {A B} (f : A -> option B) l : (length (omap f l) <= length l)%nat.
Proof using. induction l as [|x l IH]; [done|]. csimpl. destruct (f x); simpl; lia. Qed.

Lemma room_info_wf rl :
  tables_inv (sv_login v) rl -> Forall RoomInfo_wf (room_info_list rl) /\ zlen (room_info_list rl) <= 10.
Proof using.
  intros [_ _ _ Hw Hids Hrid]. split.
  - unfold room_info_list. apply Forall_forall. intros ri (k & Hk & Hri)%list_elem_of_omap.
    destruct (rl !! k) as [rm|] eqn:E; [|done]. injection Hri as <-.
    destruct (Hw k rm E) as [Hc Hb Hm]. pose proof (Hrid k rm E). unfold RoomInfo_wf. split_and!; simpl; lia || done.
  - unfold room_info_list. set (f := fun k => _).
    pose proof (omap_len f (map_order rl)) as Hl. unfold zlen.
    assert (length (map_order rl) = size (dom rl)) as Hm.
    { unfold map_order. rewrite merge_sort_Permutation. done. }
    assert (size (dom rl) <= size (list_to_set (Z.of_nat <$> seq 0 10) : gset Z))%nat as Hs.
    { apply subseteq_size. intros k Hk%elem_of_dom. apply Hids in Hk. unfold max_room_count in Hk.
      rewrite elem_of_list_to_set, list_elem_of_fmap. exists (Z.to_nat k). rewrite elem_of_seq. lia. }
    change (size (list_to_set (Z.of_nat <$> seq 0 10) : gset Z)) with 10%nat in Hs. lia.
Qed.

Lemma get_room_info_handled pkt :
  wpw (Handle_REQ_GET_ROOM_INFO sid pkt) (fun _ v' => handled v') v.
Proof using laws Hinv Hsid.
  apply require_login_handled. intros _. wpw_simpl.
  destruct (room_info_wf (sv_rooms v)) as [Hw Hl]; [apply Hinv|].
  apply (answer_handled v s); [apply handled_same|done| |simpl; lia].
  split; [done|]. split; [simpl; lia|done].
Qed.

(** *** Rooms *)

Lemma user_of :
  user_inv (views v) (sv_login v) (sv_rooms v) (sv_mgr v) /\ views v !! sid = Some (view s) /\
  tables_inv (sv_login v) (sv_rooms v).
Proof using Hinv Hsid. destruct Hinv as [_ []]. split; [done|]. split; [by apply views_lookup|done]. Qed.

(** A transition of this session's user. *)
Lemma user_step v' s' :
  sv_sessions v' = <[sid := s']> (sv_sessions v) -> net_part s' = net_part s ->
  s_shutdown_started s' = s_shutdown_started s ->
  sv_next v' = sv_next v -> sv_closing v' = sv_closing v ->
  user_inv (<[sid := view s']> (views v)) (sv_login v') (sv_rooms v') (sv_mgr v') ->
  tables_inv (sv_login v') (sv_rooms v') -> handled v'.
Proof using Hinv Hsid.
  intros Hs' Hn Hd Hnx Hcl Hu Ht. destruct Hinv as [Hat [_ _ Hnext Hclos]]. split; [split|].
  - by eapply sessions_ident.
  - unfold server_ok. rewrite (views_insert v v' sid s'), Hnx, Hcl by done. constructor; try done.
    + intros j Hj. rewrite lookup_insert_ne; [by apply Hnext|]. intros <-.
      apply Hnext in Hj. by rewrite (views_lookup v sid s) in Hj.
    + intros Hc j w [[<- <-]|[_ H]]%lookup_insert_Some; [|by eapply Hclos].
      simpl. rewrite Hd. by apply (Hclos Hc sid (view s)), views_lookup.
  - rewrite Hs', lookup_insert_eq. eauto.
Qed.

Lemma tables_rooms lg rl rl' :
  tables_inv lg rl -> rooms_wf rl' -> same_rooms rl rl' -> tables_inv lg rl'.
Proof using.
  intros [? ? ? ? Hids Hrid] Hw Hs. constructor; try done.
  - intros k [rm Hk]. apply Hids. specialize (Hs k). rewrite Hk in Hs. destruct (rl !! k); [eauto|done].
  - intros k rm' Hk. specialize (Hs k). rewrite Hk in Hs. destruct (rl !! k) as [rm|] eqn:E; [|done].
    injection Hs as ->. by eapply Hrid.
Qed.

Lemma account_range : s_is_login s = true -> 0 <= s_account_idx s < 2 ^ 64.
Proof using Hinv Hsid.
  intros Hl. destruct user_of as (Hu & Hv & [Hwf _ _ _ _ _]).
  destruct (ui_login _ _ _ _ Hu sid _ Hv Hl) as (_ & _ & _ & info & [Hd Ha] & _). simpl in Ha.
  destruct (lgw_ids _ Hwf _ _ Hd) as (_ & ? & _). pose proof (lgw_counter _ Hwf). lia.
Qed.

Lemma enter_room_handled pkt :
  wpw (Handle_REQ_ENTER_ROOM sid pkt) (fun _ v' => handled v') v.
Proof using laws Hinv Hsid.
  apply require_login_handled. intros Hl. wpw_simpl. apply (wpw_session_get sid s); [done|].
  destruct user_of as (Hu & Hv & Ht). pose proof (account_range Hl) as Ha.
  assert (forall v1 s1, handled v1 -> sv_sessions v1 !! sid = Some s1 ->
    wpw (SEND sid (P_ACK_ENTER_ROOM (mkACK_ENTER_ROOM 0 ENTER_ROOM_FAIL [])))
      (fun _ v' => wpw (mret true) (fun _ v'' => handled v'') v') v1) as Hfail.
  { intros. eapply answer_handled; [done|done| |simpl; lia]. done. }
  destruct (s_enter_room_id s <? 0) eqn:Er; cbn [negb]; bool_lia; wpw_simpl.
  2: { apply (Hfail v s); [apply handled_same|done]. }
  set (k := REQ_ENTER_ROOM_room_id pkt). destruct (ui_login _ _ _ _ Hu sid _ Hv Hl) as (_ & _ & Hroom & _).
  destruct (enter_room_cases (sv_rooms v) k (s_account_idx s) sid) as
    [(rl' & Heq & Hw & Hsame)|(rm & rl' & Hk & _ & _ & Heq & Hw & Hmem & Hsame)]; [apply Ht|lia| |];
    rewrite Heq; wpw_simpl; cbn [negb]; wpw_simpl.
  - assert (rl' = sv_rooms v) as -> by by apply map_eq. rewrite set_rooms_same.
    apply (Hfail v s); [apply handled_same|done].
  - assert (0 <= k < max_room_count) as Hk10 by (apply Ht; eauto).
    apply (wpw_session_set sid s); [done|]. wpw_simpl.
    eapply answer_handled; [|by simpl; rewrite lookup_insert_eq| |simpl; lia].
    + eapply user_step; try done.
      * apply (user_enter _ _ _ _ Hu sid _ Hv k); try done; simpl; [|lia]. destruct Hroom as [?|Hr]; [done|simpl in Hr; lia].
      * by eapply tables_rooms.
    + unfold max_room_count in Hk10. split; [simpl; lia|]. done.
Qed.

(** The step of leaving a room, which three handlers take. *)
Lemma exit_room_wp Q :
  s_is_login s = true -> 0 <= s_enter_room_id s ->
  (forall rl', user_inv (<[sid := view (s <| s_enter_room_id := -1 |>)]> (views v)) (sv_login v) rl' (sv_mgr v) ->
     tables_inv (sv_login v) rl' -> Q true (v <| sv_rooms := rl' |>)) ->
  wpw (exit_room (s_enter_room_id s) (s_account_idx s)) Q v.
Proof using Hinv Hsid.
  intros Hl Hr HQ. destruct user_of as (Hu & Hv & Ht). unfold exit_room. wpw_simpl.
  destruct (exit_room_cases (sv_rooms v) (s_enter_room_id s) (s_account_idx s)) as
    [(rl' & _ & _ & _ & Hnone)|(rl' & Heq & _ & Hw & Hmem & Hsame)]; [apply Ht| |].
  - exfalso. assert (room_members (sv_rooms v) (s_enter_room_id s) !! s_account_idx s = Some sid) as E.
    { apply (ui_rooms _ _ _ _ Hu). split; [done|]. eauto 6. }
    congruence.
  - rewrite Heq. wpw_simpl. apply HQ; [|by eapply tables_rooms].
    by apply (user_exit _ _ _ _ Hu sid _ Hv rl').
Qed.

Lemma exit_room_handled pkt :
  wpw (Handle_REQ_EXIT_ROOM sid pkt) (fun _ v' => handled v') v.
Proof using laws Hinv Hsid.
  apply require_login_handled. intros Hl. wpw_simpl. apply (wpw_session_get sid s); [done|].
  cbv zeta. wpw_simpl. destruct (s_enter_room_id s <? 0) eqn:Er; bool_lia; wpw_simpl.
  - cbn [negb]. wpw_simpl. eapply answer_handled; [apply handled_same|done| |simpl; lia]. done.
  - apply exit_room_wp; [done|done|]. intros rl' Hu' Ht'. cbn [negb]. wpw_simpl.
    apply (wpw_session_set sid s); [done|]. wpw_simpl.
    eapply answer_handled; [|by simpl; rewrite lookup_insert_eq| |simpl; lia]; [|done].
    by eapply user_step.
Qed.
End Handler.

(** Leaving the room, if any: what logging out and cleaning up begin with. *)
Lemma leave_room_wp cur v sid s Q :
  srv_inv cur v -> sv_sessions v !! sid = Some s -> s_is_login s = true ->
  (forall v1, srv_inv cur v1 -> sv_sessions v1 !! sid = Some (s <| s_enter_room_id := -1 |>) ->
     sv_login v1 = sv_login v -> Q () v1) ->
  wpw (if negb (s_enter_room_id s <? 0) then
         exit_room (s_enter_room_id s) (s_account_idx s);;
         session_set sid (fun s => s <| s_enter_room_id := -1 |>)
       else mret ()) Q v.
Proof.
  intros Hinv Hsid Hl HQ. destruct (user_of cur v sid s Hinv Hsid) as (Hu & Hv & Ht).
  destruct (ui_login _ _ _ _ Hu sid _ Hv Hl) as (_ & _ & Hroom & _). simpl in Hroom.
  destruct (s_enter_room_id s <? 0) eqn:Er; cbn [negb]; bool_lia; wpw_simpl.
  - apply HQ; try done. destruct Hroom as [Hr|?]; [|lia].
    replace (s <| s_enter_room_id := -1 |>) with s; [done|]. destruct s; simpl in *. by subst.
  - apply (exit_room_wp cur v sid s); try done. intros rl' Hu' Ht'.
    apply (wpw_session_set sid s); [done|]. apply HQ; [|by simpl; rewrite lookup_insert_eq|done].
    by eapply (user_step cur v sid s).
Qed.

Lemma logout_table lg a :
  Login_wf lg -> names_have_accounts lg -> a ∈ lg_login_list lg ->
  let lg' := lg <| lg_login_list := lg_login_list lg ∖ {[a]} |> in
  Login_logout a lg = (true, lg') /\ Login_wf lg' /\ names_have_accounts lg'.
Proof.
  intros Hwf Hn Ha lg'. assert (Login_logout a lg = (true, lg')) as E.
  { rewrite logout_spec. by rewrite bool_decide_eq_true_2. }
  split; [done|]. pose proof (logout_wf lg a Hwf Hn) as Hw. by rewrite E in Hw.
Qed.

Lemma tables_logout lg rl a :
  tables_inv lg rl -> tables_inv (lg <| lg_login_list := lg_login_list lg ∖ {[a]} |>) rl.
Proof.
  intros [Hwf Hn Hs ? ? ?]. destruct (decide (a ∈ lg_login_list lg)) as [Ha|Ha].
  - destruct (logout_table lg a Hwf Hn Ha) as (_ & ? & ?). by constructor.
  - replace (lg_login_list lg ∖ {[a]}) with (lg_login_list lg) by set_solver.
    by replace (lg <| lg_login_list := lg_login_list lg |>) with lg by by destruct lg.
Qed.

Lemma logout_handled cur v sid s pkt :
  srv_inv cur v -> sv_sessions v !! sid = Some s ->
  wpw (Handle_REQ_LOGOUT sid pkt) (fun _ v' => handled cur sid v') v.
Proof using laws api_laws.
  intros Hinv Hsid. apply (require_login_handled cur v sid s); [done..|]. intros Hl. wpw_simpl.
  apply (wpw_session_get sid s); [done|]. wpw_simpl.
  apply (leave_room_wp cur v sid s); [done..|]. intros v1 Hinv1 Hsid1 Hlg1.
  set (s1 := s <| s_enter_room_id := -1 |>) in *.
  destruct (user_of cur v1 sid s1 Hinv1 Hsid1) as (Hu & Hv & Ht).
  destruct (ui_login _ _ _ _ Hu sid _ Hv Hl) as (_ & Hin & _). simpl in Hin.
  pose proof Ht as [Hwf Hn _ _ _ _].
  destruct (logout_table (sv_login v1) (s_account_idx s) Hwf Hn Hin) as (Heq & Hwf' & Hn').
  unfold logout. wpw_simpl. rewrite Heq. wpw_simpl. cbn [negb]. wpw_simpl.
  eapply wpw_session_set; [exact Hsid1|]. wpw_simpl.
  eapply wpw_session_set; [by simpl; rewrite lookup_insert_eq|]. wpw_simpl.
  eapply wpw_session_set; [by simpl; rewrite lookup_insert_eq|]. wpw_simpl.
  eapply answer_handled; [|by simpl; rewrite lookup_insert_eq|done|simpl; lia].
  apply (user_step cur v1 sid s1 Hinv1 Hsid1 _
           (s1 <| s_account_idx := 0 |> <| s_user_name := [] |> <| s_is_login := false |>)); try done.
  - simpl. by rewrite !insert_insert_eq.
  - by apply (user_logout _ _ _ _ Hu sid _ Hv).
  - by apply tables_logout.
Qed.

(** *** Logging in *)

(** The call of [create_account] or [login] in the login handlers. *)
Definition login_call (is_create : bool) (id pw name : bytes) (lg : Login) : Z * wstring * Z * Login :=
  if is_create then
    let user_name := Utf8ToWString name in
    let '(result, idx, lg') := Login_create_account id pw user_name 0 lg in
    (result, user_name, idx, lg')
  else Login_login id pw [] 0 lg.

Lemma create_outcome id pw w lg result idx lg' :
  Login_wf lg -> names_have_accounts lg -> lg_account_id lg + 1 < 2 ^ 64 ->
  Login_create_account id pw w 0 lg = (result, idx, lg') ->
  (result = LOGIN_SUCCESS /\ login_grants lg idx w lg' /\
     (forall i info, lg_memory_login_info_db lg' !! i = Some info ->
        ai_user_name info = w \/ lg_memory_login_info_db lg !! i = Some info)) \/
  (2 <= result < 8 /\ idx = 0 /\ lg' = lg).
Proof.
  intros Hwf Hn Hc Heq.
  destruct (create_account_cases lg Hwf id pw w 0 Hc) as [[_ E]|[(_ & _ & _ & E)|(Hi & _ & E)]];
    rewrite E in Heq; injection Heq as <- <- <-; [right; done|right; done|left].
  split; [done|]. split; [constructor; simpl|].
  - intros Hin. destruct (lgw_logged lg Hwf _ Hin) as (i & info & Hd & Ha).
    destruct (lgw_ids lg Hwf _ _ Hd) as (_ & ? & _). lia.
  - done.
  - exists (mkAccountInfo (lg_account_id lg) id pw w).
    split; [split; [simpl; by rewrite lookup_insert_eq|done]|done].
  - intros b info [Hd Hb]. split; [|done]. simpl. rewrite lookup_insert_ne; [done|]. intros ->. congruence.
  - pose proof (lgw_counter lg Hwf). lia.
  - simpl. intros i info [[<- <-]|[_ H]]%lookup_insert_Some; auto.
Qed.

Lemma login_outcome id pw lg result w idx lg' :
  Login_wf lg -> Login_login id pw [] 0 lg = (result, w, idx, lg') ->
  (result = LOGIN_SUCCESS /\ login_grants lg idx w lg' /\
     (exists info, lg_memory_login_info_db lg !! id = Some info /\ ai_user_name info = w) /\
     lg_memory_login_info_db lg' = lg_memory_login_info_db lg) \/
  (2 <= result < 8 /\ idx = 0 /\ w = [] /\ lg' = lg).
Proof.
  intros Hwf Heq.
  destruct (login_cases lg id pw [] 0) as [[_ E]|(info & Hi & [[_ E]|[(_ & _ & E)|(_ & Hl & E)]])];
    rewrite E in Heq; injection Heq as <- <- <- <-; [right; done|right; done|right; done|left].
  destruct (lgw_ids lg Hwf _ _ Hi) as (Hid & Hr & _). pose proof (lgw_counter lg Hwf).
  split; [done|]. split; [constructor; simpl|]; try done.
  - exists info. split; [split; [simpl; congruence|done]|done].
  - lia.
  - eauto.
Qed.

Lemma login_call_outcome is_create id pw name lg rl result w idx lg' :
  tables_inv lg rl -> lg_account_id lg + 1 < 2 ^ 64 -> (is_create = true -> zlen name <= 32) ->
  login_call is_create id pw name lg = (result, w, idx, lg') ->
  tables_inv lg' rl /\ zlen w <= 32 /\ 0 <= idx < 2 ^ 64 /\
  (result = LOGIN_SUCCESS /\ login_grants lg idx w lg' \/ 2 <= result < 8 /\ lg' = lg).
Proof using api_laws.
  intros Ht Hc Hlen. pose proof Ht as [Hwf Hn Hs ? ? ?]. unfold login_call. destruct is_create.
  - destruct (Login_create_account _ _ _ _ _) as [[res i] lg1] eqn:E. intros [= <- <- <- <-].
    pose proof (Utf8ToWString_len name) as Hw. specialize (Hlen eq_refl).
    pose proof (create_account_wf lg id pw (Utf8ToWString name) 0 Hwf Hn Hc) as Hwf'. rewrite E in Hwf'.
    destruct (create_outcome _ _ _ _ _ _ _ Hwf Hn Hc E) as [(Hres & Hg & Hdb)|(Hres & -> & ->)].
    + destruct Hwf'. pose proof (gr_range _ _ _ _ Hg). split; [|split; [lia|split; [lia|by left]]].
      constructor; try done. intros j info Hj. destruct (Hdb j info Hj) as [->|?]; [lia|by eapply Hs].
    + split; [done|]. split; [lia|]. split; [lia|]. by right.
  - intros E. pose proof (login_wf lg id pw [] 0 Hwf Hn) as Hwf'. rewrite E in Hwf'.
    destruct (login_outcome _ _ _ _ _ _ _ Hwf E) as [(Hres & Hg & (info & Hi & <-) & Hdb)|(Hres & -> & -> & ->)].
    + destruct Hwf'. pose proof (gr_range _ _ _ _ Hg). split; [|split; [by eapply Hs|split; [lia|by left]]].
      constructor; try done. intros j x Hj. simpl in Hdb. rewrite Hdb in Hj. by eapply Hs.
    + split; [done|]. split; [rewrite zlen_nil; lia|]. split; [lia|]. by right.
Qed.

Lemma login_handled cur v sid s is_create id pw name ack :
  srv_inv cur v -> sv_sessions v !! sid = Some s -> v_member (view s) = true ->
  lg_account_id (sv_login v) + 1 < 2 ^ 64 ->
  (forall a u r, 0 <= a < 2 ^ 64 -> string_wf u -> zlen u <= 96 -> 0 <= r < 256 ->
     packet_sized (ack a u r) /\ packet_bound (ack a u r) <= 65531) ->
  wpw (login_request sid is_create id pw name ack) (fun _ v' => handled cur sid v') v.
Proof using laws api_laws.
  intros Hinv Hsid Hmem Hc Hack. pose proof (handled_same cur v sid s Hinv Hsid) as Hsame.
  unfold login_request.
  destruct (_ || _) in |- *; [by wpw_simpl|]. destruct (_ || _) in |- *; [by wpw_simpl|].
  destruct (is_create && _) eqn:Ename; [by wpw_simpl|].
  assert (is_create = true -> zlen name <= 32) as Hlen.
  { intros ->. simpl in Ename. bool_lia. lia. }
  wpw_simpl. apply (wpw_session_get sid s); [done|]. destruct (s_is_login s) eqn:Hl; wpw_simpl.
  { eapply wpw_mono; [apply (disconnect_net cur v sid s); [apply Hinv|done]|].
    intros ? v2 Hn2. wpw_simpl. by eapply net_step_handled. }
  destruct (user_of cur v sid s Hinv Hsid) as (Hu & Hv & Ht).
  fold (login_call is_create id pw name (sv_login v)).
  destruct (login_call is_create id pw name (sv_login v)) as [[[result w] idx] lg'] eqn:E.
  destruct (login_call_outcome _ _ _ _ _ _ _ _ _ _ Ht Hc Hlen E) as (Ht' & Hw & Hidx & Hres).
  destruct (WStringToUtf8_wf w) as [Hu8 Hu8l]; [lia|].
  wpw_simpl. destruct Hres as [[-> Hg]|[Hr ->]].
  - change (LOGIN_SUCCESS =? LOGIN_SUCCESS) with true. cbv iota. wpw_simpl.
    eapply wpw_session_set; [exact Hsid|]. wpw_simpl.
    eapply wpw_session_set; [by simpl; rewrite lookup_insert_eq|]. wpw_simpl.
    eapply wpw_session_set; [by simpl; rewrite lookup_insert_eq|]. wpw_simpl.
    destruct (Hack idx (WStringToUtf8 w) LOGIN_SUCCESS) as [Hp Hb]; [done|done|lia|done|].
    eapply answer_handled; [|by simpl; rewrite lookup_insert_eq|done|done].
    apply (user_step cur v sid s Hinv Hsid _
             (s <| s_is_login := true |> <| s_account_idx := idx |> <| s_user_name := w |>)); try done.
    + simpl. by rewrite !insert_insert_eq.
    + apply (user_login _ _ _ _ Hu sid _ Hv); [done|done|apply Ht'|done].
  - rewrite (proj2 (Z.eqb_neq result LOGIN_SUCCESS)) by (unfold LOGIN_SUCCESS; lia). wpw_simpl.
    rewrite set_login_same. destruct (Hack idx (WStringToUtf8 w) result) as [Hp Hb]; [done|done|lia|lia|].
    by eapply answer_handled.
Qed.

(** *** Chat *)

Definition passes (test : Session -> bool) (v : Server) (j : nat) : bool :=
  match sv_sessions v !! j with Some s => test s | None => false end.

(** What sending one buffer to the sessions in [l] that pass [test] does: those, and
    only those, get its bytes appended to what they still have to send, unless they
    are disconnected. *)
Definition sent_to (test : Session -> bool) (l : list nat) (b : SendBuffer) (v v' : Server) : Prop :=
  forall j s, sv_sessions v !! j = Some s ->
  exists s', sv_sessions v' !! j = Some s' /\
    (if bool_decide (j ∈ l) && test s
     then io_frame s s' /\ (s_is_connect s' = true -> outgoing s' = outgoing s ++ SendBuffer_payload b)
     else s' = s).

Lemma net_step_some cur v v' j : net_step cur v v' -> is_Some (sv_sessions v !! j) -> is_Some (sv_sessions v' !! j).
Proof.
  intros [_ (Hv & _)] [s Hs]. apply views_lookup in Hs. rewrite <- Hv in Hs. unfold views in Hs.
  rewrite lookup_fmap in Hs. destruct (sv_sessions v' !! j); [eauto|done].
Qed.

Lemma net_step_refl cur v : sessions_at cur v -> net_step cur v v.
Proof. by split. Qed.

Lemma filter_ext_in (P Q : nat -> bool) (l : list nat) :
  (forall j, j ∈ l -> P j = Q j) -> filter (fun j => P j = true) l = filter (fun j => Q j = true) l.
Proof.
  intros H. induction l as [|x l IH]; [done|]. rewrite !filter_cons.
  rewrite IH by (intros; apply H; by right). by rewrite (H x) by by left.
Qed.

Lemma filter_all (l : list nat) : filter (fun _ => true = true) l = l.
Proof. induction l as [|x l IH]; [done|]. rewrite filter_cons, decide_True by done. by rewrite IH. Qed.

Lemma send_each_wp cur test b l : forall v count,
  sessions_at cur v -> buffer_ok b -> NoDup l -> (forall j, j ∈ l -> is_Some (sv_sessions v !! j)) ->
  0 <= count -> count + zlen l < 2 ^ 31 ->
  wpw (send_each test l b count) (fun c v' =>
    net_step cur v v' /\ sent_to test l b v v' /\ c = count + zlen (filter (fun j => passes test v j = true) l)) v.
Proof.
  induction l as [|sid l IH]; intros v count Hs Hb Hnd Hex H0 Hc; simpl.
  { wpw_simpl. split; [by apply net_step_refl|]. split; [|change (zlen (filter _ [])) with 0; lia].
    intros j s Hj. exists s. split; [done|]. rewrite bool_decide_eq_false_2 by set_solver. done. }
  apply NoDup_cons in Hnd as [Hnin Hnd]. rewrite zlen_cons in Hc. pose proof (zlen_nonneg l) as Hzl.
  destruct (Hex sid) as [s Hsid]; [by left|]. wpw_simpl. apply (wpw_session_get sid s); [done|].
  destruct (test s) eqn:Et.
  - wpw_simpl. eapply wpw_mono; [by apply (send_net cur v sid s b)|].
    intros _ v1 (Hn1 & s1 & Hv1 & Hf1 & Ho1). rewrite (i32_small (count + 1)) by lia.
    assert (forall j, j <> sid -> sv_sessions v1 !! j = sv_sessions v !! j) as Hother.
    { intros j Hj. by rewrite Hv1, lookup_insert_ne. }
    eapply wpw_mono; [apply IH; [apply Hn1|done|done| |lia|lia]|].
    { intros j Hj. eapply net_step_some; [done|]. apply Hex. by right. }
    intros c v2 (Hn2 & Hsent & ->). split; [by eapply net_step_trans|]. split.
    + intros j sj Hj. destruct (decide (j = sid)) as [->|Hne].
      * destruct (Hsent sid s1) as (s2 & Hs2 & Hcase); [by rewrite Hv1, lookup_insert_eq|].
        rewrite bool_decide_eq_false_2 in Hcase by done. simpl in Hcase. subst s2. exists s1. split; [done|].
        rewrite Hsid in Hj. injection Hj as <-. rewrite bool_decide_eq_true_2 by by left. by rewrite Et.
      * destruct (Hsent j sj) as (s2 & Hs2 & Hcase); [by rewrite Hother|]. exists s2. split; [done|].
        rewrite (bool_decide_ext (j ∈ sid :: l) (j ∈ l)); [done|]. rewrite elem_of_cons. naive_solver.
    + rewrite filter_cons, decide_True by (unfold passes; by rewrite Hsid). rewrite zlen_cons.
      rewrite (filter_ext_in (passes test v1) (passes test v)); [lia|].
      intros j Hj. unfold passes. rewrite Hother; [done|]. by intros ->.
  - eapply wpw_mono; [apply IH; try done; [|lia]|].
    { intros j Hj. apply Hex. by right. }
    intros c v2 (Hn2 & Hsent & ->). split; [done|]. split.
    + intros j sj Hj. destruct (Hsent j sj Hj) as (s2 & Hs2 & Hcase). exists s2. split; [done|].
      destruct (decide (j = sid)) as [->|Hne].
      * rewrite Hsid in Hj. injection Hj as <-. rewrite Et, andb_false_r in *. done.
      * rewrite (bool_decide_ext (j ∈ sid :: l) (j ∈ l)); [done|]. rewrite elem_of_cons. naive_solver.
    + rewrite filter_cons, decide_False by (unfold passes; rewrite Hsid; congruence). done.
Qed.

Lemma set_order_spec (ss : gset nat) :
  NoDup (set_order ss) /\ (forall j, j ∈ set_order ss <-> j ∈ ss) /\ length (set_order ss) = size ss.
Proof.
  unfold set_order. pose proof (merge_sort_Permutation le (elements ss)) as Hp. split; [|split].
  - rewrite Hp. apply NoDup_elements.
  - intros j. rewrite Hp. apply elem_of_elements.
  - by rewrite Hp.
Qed.

Lemma map_order_spec {A} (m : gmap Z A) :
  NoDup (map_order m) /\ (forall a, a ∈ map_order m <-> is_Some (m !! a)).
Proof.
  unfold map_order. pose proof (merge_sort_Permutation Z.le (elements (dom m))) as Hp. split.
  - rewrite Hp. apply NoDup_elements.
  - intros a. rewrite Hp, elem_of_elements. apply elem_of_dom.
Qed.

(** A member of the manager's set is an object; there are at most as many as the
    limit. *)
Lemma members_exist cur v :
  srv_inv cur v ->
  (forall j, j ∈ set_order (sm_sessions (sv_mgr v)) -> is_Some (sv_sessions v !! j)) /\
  zlen (set_order (sm_sessions (sv_mgr v))) < 2 ^ 31.
Proof.
  intros [_ [Hu _ _ _]]. destruct (set_order_spec (sm_sessions (sv_mgr v))) as (_ & Hin & Hlen). split.
  - intros j (w & Hw & _)%Hin%(ui_members _ _ _ _ Hu). unfold views in Hw. rewrite lookup_fmap in Hw.
    destruct (sv_sessions v !! j); [eauto|done].
  - destruct (ui_count _ _ _ _ Hu). unfold zlen. rewrite Hlen. lia.
Qed.

Lemma chat_all_wp cur v test b :
  srv_inv cur v -> buffer_ok b ->
  wpw (send_each test (set_order (sm_sessions (sv_mgr v))) b 0) (fun c v' =>
    net_step cur v v' /\ sent_to test (set_order (sm_sessions (sv_mgr v))) b v v' /\
    c = zlen (filter (fun j => passes test v j = true) (set_order (sm_sessions (sv_mgr v))))) v.
Proof.
  intros Hinv Hb. destruct (members_exist cur v Hinv) as [Hex Hlen].
  destruct (set_order_spec (sm_sessions (sv_mgr v))) as (Hnd & _).
  apply send_each_wp; try done. apply Hinv.
Qed.

(** Whom [normal_chat] writes to. *)
Definition in_room (k : Z) (s : Session) : bool := s_is_connect s && (s_enter_room_id s =? k).

Definition room_targets (k : Z) (v : Server) (m : gmap Z nat) (accounts : list Z) : list nat :=
  omap (fun a => sid ← m !! a; if passes (in_room k) v sid then Some sid else None) accounts.

Lemma normal_chat_targets_wp k v m accounts :
  (forall a sid, m !! a = Some sid -> is_Some (sv_sessions v !! sid)) ->
  wpw (normal_chat_targets k m accounts) (fun l v' => v' = v /\ l = room_targets k v m accounts) v.
Proof.
  intros Hex. induction accounts as [|a accounts IH]; simpl.
  { by wpw_simpl. }
  unfold room_targets. csimpl. destruct (m !! a) as [sid|] eqn:Ea; simpl; [|done].
  destruct (Hex a sid Ea) as [s Hs]. wpw_simpl. apply (wpw_session_get sid s); [done|]. wpw_simpl.
  eapply wpw_mono; [exact IH|]. intros l v' [-> ->]. wpw_simpl. split; [done|].
  assert (passes (in_room k) v sid = s_is_connect s && (s_enter_room_id s =? k)) as ->.
  { unfold passes. by rewrite Hs. }
  by destruct (_ && _).
Qed.

Lemma omap_NoDup {A B} (f : A -> option B) l :
  NoDup l -> (forall x y z, x ∈ l -> y ∈ l -> f x = Some z -> f y = Some z -> x = y) -> NoDup (omap f l).
Proof.
  induction 1 as [|x l Hx _ IH]; intros Hinj; csimpl; [constructor|].
  assert (NoDup (omap f l)) as Hl by (apply IH; intros; eapply Hinj; [by right|by right|done|done]).
  destruct (f x) as [z|] eqn:E; [|done]. constructor; [|done].
  intros (y & Hy & Hfy)%list_elem_of_omap. apply Hx.
  by rewrite (Hinj x y z) by (done || by constructor).
Qed.

Lemma room_targets_spec cur v k :
  srv_inv cur v -> 0 <= k ->
  let m := sm_account_sessions (sv_mgr v) in
  let l := room_targets k v m (map_order m) in
  NoDup l /\ (forall j, j ∈ l <-> passes (in_room k) v j = true) /\
  (forall a sid, m !! a = Some sid -> is_Some (sv_sessions v !! sid)) /\ zlen l < 2 ^ 31.
Proof.
  intros Hinv Hk m l. pose proof Hinv as [_ [Hu _ _ _]]. destruct (map_order_spec m) as [Hnd Hin].
  assert (forall a sid, m !! a = Some sid -> is_Some (sv_sessions v !! sid)) as Hex.
  { intros a sid (w & Hw & _)%(ui_accounts _ _ _ _ Hu). unfold views in Hw. rewrite lookup_fmap in Hw.
    destruct (sv_sessions v !! sid); [eauto|done]. }
  assert (forall j, j ∈ l <-> passes (in_room k) v j = true) as Hl.
  { intros j. unfold l, room_targets. rewrite list_elem_of_omap. split.
    - intros (a & _ & Ha). destruct (m !! a) as [sid|]; simpl in Ha; [|done].
      destruct (passes _ v sid) eqn:E; [|done]. by injection Ha as <-.
    - intros Hp. unfold passes in Hp. destruct (sv_sessions v !! j) as [s|] eqn:Ej; [|done].
      unfold in_room in Hp. bool_lia. pose proof (views_lookup v j s Ej) as Hv.
      assert (s_is_login s = true) as Hlog.
      { destruct (s_is_login s) eqn:E; [done|]. destruct (ui_anonymous _ _ _ _ Hu j _ Hv E) as (_ & _ & Hr).
        simpl in Hr. lia. }
      assert (m !! s_account_idx s = Some j) as Hm by (apply (ui_accounts _ _ _ _ Hu); eauto).
      exists (s_account_idx s). split; [apply Hin; eauto|]. rewrite Hm. simpl.
      unfold passes, in_room. rewrite Ej, H, (proj2 (Z.eqb_eq _ _)); done. }
  assert (NoDup l) as Hndl.
  { apply omap_NoDup; [done|]. intros a b j _ _ Ha Hb.
    destruct (m !! a) as [i|] eqn:Ea; simpl in Ha; [|done]. destruct (m !! b) as [i'|] eqn:Eb; simpl in Hb; [|done].
    destruct (passes _ v i); [|done]. destruct (passes _ v i'); [|done]. injection Ha as ->. injection Hb as ->.
    apply (ui_accounts _ _ _ _ Hu) in Ea as (w & Hw & _ & <-).
    apply (ui_accounts _ _ _ _ Hu) in Eb as (w' & Hw' & _ & <-). congruence. }
  split; [done|]. split; [done|]. split; [done|].
  assert (size (list_to_set l : gset nat) <= size (sm_sessions (sv_mgr v)))%nat as Hs.
  { apply subseteq_size. intros j Hj%elem_of_list_to_set%Hl. apply (ui_members _ _ _ _ Hu).
    unfold passes in Hj. destruct (sv_sessions v !! j) as [s|] eqn:Ej; [|done].
    unfold in_room in Hj. bool_lia. pose proof (views_lookup v j s Ej) as Hv. exists (view s). split; [done|].
    destruct (s_is_login s) eqn:E; [by apply (ui_login _ _ _ _ Hu j _ Hv)|].
    destruct (ui_anonymous _ _ _ _ Hu j _ Hv E) as (_ & _ & Hr). simpl in Hr. lia. }
  rewrite size_list_to_set in Hs by done. destruct (ui_count _ _ _ _ Hu). unfold zlen. lia.
Qed.

(** Sessions that pass a test, and what they were sent. *)
Definition reached (test : Session -> bool) (b : SendBuffer) (c : Z) (v v' : Server) : Prop :=
  (exists l, NoDup l /\ (forall j, j ∈ l <-> passes test v j = true) /\ c = zlen l) /\
  forall j s, sv_sessions v !! j = Some s ->
  exists s', sv_sessions v' !! j = Some s' /\
    (if test s
     then io_frame s s' /\ (s_is_connect s' = true -> outgoing s' = outgoing s ++ SendBuffer_payload b)
     else s' = s).

Lemma normal_chat_wp cur v k b :
  srv_inv cur v -> 0 <= k -> buffer_ok b ->
  wpw (SessionManager_normal_chat k b) (fun c v' => net_step cur v v' /\ reached (in_room k) b c v v') v.
Proof.
  intros Hinv Hk Hb. destruct (room_targets_spec cur v k Hinv Hk) as (Hnd & Hl & Hex & Hlen).
  unfold SessionManager_normal_chat. wpw_simpl. eapply wpw_mono; [by apply normal_chat_targets_wp|].
  intros l v1 [-> ->]. set (l := room_targets _ _ _ _) in *.
  eapply wpw_mono; [apply (send_each_wp cur (fun _ => true) b l v 0); try done; [apply Hinv|]|].
  { intros j Hj%Hl. unfold passes in Hj. destruct (sv_sessions v !! j); [eauto|done]. }
  intros c v' (Hn & Hsent & ->). split; [done|]. split.
  - exists l. split; [done|]. split; [done|]. rewrite (filter_ext_in _ (fun _ => true)).
    + by rewrite filter_all.
    + intros j Hj%Hl. unfold passes in *. by destruct (sv_sessions v !! j).
  - intros j s Hj. destruct (Hsent j s Hj) as (s' & Hs' & Hcase). exists s'. split; [done|].
    rewrite andb_true_r in Hcase. assert (bool_decide (j ∈ l) = in_room k s) as <-; [|done].
    pose proof (Hl j) as Hlj. unfold passes in Hlj. rewrite Hj in Hlj.
    case_bool_decide; destruct (in_room k s); naive_solver.
Qed.

(** [all_chat] reaches every connected session that is in a room. *)
Definition in_some_room (s : Session) : bool := s_is_connect s && negb (s_enter_room_id s <? 0).

Lemma all_chat_wp cur v b :
  srv_inv cur v -> buffer_ok b ->
  wpw (SessionManager_all_chat b) (fun c v' => net_step cur v v' /\ reached in_some_room b c v v') v.
Proof.
  intros Hinv Hb. unfold SessionManager_all_chat. wpw_simpl.
  eapply wpw_mono; [by apply (chat_all_wp cur v in_some_room b)|].
  set (l := set_order _). intros c v' (Hn & Hsent & ->). split; [done|].
  destruct (set_order_spec (sm_sessions (sv_mgr v))) as (Hnd & Hin & _). fold l in Hnd, Hin.
  assert (forall j s, sv_sessions v !! j = Some s -> in_some_room s = true -> j ∈ l) as Hmem.
  { intros j s Hj Ht. apply Hin. destruct Hinv as [_ [Hu _ _ _]]. apply (ui_members _ _ _ _ Hu).
    pose proof (views_lookup v j s Hj) as Hv. exists (view s). split; [done|].
    unfold in_some_room in Ht. bool_lia.
    destruct (s_is_login s) eqn:E; [by apply (ui_login _ _ _ _ Hu j _ Hv)|].
    destruct (ui_anonymous _ _ _ _ Hu j _ Hv E) as (_ & _ & Hr). simpl in Hr. lia. }
  split.
  - exists (filter (fun j => passes in_some_room v j = true) l). split; [by apply NoDup_filter|]. split; [|done]. intros j. rewrite list_elem_of_filter.
    split; [by intros [? _]|]. intros Hp. split; [done|]. unfold passes in Hp.
    destruct (sv_sessions v !! j) as [s|] eqn:Ej; [by eapply Hmem|done].
  - intros j s Hj. destruct (Hsent j s Hj) as (s' & Hs' & Hcase). exists s'. split; [done|].
    destruct (in_some_room s) eqn:Et; [|by rewrite andb_false_r in Hcase].
    by rewrite bool_decide_eq_true_2 in Hcase by by eapply Hmem.
Qed.

(** The user logged in under a name; no user is found under the empty one. *)
Definition holds_name (w : wstring) (s : Session) : bool :=
  s_is_login s && bool_decide (s_user_name s = w) && negb (bool_decide (w = [])).
Definition named (w : wstring) (s : Session) : bool := s_is_connect s && holds_name w s.

Lemma name_holder cur v w j :
  srv_inv cur v ->
  sm_name_sessions (sv_mgr v) !! w = Some j <-> exists s, sv_sessions v !! j = Some s /\ holds_name w s = true.
Proof.
  intros [_ [Hu _ _ _]]. rewrite (ui_names _ _ _ _ Hu). unfold views, holds_name. rewrite lookup_fmap. split.
  - intros (Hne & x & Hx & Hl & Hn). destruct (sv_sessions v !! j) as [s|]; [|done]. injection Hx as <-. exists s.
    simpl in Hl, Hn. split; [done|]. by rewrite Hl, bool_decide_eq_true_2, bool_decide_eq_false_2.
  - intros (s & -> & [[Hl Hn%bool_decide_eq_true]%andb_true_iff Hne%negb_true_iff%bool_decide_eq_false]%andb_true_iff).
    split; [done|]. by exists (view s).
Qed.

(** Sending to one session or to none. *)
Lemma reached_one test b c v v' j s :
  sv_sessions v !! j = Some s -> (forall i t, sv_sessions v !! i = Some t -> test t = true <-> i = j) -> c = 1 ->
  (exists s', sv_sessions v' = <[j := s']> (sv_sessions v) /\ io_frame s s' /\
     (s_is_connect s' = true -> outgoing s' = outgoing s ++ SendBuffer_payload b)) -> reached test b c v v'.
Proof.
  intros Hj Ht -> (s' & Hv' & Hf & Ho). split.
  - exists [j]. split; [apply NoDup_singleton|]. split; [|done]. intros i. rewrite list_elem_of_singleton. unfold passes.
    destruct (sv_sessions v !! i) as [t|] eqn:Ei; [by rewrite Ht|]. split; [by intros ->; congruence|done].
  - intros i t Hi. rewrite Hv'. destruct (decide (i = j)) as [->|Hne].
    + exists s'. rewrite lookup_insert_eq. split; [done|]. rewrite (proj2 (Ht j t Hi)) by done.
      rewrite Hj in Hi. by injection Hi as <-.
    + exists t. rewrite lookup_insert_ne by done. split; [done|].
      destruct (test t) eqn:E; [|done]. by apply (Ht i t Hi) in E.
Qed.

Lemma reached_none test b v :
  (forall i t, sv_sessions v !! i = Some t -> test t = false) -> reached test b 0 v v.
Proof.
  intros Ht. split.
  - exists []. split; [constructor|]. split; [|done]. intros i. unfold passes. split; [by intros ?%not_elem_of_nil|].
    destruct (sv_sessions v !! i) as [t|] eqn:Ei; [by rewrite (Ht i t)|done].
  - intros i t Hi. exists t. by rewrite (Ht i t).
Qed.

Lemma whisper_chat_wp cur v w b :
  srv_inv cur v -> buffer_ok b ->
  wpw (SessionManager_whisper_chat w b) (fun c v' => net_step cur v v' /\ reached (named w) b c v v') v.
Proof.
  intros Hinv Hb. pose proof (net_step_refl cur v (proj1 Hinv)) as Hrefl.
  pose proof (fun j => name_holder cur v w j Hinv) as Hname.
  unfold SessionManager_whisper_chat. wpw_simpl.
  destruct (sm_name_sessions (sv_mgr v) !! w) as [sid|] eqn:Ew.
  2: { wpw_simpl. split; [done|]. apply reached_none. intros i t Hi. unfold named.
       destruct (holds_name w t) eqn:E; [|by rewrite andb_false_r]. by assert (None = Some i) by (apply Hname; eauto). }
  destruct (proj1 (Hname sid) eq_refl) as (s & Hs & Hh). wpw_simpl. apply (wpw_session_get sid s); [done|].
  assert (forall i t, sv_sessions v !! i = Some t -> holds_name w t = true <-> i = sid) as Hone.
  { intros i t Hi. split; [|by intros ->; congruence]. intros Ht. assert (Some sid = Some i) by (apply Hname; eauto). congruence. }
  destruct (s_is_connect s) eqn:En; cbn [negb]; wpw_simpl.
  - eapply wpw_mono; [apply (send_net cur v sid s b); [apply Hinv|done|done]|]. intros _ v' (Hn & s' & Hv' & Hf & Ho).
    wpw_simpl. split; [done|]. apply (reached_one _ b 1 v v' sid s); [done| |done|eauto].
    intros i t Hi. unfold named. rewrite <- (Hone i t Hi). split; [by intros [_ ?]%andb_true_iff|]. intros Ht. rewrite Ht.
    apply (Hone i t Hi) in Ht as ->. assert (t = s) as -> by congruence. by rewrite En.
  - split; [done|]. apply reached_none. intros i t Hi. unfold named. destruct (holds_name w t) eqn:E; [|by rewrite andb_false_r].
    apply (Hone i t Hi) in E as ->. assert (t = s) as -> by congruence. by rewrite En.
Qed.
End Server.
