(* ===== verification/ServerTheorems.v ===== *)
(** * The server: every operation is safe

    The remaining handlers, the cleanup of a session, accepting and closing, and
    the theorems about the whole server. *)

From stdpp Require Import base list numbers option gmap sorting.
From Stdlib Require Import ZArith Lia.
From S2P Require Import Prelude Buffers SendEvents Framing JobQueues Wire Protocol Packets Accounts Rooms Sessions SessionSafety Managers Handlers Users SessionTheorems ServerSafety.

Section Server.
Context {utf8 : Utf8Check} {codec : PacketCodec} {laws : PacketCodecLaws codec}.
Context {api : StringApi} {api_laws : StringApiLaws api} {os : Os}.

(** ** Chat *)

(** An answer reaches the session that asked, and no other. *)
Definition answered (sid : nat) (pkt : Packet) (v v' : Server) : Prop :=
  exists b, MakeSendBuffer pkt = Some b /\ sent_to (fun _ => true) [sid] b v v'.

(** Specification: whom a chat request of a user with session [s] is for, or the error it
    is answered with.  It looks at the sessions only, not at the maps of the manager. *)
Definition name_in_use (w : wstring) (v : Server) : bool :=
  existsb (fun js => holds_name w (snd js)) (map_to_list (sv_sessions v)).

Definition chat_audience (s : Session) (pkt : REQ_CHAT) (v : Server) : Z + (Session -> bool) :=
  if bool_decide (REQ_CHAT_message pkt = []) || (zlen (REQ_CHAT_message pkt) >? 256) then inl CHAT_ERROR_FAIL
  else if REQ_CHAT_chat_state pkt =? CHAT_NORMAL then
    if (0 <=? s_enter_room_id s) && (s_enter_room_id s =? REQ_CHAT_room_id pkt)
    then inr (in_room (s_enter_room_id s)) else inl CHAT_ERROR_FAIL
  else if REQ_CHAT_chat_state pkt =? CHAT_ALL then inr in_some_room
  else if REQ_CHAT_chat_state pkt =? CHAT_WHISPER then
    if bool_decide (REQ_CHAT_target_name pkt = []) || (zlen (REQ_CHAT_target_name pkt) >? 32) then inl CHAT_ERROR_FAIL
    else if name_in_use (Utf8ToWString (REQ_CHAT_target_name pkt)) v
    then inr (named (Utf8ToWString (REQ_CHAT_target_name pkt))) else inl CHAT_ERROR_NOT_TARGET
  else inl CHAT_ERROR_FAIL.

(** The message as it is sent on. *)
Definition chat_message (s : Session) (pkt : REQ_CHAT) : Packet :=
  P_ACK_SEND_CHAT (mkACK_SEND_CHAT (WStringToUtf8 (s_user_name s)) (REQ_CHAT_message pkt) []).

Definition chat_outcome (sid : nat) (s : Session) (pkt : REQ_CHAT) (v v' : Server) : Prop :=
  match chat_audience s pkt v with
  | inl error => answered sid (P_ACK_CHAT (mkACK_CHAT error 0 [])) v v'
  | inr audience =>
      exists b c v1, MakeSendBuffer (chat_message s pkt) = Some b /\ reached audience b c v v1 /\
        answered sid (P_ACK_CHAT (mkACK_CHAT CHAT_ERROR_SUCCESS c [])) v1 v'
  end.

Lemma name_in_use_spec cur v w :
  srv_inv cur v -> SessionManager_is_whisper_target_find w (sv_mgr v) = name_in_use w v.
Proof.
  intros Hinv. pose proof (fun j => name_holder cur v w j Hinv) as Hname. apply eq_iff_eq_true.
  unfold SessionManager_is_whisper_target_find, name_in_use. rewrite bool_decide_eq_true, existsb_exists. split.
  - intros [j (s & Hs & Hh)%Hname]. exists (j, s). split; [|done]. by apply list_elem_of_In, elem_of_map_to_list.
  - intros ([j s] & Hin%list_elem_of_In%elem_of_map_to_list & Hh). exists j. apply Hname. eauto.
Qed.

(** An answer ends a handler. *)
Lemma answer_wp cur v sid s pkt :
  srv_inv cur v -> sv_sessions v !! sid = Some s -> packet_sized pkt -> packet_bound pkt <= 65531 ->
  wpw (SEND sid pkt) (fun _ v' => handled cur sid v' /\ quiet v v' /\ answered sid pkt v v') v.
Proof using laws api_laws.
  intros Hinv Hsid Hp Hb. destruct (made_buffer_ok pkt Hp Hb) as (b & Heq & Hok).
  unfold SEND, SEND_PACKET. rewrite Heq. eapply wpw_mono; [apply (send_net cur v sid s b); [apply Hinv|done|done]|].
  intros _ v' (Hn & s' & Hv' & Hf & Ho). split; [eapply net_step_handled; [by eapply handled_same|done]|].
  split; [apply Hn|]. exists b. split; [done|]. intros j t Hj. rewrite Hv'. destruct (decide (j = sid)) as [->|Hne].
  - exists s'. rewrite lookup_insert_eq. split; [done|]. rewrite bool_decide_eq_true_2 by set_solver.
    rewrite Hsid in Hj. by injection Hj as <-.
  - exists t. rewrite lookup_insert_ne by done. split; [done|]. by rewrite bool_decide_eq_false_2 by set_solver.
Qed.

Lemma chat_fail_wp cur v sid s r :
  srv_inv cur v -> sv_sessions v !! sid = Some s -> 0 <= r < 256 ->
  wpw (chat_fail sid r) (fun ok v' => ok = true /\ handled cur sid v' /\ quiet v v' /\
    answered sid (P_ACK_CHAT (mkACK_CHAT r 0 [])) v v') v.
Proof using laws api_laws.
  intros Hinv Hsid Hr. unfold chat_fail. wpw_simpl.
  eapply wpw_mono; [apply (answer_wp cur v sid s); [done|done| |simpl; lia]|].
  - split_and!; simpl; done || lia.
  - intros ? v' ?. by wpw_simpl.
Qed.

Lemma reached_count cur test b c v v' :
  srv_inv cur v -> (forall s, test s = true -> s_is_login s = true \/ 0 <= s_enter_room_id s) -> reached test b c v v' -> 0 <= c < 2 ^ 31.
Proof.
  intros [_ [Hu _ _ _]] Htest [(l & Hnd & Hl & ->) _].
  assert (size (list_to_set l : gset nat) <= size (sm_sessions (sv_mgr v)))%nat as Hs.
  { apply subseteq_size. intros j Hj%elem_of_list_to_set%Hl. apply (ui_members _ _ _ _ Hu).
    unfold passes in Hj. destruct (sv_sessions v !! j) as [s|] eqn:Ej; [|done].
    pose proof (views_lookup v j s Ej) as Hv. exists (view s). split; [done|].
    destruct (s_is_login s) eqn:E; [by apply (ui_login _ _ _ _ Hu j _ Hv)|].
    destruct (ui_anonymous _ _ _ _ Hu j _ Hv E) as (_ & _ & Hr). simpl in Hr.
    destruct (Htest s Hj) as [?|?]; [congruence|lia]. }
  rewrite size_list_to_set in Hs by done. destruct (ui_count _ _ _ _ Hu). unfold zlen. lia.
Qed.

Lemma chat_deliver_wp cur v sid s msg dlv test :
  srv_inv cur v -> sv_sessions v !! sid = Some s -> zlen (s_user_name s) <= 32 -> zlen msg <= 256 ->
  (forall t, test t = true -> s_is_login t = true \/ 0 <= s_enter_room_id t) ->
  (forall b, buffer_ok b -> wpw (dlv b) (fun c v' => net_step cur v v' /\ reached test b c v v') v) ->
  wpw (chat_deliver sid (s_user_name s) msg dlv) (fun ok v' => ok = true /\ handled cur sid v' /\ quiet v v' /\
    exists b c v1, MakeSendBuffer (P_ACK_SEND_CHAT (mkACK_SEND_CHAT (WStringToUtf8 (s_user_name s)) msg [])) = Some b /\
      reached test b c v v1 /\ answered sid (P_ACK_CHAT (mkACK_CHAT CHAT_ERROR_SUCCESS c [])) v1 v') v.
Proof using laws api_laws.
  intros Hinv Hsid Hw Hm Ht Hd. unfold chat_deliver. destruct (WStringToUtf8_wf (s_user_name s)) as [Hu Hul]; [lia|].
  destruct (made_buffer_ok (P_ACK_SEND_CHAT (mkACK_SEND_CHAT (WStringToUtf8 (s_user_name s)) msg []))) as (b & -> & Hb).
  { split; simpl; [lia|]. split; [lia|done]. }
  { simpl. lia. }
  wpw_simpl. eapply wpw_mono; [by apply Hd|]. intros c v1 [Hn Hre]. wpw_simpl.
  assert (handled cur sid v1) as [Hi1 [s1 Hs1]] by (eapply net_step_handled; [by eapply handled_same|done]).
  pose proof (reached_count cur test b c v v1 Hinv Ht Hre) as Hc. rewrite u32_small by lia.
  eapply wpw_mono; [apply (answer_wp cur _ sid s1); [exact Hi1|exact Hs1| |simpl; lia]|].
  { split; [simpl; unfold CHAT_ERROR_SUCCESS; lia|]. split; [simpl; lia|done]. }
  intros _ v' (Hh & Hq & Ha). wpw_simpl. split; [done|]. split; [done|]. split; [exact (quiet_trans _ _ _ (proj2 Hn) Hq)|].
  exists b, c, v1. split; [done|]. split; [done|exact Ha].
Qed.

Lemma user_name_short cur v sid s :
  srv_inv cur v -> sv_sessions v !! sid = Some s -> s_is_login s = true -> zlen (s_user_name s) <= 32.
Proof.
  intros Hinv Hsid Hl. destruct (user_of cur v sid s Hinv Hsid) as (Hu & Hv & [_ _ Hs _ _ _]).
  destruct (ui_login _ _ _ _ Hu sid _ Hv Hl) as (_ & _ & _ & info & [Hd _] & Hn). simpl in Hn.
  rewrite <- Hn. by eapply Hs.
Qed.

Lemma chat_wp cur v sid s pkt :
  srv_inv cur v -> sv_sessions v !! sid = Some s -> s_is_login s = true ->
  wpw (Handle_REQ_CHAT sid pkt) (fun ok v' => ok = true /\ handled cur sid v' /\ quiet v v' /\ chat_outcome sid s pkt v v') v.
Proof using laws api_laws.
  intros Hinv Hsid Hl. unfold Handle_REQ_CHAT, require_login. wpw_simpl. apply (wpw_session_get sid s); [done|].
  rewrite Hl. cbn [negb]. wpw_simpl. apply (wpw_session_get sid s); [done|]. cbv zeta.
  pose proof (user_name_short cur v sid s Hinv Hsid Hl) as Hw.
  pose proof (fun r Hr => chat_fail_wp cur v sid s r Hinv Hsid Hr) as Hfail. unfold chat_outcome, chat_audience.
  destruct (bool_decide (REQ_CHAT_message pkt = []) || _) eqn:Em; [by apply Hfail|]. bool_lia.
  assert (zlen (REQ_CHAT_message pkt) <= 256) as Hm by lia.
  pose proof (fun dlv test => chat_deliver_wp cur v sid s (REQ_CHAT_message pkt) dlv test Hinv Hsid Hw Hm) as Hdlv.
  destruct (REQ_CHAT_chat_state pkt =? CHAT_NORMAL).
  { rewrite (Z.leb_antisym (s_enter_room_id s) 0).
    destruct (s_enter_room_id s <? 0) eqn:Er; cbn [negb andb]; [by apply Hfail|].
    destruct (s_enter_room_id s =? REQ_CHAT_room_id pkt) eqn:Ek; cbn [negb]; [|by apply Hfail]. bool_lia. rewrite Ek in *.
    apply Hdlv; [|intros b Hb; apply (normal_chat_wp cur v); [done|lia|done]].
    intros t Ht. unfold in_room in Ht. bool_lia. right. lia. }
  destruct (REQ_CHAT_chat_state pkt =? CHAT_ALL).
  { apply Hdlv; [|intros b Hb; by apply (all_chat_wp cur v)]. intros t Ht. unfold in_some_room in Ht. bool_lia. by right. }
  destruct (REQ_CHAT_chat_state pkt =? CHAT_WHISPER); [|by apply Hfail].
  destruct (bool_decide (REQ_CHAT_target_name pkt = []) || _); [by apply Hfail|]. wpw_simpl.
  rewrite (name_in_use_spec cur v _ Hinv). destruct (name_in_use _ v); cbn [negb]; [|by apply Hfail].
  apply Hdlv; [|intros b Hb; by apply (whisper_chat_wp cur v)]. intros t Ht. unfold named, holds_name in Ht. bool_lia. by left.
Qed.

Lemma chat_handled cur v sid s pkt :
  srv_inv cur v -> sv_sessions v !! sid = Some s ->
  wpw (Handle_REQ_CHAT sid pkt) (fun _ v' => handled cur sid v') v.
Proof using laws api_laws.
  intros Hinv Hsid. destruct (s_is_login s) eqn:Hl.
  - eapply wpw_mono; [by apply (chat_wp cur v sid s)|]. by intros ? ? (_ & ? & _).
  - apply (require_login_handled cur v sid s); [done..|]. congruence.
Qed.

(** ** Jobs *)

Lemma pong_handled cur v sid s now pkt :
  srv_inv cur v -> sv_sessions v !! sid = Some s ->
  wpw (Handle_REQ_CONNECT_PONG sid now pkt) (fun _ v' => handled cur sid v') v.
Proof.
  intros Hinv Hsid. unfold Handle_REQ_CONNECT_PONG. wpw_simpl.
  eapply wpw_session_set; [exact Hsid|]. wpw_simpl.
  eapply wpw_session_set; [by simpl; rewrite lookup_insert_eq|]. wpw_simpl.
  destruct (user_of cur v sid s Hinv Hsid) as (Hu & Hv & Ht).
  apply (user_step cur v sid s Hinv Hsid _ (s <| s_last_pong_tick := now |> <| s_waiting_pong := false |>)); try done.
  - simpl. by rewrite !insert_insert_eq.
  - simpl. by rewrite insert_id.
Qed.

Lemma packet_handled cur v sid s now pkt :
  srv_inv cur v -> sv_sessions v !! sid = Some s -> v_member (view s) = true ->
  lg_account_id (sv_login v) + 1 < 2 ^ 64 ->
  wpw (packet_handler sid now pkt) (fun _ v' => handled cur sid v') v.
Proof using laws api_laws.
  intros Hinv Hsid Hm Hc. pose proof (handled_same cur v sid s Hinv Hsid) as Hsame.
  destruct pkt; cbn [packet_handler]; try (by wpw_simpl).
  - eapply login_handled; try done. intros a u r Ha Hu Hul Hr. split; [|simpl; lia].
    split_and!; simpl; done || lia.
  - eapply login_handled; try done. intros a u r Ha Hu Hul Hr. split; [|simpl; lia].
    split_and!; simpl; done || lia.
  - by eapply logout_handled.
  - by eapply get_room_info_handled.
  - by eapply enter_room_handled.
  - by eapply exit_room_handled.
  - by eapply chat_handled.
  - by eapply pong_handled.
Qed.

(** *** Cleanup *)

Lemma cleanups_nonneg q : 0 <= cleanups q.
Proof. apply sumZ_nonneg. intros j. destruct (is_cleanup j); simpl; lia. Qed.

(** The cleanup job marks the session; from then on it is not the one running. *)
Lemma cleaned_inv r s :
  session_inv_at r 1 s -> session_inv_at r 0 (s <| s_cleanup_done := true |>).
Proof.
  intros ([Hio Hj Hcn He Hsq Hcl Hst Hb] & Hs & Hv & Hu). split; [|done]. constructor; simpl; try done.
  pose proof (cleanups_nonneg (s_logic_queue s)).
  destruct (s_cleanup_done s), (s_is_disconnect s); simpl in *; lia.
Qed.

(** What the cleanup leaves behind. *)
Definition cleaned (sid : nat) (s : Session) (v' : Server) : Prop :=
  handled (Some (sid, 0)) sid v' /\ (exists s', sv_sessions v' !! sid = Some s' /\ s_cleanup_done s' = true) /\
  (s_is_login s = true -> s_account_idx s ∉ lg_login_list (sv_login v')).

Lemma cleaned_step v v' sid s s' :
  srv_inv (Some (sid, 1)) v -> sv_sessions v !! sid = Some s ->
  sv_sessions v' = <[sid := s']> (sv_sessions v) -> net_part s' = net_part (s <| s_cleanup_done := true |>) ->
  s_shutdown_started s' = s_shutdown_started s -> sv_next v' = sv_next v -> sv_closing v' = sv_closing v ->
  user_inv (<[sid := view s']> (views v)) (sv_login v') (sv_rooms v') (sv_mgr v') ->
  tables_inv (sv_login v') (sv_rooms v') -> s_cleanup_done s' = true ->
  (s_is_login s = true -> s_account_idx s ∉ lg_login_list (sv_login v')) -> cleaned sid s v'.
Proof.
  intros [Hat [_ _ Hnext Hclos]] Hsid Hs' Hn Hd Hnx Hcl Hu Ht Hcd Hlog.
  split; [|split; [by exists s'; rewrite Hs', lookup_insert_eq|done]]. split; [split|].
  - intros j x. rewrite Hs'. intros [[<- <-]|[Hne Hx]]%lookup_insert_Some.
    + eapply net_part_ok; [exact Hn|]. destruct (Hat sid s Hsid) as [Hi Hb]. split; [|done].
      unfold run_of, clean_of in *. rewrite !decide_True in * by done. by apply cleaned_inv.
    + destruct (Hat j x Hx) as [Hi Hb]. split; [|done]. unfold run_of, clean_of in *.
      by rewrite !decide_False in * by done.
  - unfold server_ok. rewrite (views_insert v v' sid s'), Hnx, Hcl by done. constructor; try done.
    + intros j Hj. rewrite lookup_insert_ne; [by apply Hnext|]. intros <-.
      apply Hnext in Hj. by rewrite (views_lookup v sid s) in Hj.
    + intros Hc j w [[<- <-]|[_ H]]%lookup_insert_Some; [|by eapply Hclos].
      simpl. rewrite Hd. by apply (Hclos Hc sid (view s)), views_lookup.
  - rewrite Hs', lookup_insert_eq. eauto.
Qed.

(** A session that is not logged in holds nothing. *)
Lemma cleanup_anonymous v sid s :
  srv_inv (Some (sid, 1)) v -> sv_sessions v !! sid = Some s -> s_is_login s = false ->
  wpw (cleanup_job sid) (fun _ v' => cleaned sid s v') v.
Proof.
  intros Hinv Hsid Hl. destruct (user_of _ v sid s Hinv Hsid) as (Hu & Hv & Ht).
  destruct (ui_anonymous _ _ _ _ Hu sid _ Hv Hl) as (Ha & Hn & Hr). simpl in Ha, Hn, Hr.
  assert (forall Q, Q () v -> (forall v1, sv_sessions v1 = sv_sessions v -> sv_login v1 = sv_login v ->
      sv_rooms v1 = sv_rooms v -> sv_mgr v1 = sv_mgr v -> sv_next v1 = sv_next v -> sv_closing v1 = sv_closing v ->
      Q () v1) -> wpw (if s_was_connected s then GameSession_on_disconnect sid else mret ()) Q v) as Hdis.
  { intros Q HQ HQ'. destruct (s_was_connected s); wpw_simpl; [|done].
    unfold GameSession_on_disconnect. wpw_simpl. apply (wpw_session_get sid s); [done|].
    rewrite Hr, Hl. change (negb (-1 <? 0)) with false. wpw_simpl.
    apply (wpw_session_set sid s); [done|]. wpw_simpl. apply HQ'; try done.
    transitivity (<[sid := s <| s_is_login := false |>]> (sv_sessions v)); [done|].
    replace (s <| s_is_login := false |>) with s by (destruct s; simpl in *; congruence). by apply insert_id. }
  unfold cleanup_job. wpw_simpl. apply (wpw_session_get sid s); [done|]. wpw_simpl.
  assert (forall v1, sv_sessions v1 = sv_sessions v -> sv_login v1 = sv_login v ->
      sv_rooms v1 = sv_rooms v -> sv_mgr v1 = sv_mgr v -> sv_next v1 = sv_next v -> sv_closing v1 = sv_closing v ->
      wpw (SessionManager_on_disconnected sid;;
        session_set sid (fun s => s <| s_account_idx := 0 |>);;
        session_set sid (fun s => s <| s_user_name := [] |>);;
        session_set sid (fun s => s <| s_enter_room_id := -1 |>);;
        session_set sid (fun s => s <| s_cleanup_done := true |>)) (fun _ v' => cleaned sid s v') v1) as Hrest.
  { intros v1 E1 E2 E3 E4 E5 E6.
    unfold SessionManager_on_disconnected, SessionManager_release_session. wpw_simpl.
    apply (wpw_session_get sid s); [by rewrite E1|]. wpw_simpl.
    eapply wpw_session_set; [simpl; by rewrite E1|]. wpw_simpl.
    do 3 (eapply wpw_session_set; [by simpl; rewrite lookup_insert_eq|]; wpw_simpl).
    eapply (cleaned_step v _ sid s (s <| s_account_idx := 0 |> <| s_user_name := [] |> <| s_enter_room_id := -1 |>
                                    <| s_cleanup_done := true |>)); try done.
    - simpl. by rewrite !insert_insert_eq, E1.
    - pose proof (user_cleaned _ _ _ _ Hu sid _ Hv Hl) as Hc. unfold view in Hc. simpl in Hc.
      rewrite Ha, Hn, Hr in Hc. simpl. by rewrite E2, E3, E4, Ha, Hn.
    - simpl. by rewrite E2, E3.
    - congruence. }
  apply Hdis; [by apply Hrest|]. intros v1 ? ? ? ? ? ?. by apply Hrest.
Qed.

Lemma cleanup_logged_in v sid s :
  srv_inv (Some (sid, 1)) v -> sv_sessions v !! sid = Some s -> s_is_login s = true ->
  wpw (cleanup_job sid) (fun _ v' => cleaned sid s v') v.
Proof.
  intros Hinv Hsid Hl. unfold cleanup_job. wpw_simpl. apply (wpw_session_get sid s); [done|]. wpw_simpl.
  destruct (user_of _ v sid s Hinv Hsid) as (Hu0 & Hv0 & _).
  destruct (ui_login _ _ _ _ Hu0 sid _ Hv0 Hl) as (Hmem & _).
  assert (s_was_connected s = true) as ->.
  { unfold v_member in Hmem. simpl in Hmem. by bool_lia. }
  unfold GameSession_on_disconnect. wpw_simpl. apply (wpw_session_get sid s); [done|]. wpw_simpl.
  apply (leave_room_wp (Some (sid, 1)) _ sid s); [done..|]. intros v1 Hinv1 Hsid1 _. wpw_simpl.
  set (s1 := s <| s_enter_room_id := -1 |>) in *.
  destruct (user_of _ v1 sid s1 Hinv1 Hsid1) as (Hu & Hv & Ht).
  destruct (ui_login _ _ _ _ Hu sid _ Hv Hl) as (_ & Hin & _). simpl in Hin.
  pose proof Ht as [Hwf Hn _ _ _ _].
  destruct (logout_table (sv_login v1) (s_account_idx s) Hwf Hn Hin) as (Heq & _).
  apply (wpw_session_set sid s1); [done|]. rewrite Hl. wpw_simpl. unfold logout. wpw_simpl. simpl sv_login.
  rewrite Heq. wpw_simpl. unfold SessionManager_on_disconnected, SessionManager_release_session. wpw_simpl.
  apply (wpw_session_get sid (s1 <| s_is_login := false |>)); [simpl; by rewrite lookup_insert_eq|]. wpw_simpl.
  do 4 (eapply wpw_session_set; [by simpl; rewrite lookup_insert_eq|]; wpw_simpl).
  change (cleaned sid s) with (cleaned sid s1). eapply (cleaned_step v1 _ sid s1 (s1 <| s_is_login := false |> <| s_account_idx := 0 |> <| s_user_name := [] |>
                                     <| s_enter_room_id := -1 |> <| s_cleanup_done := true |>)); try done.
  - simpl. by rewrite !insert_insert_eq.
  - pose proof (user_logout _ _ _ _ Hu sid _ Hv Hwf Hl eq_refl) as Hu1.
    pose proof (user_cleaned _ _ _ _ Hu1 sid _ (lookup_insert_eq _ _ _) eq_refl) as Hu2.
    rewrite insert_insert_eq in Hu2. exact Hu2.
  - by apply tables_logout.
  - intros _. simpl. set_solver.
Qed.

Lemma cleanup_handled v sid s :
  srv_inv (Some (sid, 1)) v -> sv_sessions v !! sid = Some s ->
  wpw (cleanup_job sid) (fun _ v' => cleaned sid s v') v.
Proof.
  intros Hinv Hsid. destruct (s_is_login s) eqn:Hl; [by eapply cleanup_logged_in|by eapply cleanup_anonymous].
Qed.

(** *** Taking a job from the queue *)

Lemma popped_inv s job rest :
  session_inv s -> s_logic_queue s = job :: rest ->
  session_inv_at 1 (b2z (is_cleanup job)) (s <| s_logic_queue := rest |>).
Proof.
  intros ([Hio Hj Hcn He Hsq Hcl Hst Hb] & Hs & [Hv Hrej] & Hu) Hq.
  split; [|split; [done|split; [split; [done|]|]]].
  - rewrite Hq in *. constructor; simpl; try done.
    + rewrite zlen_cons in Hj. lia.
    + unfold cleanups in *. simpl in Hcl. lia.
  - intros E. destruct (Hrej E) as [? Hc]. split; [done|]. rewrite Hq in Hc. simpl. by apply Forall_cons_1 in Hc as [_ ?].
  - intros E. destruct (Hu E) as (? & ? & ? & ? & ? & ? & ? & ? & ? & Hc). split_and!; try done. simpl.
    rewrite Hq in Hc. by apply Forall_cons_1 in Hc as [_ ?].
Qed.

Lemma job_done_inv s e :
  session_inv_at 1 0 s -> zlen (s_logic_queue s) < 2 ^ 31 ->
  wp Session_job_done (fun _ s' _ => session_inv s' /\ s' = s <| s_pending_jobs := s_pending_jobs s - 1 |>) s e.
Proof.
  intros (Hc & Hs & Hv & Hu) Hq. unfold Session_job_done. wp_simpl.
  pose proof (sc_jobs _ _ _ _ Hc) as Hj. pose proof (zlen_nonneg (s_logic_queue s)).
  rewrite Z_gtb_true by lia. wp_simpl.
  assert (u32 (s_pending_jobs s - 1) = s_pending_jobs s - 1) as Hu32 by (apply u32_small; lia).
  split; [|destruct s; simpl in *; by rewrite Hu32].
  split; [|done]. destruct Hc as [Hio _ Hcn He Hsq Hcl Hst Hb]. constructor; simpl; try done. rewrite Hu32. lia.
Qed.

Lemma pop_step v sid s job rest :
  srv_inv None v -> sv_sessions v !! sid = Some s -> s_logic_queue s = job :: rest ->
  srv_inv (Some (sid, b2z (is_cleanup job)))
    (v <| sv_sessions := <[sid := s <| s_logic_queue := rest |>]> (sv_sessions v) |>).
Proof.
  intros [Hat Hok] Hsid Hq. split.
  - intros j x. simpl. intros [[<- <-]|[Hne Hx]]%lookup_insert_Some.
    + destruct (Hat sid s Hsid) as [Hi Hb]. unfold session_ok, run_of, clean_of. rewrite !decide_True by done.
      split; [by apply popped_inv|]. rewrite Hq, zlen_cons in Hb. simpl. lia.
    + destruct (Hat j x Hx) as [Hi Hb]. split; [|done]. unfold run_of, clean_of in *. by rewrite !decide_False by done.
  - unfold server_ok in *. rewrite (views_insert v _ sid (s <| s_logic_queue := rest |>)) by done.
    change (view (s <| s_logic_queue := rest |>)) with (view s). rewrite insert_id; [done|by apply views_lookup].
Qed.

Lemma job_finish v sid :
  handled (Some (sid, 0)) sid v ->
  wpw (on_session sid Session_job_done) (fun _ v' => srv_inv None v' /\ sv_login v' = sv_login v /\
    forall s, sv_sessions v !! sid = Some s ->
      sv_sessions v' !! sid = Some (s <| s_pending_jobs := s_pending_jobs s - 1 |>)) v.
Proof.
  intros [[Hat Hok] [s Hsid]]. apply (wpw_on_session _ sid s); [done|].
  destruct (queue_room _ v sid s Hat Hsid) as [Hi Hq]. unfold run_of, clean_of in Hi. rewrite !decide_True in Hi by done.
  eapply wp_mono; [by apply job_done_inv|]. intros _ s' e' [Hi' ->].
  split; [|split; [reflexivity|intros x Hx; rewrite Hsid in Hx; injection Hx as <-; by apply lookup_insert_eq]]. split.
  - intros j x. simpl. intros [[<- <-]|[Hne Hx]]%lookup_insert_Some.
    + split; [done|]. by destruct (Hat sid s Hsid).
    + destruct (Hat j x Hx) as [Hj Hb]. split; [|done]. unfold run_of, clean_of in *. by rewrite !decide_False in Hj by done.
  - unfold server_ok in *. rewrite (views_insert v _ sid (s <| s_pending_jobs := s_pending_jobs s - 1 |>)) by done.
    change (view (s <| s_pending_jobs := s_pending_jobs s - 1 |>)) with (view s).
    rewrite insert_id; [done|by apply views_lookup].
Qed.

(** A session that is connected and has a packet to handle is registered. *)
Lemma packet_member s pkt rest :
  session_inv s -> s_logic_queue s = PacketJob pkt :: rest -> s_is_connect s = true ->
  v_member (view s) = true.
Proof.
  intros (Hc & _ & [_ Hrej] & _) Hq Hn. destruct (sc_conn _ _ _ _ Hc Hn) as (Hd & _ & Hw & _).
  unfold v_member. simpl. rewrite Hw. simpl.
  destruct (s_close_after_send s) eqn:E.
  { destruct (Hrej eq_refl) as [_ Hcl]. rewrite Hq in Hcl. by apply Forall_cons_1 in Hcl as [? _]. }
  destruct (s_cleanup_done s) eqn:E2; [|done]. pose proof (sc_cleanup _ _ _ _ Hc) as Hcl.
  rewrite Hd, E2 in Hcl. pose proof (cleanups_nonneg (s_logic_queue s)). simpl in Hcl. lia.
Qed.

Lemma next_job_inv v sid s now :
  srv_inv None v -> sv_sessions v !! sid = Some s -> (s_is_connect s = true -> lg_account_id (sv_login v) + 1 < 2 ^ 64) ->
  wpw (next_job sid now) (fun _ v' => srv_inv None v') v.
Proof using laws api_laws.
  intros Hinv Hsid Hc. unfold next_job. wpw_simpl. apply (wpw_session_get sid s); [done|].
  destruct (s_logic_queue s) as [|job rest] eqn:Hq; [by wpw_simpl|]. wpw_simpl.
  apply (wpw_session_set sid s); [done|]. wpw_simpl.
  pose proof (pop_step v sid s job rest Hinv Hsid Hq) as Hpop.
  set (v1 := v <| sv_sessions := _ |>) in *.
  assert (sv_sessions v1 !! sid = Some (s <| s_logic_queue := rest |>)) as Hsid1.
  { simpl. by rewrite lookup_insert_eq. }
  destruct job as [pkt|]; cbn [run_job is_cleanup b2z] in *.
  - wpw_simpl. apply (wpw_session_get sid (s <| s_logic_queue := rest |>)); [done|].
    simpl s_is_connect. destruct (s_is_connect s) eqn:En; wpw_simpl.
    + eapply wpw_mono; [eapply packet_handled; [exact Hpop|exact Hsid1| |by apply Hc]|].
      { apply (packet_member s pkt rest); [|done|done]. by apply (proj1 Hinv sid s Hsid). }
      intros ? v2 Hh. wpw_simpl. eapply wpw_mono; [by apply job_finish|]. by intros ? ? [? _].
    + eapply wpw_mono; [apply job_finish; by eapply handled_same|]. by intros ? ? [? _].
  - eapply wpw_mono; [by eapply cleanup_handled|]. intros ? v2 [Hh _].
    eapply wpw_mono; [by apply job_finish|]. by intros ? ? [? _].
Qed.

(** The job of [process_disconnect], when it is the next one. *)
Lemma next_cleanup v sid s rest now :
  srv_inv None v -> sv_sessions v !! sid = Some s -> s_logic_queue s = CleanupJob :: rest ->
  wpw (next_job sid now) (fun _ v' =>
    (exists s', sv_sessions v' !! sid = Some s' /\ s_cleanup_done s' = true) /\
    (s_is_login s = true -> s_account_idx s ∉ lg_login_list (sv_login v'))) v.
Proof.
  intros Hinv Hsid Hq. unfold next_job. wpw_simpl. apply (wpw_session_get sid s); [done|]. rewrite Hq. wpw_simpl.
  apply (wpw_session_set sid s); [done|]. wpw_simpl. cbn [run_job].
  eapply wpw_mono; [eapply cleanup_handled; [exact (pop_step v sid s CleanupJob rest Hinv Hsid Hq)|by simpl; rewrite lookup_insert_eq]|].
  intros ? v2 (Hh & (s2 & Hs2 & Hcd) & Hlog). eapply wpw_mono; [by apply job_finish|].
  intros ? v3 (_ & -> & Hs3). split; [|done]. eexists. split; [by apply Hs3|done].
Qed.

(** ** Completions *)

Lemma recv_result_bound s s' chunk n :
  session_inv s -> (s_is_connect s = true -> zlen chunk <= RecvBuffer_free_size (s_recv_buffer s)) ->
  recv_result chunk n s s' ->
  view s' = view s /\
  zlen (s_logic_queue s') + b2z (negb (s_is_disconnect s')) <= zlen (s_logic_queue s) + 1 + 2 ^ 20.
Proof.
  intros (Hc & _) Hfit (ps & rb & Hf & Hno & Hyes). split; [by rewrite (frame_view _ _ Hf)|].
  pose proof (frame_bound _ _ Hf) as Hb. unfold received in Hb. simpl in Hb. rewrite zlen_app in Hb.
  assert (zlen ps < 2 ^ 20) as Hps.
  { destruct (s_is_connect s) eqn:En; [|rewrite Hno by done; done].
    destruct (Hyes eq_refl) as (tail & Hd & Hp & _). pose proof (packets_bounded ps Hp) as Hpb.
    destruct (sc_buffer _ _ _ _ Hc (or_intror En)) as [Hwf Hsz _ _ _]. specialize (Hfit eq_refl).
    pose proof (f_equal zlen Hd) as He. rewrite !zlen_app, (data_len _ Hwf) in He.
    rewrite (free_size_eq _ Hwf) in Hfit. pose proof (zlen_nonneg tail). destruct Hwf. rewrite Hsz in *.
    unfold BUFFER_SIZE in *. lia. }
  pose proof (decoded_len ps). destruct (s_is_disconnect s); simpl in Hb; lia.
Qed.

Lemma completion_bound s s' c failed :
  session_inv s -> in_flight c s -> completion_result c failed s s' ->
  view s' = view s /\
  zlen (s_logic_queue s') + b2z (negb (s_is_disconnect s')) <= zlen (s_logic_queue s) + 1 + 2 ^ 20.
Proof.
  intros Hi Hfl Hres.
  assert (forall s', io_frame s s' -> view s' = view s /\
    zlen (s_logic_queue s') + b2z (negb (s_is_disconnect s')) <= zlen (s_logic_queue s) + 1 + 2 ^ 20) as Hframe.
  { intros x Hf. split; [by apply frame_view|]. pose proof (frame_bound _ _ Hf).
    destruct (s_is_disconnect s); simpl in *; lia. }
  destruct c as [chunk|n|]; simpl in Hres.
  - eapply recv_result_bound; [done| |done]. intros _. apply Hfl.
  - apply Hframe, Hres.
  - apply Hframe, Hres.
Qed.

Lemma completion_inv v sid s c failed :
  srv_inv None v -> sv_sessions v !! sid = Some s -> in_flight c s -> zlen (s_logic_queue s) < 2 ^ 30 ->
  wpw (on_session sid (complete c failed)) (fun _ v' => net_step None v v') v.
Proof using.
  intros [Hat Hok] Hsid Hfl Hq. apply (wpw_on_session _ sid s); [done|].
  destruct (Hat sid s Hsid) as [Hi _]. unfold run_of, clean_of in Hi.
  eapply wp_mono; [apply (complete_inv 0 0 s c failed); [done|lia|done|done]|].
  intros _ s' e' [Hi' Hres]. destruct (completion_bound s s' c failed Hi Hfl Hres) as [Hv Hb]. split.
  - eapply (sessions_insert None v); [done|done|]. split; [done|]. lia.
  - split_and!; try done. rewrite (views_insert v _ sid s') by done. rewrite Hv. apply insert_id. by apply views_lookup.
Qed.

(** ** Heartbeat *)

Lemma for_each_net cur l body : forall v,
  sessions_at cur v ->
  (forall j v', j ∈ l -> net_step cur v v' -> wpw (body j) (fun _ v'' => net_step cur v' v'') v') ->
  wpw (for_each l body) (fun _ v' => net_step cur v v') v.
Proof.
  induction l as [|j l IH]; intros v Hs Hb; simpl; [wpw_simpl; by apply net_step_refl|].
  wpw_simpl. eapply wpw_mono; [apply Hb; [by left|by apply net_step_refl]|]. intros ? v1 Hn1. cbv beta in Hn1.
  eapply wpw_mono; [apply IH; [apply Hn1|]|].
  - intros i v' Hi Hn. apply Hb; [by right|by eapply net_step_trans].
  - intros ? v2 Hn2. by eapply net_step_trans.
Qed.

Lemma heartbeat_net v now :
  srv_inv None v -> 0 <= now < 2 ^ 64 ->
  wpw (SessionManager_check_heartbeat now) (fun _ v' => net_step None v v') v.
Proof using laws.
  intros Hinv Hnow. destruct (members_exist None v Hinv) as [Hex _].
  unfold SessionManager_check_heartbeat. wpw_simpl. apply for_each_net; [apply Hinv|].
  intros j v1 Hj Hn1. destruct (net_step_some None v v1 j Hn1 (Hex j Hj)) as [s Hs].
  pose proof (net_step_refl None v1 (proj1 Hn1)) as Hrefl.
  unfold check_heartbeat_session. wpw_simpl. apply (wpw_session_get j s); [done|].
  destruct (s_is_connect s); cbn [negb]; [|by wpw_simpl]. destruct (s_waiting_pong s).
  - destruct (_ >? _); [|by wpw_simpl]. eapply disconnect_net; [apply Hn1|done].
  - destruct (queue_room None v1 j s (proj1 Hn1) Hs) as [Hi Hq].
    eapply wpw_mono; [apply (on_session_net _ None v1 j s (fun _ => True)); [apply Hn1|done|]|by intros ? ? [? _]].
    intros e. eapply wp_mono; [by apply (send_ping_inv 0 0 s)|]. by intros ? ? ? [? ?].
Qed.

(** ** Accepting *)

(** The next state when one session changed its view and the components agree. *)
Lemma view_step v v' sid s s' :
  srv_inv None v -> sv_sessions v !! sid = Some s -> sv_sessions v' = <[sid := s']> (sv_sessions v) ->
  session_ok None sid s' -> v_down (view s') = v_down (view s) -> sv_next v' = sv_next v -> sv_closing v' = sv_closing v ->
  user_inv (<[sid := view s']> (views v)) (sv_login v') (sv_rooms v') (sv_mgr v') ->
  tables_inv (sv_login v') (sv_rooms v') -> srv_inv None v'.
Proof.
  intros [Hat [_ _ Hnext Hclos]] Hsid Hs' Hi Hd Hnx Hcl Hu Ht. split; [by eapply sessions_insert|].
  unfold server_ok. rewrite (views_insert v v' sid s'), Hnx, Hcl by done. constructor; try done.
  - intros j Hj. rewrite lookup_insert_ne; [by apply Hnext|]. intros <-.
    apply Hnext in Hj. by rewrite (views_lookup v sid s) in Hj.
  - intros Hc j w [[<- <-]|[_ H]]%lookup_insert_Some; [|by eapply Hclos].
    rewrite Hd. by apply (Hclos Hc sid (view s)), views_lookup.
Qed.

Lemma connected_ok v sid s closing s' :
  sessions_at None v -> sv_sessions v !! sid = Some s -> connected_by s closing s' -> session_inv s' ->
  session_ok None sid s' /\ view s' = view s <| v_was := true |> <| v_rejected := closing |>.
Proof.
  intros Hat Hsid Hf Hi. split; [|by rewrite (frame_view _ _ Hf)]. destruct (Hat sid s Hsid) as [_ Hb].
  split; [done|]. pose proof (frame_bound _ _ Hf) as Hfb. simpl in Hfb. lia.
Qed.

(** What accepting does: with room left the session is registered, otherwise turned
    away. *)
Definition accepted (sid : nat) (s : Session) (v v' : Server) : Prop :=
  exists s', sv_sessions v' !! sid = Some s' /\ session_inv s' /\
  (if sm_max_session_count (sv_mgr v) <=? sm_session_count (sv_mgr v)
   then sv_mgr v' = sv_mgr v /\ connected_by s true s'
   else sv_mgr v' = sv_mgr v <| sm_sessions := {[sid]} ∪ sm_sessions (sv_mgr v) |>
                             <| sm_session_count := sm_session_count (sv_mgr v) + 1 |> /\
        connected_by s false s').

Lemma accept_wp v sid s :
  srv_inv None v -> sv_sessions v !! sid = Some s -> s_was_connected s = false -> s_shutdown_started s = false ->
  wpw (accept_session sid) (fun _ v' => srv_inv None v' /\ accepted sid s v v') v.
Proof using laws.
  intros Hinv Hsid Hw Hsh. destruct (user_of None v sid s Hinv Hsid) as (Hu & Hv & Ht).
  destruct (queue_room None v sid s (proj1 Hinv) Hsid) as [Hi Hq]. unfold run_of, clean_of in Hi.
  assert (fresh s) as Hfr by done. pose proof Hi as (Hc & _ & _ & Hunt).
  destruct (Hunt Hw) as (_ & Hdis & _ & _ & _ & _ & _ & _ & Hrej & _). rewrite Hsh in Hdis.
  assert (s_is_login s = false) as Hl.
  { destruct (s_is_login s) eqn:E; [|done]. destruct (ui_login _ _ _ _ Hu sid _ Hv E) as (Hm & _).
    unfold v_member in Hm. simpl in Hm. by rewrite Hw in Hm. }
  assert (s_cleanup_done s = false) as Hcd.
  { pose proof (sc_cleanup _ _ _ _ Hc) as E. rewrite Hdis in E. pose proof (cleanups_nonneg (s_logic_queue s)).
    destruct (s_cleanup_done s); [simpl in E; lia|done]. }
  unfold accept_session, SessionManager_on_connected, SessionManager_add_session. wpw_simpl.
  rewrite bool_decide_eq_false_2.
  2: { eapply not_member; [done..|]. unfold v_member. simpl. by rewrite Hw. }
  rewrite Z.geb_leb. destruct (_ <=? _) eqn:Ef; bool_lia; wpw_simpl.
  - apply (wpw_on_session _ sid s); [done|]. eapply wp_mono; [by apply reject_connection_inv|].
    intros ? s' e' [Hi' Hcb]. destruct (connected_ok v sid s true s' (proj1 Hinv) Hsid Hcb Hi') as [Hok Hview].
    split.
    + eapply (view_step v _ sid s s'); try done; rewrite Hview; [done|].
      eapply user_inv_same; [done|done|done..|]. unfold v_member. simpl. by rewrite Hw.
    + exists s'. split; [simpl; by rewrite lookup_insert_eq|]. split; [done|]. by rewrite (proj2 (Z.leb_le _ _)).
  - apply (wpw_on_session _ sid s); [done|]. eapply wp_mono; [by apply process_connect_wp|].
    intros ? s' e' [Hi' Hcb]. destruct (connected_ok v sid s false s' (proj1 Hinv) Hsid Hcb Hi') as [Hok Hview].
    destruct (ui_count _ _ _ _ Hu) as [Hcnt Hmax].
    wpw_simpl. split.
    + eapply (view_step v _ sid s s'); try done; rewrite Hview; [done|].
      pose proof (user_connected _ _ _ _ Hu sid _ Hv Hw Hl Hrej Hcd Ef) as Hu'. simpl.
      rewrite i32_small by lia. unfold view in *. simpl in *. by rewrite Hrej in *.
    + exists s'. split; [simpl; by rewrite lookup_insert_eq|]. split; [done|].
      rewrite (proj2 (Z.leb_gt _ _)) by done. split; [|done]. simpl. by rewrite i32_small by lia.
Qed.

Lemma create_inv made v : srv_inv None v -> wpw (Service_create_session made) (fun _ v' => srv_inv None v') v.
Proof.
  intros Hinv. unfold Service_create_session. wpw_simpl. unfold id. destruct (sv_closing v) eqn:Ec; wpw_simpl; [done|].
  destruct made; cbn [negb]; wpw_simpl; [|done].
  destruct Hinv as [Hat [Hu Ht Hnext Hclos]]. split.
  - intros j x. simpl. intros [[<- <-]|[_ Hx]]%lookup_insert_Some; [|by apply Hat].
    split; [apply session_inv_new|done].
  - unfold server_ok. rewrite (views_insert v _ (sv_next v) Session_new) by done. simpl. constructor; try done.
    + apply user_created; [done|]. by apply Hnext.
    + intros j Hj. rewrite lookup_insert_ne by lia. apply Hnext. lia.
    + congruence.
Qed.

(** ** Closing the service *)

(** While the sessions in [l] are still to be shut down. *)
Record closing_inv (l : list nat) (v : Server) : Prop := {
  ci_sessions : sessions_at None v;
  ci_users : user_inv (views v) (sv_login v) (sv_rooms v) (sv_mgr v);
  ci_tables : tables_inv (sv_login v) (sv_rooms v);
  ci_next : forall j, (sv_next v <= j)%nat -> views v !! j = None;
  ci_closing : sv_closing v = true;
  ci_exist : forall j, j ∈ l -> is_Some (sv_sessions v !! j);
  ci_down : forall j w, views v !! j = Some w -> j ∉ l -> v_down w = true
}.

Lemma close_loop l : forall v,
  closing_inv l v ->
  wpw (for_each l (fun session => on_session session Session_begin_shutdown)) (fun _ v' => closing_inv [] v') v.
Proof.
  induction l as [|sid l IH]; intros v Hinv; simpl; [by wpw_simpl|].
  pose proof Hinv as [Hat Hu Ht Hnext Hc Hex Hdown]. destruct (Hex sid) as [s Hsid]; [by left|].
  wpw_simpl. apply (wpw_on_session _ sid s); [done|].
  destruct (queue_room None v sid s Hat Hsid) as [Hi Hq].
  eapply wp_mono; [apply (begin_shutdown_inv 0 0 s); [done|lia|done]|].
  intros ? s' e' (Hi' & Hf & _ & _). apply IH.
  pose proof (frame_view _ _ Hf) as Hview. pose proof (views_lookup v sid s Hsid) as Hv.
  set (v1 := v <| sv_sessions := _ |> <| sv_env := _ |>).
  assert (views v1 = <[sid := view s']> (views v)) as Hvs by (by apply views_insert).
  constructor; try done.
  - eapply (sessions_insert None v); [done|done|]. split; [done|]. destruct (Hat sid s Hsid) as [_ Hb].
    pose proof (frame_bound _ _ Hf) as Hfb. simpl in Hfb. lia.
  - rewrite Hvs, Hview. by eapply user_inv_same.
  - intros j Hj. rewrite Hvs, lookup_insert_ne; [by apply Hnext|]. intros <-. apply Hnext in Hj. congruence.
  - intros j Hj. simpl. destruct (decide (j = sid)) as [->|Hne]; [rewrite lookup_insert_eq; eauto|].
    rewrite lookup_insert_ne by done. apply Hex. by right.
  - intros j w. rewrite Hvs. intros [[<- <-]|[Hne H]]%lookup_insert_Some Hj; [by rewrite Hview|].
    apply (Hdown j w H). rewrite elem_of_cons. intros [->|?]; done.
Qed.

Lemma close_inv v : srv_inv None v -> wpw Service_close_service (fun _ v' => srv_inv None v' /\ sv_closing v' = true) v.
Proof.
  intros [Hat [Hu Ht Hnext _]]. unfold Service_close_service. wpw_simpl. unfold id.
  destruct (set_order_spec (dom (sv_sessions v))) as (_ & Hin & _).
  eapply wpw_mono; [apply close_loop; constructor; try done|].
  - intros j Hj%Hin%elem_of_dom. done.
  - intros j w Hw Hj. exfalso. apply Hj, Hin, elem_of_dom. unfold views in Hw. rewrite lookup_fmap in Hw.
    simpl in Hw. destruct (sv_sessions v !! j); [eauto|done].
  - intros ? v' [Hat' Hu' Ht' Hnext' Hc' _ Hdown']. split; [|done]. split; [done|]. constructor; try done.
    intros _ j w Hw. eapply Hdown'; [done|]. apply not_elem_of_nil.
Qed.

(** ** The server *)

(** When an operation can happen, and the two resources that are assumed not to run
    out: a session does not have a billion jobs waiting, and fewer than [2^64]
    accounts were made. *)
Definition enabled (op : ServerOp) (v : Server) : Prop :=
  lg_account_id (sv_login v) + 1 < 2 ^ 64 /\
  (forall j s, sv_sessions v !! j = Some s -> zlen (s_logic_queue s) < 2 ^ 30) /\
  match op with
  | SvCreate _ | SvClose => True
  | SvAccept sid =>
      exists s, sv_sessions v !! sid = Some s /\ s_was_connected s = false /\ s_shutdown_started s = false
  | SvCompletion sid c _ => exists s, sv_sessions v !! sid = Some s /\ in_flight c s
  | SvJob sid _ => is_Some (sv_sessions v !! sid)
  | SvHeartbeat now => 0 <= now < 2 ^ 64
  end.

Lemma exec_inv v op :
  srv_inv None v -> enabled op v -> wpw (exec op) (fun _ v' => srv_inv None v') v.
Proof using laws api_laws.
  intros Hinv (Hacc & Hq & Hen).
  assert (forall v', net_step None v v' -> srv_inv None v') as Hnet.
  { intros v' [? ?]. split; [done|]. eapply quiet_ok; [done|apply Hinv]. }
  destruct op as [made|sid|sid c failed|sid now|now|]; cbn [exec].
  - apply wpw_bind. eapply wpw_mono; [by apply create_inv|]. intros ? v1 ?. by apply wpw_ret.
  - destruct Hen as (s & Hs & ? & ?). eapply wpw_mono; [by eapply accept_wp|]. by intros ? ? [? _].
  - destruct Hen as (s & Hs & ?). eapply wpw_mono; [eapply completion_inv; eauto|]. auto.
  - destruct Hen as (s & Hs). by eapply next_job_inv.
  - eapply wpw_mono; [by apply heartbeat_net|]. auto.
  - eapply wpw_mono; [by apply close_inv|]. by intros ? ? [? _].
Qed.

(** The states the server reaches. *)
Inductive reachable (session_max_count : Z) : Server -> Prop :=
  | reach_start : reachable session_max_count (Server_new session_max_count)
  | reach_step v op v' :
      reachable session_max_count v -> enabled op v -> exec op v = Some ((), v') ->
      reachable session_max_count v'.

Definition room_id_ok (k : Z) : bool :=
  match RoomManager_create_room !! k with
  | Some rm => (0 <=? rm_room_id rm) && (rm_room_id rm <? 256)
  | None => true
  end.

Lemma server_new_inv n : 0 <= n < 2 ^ 31 -> srv_inv None (Server_new n).
Proof.
  intros Hn. destruct rooms_initial as (Hw & Hk & _). split.
  - intros j s Hj. simpl in Hj. by rewrite lookup_empty in Hj.
  - unfold server_ok, views. simpl. rewrite fmap_empty. constructor; try done.
    + by apply user_inv_init.
    + constructor; simpl; try done.
      * intros k Hs. by apply Hk.
      * intros k rm Hrm. assert (0 <= k < 10) as Hk10 by (apply Hk; eauto).
        pose proof (forall_below room_id_ok 10 ltac:(vm_compute; reflexivity) k Hk10) as Hall.
        unfold room_id_ok in Hall. rewrite Hrm in Hall. simpl in Hall. bool_lia. lia.
Qed.

Lemma server_reachable_inv n v : 0 <= n < 2 ^ 31 -> reachable n v -> srv_inv None v.
Proof using laws api_laws.
  intros Hn. induction 1 as [|v op v' _ IH Hen Hex]; [by apply server_new_inv|].
  destruct (exec_inv v op IH Hen) as ([] & v'' & Heq & Hinv). congruence.
Qed.

(** The invariant speaks of views, the theorems of sessions. *)
Lemma views_exists_iff v (P : View -> Prop) j :
  (exists w, views v !! j = Some w /\ P w) <-> exists s, sv_sessions v !! j = Some s /\ P (view s).
Proof.
  unfold views. rewrite lookup_fmap. split.
  - intros (w & Hw & HP). destruct (sv_sessions v !! j) as [s|]; [|done]. injection Hw as <-. eauto.
  - intros (s & -> & HP). eauto.
Qed.

(** ** Properties *)

(** C1: the server never crashes.  In every state reached by creating and accepting
    sessions, completions of the operations in flight, jobs, heartbeats and closing,
    every operation that can happen runs to its end: no assertion of the source
    fails, no buffer is accessed out of range, no reference dangles, no [OVERLAPPED]
    is reused while it is in flight, and no packet built by a handler is too large
    for its buffer. *)
Theorem server_never_crashes n v op :
  0 <= n < 2 ^ 31 -> reachable n v -> enabled op v -> exists v', exec op v = Some ((), v') /\ reachable n v'.
Proof using laws api_laws.
  intros Hn Hr Hen. destruct (exec_inv v op (server_reachable_inv n v Hn Hr) Hen) as ([] & v' & Heq & _).
  exists v'. split; [done|]. by eapply reach_step.
Qed.

(** C11: the session limit.  The manager's counter is the number of sessions it holds
    and never exceeds the limit, and it holds exactly the sessions that were
    accepted, not turned away and not cleaned up yet. *)
Theorem session_limit n v :
  0 <= n < 2 ^ 31 -> reachable n v ->
  sm_session_count (sv_mgr v) = Z.of_nat (size (sm_sessions (sv_mgr v))) /\
  sm_session_count (sv_mgr v) <= sm_max_session_count (sv_mgr v) /\
  forall j s, sv_sessions v !! j = Some s ->
    (j ∈ sm_sessions (sv_mgr v) <->
     s_was_connected s = true /\ s_close_after_send s = false /\ s_cleanup_done s = false).
Proof using laws api_laws.
  intros Hn Hr. destruct (server_reachable_inv n v Hn Hr) as [_ [Hu _ _ _]].
  destruct (ui_count _ _ _ _ Hu) as [Hc Hm]. split; [done|]. split; [lia|].
  intros j s Hj. rewrite (ui_members _ _ _ _ Hu). pose proof (views_lookup v j s Hj) as Hv. split.
  - intros (w & Hw & Hmem). replace w with (view s) in * by congruence. unfold v_member in Hmem. simpl in Hmem.
    bool_lia. done.
  - intros (Hw & Hcl & Hcd). exists (view s). split; [done|]. unfold v_member. simpl. by rewrite Hw, Hcl, Hcd.
Qed.

(** C4: one session per account.  An account is in the login list exactly when some
    session is logged in with it; no two sessions are logged in with the same account
    or the same name; and the manager's maps lead from an account and from a name to
    exactly the session that is logged in with it. *)
Theorem login_exclusive n v :
  0 <= n < 2 ^ 31 -> reachable n v ->
  (forall a, a ∈ lg_login_list (sv_login v) <->
     exists j s, sv_sessions v !! j = Some s /\ s_is_login s = true /\ s_account_idx s = a) /\
  (forall a j, sm_account_sessions (sv_mgr v) !! a = Some j <->
     exists s, sv_sessions v !! j = Some s /\ s_is_login s = true /\ s_account_idx s = a) /\
  (forall w j, sm_name_sessions (sv_mgr v) !! w = Some j <->
     w <> [] /\ exists s, sv_sessions v !! j = Some s /\ s_is_login s = true /\ s_user_name s = w) /\
  (forall i j s t, sv_sessions v !! i = Some s -> sv_sessions v !! j = Some t ->
     s_is_login s = true -> s_is_login t = true ->
     s_account_idx s = s_account_idx t \/ (s_user_name s = s_user_name t /\ s_user_name s <> []) -> i = j).
Proof using laws api_laws.
  intros Hn Hr. destruct (server_reachable_inv n v Hn Hr) as [_ [Hu _ _ _]].
  pose proof (views_exists_iff v) as Hview.
  assert (forall a j, sm_account_sessions (sv_mgr v) !! a = Some j <->
     exists s, sv_sessions v !! j = Some s /\ s_is_login s = true /\ s_account_idx s = a) as Hacc.
  { intros a j. rewrite (ui_accounts _ _ _ _ Hu). apply (Hview (fun w => v_login w = true /\ v_account w = a)). }
  assert (forall w j, sm_name_sessions (sv_mgr v) !! w = Some j <->
     w <> [] /\ exists s, sv_sessions v !! j = Some s /\ s_is_login s = true /\ s_user_name s = w) as Hname.
  { intros x j. rewrite (ui_names _ _ _ _ Hu). apply and_iff_compat_l.
    apply (Hview (fun w => v_login w = true /\ v_name w = x)). }
  split; [|split; [done|split; [done|]]].
  - intros a. split.
    + intros Ha. destruct (ui_owner _ _ _ _ Hu a Ha) as (j & w & Hw). exists j.
      apply (Hview (fun w => v_login w = true /\ v_account w = a)). eauto.
    + intros (j & s & Hj & Hl & <-). apply (ui_login _ _ _ _ Hu j (view s)); [by apply views_lookup|done].
  - intros i j s t Hi Hj Hs Ht [E|[E Hne]].
    + assert (sm_account_sessions (sv_mgr v) !! s_account_idx s = Some i) by (apply Hacc; eauto).
      assert (sm_account_sessions (sv_mgr v) !! s_account_idx s = Some j) by (apply Hacc; eauto). congruence.
    + assert (sm_name_sessions (sv_mgr v) !! s_user_name s = Some i) by (apply Hname; eauto).
      assert (sm_name_sessions (sv_mgr v) !! s_user_name s = Some j) by (apply Hname; eauto). congruence.
Qed.

(** C5: rooms and sessions agree.  An account is in the list of a room exactly when
    the session logged in with it carries that room id, so a user is in at most one
    room; the user count of every room is the length of its list and within the
    limit; and while a user is logged in, neither leaving the room he is in nor
    logging out can fail. *)
Theorem rooms_consistent n v :
  0 <= n < 2 ^ 31 -> reachable n v ->
  (forall k a j, room_members (sv_rooms v) k !! a = Some j <->
     0 <= k /\ exists s, sv_sessions v !! j = Some s /\ s_is_login s = true /\ s_account_idx s = a /\ s_enter_room_id s = k) /\
  (forall k rm, sv_rooms v !! k = Some rm ->
     rm_room_cur_count rm = Z.of_nat (size (rm_room_session_list rm)) /\ rm_room_cur_count rm <= rm_room_max_count rm) /\
  (forall j s, sv_sessions v !! j = Some s -> s_is_login s = true ->
     (0 <= s_enter_room_id s -> exists rl', RoomManager_exit_room (s_enter_room_id s) (s_account_idx s) (sv_rooms v) = (true, rl')) /\
     exists lg', Login_logout (s_account_idx s) (sv_login v) = (true, lg')).
Proof using laws api_laws.
  intros Hn Hr. pose proof (server_reachable_inv n v Hn Hr) as Hinv. pose proof Hinv as [_ [Hu Ht _ _]].
  assert (forall k a j, room_members (sv_rooms v) k !! a = Some j <->
     0 <= k /\ exists s, sv_sessions v !! j = Some s /\ s_is_login s = true /\ s_account_idx s = a /\ s_enter_room_id s = k) as Hrm.
  { intros k a j. rewrite (ui_rooms _ _ _ _ Hu). apply and_iff_compat_l.
    apply (views_exists_iff v (fun w => v_login w = true /\ v_account w = a /\ v_room w = k)). }
  split; [done|]. split.
  - intros k rm Hk. by destruct (ti_rooms _ _ Ht k rm Hk).
  - intros j s Hj Hl. split.
    + intros Hk. destruct (exit_room_cases (sv_rooms v) (s_enter_room_id s) (s_account_idx s)) as
        [(rl' & _ & _ & _ & Hnone)|(rl' & Heq & _)]; [apply Ht| |eauto].
      assert (room_members (sv_rooms v) (s_enter_room_id s) !! s_account_idx s = Some j) by (apply Hrm; eauto 8).
      congruence.
    + rewrite logout_spec, bool_decide_eq_true_2; [eauto|].
      by apply (ui_login _ _ _ _ Hu j (view s)), Hl; apply views_lookup.
Qed.

(** Nothing of the server refers to a session: it is not in the manager's set, no account,
    name or room leads to it, and every account of the login list belongs to another session. *)
Definition unreferenced (j : nat) (v : Server) : Prop :=
  j ∉ sm_sessions (sv_mgr v) /\
  (forall a, sm_account_sessions (sv_mgr v) !! a <> Some j) /\
  (forall w, sm_name_sessions (sv_mgr v) !! w <> Some j) /\
  (forall k a, room_members (sv_rooms v) k !! a <> Some j) /\
  (forall a, a ∈ lg_login_list (sv_login v) ->
     exists i t, i <> j /\ sv_sessions v !! i = Some t /\ s_is_login t = true /\ s_account_idx t = a).

(** C10: nothing is left of a session that was cleaned up.  In every reachable state a session
    whose cleanup is done is not logged in, has no account, name or room, and nothing refers to
    it: not the manager's set and maps, not the rooms, and every account of the login list is
    that of another session.  When the cleanup job is the next one of a session it runs to its
    end and marks the session, and the account that was logged in there is no longer in the
    login list. *)
Theorem cleanup_leaves_nothing n v :
  0 <= n < 2 ^ 31 -> reachable n v ->
  (forall j s, sv_sessions v !! j = Some s -> s_cleanup_done s = true ->
     s_is_login s = false /\ s_account_idx s = 0 /\ s_user_name s = [] /\ s_enter_room_id s = -1 /\
     unreferenced j v) /\
  (forall j s rest now, sv_sessions v !! j = Some s -> s_logic_queue s = CleanupJob :: rest ->
     enabled (SvJob j now) v ->
     exists v' s', exec (SvJob j now) v = Some ((), v') /\ reachable n v' /\
       sv_sessions v' !! j = Some s' /\ s_cleanup_done s' = true /\
       (s_is_login s = true -> s_account_idx s ∉ lg_login_list (sv_login v'))).
Proof using laws api_laws.
  intros Hn Hr. pose proof (server_reachable_inv n v Hn Hr) as Hinv. pose proof Hinv as [_ [Hu _ _ _]]. split.
  - intros j s Hj Hcd. pose proof (views_lookup v j s Hj) as Hv.
    assert (v_member (view s) = false) as Hm by (unfold v_member; simpl; by rewrite Hcd, andb_false_r).
    assert (s_is_login s = false) as Hl.
    { destruct (s_is_login s) eqn:E; [|done]. destruct (ui_login _ _ _ _ Hu j _ Hv E) as [? _]. congruence. }
    assert (forall w, views v !! j = Some w -> v_login w = true -> False) as Hno.
    { intros w Hw. rewrite Hv in Hw. injection Hw as <-. simpl. congruence. }
    destruct (ui_anonymous _ _ _ _ Hu j _ Hv Hl) as (Ha & Hw & Hk). simpl in Ha, Hw, Hk.
    do 4 (split; [done|]). split; [by eapply not_member|]. split_and!.
    + intros a (w & Hw' & ? & _)%(ui_accounts _ _ _ _ Hu). eauto.
    + intros x (_ & w & Hw' & ? & _)%(ui_names _ _ _ _ Hu). eauto.
    + intros k a (_ & w & Hw' & ? & _)%(ui_rooms _ _ _ _ Hu). eauto.
    + intros a (i & w & Hi & Hlw & Haw)%(ui_owner _ _ _ _ Hu).
      destruct (proj1 (views_exists_iff v (fun w => v_login w = true /\ v_account w = a) i)) as (t & Ht & ? & ?); [eauto|].
      exists i, t. split; [intros ->; eauto|done].
  - intros j s rest now Hj Hq Hen. destruct (exec_inv v (SvJob j now) Hinv Hen) as ([] & v' & Heq & _).
    destruct (next_cleanup v j s rest now Hinv Hj Hq) as ([] & v'' & Heq' & (s' & Hs' & Hcd) & Hlog).
    cbn [exec] in Heq. assert (v'' = v') as -> by congruence.
    exists v', s'. split; [done|]. split; [by eapply reach_step|done].
Qed.

(** C9: what chat does.  A chat request of a logged-in user is for the connected sessions in
    the user's room, when it names that room; for all connected sessions that are in a room; or
    for the connected session of the user it names; an empty or oversized message or name, a
    wrong room, an unknown user or kind is an error ([chat_audience]).  In every reachable
    state the handler ends; an error is answered with its code and nobody else is sent
    anything.  Otherwise exactly the sessions the request is for get the message, with the
    sender's name, at the end of what they still have to send, each once, unless they are
    disconnected because the queue is full or the system refuses the send; then the sender, and
    only the sender, gets an answer that carries their number.  Accounts, rooms and the
    session manager do not change. *)
Theorem chat_reaches_exactly n v sid s pkt :
  0 <= n < 2 ^ 31 -> reachable n v -> sv_sessions v !! sid = Some s -> s_is_login s = true ->
  exists v', Handle_REQ_CHAT sid pkt v = Some (true, v') /\
    sv_login v' = sv_login v /\ sv_rooms v' = sv_rooms v /\ sv_mgr v' = sv_mgr v /\
    match chat_audience s pkt v with
    | inl error => answered sid (P_ACK_CHAT (mkACK_CHAT error 0 [])) v v'
    | inr audience =>
        exists b c v1, MakeSendBuffer (chat_message s pkt) = Some b /\ reached audience b c v v1 /\
          answered sid (P_ACK_CHAT (mkACK_CHAT CHAT_ERROR_SUCCESS c [])) v1 v'
    end.
Proof using laws api_laws.
  intros Hn Hr Hsid Hl. pose proof (server_reachable_inv n v Hn Hr) as Hinv.
  destruct (chat_wp None v sid s pkt Hinv Hsid Hl) as (ok & v' & Heq & -> & _ & (_ & ? & ? & ? & _) & Hout).
  exists v'. by split_and!.
Qed.

(** Accepting.  While there is room, an accepted session is counted, connected
    and registered; when the limit is reached it is not registered and does not
    receive: it is marked to be closed after the notice was sent. *)
Theorem accept_respects_limit n v j s :
  0 <= n < 2 ^ 31 -> reachable n v -> sv_sessions v !! j = Some s ->
  s_was_connected s = false -> s_shutdown_started s = false ->
  exists v' s', accept_session j v = Some ((), v') /\ sv_sessions v' !! j = Some s' /\
    (sm_session_count (sv_mgr v) < sm_max_session_count (sv_mgr v) ->
       j ∈ sm_sessions (sv_mgr v') /\ sm_session_count (sv_mgr v') = sm_session_count (sv_mgr v) + 1 /\
       s_close_after_send s' = false) /\
    (sm_max_session_count (sv_mgr v) <= sm_session_count (sv_mgr v) ->
       sv_mgr v' = sv_mgr v /\ j ∉ sm_sessions (sv_mgr v) /\ s_close_after_send s' = true /\ s_recv_owner s' = false).
Proof using laws api_laws.
  intros Hn Hr Hj Hw Hsh. pose proof (server_reachable_inv n v Hn Hr) as Hinv.
  destruct (accept_wp v j s Hinv Hj Hw Hsh) as ([] & v' & Heq & _ & s' & Hs' & (_ & _ & Hrecv & _) & Hcase).
  assert (j ∉ sm_sessions (sv_mgr v)) as Hnin.
  { eapply not_member; [apply Hinv|by apply views_lookup|]. unfold v_member. simpl. by rewrite Hw. }
  exists v', s'. split; [done|]. split; [done|]. split; intros Hlim.
  - rewrite (proj2 (Z.leb_gt _ _)) in Hcase by done. destruct Hcase as [-> Hcb]. simpl.
    split; [set_solver|]. split; [done|]. by rewrite (fr_close _ _ Hcb).
  - rewrite (proj2 (Z.leb_le _ _)) in Hcase by done. destruct Hcase as [-> Hcb].
    split; [done|]. split; [done|]. pose proof (fr_close _ _ Hcb) as Hcl. split; [done|].
    by apply (proj2 Hrecv) in Hcl as [? _].
Qed.
End Server.
