(* ===== verification/ServerDemo.v ===== *)
(** * A run of the server

    The operations of the server, executed on concrete inputs: a session is created,
    accepted, sends a request to create an account and one to enter a room, and is
    disconnected.  [enabledb] decides whether an operation can happen, so that the
    states of a run are reachable by evaluation; the witnesses of the theorems of
    [ServerTheorems] are about them. *)

From stdpp Require Import base list numbers option gmap.
From Stdlib Require Import ZArith Lia.
From S2P Require Import Prelude Buffers SendEvents Framing JobQueues Wire Protocol Messages Packets Runtime Accounts Rooms Sessions SessionSafety Managers Handlers Users SessionTheorems ServerSafety ServerTheorems.

Definition is_some {A} (o : option A) : bool := match o with Some _ => true | None => false end.

Section Run.
Context {codec : PacketCodec} {api : StringApi} {os : Os}.

Definition in_flightb (c : Completion) (s : Session) : bool :=
  match c with
  | RecvCompletion chunk =>
      s_recv_owner s && forallb (fun b => (0 <=? b) && (b <? 256)) chunk &&
      (zlen chunk <=? RecvBuffer_free_size (s_recv_buffer s))
  | SendCompletion n => s_send_owner s && (0 <=? n) && (n <? 2 ^ 31)
  | DisconnectCompletion => s_disconnect_owner s
  end.

Definition enabledb (op : ServerOp) (v : Server) : bool :=
  (lg_account_id (sv_login v) + 1 <? 2 ^ 64) &&
  forallb (fun js => zlen (s_logic_queue (snd js)) <? 2 ^ 30) (map_to_list (sv_sessions v)) &&
  match op with
  | SvCreate _ | SvClose => true
  | SvAccept sid =>
      match sv_sessions v !! sid with
      | Some s => negb (s_was_connected s) && negb (s_shutdown_started s)
      | None => false
      end
  | SvCompletion sid c _ =>
      match sv_sessions v !! sid with Some s => in_flightb c s | None => false end
  | SvJob sid _ => match sv_sessions v !! sid with Some _ => true | None => false end
  | SvHeartbeat now => (0 <=? now) && (now <? 2 ^ 64)
  end.

Lemma in_flightb_sound c s : in_flightb c s = true -> in_flight c s.
Proof.
  destruct c; simpl; intros H; bool_lia; try done. split; [done|]. split; [|done].
  apply Forall_forall. intros b Hb. rewrite forallb_forall in H1. specialize (H1 b).
  rewrite <- list_elem_of_In in H1. specialize (H1 Hb). bool_lia. done.
Qed.

Lemma enabledb_sound op v : enabledb op v = true -> enabled op v.
Proof.
  unfold enabledb, enabled. intros H. bool_lia. split; [done|]. split.
  - intros j s Hj. rewrite forallb_forall in H1. specialize (H1 (j, s)).
    rewrite <- list_elem_of_In, elem_of_map_to_list in H1. specialize (H1 Hj). by bool_lia.
  - destruct op as [|sid|sid c f|sid now|now|]; try done.
    + destruct (sv_sessions v !! sid) as [s|]; [|done]. bool_lia. eauto.
    + destruct (sv_sessions v !! sid) as [s|]; [|done]. eauto using in_flightb_sound.
    + destruct (sv_sessions v !! sid); [eauto|done].
    + bool_lia. done.
Qed.

Definition run (ops : list ServerOp) (v : Server) : option Server :=
  foldl (fun ov op =>
    match ov with
    | Some v => if enabledb op v then match exec op v with Some (_, v') => Some v' | None => None end else None
    | None => None
    end) (Some v) ops.

Lemma run_none (ops : list ServerOp) :
  foldl (fun ov op =>
    match ov with
    | Some v => if enabledb op v then match exec op v with Some (_, v') => Some v' | None => None end else None
    | None => None
    end) None ops = None.
Proof. by induction ops. Qed.

Lemma run_reachable n ops : forall v v', reachable n v -> run ops v = Some v' -> reachable n v'.
Proof.
  unfold run. induction ops as [|op ops IH]; intros v v' Hr Hrun; simpl in Hrun; [congruence|].
  destruct (enabledb op v) eqn:Ee; [|by rewrite run_none in Hrun].
  destruct (exec op v) as [[[] v1]|] eqn:Ex; [|by rewrite run_none in Hrun].
  apply (IH v1 v'); [|done]. eapply reach_step; [done|by apply enabledb_sound|done].
Qed.

Lemma run_default n ops v :
  reachable n v -> is_some (run ops v) = true -> reachable n (match run ops v with Some v' => v' | None => v end).
Proof. intros Hr H. destruct (run ops v) as [v'|] eqn:E; [by eapply run_reachable|done]. Qed.
End Run.

Lemma some_of {A} (o : option A) (f : A -> bool) :
  match o with Some a => f a | None => false end = true -> exists a, o = Some a /\ f a = true.
Proof. destruct o; [eauto|done]. Qed.

(** ** A run *)

#[local] Instance demo_run_os : Os := fun _ => IoPending.

(** The frame of a request. *)
Definition frame (p : Packet) : bytes :=
  match MakeSendBuffer p with Some sb => SendBuffer_payload sb | None => [] end.

Definition create_request (id name : bytes) : bytes :=
  frame (P_REQ_LOGIN (mkREQ_LOGIN true id [112; 119] name [])).
Definition enter_request (room : Z) : bytes := frame (P_REQ_ENTER_ROOM (mkREQ_ENTER_ROOM room [])).

(** Two users log in and enter room 3; a third session is turned away. *)
Definition demo_ops : list ServerOp :=
  [SvCreate true; SvCreate true; SvCreate true; SvAccept 0; SvAccept 1; SvAccept 2;
   SvCompletion 0 (RecvCompletion (create_request [97] [65] ++ enter_request 3)) false;
   SvCompletion 1 (RecvCompletion (create_request [98] [66] ++ enter_request 3)) false;
   SvJob 0 5; SvJob 0 6; SvJob 1 7; SvJob 1 8; SvHeartbeat 100].

(** Then the second one is disconnected and cleaned up. *)
Definition demo_leave : list ServerOp :=
  [SvCompletion 1 (RecvCompletion []) true; SvCompletion 1 DisconnectCompletion false; SvJob 1 9].

Definition demo_server : Server :=
  match run demo_ops (Server_new 2) with Some v => v | None => Server_new 2 end.
Definition demo_after : Server :=
  match run demo_leave demo_server with Some v => v | None => demo_server end.

(** What the run shows: who is logged in, who is in the room, how many sessions. *)
Definition summary (v : Server) : Z * list (nat * Z * Z * bool) * list (Z * nat) :=
  (sm_session_count (sv_mgr v),
   (fun js => (fst js, s_account_idx (snd js), s_enter_room_id (snd js), s_cleanup_done (snd js))) <$>
     map_to_list (sv_sessions v),
   map_to_list (room_members (sv_rooms v) 3)).

Lemma demo_runs : is_some (run demo_ops (Server_new 2)) = true /\ is_some (run demo_leave demo_server) = true.
Proof. split; vm_compute; reflexivity. Qed.

Lemma demo_reachable : reachable 2 demo_server /\ reachable 2 demo_after.
Proof.
  destruct demo_runs as [H1 H2].
  pose proof (run_default 2 demo_ops (Server_new 2) (reach_start 2) H1) as Hr.
  exact (conj Hr (run_default 2 demo_leave demo_server Hr H2)).
Qed.

#[local] Opaque demo_server demo_after.

(** ** Witnesses *)

Lemma server_never_crashes_witness :
  exists v', exec (SvJob 0 11) demo_server = Some ((), v') /\ reachable 2 v'.
Proof.
  apply (server_never_crashes 2 demo_server (SvJob 0 11)).
  - lia.
  - apply demo_reachable.
  - apply enabledb_sound. vm_compute. reflexivity.
Defined.

Lemma session_limit_witness :
  sm_session_count (sv_mgr demo_server) = Z.of_nat (size (sm_sessions (sv_mgr demo_server))) /\
  sm_session_count (sv_mgr demo_server) = 2.
Proof.
  destruct (session_limit 2 demo_server) as (H & _ & _).
  - lia.
  - apply demo_reachable.
  - split; [exact H|]. vm_compute. reflexivity.
Defined.

Lemma login_exclusive_witness :
  exists j s, sv_sessions demo_server !! j = Some s /\ s_is_login s = true /\ s_account_idx s = 2.
Proof.
  apply (proj1 (login_exclusive 2 demo_server ltac:(lia) (proj1 demo_reachable))).
  apply (bool_decide_unpack _). vm_compute. exact I.
Defined.

Lemma rooms_consistent_witness :
  room_members (sv_rooms demo_server) 3 !! 1 = Some 0%nat /\
  exists s, sv_sessions demo_server !! 0%nat = Some s /\ s_is_login s = true /\ s_account_idx s = 1 /\ s_enter_room_id s = 3.
Proof.
  destruct (rooms_consistent 2 demo_server ltac:(lia) (proj1 demo_reachable)) as [H _].
  assert (room_members (sv_rooms demo_server) 3 !! 1 = Some 0%nat) as E by (vm_compute; reflexivity).
  split; [exact E|]. apply (proj1 (H 3 1 0%nat)). exact E.
Defined.

(** The second session waits for its cleanup. *)
Definition demo_closing : Server :=
  match run (take 2 demo_leave) demo_server with Some v => v | None => demo_server end.

#[local] Opaque demo_closing.

Definition cleanup_next (s : Session) : bool :=
  match s_logic_queue s with CleanupJob :: _ => s_is_login s && (s_account_idx s =? 2) | _ => false end.

Lemma cleanup_leaves_nothing_witness :
  (exists s, sv_sessions demo_after !! 1%nat = Some s /\ s_is_login s = false /\ unreferenced 1 demo_after) /\
  (exists v' s', exec (SvJob 1 9) demo_closing = Some ((), v') /\ sv_sessions v' !! 1%nat = Some s' /\
     s_cleanup_done s' = true /\ 2 ∉ lg_login_list (sv_login v')).
Proof.
  split.
  - assert (match sv_sessions demo_after !! 1%nat with Some s => s_cleanup_done s | None => false end = true) as E.
    { vm_compute. reflexivity. }
    pose proof (some_of (sv_sessions demo_after !! 1%nat) s_cleanup_done) as H. destruct (H E) as (s & Es & Ec). clear H E.
    destruct (proj1 (cleanup_leaves_nothing 2 demo_after ltac:(lia) (proj2 demo_reachable)) 1%nat s Es Ec) as (Hl & _ & _ & _ & Hu).
    exists s. exact (conj Es (conj Hl Hu)).
  - pose proof (run_default 2 (take 2 demo_leave) demo_server (proj1 demo_reachable) ltac:(vm_compute; reflexivity)) as Hr.
    assert (match sv_sessions demo_closing !! 1%nat with Some s => cleanup_next s | None => false end = true) as E
      by (vm_compute; reflexivity).
    pose proof (some_of (sv_sessions demo_closing !! 1%nat) cleanup_next) as H. destruct (H E) as (s & Es & Ec). clear H E.
    unfold cleanup_next in Ec. destruct (s_logic_queue s) as [|[|] rest] eqn:Eq; [discriminate Ec|discriminate Ec|].
    apply andb_true_iff in Ec as [Hl Ha%Z.eqb_eq].
    destruct (proj2 (cleanup_leaves_nothing 2 demo_closing ltac:(lia) Hr) 1%nat s rest 9 Es Eq) as (v' & s' & Hx & _ & Hs' & Hc & Hlog).
    + apply enabledb_sound. vm_compute. reflexivity.
    + exists v', s'. rewrite Ha in Hlog. exact (conj Hx (conj Hs' (conj Hc (Hlog Hl)))).
Defined.

(** The first user whispers to the second. *)
Definition demo_whisper : REQ_CHAT := mkREQ_CHAT [104; 105] CHAT_WHISPER 0 [66] [].

Lemma demo_whisper_audience s : chat_audience s demo_whisper demo_server = inr (named (Utf8ToWString [66])).
Proof.
  unfold chat_audience. assert (name_in_use (Utf8ToWString [66]) demo_server = true) as E by (vm_compute; reflexivity).
  cbn [demo_whisper REQ_CHAT_target_name REQ_CHAT_message REQ_CHAT_chat_state]. rewrite E. reflexivity.
Qed.

Lemma chat_reaches_exactly_witness :
  exists v' b c v1, Handle_REQ_CHAT 0 demo_whisper demo_server = Some (true, v') /\
    reached (named (Utf8ToWString [66])) b c demo_server v1 /\
    answered 0 (P_ACK_CHAT (mkACK_CHAT CHAT_ERROR_SUCCESS c [])) v1 v'.
Proof.
  assert (match sv_sessions demo_server !! 0%nat with Some s => s_is_login s | None => false end = true) as E
    by (vm_compute; reflexivity).
  pose proof (some_of (sv_sessions demo_server !! 0%nat) s_is_login) as H. destruct (H E) as (s & Es & El). clear H E.
  destruct (chat_reaches_exactly 2 demo_server 0%nat s demo_whisper ltac:(lia) (proj1 demo_reachable) Es El)
    as (v' & Hx & _ & _ & _ & Hout).
  rewrite (demo_whisper_audience s) in Hout. destruct Hout as (b & c & v1 & _ & Hre & Ha).
  exists v', b, c, v1. exact (conj Hx (conj Hre Ha)).
Defined.

Definition demo_full : Server :=
  match run [SvCreate true] demo_server with Some v => v | None => demo_server end.

#[local] Opaque demo_full.

Definition fresh_session (s : Session) : bool := negb (s_was_connected s) && negb (s_shutdown_started s).

Lemma accept_respects_limit_witness :
  exists s v' s', sv_sessions demo_full !! 3%nat = Some s /\ accept_session 3%nat demo_full = Some ((), v') /\
    sv_sessions v' !! 3%nat = Some s' /\ s_close_after_send s' = true /\ s_recv_owner s' = false.
Proof.
  pose proof (run_default 2 [SvCreate true] demo_server (proj1 demo_reachable) ltac:(vm_compute; reflexivity)) as Hr.
  assert (match sv_sessions demo_full !! 3%nat with Some s => fresh_session s | None => false end = true) as E
    by (vm_compute; reflexivity).
  pose proof (some_of (sv_sessions demo_full !! 3%nat) fresh_session) as H. destruct (H E) as (s & Es & Ef). clear H E.
  apply andb_true_iff in Ef as [E1%negb_true_iff E2%negb_true_iff].
  destruct (accept_respects_limit 2 demo_full 3%nat s ltac:(lia) Hr Es E1 E2) as (v' & s' & Ha & Hs' & _ & Hfull).
  exists s, v', s'. split; [exact Es|]. split; [exact Ha|]. split; [exact Hs'|].
  apply Hfull. vm_compute. congruence.
Defined.
