(* ===== verification/ServerShutdown.v ===== *)
(** * Closing the server

    [Service::close_service] starts the shutdown of every session and waits for each of them; the
    workers go on processing completions and jobs meanwhile.  Here: from the moment the shutdown
    has been started no order of those completions and jobs goes on for ever, none of them fails,
    and when nothing is left to do every session is ready for [wait_for_shutdown] and nobody is
    logged in or in a room any more. *)

From stdpp Require Import base list numbers option gmap relations.
From Stdlib Require Import ZArith Lia.
From S2P Require Import Prelude Buffers SendEvents Framing JobQueues Wire Protocol Packets Accounts Rooms Sessions SessionSafety SessionTheorems Managers Handlers Users ServerSafety ServerTheorems.

(** ** One session *)

Section Down.
Context {codec : PacketCodec} {os : Os}.

(** What is left to do for a session that has been shut down. *)
Definition session_load (s : Session) : nat := Z.to_nat (s_pending_io s) + length (s_logic_queue s).

(** The event of the completion has its owner. *)
Definition owner_of (c : Completion) (s : Session) : bool :=
  match c with
  | RecvCompletion _ => s_recv_owner s
  | SendCompletion _ => s_send_owner s
  | DisconnectCompletion => s_disconnect_owner s
  end.

(** A completion that is reported: one of an operation in flight, or a receive without data. *)
Definition reported (c : Completion) (s : Session) : Prop :=
  owner_of c s = true /\ (in_flight c s \/ c = RecvCompletion []).

(** A completion on a session that was shut down only takes its event back. *)
Lemma complete_down s c failed e :
  session_inv s -> s_shutdown_started s = true -> owner_of c s = true ->
  wp (complete c failed) (fun _ s' _ => session_inv s' /\ view s' = view s /\ s_is_disconnect s' = true /\
    s_pending_io s' = s_pending_io s - 1 /\ s_logic_queue s' = s_logic_queue s) s e.
Proof.
  intros Hi Hs Hfl. pose proof (shutdown_disconnected 0 0 s Hi Hs) as [Hn Hd].
  destruct Hi as (Hc & Hse & [Hv Hrej] & Hu). pose proof (pending_bounds 0 0 0 s Hc) as Hp. pose proof (sc_io _ _ _ _ Hc) as Hio.
  assert (s_was_connected s = true) as Hw.
  { destruct (s_was_connected s) eqn:E; [done|]. destruct (Hu E) as (_ & _ & ? & ? & ? & _). destruct c; simpl in Hfl; congruence. }
  assert (0 < s_pending_io s) as H0.
  { rewrite Hio. destruct c; simpl in Hfl; rewrite Hfl; destruct (s_recv_owner s), (s_send_owner s), (s_disconnect_owner s); simpl; lia. }
  assert ((s_pending_io s >? 0) = true) as Hg by (rewrite Z_gtb_true; [done|lia]).
  assert (u32 (s_pending_io s - 1) = s_pending_io s - 1) as Hu32 by (apply u32_small; lia).
  destruct Hc as [_ Hj Hcn He Hsq Hcl Hst Hb].
  assert (Hinv : forall s', s_is_connect s' = false -> s_was_connected s' = true -> s_is_disconnect s' = true ->
    s_shutdown_started s' = true -> s_logic_stopped s' = true -> s_cleanup_done s' = s_cleanup_done s ->
    s_close_after_send s' = s_close_after_send s ->
    s_logic_queue s' = s_logic_queue s -> s_pending_jobs s' = s_pending_jobs s -> s_send_queue s' = s_send_queue s ->
    SendEvent_wf (s_send_event s') -> (s_recv_owner s = false -> s_recv_owner s' = false) ->
    s_pending_io s' = b2z (s_recv_owner s') + b2z (s_send_owner s') + b2z (s_disconnect_owner s') -> session_inv s').
  { intros s' E1 E2 E3 E4 E5 E6 E7 E8 E9 E10 E11 E12 E13. split; [|split; [|split; [split|]]].
    - constructor; rewrite ?E1, ?E2, ?E3, ?E4, ?E5, ?E6, ?E8, ?E9, ?E10; try done.
      + lia.
      + by rewrite Hcl, Hd.
      + by intros [?|?].
    - intros ?. congruence.
    - intros ?. congruence.
    - rewrite E7, E8. intros Er. destruct (Hrej Er) as [? ?]. auto.
    - intros ?. congruence. }
  destruct Hst as [Hst _]. rewrite Hs in Hst.
  destruct c; unfold complete, IocpCore_dispatch; wp_simpl; unfold Session_dispatch,
    Session_process_recv, Session_process_send, Session_process_disconnect; wp_simpl; simpl;
    rewrite ?Hn, ?Hd; cbn [negb]; wp_simpl; simpl; rewrite Hg; wp_simpl; (split; [|by split_and!]).
  all: simpl in Hfl; apply Hinv; simpl; try done; rewrite Hu32, Hio, Hfl; simpl; lia.
Qed.

(** A session with nothing left to do. *)
Lemma session_at_rest s :
  session_inv s -> s_shutdown_started s = true -> (forall c, ~ reported c s) -> s_logic_queue s = [] ->
  Session_shutdown_complete s = true /\ s_cleanup_done s = true.
Proof.
  intros Hi Hs Hfl Hq. pose proof (shutdown_disconnected 0 0 s Hi Hs) as [_ Hd]. destruct Hi as (Hc & _).
  assert (s_pending_io s = 0) as Hp.
  { rewrite (sc_io _ _ _ _ Hc). pose proof (Hfl (SendCompletion 0)) as F1. pose proof (Hfl DisconnectCompletion) as F2.
    pose proof (Hfl (RecvCompletion [])) as F3. unfold reported in *. simpl in *.
    destruct (s_send_owner s); [exfalso; apply F1; split; [done|left; lia]|].
    destruct (s_disconnect_owner s); [exfalso; by apply F2; auto|]. destruct (s_recv_owner s); [exfalso; by apply F3; auto|done]. }
  pose proof (sc_cleanup _ _ _ _ Hc) as Hcl. rewrite Hq, Hd in Hcl. assert (s_cleanup_done s = true) as Hcd.
  { destruct (s_cleanup_done s); [done|]. simpl in Hcl. lia. }
  split; [|done]. unfold Session_shutdown_complete. by rewrite (sc_jobs _ _ _ _ Hc), Hp, Hq, Hcd.
Qed.
End Down.

(** ** The server *)

Section Closing.
Context {utf8 : Utf8Check} {codec : PacketCodec} {laws : PacketCodecLaws codec}.
Context {api : StringApi} {api_laws : StringApiLaws api} {os : Os}.

Definition server_load (v : Server) : nat := sum_list_with (fun p => session_load (snd p)) (map_to_list (sv_sessions v)).

Lemma load_insert v v' sid s s' :
  sv_sessions v !! sid = Some s -> sv_sessions v' = <[sid := s']> (sv_sessions v) ->
  (server_load v' + session_load s = server_load v + session_load s')%nat.
Proof.
  intros Hs Hv. unfold server_load. rewrite Hv, <- insert_delete_eq.
  rewrite (map_to_list_insert (delete sid (sv_sessions v)) sid s' (lookup_delete_eq _ _)).
  rewrite <- (map_to_list_delete _ _ _ Hs). simpl. lia.
Qed.

(** What the workers do while [close_service] waits: a completion, or the next job of a session. *)
Definition close_step (v v' : Server) : Prop :=
  (exists sid c failed s, sv_sessions v !! sid = Some s /\ reported c s /\
     exec (SvCompletion sid c failed) v = Some ((), v')) \/
  (exists sid now s, sv_sessions v !! sid = Some s /\ s_logic_queue s <> [] /\ exec (SvJob sid now) v = Some ((), v')).

Definition closing_ok (v : Server) : Prop := srv_inv None v /\ sv_closing v = true.

Lemma closing_down v j s : closing_ok v -> sv_sessions v !! j = Some s -> session_inv s /\ s_shutdown_started s = true.
Proof.
  intros [[Hat Hok] Hc] Hj. split; [apply (Hat j s Hj)|]. by apply (uo_closing _ _ _ _ _ _ Hok Hc j (view s)), views_lookup.
Qed.

(** *** Completions *)

Lemma completion_down v sid s c failed :
  closing_ok v -> sv_sessions v !! sid = Some s -> owner_of c s = true ->
  wpw (exec (SvCompletion sid c failed)) (fun _ v' => closing_ok v' /\ (server_load v' < server_load v)%nat) v.
Proof.
  intros Hok Hsid Ho. destruct (closing_down v sid s Hok Hsid) as [Hi Hs]. cbn [exec]. apply (wpw_on_session _ sid s); [done|].
  eapply wp_mono; [by apply complete_down|]. intros _ s' e' (Hi' & Hv & Hd & Hp & Hq). destruct Hok as [[Hat Hok] Hc].
  set (v' := v <| sv_sessions := _ |> <| sv_env := _ |>).
  assert (0 < s_pending_io s) as H0.
  { destruct Hi as (Hcore & _). rewrite (sc_io _ _ _ _ Hcore). destruct c; simpl in Ho; rewrite Ho;
      destruct (s_recv_owner s), (s_send_owner s), (s_disconnect_owner s); simpl; lia. }
  split; [split; [split|done]|].
  - eapply (sessions_insert None v); [done|done|]. split; [done|]. destruct (Hat sid s Hsid) as [_ Hb].
    rewrite Hq, Hd. simpl. destruct (s_is_disconnect s); simpl in Hb; lia.
  - unfold server_ok in *. rewrite (views_insert v v' sid s'), Hv, insert_id by (done || by apply views_lookup). done.
  - pose proof (load_insert v v' sid s s' Hsid eq_refl) as Hl. unfold session_load in Hl. rewrite Hp, Hq in Hl. lia.
Qed.

(** *** Jobs *)

(** Every result of [m] from [v] satisfies [Q]. *)
Definition post {A} (m : WM A) (Q : Server -> Prop) (v : Server) : Prop := forall a v', m v = Some (a, v') -> Q v'.

(** Only this session changes, and neither its operations in flight nor its queue. *)
Definition own (sid : nat) (v v' : Server) : Prop :=
  sv_closing v' = sv_closing v /\
  forall s, sv_sessions v !! sid = Some s ->
    exists s', sv_sessions v' = <[sid := s']> (sv_sessions v) /\ s_pending_io s' = s_pending_io s /\ s_logic_queue s' = s_logic_queue s.

Lemma own_trans sid a b c : own sid a b -> own sid b c -> own sid a c.
Proof.
  intros [H1 H2] [H3 H4]. split; [congruence|]. intros s Hs. destruct (H2 s Hs) as (s1 & E1 & E2 & E3).
  destruct (H4 s1) as (s2 & F1 & F2 & F3); [by rewrite E1, lookup_insert_eq|]. exists s2. rewrite F1, E1, insert_insert_eq. split_and!; congruence.
Qed.

Lemma own_same sid v v' : sv_closing v' = sv_closing v -> sv_sessions v' = sv_sessions v -> own sid v v'.
Proof. intros H1 H2. split; [done|]. intros s Hs. exists s. split; [|done]. by rewrite H2, insert_id. Qed.

Lemma post_bind {A B} sid (m : WM A) (f : A -> WM B) v :
  post m (own sid v) v -> (forall a v1, post (f a) (own sid v1) v1) -> post (m ≫= f) (own sid v) v.
Proof.
  intros Hm Hf b v2. unfold mbind, WM_bind. destruct (m v) as [[a v1]|] eqn:E; [|done]. intros H.
  eapply own_trans; [by eapply Hm|by eapply Hf].
Qed.

Lemma post_ret {A} sid (a : A) v : post (mret a) (own sid v) v.
Proof. intros a' v' [= <- <-]. by apply own_same. Qed.

Lemma post_gets {A} sid (f : Server -> A) v : post (wgets f) (own sid v) v.
Proof. intros a' v' [= <- <-]. by apply own_same. Qed.

Lemma post_modify sid f v : sv_closing (f v) = sv_closing v -> sv_sessions (f v) = sv_sessions v -> post (wmodify f) (own sid v) v.
Proof. intros H1 H2 a' v' [= <- <-]. by apply own_same. Qed.

Lemma post_get sid v : post (session_get sid) (own sid v) v.
Proof.
  intros a v'. unfold session_get, on_session, get. destruct (sv_sessions v !! sid) as [s|] eqn:E; [|done].
  intros [= _ <-]. apply own_same; [done|]. simpl. by apply insert_id.
Qed.

Lemma post_set sid f v :
  (forall s, s_pending_io (f s) = s_pending_io s /\ s_logic_queue (f s) = s_logic_queue s) -> post (session_set sid f) (own sid v) v.
Proof.
  intros Hf a v'. unfold session_set, on_session, modify. destruct (sv_sessions v !! sid) as [s|] eqn:E; [|done].
  intros [= _ <-]. split; [done|]. simpl. intros s0 Hs0. rewrite E in Hs0. injection Hs0 as <-. destruct (Hf s). eauto.
Qed.

Ltac post_simpl :=
  repeat first
    [ apply post_ret | apply post_gets | apply post_get | apply post_set; by intros [] | apply post_modify; by intros
    | apply post_bind; [|intros ? ?] | case_match ].

Lemma cleanup_own sid v : post (cleanup_job sid) (own sid v) v.
Proof.
  unfold cleanup_job, GameSession_on_disconnect, exit_room, logout, SessionManager_on_disconnected, SessionManager_release_session, wstat.
  post_simpl.
Qed.

Lemma job_done_own sid v : post (on_session sid Session_job_done) (own sid v) v.
Proof.
  intros a v'. unfold on_session. destruct (sv_sessions v !! sid) as [s|] eqn:E; [|done].
  unfold Session_job_done, mbind, SM_bind, get, modify, crash. cbn [fst snd]. destruct (_ >? 0); [|done].
  intros [= _ <-]. split; [done|]. simpl. intros s0 Hs0. rewrite E in Hs0. injection Hs0 as <-. by eexists.
Qed.

Lemma session_get_eq sid s v : sv_sessions v !! sid = Some s -> session_get sid v = Some (s, v).
Proof. intros Hs. unfold session_get, on_session, get. rewrite Hs. cbn [fst snd]. destruct v. simpl in *. by rewrite insert_id. Qed.

Lemma session_set_eq sid s f v :
  sv_sessions v !! sid = Some s -> session_set sid f v = Some ((), v <| sv_sessions := <[sid := f s]> (sv_sessions v) |>).
Proof. intros Hs. unfold session_set, on_session, modify. rewrite Hs. cbn [fst snd]. by destruct v. Qed.

(** The job of a session that was shut down: a packet is dropped, the cleanup runs. *)
Lemma next_job_own v sid s now job rest v' :
  sv_sessions v !! sid = Some s -> s_is_connect s = false -> s_logic_queue s = job :: rest ->
  next_job sid now v = Some ((), v') ->
  own sid (v <| sv_sessions := <[sid := s <| s_logic_queue := rest |>]> (sv_sessions v) |>) v'.
Proof.
  intros Hs Hn Hq. unfold next_job, mbind, WM_bind. rewrite (session_get_eq sid s) by done. rewrite Hq.
  rewrite (session_set_eq sid s) by done. set (v1 := v <| sv_sessions := _ |>).
  assert (post (run_job sid now job) (own sid v1) v1) as Hrun.
  { destruct job as [pkt|]; [|apply cleanup_own]. cbn [run_job]. unfold mbind, WM_bind, post.
    rewrite (session_get_eq sid (s <| s_logic_queue := rest |>)) by (simpl; apply lookup_insert_eq).
    change (s_is_connect (s <| s_logic_queue := rest |>)) with (s_is_connect s). rewrite Hn. apply post_ret. }
  destruct (run_job sid now job v1) as [[[] v2]|] eqn:E; [|done]. intros H. eapply own_trans; [by eapply Hrun|by eapply job_done_own].
Qed.

Lemma job_down v sid s now :
  closing_ok v -> sv_sessions v !! sid = Some s -> s_logic_queue s <> [] ->
  wpw (exec (SvJob sid now)) (fun _ v' => closing_ok v' /\ (server_load v' < server_load v)%nat) v.
Proof using laws api_laws.
  intros Hok Hsid Hq. destruct (closing_down v sid s Hok Hsid) as [Hi Hs]. destruct (shutdown_disconnected 0 0 s Hi Hs) as [Hn _].
  destruct (next_job_inv v sid s now (proj1 Hok) Hsid) as ([] & v' & Heq & Hinv); [congruence|]. exists (), v'. split; [done|].
  destruct (s_logic_queue s) as [|job rest] eqn:E; [done|]. destruct (next_job_own v sid s now job rest v' Hsid Hn E Heq) as [Hc Hown].
  destruct (Hown (s <| s_logic_queue := rest |>)) as (s' & Hs' & Hp & Hq'); [apply lookup_insert_eq|]. simpl in *. rewrite insert_insert_eq in Hs'.
  split; [split; [done|]|].
  - rewrite Hc. apply Hok.
  - pose proof (load_insert v v' sid s s' Hsid Hs') as Hl. unfold session_load in Hl. rewrite Hp, Hq', E in Hl. simpl in Hl. lia.
Qed.

Lemma close_step_ok v v' : closing_ok v -> close_step v v' -> closing_ok v' /\ (server_load v' < server_load v)%nat.
Proof using laws api_laws.
  intros Hok [(sid & c & failed & s & Hs & [Ho _] & E)|(sid & now & s & Hs & Hq & E)].
  - destruct (completion_down v sid s c failed Hok Hs Ho) as (a & v1 & E1 & H). congruence.
  - destruct (job_down v sid s now Hok Hs Hq) as (a & v1 & E1 & H). congruence.
Qed.

Lemma close_acc v : closing_ok v -> Acc (fun v2 v1 => close_step v1 v2) v.
Proof using laws api_laws.
  remember (server_load v) as n eqn:En. revert v En. induction n as [n IH] using lt_wf_ind. intros v -> Hok. constructor.
  intros v' Hst. destruct (close_step_ok v v' Hok Hst) as [Hok' Hl]. by apply (IH _ Hl).
Qed.

Lemma close_steps_ok v v' : rtc close_step v v' -> closing_ok v -> closing_ok v'.
Proof using laws api_laws. induction 1 as [|v v1 v2 Hst _ IH]; [done|]. intros Hok. apply IH. by apply (close_step_ok v v1). Qed.

(** Nothing left to do: every session is done. *)
Lemma close_rest v j s :
  closing_ok v -> (forall v', ~ close_step v v') -> sv_sessions v !! j = Some s ->
  Session_shutdown_complete s = true /\ s_cleanup_done s = true.
Proof using laws api_laws.
  intros Hok Hr Hj. destruct (closing_down v j s Hok Hj) as [Hi Hs]. apply session_at_rest; [done|done| |].
  - intros c Hc. destruct (completion_down v j s c true Hok Hj (proj1 Hc)) as ([] & v' & E & _). apply (Hr v'). left. eauto 8.
  - destruct (s_logic_queue s) as [|job rest] eqn:E; [done|]. exfalso. assert (s_logic_queue s <> []) as Hq by congruence.
    destruct (job_down v j s 0 Hok Hj Hq) as ([] & v' & E' & _). apply (Hr v'). right. eauto 8.
Qed.

(** Cleaned up sessions leave the tables empty. *)
Lemma all_cleaned v :
  srv_inv None v -> (forall j s, sv_sessions v !! j = Some s -> s_cleanup_done s = true) ->
  lg_login_list (sv_login v) = ∅ /\ sm_sessions (sv_mgr v) = ∅ /\ sm_session_count (sv_mgr v) = 0 /\
  sm_account_sessions (sv_mgr v) = ∅ /\ sm_name_sessions (sv_mgr v) = ∅ /\ forall k, room_members (sv_rooms v) k = ∅.
Proof using.
  intros [_ [Hu _ _ _]] Hall.
  assert (forall j w, views v !! j = Some w -> v_login w = false /\ v_member w = false) as Hview.
  { intros j w. unfold views. rewrite lookup_fmap. destruct (sv_sessions v !! j) as [s|] eqn:E; [|done]. intros [= <-].
    assert (v_member (view s) = false) as Hm by (unfold v_member; simpl; by rewrite (Hall j s E), andb_false_r).
    split; [|done]. destruct (v_login (view s)) eqn:El; [|done].
    destruct (ui_login _ _ _ _ Hu j (view s)) as [? _]; [by apply views_lookup|done|congruence]. }
  assert (sm_sessions (sv_mgr v) = ∅) as Hms.
  { apply leibniz_equiv, elem_of_equiv_empty. intros j (w & Hw & Hm)%(ui_members _ _ _ _ Hu). destruct (Hview j w Hw). congruence. }
  split_and!; [|done| | | |].
  - apply leibniz_equiv, elem_of_equiv_empty. intros a Ha. destruct (ui_owner _ _ _ _ Hu a Ha) as (j & w & Hw & Hl & _).
    destruct (Hview j w Hw). congruence.
  - destruct (ui_count _ _ _ _ Hu) as [-> _]. by rewrite Hms, size_empty.
  - apply map_empty. intros a. destruct (_ !! a) as [j|] eqn:E; [|done]. apply (ui_accounts _ _ _ _ Hu) in E as (w & Hw & Hl & _).
    destruct (Hview j w Hw). congruence.
  - apply map_empty. intros x. destruct (_ !! x) as [j|] eqn:E; [|done]. apply (ui_names _ _ _ _ Hu) in E as (_ & w & Hw & Hl & _).
    destruct (Hview j w Hw). congruence.
  - intros k. apply map_empty. intros a. destruct (_ !! a) as [j|] eqn:E; [|done]. apply (ui_rooms _ _ _ _ Hu) in E as (_ & w & Hw & Hl & _).
    destruct (Hview j w Hw). congruence.
Qed.

(** ** Property *)

(** C14: closing the server ends.  From every reachable state in which [close_service] has begun,
    no order in which the workers process the completions and jobs that are left goes on for ever;
    none of them fails; and when nothing is left, the condition that [wait_for_shutdown] waits for
    holds for every session, so that [close_service] returns, and nobody is logged in, in a room or
    registered with the session manager. *)
Theorem server_close_drains n v :
  0 <= n < 2 ^ 31 -> reachable n v -> sv_closing v = true ->
  Acc (fun v2 v1 => close_step v1 v2) v /\
  forall v', rtc close_step v v' ->
    (forall sid c failed s, sv_sessions v' !! sid = Some s -> reported c s -> exists v2, exec (SvCompletion sid c failed) v' = Some ((), v2)) /\
    (forall sid now s, sv_sessions v' !! sid = Some s -> s_logic_queue s <> [] -> exists v2, exec (SvJob sid now) v' = Some ((), v2)) /\
    ((forall v2, ~ close_step v' v2) ->
       (forall j s, sv_sessions v' !! j = Some s -> Session_shutdown_complete s = true) /\
       lg_login_list (sv_login v') = ∅ /\ sm_sessions (sv_mgr v') = ∅ /\ sm_session_count (sv_mgr v') = 0 /\
       sm_account_sessions (sv_mgr v') = ∅ /\ sm_name_sessions (sv_mgr v') = ∅ /\
       forall k, room_members (sv_rooms v') k = ∅).
Proof using laws api_laws.
  intros Hn Hr Hc. assert (closing_ok v) as Hok by (split; [by apply (server_reachable_inv n)|done]). split; [by apply close_acc|].
  intros v' Hst. pose proof (close_steps_ok v v' Hst Hok) as Hok'. split_and!.
  - intros sid c failed s Hs [Ho _]. destruct (completion_down v' sid s c failed Hok' Hs Ho) as ([] & v2 & E & _). eauto.
  - intros sid now s Hs Hq. destruct (job_down v' sid s now Hok' Hs Hq) as ([] & v2 & E & _). eauto.
  - intros Hrest. pose proof (fun j s => close_rest v' j s Hok' Hrest) as Hdone. split; [intros j s Hj; apply (Hdone j s Hj)|].
    apply all_cleaned; [apply Hok'|]. intros j s Hj. apply (Hdone j s Hj).
Qed.
End Closing.
