(* ===== verification/ServerProcess.v ===== *)
(** * The server process

    [main] of GameServer/Main/GameServer.cpp after it has read its settings, the worker loop
    [do_worker_job], the two background threads and [StopSignal] of the same file, and
    [ThreadManager] (ServerCore/Thread): who starts, stops and waits for whom.

    The service is known to the process by the calls it makes on it, the class [ServiceOps]; what
    the process relies on is [ServiceLaws].  The file ServerService gives the server model as
    an instance.  A thread is a program counter in the source of its function; a step is one call
    or one access to a shared variable of one thread, and the steps of all threads interleave. *)

From stdpp Require Import base list numbers option relations.
From Stdlib Require Import ZArith Lia.
From S2P Require Import Prelude JobQueues.

(** ** The service *)

(** [so_dispatch] is [IocpCore::dispatch]: it times out or processes one completion; [so_distribute]
    is [JobTimer::distribute]; [so_execute] takes a queue from the global queue and executes it.
    Closing is split at its two waits: for the listener and for the sessions. *)
Class ServiceOps (S : Type) := {
  so_start : bool -> S -> S -> Prop;
  so_dispatch : S -> S -> Prop;
  so_distribute : Z -> S -> S -> Prop;
  so_execute : S -> S -> Prop;
  so_heartbeat : Z -> S -> S -> Prop;
  so_stop_listener : S -> S -> Prop;
  so_listener_drained : S -> Prop;
  so_close_sessions : S -> S -> Prop;
  so_sessions_drained : S -> Prop;
  so_clear_timer : S -> S -> Prop;
  so_stats : S -> Z * Z
}.

Definition tick (now : Z) : Prop := 0 <= now < 2 ^ 64.

(** What a worker does to the service. *)
Inductive so_work {S} `{ServiceOps S} : S -> S -> Prop :=
| work_dispatch s s' : so_dispatch s s' -> so_work s s'
| work_execute s s' : so_execute s s' -> so_work s s'.

(** [si_inv] holds of a service at all times, [si_stopped] once the listener was told to stop and
    [si_closing] once the sessions were.  No call fails, and as long as [close_service] waits there
    is something for a worker to do that reduces what is left. *)
Class ServiceLaws (S : Type) `{ServiceOps S} := {
  si_inv : S -> Prop;
  si_stopped : S -> Prop;
  si_closing : S -> Prop;
  stopped_load : S -> nat;
  closing_load : S -> nat;
  law_start ok s s' : si_inv s -> so_start ok s s' -> si_inv s';
  law_work s s' : si_inv s -> so_work s s' -> si_inv s';
  law_distribute now s s' : si_inv s -> so_distribute now s s' -> si_inv s';
  law_heartbeat now s s' : si_inv s -> so_heartbeat now s s' -> si_inv s';
  law_stop_listener s s' : si_inv s -> so_stop_listener s s' -> si_inv s' /\ si_stopped s';
  law_close_sessions s s' : si_inv s -> so_close_sessions s s' -> si_inv s' /\ si_closing s';
  law_stopped_load now s s' : si_stopped s -> so_distribute now s s' -> (stopped_load s' <= stopped_load s)%nat;
  law_closing_load now s s' : si_closing s -> so_distribute now s s' -> (closing_load s' <= closing_load s)%nat;
  law_clear_timer s s' : si_inv s -> so_clear_timer s s' -> si_inv s';
  law_stopped_stays s s' : si_inv s -> si_stopped s -> so_work s s' \/ (exists now, so_distribute now s s') -> si_stopped s';
  law_closing_stays s s' : si_inv s -> si_closing s -> so_work s s' \/ (exists now, so_distribute now s s') -> si_closing s';
  run_start s : si_inv s -> exists s', so_start true s s';
  run_dispatch s : si_inv s -> exists s', so_dispatch s s';
  run_distribute now s : si_inv s -> tick now -> exists s', so_distribute now s s';
  run_heartbeat now s : si_inv s -> tick now -> exists s', so_heartbeat now s s';
  run_stop_listener s : si_inv s -> exists s', so_stop_listener s s';
  run_listener s : si_inv s -> si_stopped s ->
    so_listener_drained s \/ exists s', so_work s s' /\ (stopped_load s' < stopped_load s)%nat;
  run_close_sessions s : si_inv s -> exists s', so_close_sessions s s';
  run_sessions s : si_inv s -> si_closing s ->
    so_sessions_drained s \/ exists s', so_work s s' /\ (closing_load s' < closing_load s)%nat;
  run_clear_timer s : si_inv s -> exists s', so_clear_timer s s'
}.

(** ** Threads *)

(** The function a thread was launched with. *)
Inductive Body := BWorker | BHeartbeat | BStats.

(** Where a thread is: launched and not in [init_TLS] yet; in [do_worker_job], at its condition,
    at the deadline, at [dispatch], at [distribute_reserved_jobs], in [do_global_queue_work]; in
    the loop of the heartbeat or of the statistics, at its body or in [wait]; in [destroy_TLS];
    at its end.  A worker carries [LEndTickCount], the statistics their previous counters. *)
Inductive ThreadPc :=
| TLaunched (body : Body)
| WTest | WTick | WDispatch (end_tick : Z) | WDistribute (end_tick : Z) | WGlobal (end_tick : Z)
| HCheck | HWait
| SPrint (prevRecvChat prevBroadcastTarget : Z) | SWait (prevRecvChat prevBroadcastTarget : Z)
| TLeaving | TEnded.

Record Thread := mkThread { t_id : Z; t_pc : ThreadPc }.

Definition body_start (body : Body) : ThreadPc :=
  match body with BWorker => WTest | BHeartbeat => HCheck | BStats => SPrint 0 0 end.

(** [ThreadManager::launch]. *)
Definition launch (body : Body) (threads : list Thread) : list Thread := threads ++ [mkThread 0 (TLaunched body)].

(** ** Shared state *)

(** The service, [workers_running], [StopSignal::_requested], the counter [SThreadId] of
    [init_TLS], and the rates printed so far. *)
Record Shared (S : Type) := mkShared {
  sh_service : S;
  sh_workers_running : bool;
  sh_requested : bool;
  sh_thread_id : Z;
  sh_printed : list (Z * Z)
}.
Arguments mkShared {S}.
Arguments sh_service {S}.
Arguments sh_workers_running {S}.
Arguments sh_requested {S}.
Arguments sh_thread_id {S}.
Arguments sh_printed {S}.

#[export] Instance Shared_settable {S} : Settable (Shared S) :=
  fun h => mkShared (sh_service h) (sh_workers_running h) (sh_requested h) (sh_thread_id h) (sh_printed h).

Section Process.
Context {S : Type} `{ServiceOps S}.
Implicit Types h : Shared S.

(** [init_TLS]: the id taken and the counter after it. *)
Definition init_TLS h : Z * Shared S := (sh_thread_id h, h <| sh_thread_id ::= fun n => u32 (n + 1) |>).

(** [StopSignal]: the value [wait] returns, when it is notified or its time has passed, and [request]. *)
Definition StopSignal_wait h : bool := sh_requested h.
Definition StopSignal_request h : Shared S := h <| sh_requested := true |>.

(** [print_server_stats]: the counters become the previous ones, the differences are printed. *)
Definition print_server_stats (prevRecvChat prevBroadcastTarget : Z) h : Z * Z * Shared S :=
  let recvChat := u64 (fst (so_stats (sh_service h))) in
  let broadcastTarget := u64 (snd (so_stats (sh_service h))) in
  (recvChat, broadcastTarget,
   h <| sh_printed ::= fun l => l ++ [(u64 (recvChat - prevRecvChat), u64 (broadcastTarget - prevBroadcastTarget))] |>).

(** One step of a thread. *)
Inductive thread_step : Shared S -> Thread -> Shared S -> Thread -> Prop :=
| step_init h id body :
    thread_step h (mkThread id (TLaunched body)) (snd (init_TLS h)) (mkThread (fst (init_TLS h)) (body_start body))
| step_test h id :
    thread_step h (mkThread id WTest) h (mkThread id (if sh_workers_running h then WTick else TLeaving))
| step_tick h id now :
    tick now -> thread_step h (mkThread id WTick) h (mkThread id (WDispatch (u64 (now + 64))))
| step_dispatch h id e s' :
    so_dispatch (sh_service h) s' ->
    thread_step h (mkThread id (WDispatch e)) (h <| sh_service := s' |>) (mkThread id (WDistribute e))
| step_distribute h id e now s' :
    tick now -> so_distribute now (sh_service h) s' ->
    thread_step h (mkThread id (WDistribute e)) (h <| sh_service := s' |>) (mkThread id (WGlobal e))
| step_late h id e now :
    tick now -> e < now -> thread_step h (mkThread id (WGlobal e)) h (mkThread id WTest)
| step_empty h id e now :
    tick now -> now <= e -> thread_step h (mkThread id (WGlobal e)) h (mkThread id WTest)
| step_execute h id e now s' :
    tick now -> now <= e -> so_execute (sh_service h) s' ->
    thread_step h (mkThread id (WGlobal e)) (h <| sh_service := s' |>) (mkThread id (WGlobal e))
| step_heartbeat h id now s' :
    tick now -> so_heartbeat now (sh_service h) s' ->
    thread_step h (mkThread id HCheck) (h <| sh_service := s' |>) (mkThread id HWait)
| step_heartbeat_wait h id :
    thread_step h (mkThread id HWait) h (mkThread id (if StopSignal_wait h then TLeaving else HCheck))
| step_print h id a b :
    thread_step h (mkThread id (SPrint a b)) (snd (print_server_stats a b h))
      (mkThread id (SWait (fst (fst (print_server_stats a b h))) (snd (fst (print_server_stats a b h)))))
| step_print_wait h id a b :
    thread_step h (mkThread id (SWait a b)) h (mkThread id (if StopSignal_wait h then TLeaving else SPrint a b))
| step_destroy h id : thread_step h (mkThread id TLeaving) h (mkThread id TEnded).

(** ** The main thread *)

(** Where [main] is, from [service->start()] on. *)
Inductive MainPc :=
| MStart | MLaunch (i : Z) | MLaunchHeartbeat | MLaunchStats | MGetline | MRequest | MJoinBackground (i : nat)
| MStopListener | MWaitListener | MCloseSessions | MWaitSessions | MStopWorkers | MJoinWorkers (i : nat)
| MClearTimer | MPrint | MReturned (code : Z).

(** [p_workers] and [p_background] are the threads of [GThreadManager] and of
    [background_threads]; [p_id] is the [LThreadId] of the main thread. *)
Record Process := mkProcess {
  p_shared : Shared S;
  p_main : MainPc;
  p_workers : list Thread;
  p_background : list Thread;
  p_id : Z
}.

(** The command [L"/q"]. *)
Definition quit_command : wstring := [47; 113].

(** A line of the console; [None] is the end of the input. *)
Definition quits (command : option wstring) : bool :=
  match command with None => true | Some line => bool_decide (line = quit_command) end.

Inductive main_step (worker_thread_count : Z) : Process -> Process -> Prop :=
| main_start h s' id :
    so_start true (sh_service h) s' ->
    main_step worker_thread_count (mkProcess h MStart [] [] id)
      (mkProcess (snd (init_TLS (h <| sh_service := s' |>))) (MLaunch 0) [] [] (fst (init_TLS h)))
| main_start_fails h s' id :
    so_start false (sh_service h) s' ->
    main_step worker_thread_count (mkProcess h MStart [] [] id) (mkProcess (h <| sh_service := s' |>) (MReturned 1) [] [] id)
| main_launch h i ws bs id :
    i < worker_thread_count ->
    main_step worker_thread_count (mkProcess h (MLaunch i) ws bs id) (mkProcess h (MLaunch (i32 (i + 1))) (launch BWorker ws) bs id)
| main_launched h i ws bs id :
    worker_thread_count <= i ->
    main_step worker_thread_count (mkProcess h (MLaunch i) ws bs id) (mkProcess h MLaunchHeartbeat ws bs id)
| main_heartbeat h ws bs id :
    main_step worker_thread_count (mkProcess h MLaunchHeartbeat ws bs id) (mkProcess h MLaunchStats ws (launch BHeartbeat bs) id)
| main_stats h ws bs id :
    main_step worker_thread_count (mkProcess h MLaunchStats ws bs id) (mkProcess h MGetline ws (launch BStats bs) id)
| main_getline h ws bs id command :
    main_step worker_thread_count (mkProcess h MGetline ws bs id) (mkProcess h (if quits command then MRequest else MGetline) ws bs id)
| main_request h ws bs id :
    main_step worker_thread_count (mkProcess h MRequest ws bs id) (mkProcess (StopSignal_request h) (MJoinBackground 0) ws bs id)
| main_join_background h i t ws bs id :
    bs !! i = Some t -> t_pc t = TEnded ->
    main_step worker_thread_count (mkProcess h (MJoinBackground i) ws bs id) (mkProcess h (MJoinBackground (i + 1)) ws bs id)
| main_joined_background h i ws bs id :
    (length bs <= i)%nat ->
    main_step worker_thread_count (mkProcess h (MJoinBackground i) ws bs id) (mkProcess h MStopListener ws [] id)
| main_stop_listener h ws bs id s' :
    so_stop_listener (sh_service h) s' ->
    main_step worker_thread_count (mkProcess h MStopListener ws bs id) (mkProcess (h <| sh_service := s' |>) MWaitListener ws bs id)
| main_listener_drained h ws bs id :
    so_listener_drained (sh_service h) ->
    main_step worker_thread_count (mkProcess h MWaitListener ws bs id) (mkProcess h MCloseSessions ws bs id)
| main_close_sessions h ws bs id s' :
    so_close_sessions (sh_service h) s' ->
    main_step worker_thread_count (mkProcess h MCloseSessions ws bs id) (mkProcess (h <| sh_service := s' |>) MWaitSessions ws bs id)
| main_sessions_drained h ws bs id :
    so_sessions_drained (sh_service h) ->
    main_step worker_thread_count (mkProcess h MWaitSessions ws bs id) (mkProcess h MStopWorkers ws bs id)
| main_stop_workers h ws bs id :
    main_step worker_thread_count (mkProcess h MStopWorkers ws bs id) (mkProcess (h <| sh_workers_running := false |>) (MJoinWorkers 0) ws bs id)
| main_join_worker h i t ws bs id :
    ws !! i = Some t -> t_pc t = TEnded ->
    main_step worker_thread_count (mkProcess h (MJoinWorkers i) ws bs id) (mkProcess h (MJoinWorkers (i + 1)) ws bs id)
| main_joined_workers h i ws bs id :
    (length ws <= i)%nat ->
    main_step worker_thread_count (mkProcess h (MJoinWorkers i) ws bs id) (mkProcess h MClearTimer [] bs id)
| main_clear_timer h ws bs id s' :
    so_clear_timer (sh_service h) s' ->
    main_step worker_thread_count (mkProcess h MClearTimer ws bs id) (mkProcess (h <| sh_service := s' |>) MPrint ws bs id)
| main_print h ws bs id :
    let st := so_stats (sh_service h) in
    main_step worker_thread_count (mkProcess h MPrint ws bs id)
      (mkProcess (snd (print_server_stats (u64 (fst st)) (u64 (snd st)) h)) (MReturned 0) ws bs id).

(** ** Runs *)

Inductive pstep (worker_thread_count : Z) : Process -> Process -> Prop :=
| pstep_main P P' : main_step worker_thread_count P P' -> pstep worker_thread_count P P'
| pstep_worker h pc l1 t l2 bs id h' t' :
    thread_step h t h' t' ->
    pstep worker_thread_count (mkProcess h pc (l1 ++ t :: l2) bs id) (mkProcess h' pc (l1 ++ t' :: l2) bs id)
| pstep_background h pc ws l1 t l2 id h' t' :
    thread_step h t h' t' ->
    pstep worker_thread_count (mkProcess h pc ws (l1 ++ t :: l2) id) (mkProcess h' pc ws (l1 ++ t' :: l2) id).

(** The constructor of [GThreadManager] has given the main thread the id 1. *)
Definition process_start (s : S) : Process := mkProcess (mkShared s true false 2 []) MStart [] [] 1.

(** ** Invariant *)

Context {Hlaws : ServiceLaws S}.

(** The thread runs the function of [body]; it has not left its loop. *)
Definition runs (body : Body) (t : Thread) : Prop :=
  match t_pc t with
  | TLaunched b => b = body
  | WTest | WTick | WDispatch _ | WDistribute _ | WGlobal _ => body = BWorker
  | HCheck | HWait => body = BHeartbeat
  | SPrint _ _ | SWait _ _ => body = BStats
  | TLeaving | TEnded => True
  end.

Definition busy (t : Thread) : Prop := t_pc t <> TLeaving /\ t_pc t <> TEnded.

Definition ended (t : Thread) : Prop := t_pc t = TEnded.

Lemma thread_step_flags h t h' t' :
  thread_step h t h' t' -> sh_workers_running h' = sh_workers_running h /\ sh_requested h' = sh_requested h.
Proof. by destruct 1. Qed.

Lemma thread_step_inv h t h' t' : thread_step h t h' t' -> si_inv (sh_service h) -> si_inv (sh_service h').
Proof.
  destruct 1; intros Hi; try done; simpl; eauto using law_distribute, law_heartbeat.
  - eapply law_work; [done|by constructor].
  - eapply law_work; [done|by apply work_execute].
Qed.

Lemma thread_step_runs body h t h' t' : thread_step h t h' t' -> runs body t -> runs body t'.
Proof. destruct 1; unfold runs, body_start; simpl; intros E; try (by subst); by repeat case_match. Qed.

Lemma worker_stays h t h' t' : thread_step h t h' t' -> runs BWorker t -> sh_workers_running h = true -> busy t -> busy t'.
Proof.
  unfold busy. destruct 1; unfold runs; simpl; try done; intros E Hr; try done.
  - subst body. done.
  - by rewrite Hr.
  - by intros [? _].
Qed.

Lemma background_stays body h t h' t' :
  thread_step h t h' t' -> runs body t -> body <> BWorker -> sh_requested h = false -> busy t -> busy t'.
Proof.
  unfold busy. destruct 1; unfold runs; simpl; try done; intros E Hb Hr; try done.
  - by destruct body0.
  - unfold StopSignal_wait. by rewrite Hr.
  - unfold StopSignal_wait. by rewrite Hr.
  - by intros [? _].
Qed.

Lemma worker_service h t h' t' :
  thread_step h t h' t' -> runs BWorker t ->
  sh_service h' = sh_service h \/ so_work (sh_service h) (sh_service h') \/ exists now, so_distribute now (sh_service h) (sh_service h').
Proof.
  destruct 1; unfold runs; simpl; try (by auto); intros E.
  - right. left. by constructor.
  - right. right. eauto.
  - right. left. by apply work_execute.
Qed.

(** Threads that have ended make no step. *)
Lemma ended_take h t h' t' l1 l2 i :
  thread_step h t h' t' -> Forall ended (take i (l1 ++ t :: l2)) -> Forall ended (take i (l1 ++ t' :: l2)).
Proof.
  intros Hst Hall. destruct (decide (i <= length l1)%nat) as [Hi|Hi].
  - rewrite take_app_le in * by done. done.
  - exfalso. assert (ended t) as He.
    { apply (Forall_lookup_1 _ _ (length l1) t Hall). rewrite lookup_take_lt by lia. by rewrite lookup_app_r, Nat.sub_diag by lia. }
    unfold ended in He. destruct Hst; done.
Qed.

(** What [main] has launched and set when it is at [pc]. *)
Definition launched_workers (n : Z) (pc : MainPc) : Z :=
  match pc with
  | MStart | MClearTimer | MPrint | MReturned _ => 0
  | MLaunch i => i
  | _ => n
  end.

Definition launched_background (pc : MainPc) : list Body :=
  match pc with
  | MLaunchStats => [BHeartbeat]
  | MGetline | MRequest | MJoinBackground _ => [BHeartbeat; BStats]
  | _ => []
  end.

Definition running_at (pc : MainPc) (b : bool) : Prop :=
  match pc with
  | MReturned _ => True
  | MJoinWorkers _ | MClearTimer | MPrint => b = false
  | _ => b = true
  end.

Definition requested_at (pc : MainPc) (b : bool) : Prop :=
  match pc with
  | MStart | MLaunch _ | MLaunchHeartbeat | MLaunchStats | MGetline | MRequest => b = false
  | MReturned _ => True
  | _ => b = true
  end.

Definition joined_at (n : Z) (pc : MainPc) (ws bs : list Thread) : Prop :=
  match pc with
  | MLaunch i => 0 <= i <= n
  | MJoinBackground i => Forall ended (take i bs)
  | MJoinWorkers i => Forall ended (take i ws)
  | _ => True
  end.

Definition phase_at (pc : MainPc) (s : S) : Prop :=
  match pc with MWaitListener => si_stopped s | MWaitSessions => si_closing s | _ => True end.

Record process_inv (n : Z) (P : Process) : Prop := {
  pv_service : si_inv (sh_service (p_shared P));
  pv_workers : Z.of_nat (length (p_workers P)) = launched_workers n (p_main P);
  pv_worker : Forall (runs BWorker) (p_workers P);
  pv_background : Forall2 runs (launched_background (p_main P)) (p_background P);
  pv_running : running_at (p_main P) (sh_workers_running (p_shared P));
  pv_requested : requested_at (p_main P) (sh_requested (p_shared P));
  pv_looping : sh_workers_running (p_shared P) = true -> Forall busy (p_workers P);
  pv_waiting : sh_requested (p_shared P) = false -> Forall busy (p_background P);
  pv_joined : joined_at n (p_main P) (p_workers P) (p_background P);
  pv_phase : phase_at (p_main P) (sh_service (p_shared P))
}.

Lemma Forall_replace {A} (Q : A -> Prop) l1 (x y : A) l2 : Forall Q (l1 ++ x :: l2) -> (Q x -> Q y) -> Forall Q (l1 ++ y :: l2).
Proof. rewrite !Forall_app, !Forall_cons. tauto. Qed.

Lemma Forall2_replace {A B} (R : A -> B -> Prop) k l1 (x y : B) l2 :
  Forall2 R k (l1 ++ x :: l2) -> (forall a, a ∈ k -> R a x -> R a y) -> Forall2 R k (l1 ++ y :: l2).
Proof.
  intros Hk Hxy. apply Forall2_app_inv_r in Hk as (k1 & k2 & H1 & H2 & ->). apply Forall2_app; [done|].
  inversion H2; subst. constructor; [|done]. apply Hxy; [|done]. apply elem_of_app. right. by left.
Qed.

Lemma worker_inv n h pc l1 t l2 bs id h' t' :
  process_inv n (mkProcess h pc (l1 ++ t :: l2) bs id) -> thread_step h t h' t' ->
  process_inv n (mkProcess h' pc (l1 ++ t' :: l2) bs id).
Proof.
  intros [V1 V2 V3 V4 V5 V6 V7 V8 V9 V10] Hst. cbn [p_shared p_main p_workers p_background] in *.
  destruct (thread_step_flags h t h' t' Hst) as [Er Eq].
  assert (runs BWorker t) as Ht by (apply Forall_app in V3 as [_ [? _]%Forall_cons_1]; done).
  constructor; cbn [p_shared p_main p_workers p_background]; rewrite ?Er, ?Eq; try done.
  - by eapply thread_step_inv.
  - rewrite <- V2, !length_app. simpl. done.
  - eapply Forall_replace; [done|]. by eapply thread_step_runs.
  - intros Hr. eapply Forall_replace; [by apply V7|]. by eapply worker_stays.
  - destruct pc; simpl in *; try done. by eapply ended_take.
  - destruct pc; simpl in *; try done.
    + destruct (worker_service h t h' t' Hst Ht) as [->|?]; [done|]. by eapply law_stopped_stays.
    + destruct (worker_service h t h' t' Hst Ht) as [->|?]; [done|]. by eapply law_closing_stays.
Qed.

Lemma background_inv n h pc ws l1 t l2 id h' t' :
  process_inv n (mkProcess h pc ws (l1 ++ t :: l2) id) -> thread_step h t h' t' ->
  process_inv n (mkProcess h' pc ws (l1 ++ t' :: l2) id).
Proof.
  intros [V1 V2 V3 V4 V5 V6 V7 V8 V9 V10] Hst. cbn [p_shared p_main p_workers p_background] in *.
  destruct (thread_step_flags h t h' t' Hst) as [Er Eq].
  assert (exists body, body ∈ launched_background pc /\ runs body t) as (body & Hb & Ht).
  { apply Forall2_app_inv_r in V4 as (k1 & k2 & _ & H2 & ->). inversion H2; subst. eexists. split; [|done]. apply elem_of_app. right. by left. }
  assert (body <> BWorker) as Hne by (destruct pc; simpl in Hb; set_solver).
  constructor; cbn [p_shared p_main p_workers p_background]; rewrite ?Er, ?Eq; try done.
  - by eapply thread_step_inv.
  - eapply Forall2_replace; [done|]. intros a _. by eapply thread_step_runs.
  - intros Hr. eapply Forall_replace; [by apply V8|]. by eapply background_stays.
  - destruct pc; simpl in *; try done. by eapply ended_take.
  - destruct pc; simpl in *; try done; set_solver.
Qed.

Lemma take_ended l i (t : Thread) : Forall ended (take i l) -> l !! i = Some t -> t_pc t = TEnded -> Forall ended (take (i + 1) l).
Proof. intros Hl Hi He. replace (i + 1)%nat with (Datatypes.S i) by lia. rewrite (take_S_r _ _ _ Hi). apply Forall_app_2; [done|by constructor]. Qed.

Lemma launch_all (Q : Thread -> Prop) body l : Forall Q l -> Q (mkThread 0 (TLaunched body)) -> Forall Q (launch body l).
Proof. intros Hl Hq. apply Forall_app_2; [done|by constructor]. Qed.

Lemma launch_runs bodies body l : Forall2 runs bodies l -> Forall2 runs (bodies ++ [body]) (launch body l).
Proof. intros Hl. apply Forall2_app; [done|]. by repeat constructor. Qed.

Lemma main_inv n P P' : 0 < n < 2 ^ 31 -> process_inv n P -> main_step n P P' -> process_inv n P'.
Proof.
  intros Hn [V1 V2 V3 V4 V5 V6 V7 V8 V9 V10] Hst.
  destruct Hst as [h s' id Hs|h s' id Hs|h i ws bs id Hi|h i ws bs id Hi|h ws bs id|h ws bs id|h ws bs id command|h ws bs id
    |h i t ws bs id Ht He|h i ws bs id Hi|h ws bs id s' Hs|h ws bs id Hd|h ws bs id s' Hs|h ws bs id Hd|h ws bs id
    |h i t ws bs id Ht He|h i ws bs id Hi|h ws bs id s' Hs|h ws bs id]; cbn [p_shared p_main p_workers p_background] in *; simpl in *.
  all: try (destruct (quits command)); constructor; simpl; try done.
  - by eapply law_start.
  - lia.
  - by eapply law_start.
  - unfold launch. rewrite length_app, i32_small by lia. simpl. lia.
  - by apply launch_all.
  - intros Hr. by apply launch_all; [apply V7|].
  - rewrite i32_small by lia. lia.
  - lia.
  - by apply (launch_runs []).
  - intros Hr. by apply launch_all; [apply V8|].
  - by apply (launch_runs [BHeartbeat]).
  - intros Hr. by apply launch_all; [apply V8|].
  - by eapply take_ended.
  - by eapply law_stop_listener.
  - by eapply law_stop_listener.
  - by eapply law_close_sessions.
  - by eapply law_close_sessions.
  - by eapply take_ended.
  - by eapply law_clear_timer.
Qed.

Lemma pstep_inv n P P' : 0 < n < 2 ^ 31 -> process_inv n P -> pstep n P P' -> process_inv n P'.
Proof. intros Hn Hi Hst. destruct Hst; eauto using main_inv, worker_inv, background_inv. Qed.

Definition process_reachable (n : Z) (P : Process) : Prop := exists s, si_inv s /\ rtc (pstep n) (process_start s) P.

Lemma process_start_inv n s : si_inv s -> process_inv n (process_start s).
Proof. intros Hs. constructor; simpl; try done; intros; constructor. Qed.

Lemma process_reachable_inv n P : 0 < n < 2 ^ 31 -> process_reachable n P -> process_inv n P.
Proof.
  intros Hn (s & Hs & Hr). pose proof (process_start_inv n s Hs) as Hi. induction Hr as [|P P1 P2 Hst _ IH]; [done|].
  apply IH. by eapply pstep_inv.
Qed.

(** ** Ending *)

Section Ending.
Context (n : Z) (Hn : 0 < n < 2 ^ 31).

Definition can_end (P : Process) : Prop := exists P' code, rtc (pstep n) P P' /\ p_main P' = MReturned code.

Lemma can_end_steps P P' : rtc (pstep n) P P' -> can_end P' -> can_end P.
Proof using. intros H1 (P2 & code & H2 & H3). exists P2, code. split; [by etrans|done]. Qed.

Lemma can_end_main P P' : main_step n P P' -> can_end P' -> can_end P.
Proof using. intros Hst. apply can_end_steps, rtc_once. by constructor. Qed.

(** *** Runs of one thread *)

Definition thread_move (x y : Shared S * Thread) : Prop := thread_step (fst x) (snd x) (fst y) (snd y).

Lemma worker_runs h t h' t' pc l1 l2 bs id :
  rtc thread_move (h, t) (h', t') -> rtc (pstep n) (mkProcess h pc (l1 ++ t :: l2) bs id) (mkProcess h' pc (l1 ++ t' :: l2) bs id).
Proof using.
  intros Hr. remember (h, t) as x eqn:Ex. remember (h', t') as y eqn:Ey. revert h t Ex.
  induction Hr as [x|x [h1 t1] y Hst _ IH]; intros h t ->; [injection Ey as -> ->; done|].
  eapply rtc_l; [by apply pstep_worker|by apply IH].
Qed.

Lemma background_runs h t h' t' pc ws l1 l2 id :
  rtc thread_move (h, t) (h', t') -> rtc (pstep n) (mkProcess h pc ws (l1 ++ t :: l2) id) (mkProcess h' pc ws (l1 ++ t' :: l2) id).
Proof using.
  intros Hr. remember (h, t) as x eqn:Ex. remember (h', t') as y eqn:Ey. revert h t Ex.
  induction Hr as [x|x [h1 t1] y Hst _ IH]; intros h t ->; [injection Ey as -> ->; done|].
  eapply rtc_l; [by apply pstep_background|by apply IH].
Qed.

(** [t] can come to a place where [Q] holds. *)
Definition comes_to (Q : Shared S -> Thread -> Prop) h (t : Thread) : Prop :=
  exists h' t', rtc thread_move (h, t) (h', t') /\ Q h' t'.

Lemma comes_step Q h t h' t' : thread_step h t h' t' -> comes_to Q h' t' -> comes_to Q h t.
Proof using. intros Hst (h2 & t2 & Hr & Hq). exists h2, t2. split; [|done]. by apply (rtc_l _ _ (h', t')). Qed.

Lemma comes_here (Q : Shared S -> Thread -> Prop) h t : Q h t -> comes_to Q h t.
Proof using. intros Hq. exists h, t. by split. Qed.

Lemma tick_0 : tick 0.
Proof using. unfold tick. lia. Qed.

(** From anywhere in its loop a worker comes to the condition of its loop. *)
Lemma comes_to_test Q h id pc :
  si_inv (sh_service h) -> runs BWorker (mkThread id pc) -> busy (mkThread id pc) ->
  (forall h' id', si_inv (sh_service h') -> sh_workers_running h' = sh_workers_running h -> comes_to Q h' (mkThread id' WTest)) ->
  comes_to Q h (mkThread id pc).
Proof using.
  intros Hi Hr Hb Hq.
  assert (forall h' id' e, si_inv (sh_service h') -> sh_workers_running h' = sh_workers_running h -> comes_to Q h' (mkThread id' (WGlobal e))) as Hg.
  { intros h' id' e Hi' E. destruct (decide (0 <= e)).
    - eapply comes_step; [apply (step_empty h' id' e 0 tick_0); lia|]. by apply Hq.
    - eapply comes_step; [apply (step_late h' id' e 0 tick_0); lia|]. by apply Hq. }
  assert (forall h' id' e, si_inv (sh_service h') -> sh_workers_running h' = sh_workers_running h -> comes_to Q h' (mkThread id' (WDistribute e))) as Hd.
  { intros h' id' e Hi' E. destruct (run_distribute 0 _ Hi' tick_0) as [s' Hs]. eapply comes_step; [by apply (step_distribute h' id' e 0 s' tick_0)|].
    apply Hg; [|done]. by apply (law_distribute 0 _ _ Hi' Hs). }
  assert (forall h' id' e, si_inv (sh_service h') -> sh_workers_running h' = sh_workers_running h -> comes_to Q h' (mkThread id' (WDispatch e))) as Hp.
  { intros h' id' e Hi' E. destruct (run_dispatch _ Hi') as [s' Hs]. eapply comes_step; [by apply (step_dispatch h' id' e s')|].
    apply Hd; [|done]. apply (law_work _ _ Hi'). by constructor. }
  destruct Hb as [Hb1 Hb2]. unfold runs in Hr. simpl in *. destruct pc; try done; auto.
  - subst body. eapply comes_step; [apply step_init|]. by apply Hq.
  - eapply comes_step; [apply (step_tick h id 0 tick_0)|]. by apply Hp.
Qed.

(** A thread that was told to stop ends. *)
Definition told (body : Body) h : Prop := match body with BWorker => sh_workers_running h = false | _ => sh_requested h = true end.

Lemma thread_ends body h t : si_inv (sh_service h) -> told body h -> runs body t -> comes_to (fun _ => ended) h t.
Proof using.
  intros Hi Ht Hr. destruct t as [id pc].
  assert (forall h' id', comes_to (fun _ => ended) h' (mkThread id' TLeaving)) as Hl.
  { intros h' id'. eapply comes_step; [apply step_destroy|]. by apply comes_here. }
  assert (forall h' id', told body h' -> body = BHeartbeat -> comes_to (fun _ => ended) h' (mkThread id' HWait)) as Hh.
  { intros h' id' E ->. eapply comes_step; [apply step_heartbeat_wait|]. simpl in E. unfold StopSignal_wait. rewrite E. apply Hl. }
  assert (forall h' id', si_inv (sh_service h') -> told body h' -> body = BHeartbeat -> comes_to (fun _ => ended) h' (mkThread id' HCheck)) as Hc.
  { intros h' id' Hi' E Eb. destruct (run_heartbeat 0 _ Hi' tick_0) as [s' Hs]. eapply comes_step; [by apply (step_heartbeat h' id' 0 s' tick_0)|].
    apply Hh; [by destruct body|done]. }
  assert (forall h' id' x y, told body h' -> body = BStats -> comes_to (fun _ => ended) h' (mkThread id' (SWait x y))) as Hw.
  { intros h' id' x y E ->. eapply comes_step; [apply step_print_wait|]. simpl in E. unfold StopSignal_wait. rewrite E. apply Hl. }
  assert (forall h' id' x y, told body h' -> body = BStats -> comes_to (fun _ => ended) h' (mkThread id' (SPrint x y))) as Hp.
  { intros h' id' x y E Eb. eapply comes_step; [apply step_print|]. apply Hw; [by destruct body|done]. }
  assert (body = BWorker -> busy (mkThread id pc) -> comes_to (fun _ => ended) h (mkThread id pc)) as Hb.
  { intros -> Hb. apply comes_to_test; try done. intros h' id' _ E. eapply comes_step; [apply step_test|]. simpl in Ht. rewrite E, Ht. apply Hl. }
  unfold runs in Hr. simpl in Hr. destruct pc; try (by apply Hb); try (by apply comes_here); auto.
  subst body0. destruct body; [by apply Hb| |]; (eapply comes_step; [apply step_init|]).
  - by apply Hc.
  - by apply Hp.
Qed.

(** *** The stages of [main], from the last to the first *)

Lemma end_returned P code : p_main P = MReturned code -> can_end P.
Proof using. intros E. by exists P, code. Qed.

Lemma end_print h ws bs id : can_end (mkProcess h MPrint ws bs id).
Proof using. eapply can_end_main; [apply main_print|]. by apply (end_returned _ 0). Qed.

Lemma end_clear_timer h ws bs id : process_inv n (mkProcess h MClearTimer ws bs id) -> can_end (mkProcess h MClearTimer ws bs id).
Proof using. intros Hi. destruct (run_clear_timer _ (pv_service _ _ Hi)) as [s' Hs]. eapply can_end_main; [by apply main_clear_timer|]. apply end_print. Qed.

Lemma invs P P' : process_inv n P -> rtc (pstep n) P P' -> process_inv n P'.
Proof using Hn. intros Hi Hr. induction Hr as [|P P1 P2 Hst _ IH]; [done|]. apply IH. by eapply pstep_inv. Qed.

Lemma end_join_workers k : forall h i ws bs id,
  (length ws <= i + k)%nat -> process_inv n (mkProcess h (MJoinWorkers i) ws bs id) -> can_end (mkProcess h (MJoinWorkers i) ws bs id).
Proof using Hn.
  induction k as [|k IH]; intros h i ws bs id Hk Hi.
  - assert (main_step n (mkProcess h (MJoinWorkers i) ws bs id) (mkProcess h MClearTimer [] bs id)) as Hst by (apply main_joined_workers; lia).
    eapply can_end_main; [done|]. apply end_clear_timer. by eapply main_inv.
  - destruct (ws !! i) as [t|] eqn:E.
    2: { apply lookup_ge_None in E. apply (IH h i ws bs id); [lia|done]. }
    destruct (list_elem_of_split_length _ _ _ E) as (l1 & l2 & -> & El).
    destruct (thread_ends BWorker h t) as (h' & t' & Hr & He).
    { apply (pv_service _ _ Hi). }
    { apply (pv_running _ _ Hi). }
    { pose proof (pv_worker _ _ Hi) as Hw. simpl in Hw. by apply Forall_app in Hw as [_ [? _]%Forall_cons_1]. }
    pose proof (worker_runs h t h' t' (MJoinWorkers i) l1 l2 bs id Hr) as Hrun. eapply can_end_steps; [done|].
    pose proof (invs _ _ Hi Hrun) as Hi'.
    assert (main_step n (mkProcess h' (MJoinWorkers i) (l1 ++ t' :: l2) bs id) (mkProcess h' (MJoinWorkers (i + 1)) (l1 ++ t' :: l2) bs id)) as Hst.
    { apply (main_join_worker n h' i t'); [|done]. rewrite El. by rewrite lookup_app_r, Nat.sub_diag by lia. }
    eapply can_end_main; [done|]. apply IH; [|by eapply main_inv]. rewrite length_app in *. simpl in *. lia.
Qed.

Lemma end_stop_workers h ws bs id : process_inv n (mkProcess h MStopWorkers ws bs id) -> can_end (mkProcess h MStopWorkers ws bs id).
Proof using Hn.
  intros Hi. eapply can_end_main; [apply main_stop_workers|]. apply (end_join_workers (length ws)); [lia|].
  eapply main_inv; [done|done|apply main_stop_workers].
Qed.

(** *** Waiting for the service

    [main] waits at [pc] until the service has drained; [load] is what is left.  A worker that
    is in [do_global_queue_work] reduces it there, or goes round its loop and does so in [dispatch]. *)

Section Waiting.
Context (pc : MainPc) (phase drained : S -> Prop) (load : S -> nat).
Context (pc_running : forall b, running_at pc b -> b = true) (pc_phase : forall s, phase_at pc s -> phase s).
Context (progress : forall s, si_inv s -> phase s -> drained s \/ exists s', so_work s s' /\ (load s' < load s)%nat).
Context (distributed : forall now s s', phase s -> so_distribute now s s' -> (load s' <= load s)%nat).
Context (stays : forall s s', si_inv s -> phase s -> so_work s s' -> phase s').
Context (next : forall h ws bs id, process_inv n (mkProcess h pc ws bs id) -> drained (sh_service h) -> can_end (mkProcess h pc ws bs id)).

Lemma work_off k : forall h id0 e ws bs id,
  (load (sh_service h) <= k)%nat -> 0 <= e -> process_inv n (mkProcess h pc (mkThread id0 (WGlobal e) :: ws) bs id) ->
  can_end (mkProcess h pc (mkThread id0 (WGlobal e) :: ws) bs id).
Proof using Hn pc_running pc_phase progress distributed stays next.
  induction k as [k IH] using lt_wf_ind. intros h id0 e ws bs id Hk He Hi.
  pose proof (pv_service _ _ Hi) as Hs. pose proof (pc_phase _ (pv_phase _ _ Hi)) as Hp. pose proof (pc_running _ (pv_running _ _ Hi)) as Hrun.
  simpl in Hs, Hp, Hrun. destruct (progress _ Hs Hp) as [Hd|(s' & Hw & Hl)]; [by apply next|].
  assert (comes_to (fun h' t' => exists e', t' = mkThread id0 (WGlobal e') /\ 0 <= e' /\ (load (sh_service h') < load (sh_service h))%nat)
            h (mkThread id0 (WGlobal e))) as (h' & t' & Hr & e' & -> & He' & Hl').
  { inversion Hw as [s0 s1 Hw' E0 E1|s0 s1 Hw' E0 E1]; subst s0 s1.
    - pose proof (law_work _ _ Hs Hw) as Hs'.
      pose proof (stays _ _ Hs Hp Hw) as Hp'. destruct (run_distribute 0 s' Hs' tick_0) as [s2 Hd].
      eapply comes_step; [apply (step_empty h id0 e 0 tick_0); lia|]. eapply comes_step; [apply step_test|]. rewrite Hrun.
      eapply comes_step; [apply (step_tick h id0 0 tick_0)|]. eapply comes_step; [by apply (step_dispatch h id0 _ s')|].
      eapply comes_step; [by apply (step_distribute _ id0 _ 0 s2 tick_0)|]. apply comes_here. exists (u64 (0 + 64)). split; [done|]. split; [done|].
      simpl. pose proof (distributed 0 s' s2 Hp' Hd). lia.
    - eapply comes_step; [by apply (step_execute h id0 e 0 s' tick_0)|]. apply comes_here. by exists e. }
  pose proof (worker_runs h _ h' _ pc [] ws bs id Hr) as Hsteps. eapply can_end_steps; [exact Hsteps|].
  apply (IH (load (sh_service h'))); [lia|done|done|]. by eapply invs.
Qed.

Lemma end_waiting h ws bs id : launched_workers n pc = n -> process_inv n (mkProcess h pc ws bs id) -> can_end (mkProcess h pc ws bs id).
Proof using Hn pc_running pc_phase progress distributed stays next.
  intros Hpc Hi. pose proof (pv_workers _ _ Hi) as Hlen. simpl in Hlen. rewrite Hpc in Hlen. destruct ws as [|[id0 p0] ws]; [simpl in Hlen; lia|].
  pose proof (pc_running _ (pv_running _ _ Hi)) as Hrun. simpl in Hrun.
  pose proof (pv_worker _ _ Hi) as Hw. simpl in Hw. apply Forall_cons_1 in Hw as [Hw _].
  pose proof (pv_looping _ _ Hi Hrun) as Hb. simpl in Hb. apply Forall_cons_1 in Hb as [Hb _].
  destruct (comes_to_test (fun _ t => exists id' e, t = mkThread id' (WGlobal e) /\ 0 <= e) h id0 p0 (pv_service _ _ Hi) Hw Hb)
    as (h' & t' & Hr & id' & e & -> & He).
  - intros h' id' Hs' E. destruct (run_dispatch _ Hs') as [s1 H1].
    assert (si_inv s1) as Hs1 by (apply (law_work _ _ Hs'); by constructor). destruct (run_distribute 0 s1 Hs1 tick_0) as [s2 H2].
    eapply comes_step; [apply step_test|]. rewrite E, Hrun. eapply comes_step; [apply (step_tick h' id' 0 tick_0)|].
    eapply comes_step; [by apply (step_dispatch h' id' _ s1)|]. eapply comes_step; [by apply (step_distribute _ id' _ 0 s2 tick_0)|].
    apply comes_here. by exists id', (u64 (0 + 64)).
  - pose proof (worker_runs h _ h' _ pc [] ws bs id Hr) as Hsteps. eapply can_end_steps; [exact Hsteps|].
    apply (work_off (load (sh_service h'))); [done|done|]. by eapply invs.
Qed.
End Waiting.

Lemma end_wait_sessions h ws bs id : process_inv n (mkProcess h MWaitSessions ws bs id) -> can_end (mkProcess h MWaitSessions ws bs id).
Proof using Hn.
  apply (end_waiting MWaitSessions si_closing so_sessions_drained closing_load); try done.
  - intros s. apply run_sessions.
  - intros now s s'. apply law_closing_load.
  - intros s s' Hi Hp Hw. apply (law_closing_stays s s' Hi Hp). by left.
  - clear h ws bs id. intros h ws bs id Hi Hd. eapply can_end_main; [by apply main_sessions_drained|]. apply end_stop_workers.
    eapply main_inv; [done|done|by apply main_sessions_drained].
Qed.

Lemma end_close_sessions h ws bs id : process_inv n (mkProcess h MCloseSessions ws bs id) -> can_end (mkProcess h MCloseSessions ws bs id).
Proof using Hn.
  intros Hi. destruct (run_close_sessions _ (pv_service _ _ Hi)) as [s' Hs]. eapply can_end_main; [by apply main_close_sessions|].
  apply end_wait_sessions. eapply main_inv; [done|done|by apply main_close_sessions].
Qed.

Lemma end_wait_listener h ws bs id : process_inv n (mkProcess h MWaitListener ws bs id) -> can_end (mkProcess h MWaitListener ws bs id).
Proof using Hn.
  apply (end_waiting MWaitListener si_stopped so_listener_drained stopped_load); try done.
  - intros s. apply run_listener.
  - intros now s s'. apply law_stopped_load.
  - intros s s' Hi Hp Hw. apply (law_stopped_stays s s' Hi Hp). by left.
  - clear h ws bs id. intros h ws bs id Hi Hd. eapply can_end_main; [by apply main_listener_drained|]. apply end_close_sessions.
    eapply main_inv; [done|done|by apply main_listener_drained].
Qed.

Lemma end_stop_listener h ws bs id : process_inv n (mkProcess h MStopListener ws bs id) -> can_end (mkProcess h MStopListener ws bs id).
Proof using Hn.
  intros Hi. destruct (run_stop_listener _ (pv_service _ _ Hi)) as [s' Hs]. eapply can_end_main; [by apply main_stop_listener|].
  apply end_wait_listener. eapply main_inv; [done|done|by apply main_stop_listener].
Qed.

Lemma end_join_background k : forall h i ws bs id,
  (length bs <= i + k)%nat -> process_inv n (mkProcess h (MJoinBackground i) ws bs id) -> can_end (mkProcess h (MJoinBackground i) ws bs id).
Proof using Hn.
  induction k as [|k IH]; intros h i ws bs id Hk Hi.
  - assert (main_step n (mkProcess h (MJoinBackground i) ws bs id) (mkProcess h MStopListener ws [] id)) as Hst by (apply main_joined_background; lia).
    eapply can_end_main; [done|]. apply end_stop_listener. by eapply main_inv.
  - destruct (bs !! i) as [t|] eqn:E.
    2: { apply lookup_ge_None in E. apply (IH h i ws bs id); [lia|done]. }
    destruct (list_elem_of_split_length _ _ _ E) as (l1 & l2 & -> & El).
    assert (exists body, body <> BWorker /\ runs body t) as (body & Hb & Ht).
    { pose proof (pv_background _ _ Hi) as Hbg. simpl in Hbg. apply Forall2_app_inv_r in Hbg as (k1 & k2 & _ & H2 & E2).
      inversion H2 as [|body ? k3 ? Hr _ E3]; subst. exists body. split; [|done]. intros ->.
      assert (BWorker ∈ [BHeartbeat; BStats]) by (rewrite E2; apply elem_of_app; right; by left). set_solver. }
    destruct (thread_ends body h t) as (h' & t' & Hr & He).
    { apply (pv_service _ _ Hi). }
    { pose proof (pv_requested _ _ Hi) as Hq. by destruct body. }
    { done. }
    pose proof (background_runs h t h' t' (MJoinBackground i) ws l1 l2 id Hr) as Hrun. eapply can_end_steps; [done|].
    pose proof (invs _ _ Hi Hrun) as Hi'.
    assert (main_step n (mkProcess h' (MJoinBackground i) ws (l1 ++ t' :: l2) id) (mkProcess h' (MJoinBackground (i + 1)) ws (l1 ++ t' :: l2) id)) as Hst.
    { apply (main_join_background n h' i t'); [|done]. rewrite El. by rewrite lookup_app_r, Nat.sub_diag by lia. }
    eapply can_end_main; [done|]. apply IH; [|by eapply main_inv]. rewrite length_app in *. simpl in *. lia.
Qed.

Lemma end_request h ws bs id : process_inv n (mkProcess h MRequest ws bs id) -> can_end (mkProcess h MRequest ws bs id).
Proof using Hn.
  intros Hi. eapply can_end_main; [apply main_request|]. apply (end_join_background (length bs)); [lia|].
  eapply main_inv; [done|done|apply main_request].
Qed.

Lemma end_getline h ws bs id : process_inv n (mkProcess h MGetline ws bs id) -> can_end (mkProcess h MGetline ws bs id).
Proof using Hn.
  intros Hi. pose proof (main_getline n h ws bs id None) as Hst. eapply can_end_main; [done|]. apply end_request. by eapply main_inv.
Qed.

Lemma end_launch_stats h ws bs id : process_inv n (mkProcess h MLaunchStats ws bs id) -> can_end (mkProcess h MLaunchStats ws bs id).
Proof using Hn. intros Hi. eapply can_end_main; [apply main_stats|]. apply end_getline. eapply main_inv; [done|done|apply main_stats]. Qed.

Lemma end_launch_heartbeat h ws bs id : process_inv n (mkProcess h MLaunchHeartbeat ws bs id) -> can_end (mkProcess h MLaunchHeartbeat ws bs id).
Proof using Hn. intros Hi. eapply can_end_main; [apply main_heartbeat|]. apply end_launch_stats. eapply main_inv; [done|done|apply main_heartbeat]. Qed.

Lemma end_launch k : forall h i ws bs id,
  n <= i + Z.of_nat k -> process_inv n (mkProcess h (MLaunch i) ws bs id) -> can_end (mkProcess h (MLaunch i) ws bs id).
Proof using Hn.
  induction k as [|k IH]; intros h i ws bs id Hk Hi.
  - pose proof (main_launched n h i ws bs id ltac:(lia)) as Hst. eapply can_end_main; [done|]. apply end_launch_heartbeat. by eapply main_inv.
  - destruct (decide (i < n)) as [Hlt|Hge]; [|apply IH; [lia|done]].
    pose proof (main_launch n h i ws bs id Hlt) as Hst. eapply can_end_main; [done|]. apply IH; [|by eapply main_inv].
    pose proof (pv_joined _ _ Hi) as Hj. simpl in Hj. rewrite i32_small by lia. lia.
Qed.

Lemma process_ends P : process_inv n P -> can_end P.
Proof using Hn.
  intros Hi. destruct P as [h pc ws bs id]. destruct pc as [|i| | | | |i| | | | | |i| | |code].
  - pose proof (pv_workers _ _ Hi) as Hw. pose proof (pv_background _ _ Hi) as Hb. simpl in Hw, Hb. apply Forall2_nil_inv_l in Hb as ->.
    destruct ws; [|simpl in Hw; lia]. destruct (run_start _ (pv_service _ _ Hi)) as [s' Hs]. eapply can_end_main; [by apply main_start|].
    apply (end_launch (Z.to_nat n)); [lia|]. eapply main_inv; [done|done|by apply main_start].
  - apply (end_launch (Z.to_nat n)); [|done]. pose proof (pv_joined _ _ Hi) as Hj. simpl in Hj. lia.
  - by apply end_launch_heartbeat.
  - by apply end_launch_stats.
  - by apply end_getline.
  - by apply end_request.
  - by apply (end_join_background (length bs)); [lia|].
  - by apply end_stop_listener.
  - by apply end_wait_listener.
  - by apply end_close_sessions.
  - by apply end_wait_sessions.
  - by apply end_stop_workers.
  - by apply (end_join_workers (length ws)); [lia|].
  - by apply end_clear_timer.
  - apply end_print.
  - by apply (end_returned _ code).
Qed.
End Ending.

(** ** Thread ids *)

Definition unstarted (t : Thread) : Z := match t_pc t with TLaunched _ => 1 | _ => 0 end.

Definition started_id (t : Thread) : option Z := match t_pc t with TLaunched _ => None | _ => Some (t_id t) end.

(** The value of [SThreadId] when all threads launched so far have started. *)
Definition ids_given (n : Z) (pc : MainPc) : Z :=
  match pc with
  | MStart => 2
  | MLaunch i => 3 + i
  | MLaunchHeartbeat => 3 + n
  | MLaunchStats => 4 + n
  | MReturned code => if code =? 1 then 2 else 5 + n
  | _ => 5 + n
  end.

Record id_inv (n : Z) (P : Process) : Prop := {
  iv_pos : 0 <= sh_thread_id (p_shared P);
  iv_next : sh_thread_id (p_shared P) + sumZ unstarted (p_workers P ++ p_background P) = ids_given n (p_main P);
  iv_distinct : NoDup (p_id P :: omap started_id (p_workers P ++ p_background P));
  iv_below : Forall (fun i => i < sh_thread_id (p_shared P)) (p_id P :: omap started_id (p_workers P ++ p_background P))
}.

Lemma thread_step_id h t h' t' :
  thread_step h t h' t' ->
  (sh_thread_id h' = sh_thread_id h /\ unstarted t' = unstarted t /\ started_id t' = started_id t) \/
  (sh_thread_id h' = u32 (sh_thread_id h + 1) /\ unstarted t = 1 /\ unstarted t' = 0 /\
   started_id t = None /\ started_id t' = Some (sh_thread_id h)).
Proof.
  destruct 1 as [h id body| | | | | | | | | | | |]; try (left; unfold unstarted, started_id; simpl; by repeat case_match).
  right. by destruct body.
Qed.

Lemma unstarted_nonneg l : 0 <= sumZ unstarted l.
Proof. apply sumZ_nonneg. intros t. unfold unstarted. case_match; lia. Qed.

(** A step of one of the threads [l1 ++ t :: l2]. *)
Lemma ids_step h t h' t' l1 l2 id given :
  thread_step h t h' t' -> given < 2 ^ 32 -> 0 <= sh_thread_id h -> sh_thread_id h + sumZ unstarted (l1 ++ t :: l2) = given ->
  NoDup (id :: omap started_id (l1 ++ t :: l2)) -> Forall (fun i => i < sh_thread_id h) (id :: omap started_id (l1 ++ t :: l2)) ->
  0 <= sh_thread_id h' /\ sh_thread_id h' + sumZ unstarted (l1 ++ t' :: l2) = given /\
  NoDup (id :: omap started_id (l1 ++ t' :: l2)) /\ Forall (fun i => i < sh_thread_id h') (id :: omap started_id (l1 ++ t' :: l2)).
Proof.
  intros Hst Hg Hp Hs Hd Hb. pose proof (unstarted_nonneg l1) as N1. pose proof (unstarted_nonneg l2) as N2.
  rewrite sumZ_app in *. rewrite omap_app in *. csimpl in *. unfold sumZ at 2 in Hs. unfold sumZ at 2. simpl in *. fold (sumZ unstarted l2) in *.
  destruct (thread_step_id h t h' t' Hst) as [(E1 & E2 & E3)|(E1 & E2 & E3 & E4 & E5)].
  - rewrite E1, E2, E3. done.
  - rewrite E4 in *. rewrite E5, E3. assert (sh_thread_id h' = sh_thread_id h + 1) as E by (rewrite E1; apply u32_small; lia).
    rewrite E. set (ids := id :: omap started_id l1 ++ omap started_id l2) in *.
    assert (id :: omap started_id l1 ++ sh_thread_id h :: omap started_id l2 ≡ₚ sh_thread_id h :: ids) as Hperm by (unfold ids; solve_Permutation).
    split; [lia|]. split; [lia|]. rewrite Hperm. split.
    + constructor; [|done]. intros Hin. rewrite Forall_forall in Hb. specialize (Hb _ Hin). simpl in Hb. lia.
    + constructor; [lia|]. eapply Forall_impl; [exact Hb|]. simpl. lia.
Qed.

Lemma launch_ids body l : sumZ unstarted (launch body l) = sumZ unstarted l + 1 /\ omap started_id (launch body l) = omap started_id l.
Proof. unfold launch. rewrite sumZ_app, omap_app. csimpl. rewrite app_nil_r. done. Qed.

Lemma ended_unstarted l : Forall ended l -> sumZ unstarted l = 0.
Proof. induction 1 as [|t l He _ IH]; [done|]. unfold sumZ in *. simpl. rewrite IH. unfold unstarted. by rewrite He. Qed.

Lemma ids_bound n pc : 0 < n < 2 ^ 31 -> joined_at n pc [] [] -> ids_given n pc < 2 ^ 32.
Proof. intros Hn Hj. destruct pc; simpl in *; try case_match; lia. Qed.

Lemma id_main n P P' : 0 < n < 2 ^ 31 -> process_inv n P -> id_inv n P -> main_step n P P' -> id_inv n P'.
Proof.
  intros Hn Hi [I1 I2 I3 I4] Hst.
  destruct Hst as [h s' id Hs|h s' id Hs|h i ws bs id Hi0|h i ws bs id Hi0|h ws bs id|h ws bs id|h ws bs id command|h ws bs id
    |h i t ws bs id Ht He|h i ws bs id Hi0|h ws bs id s' Hs|h ws bs id Hd|h ws bs id s' Hs|h ws bs id Hd|h ws bs id
    |h i t ws bs id Ht He|h i ws bs id Hi0|h ws bs id s' Hs|h ws bs id]; cbn [p_shared p_main p_workers p_background p_id] in *.
  all: try (destruct (quits command)); try by constructor.
  - unfold sumZ in I2. simpl in I2. assert (sh_thread_id h = 2) as E by lia. constructor; simpl; rewrite E; try done.
    + apply NoDup_singleton.
    + by repeat constructor.
  - pose proof (pv_joined _ _ Hi) as Hj. simpl in Hj. destruct (launch_ids BWorker ws) as [L1 L2].
    constructor; cbn [p_shared p_main p_workers p_background p_id]; rewrite ?sumZ_app, ?omap_app, ?L1, ?L2 in *; try done.
    simpl in *. rewrite i32_small by lia. lia.
  - pose proof (pv_joined _ _ Hi) as Hj. simpl in Hj. constructor; simpl in *; try done. lia.
  - destruct (launch_ids BHeartbeat bs) as [L1 L2].
    constructor; cbn [p_shared p_main p_workers p_background p_id]; rewrite ?sumZ_app, ?omap_app, ?L1, ?L2 in *; try done. simpl in *. lia.
  - destruct (launch_ids BStats bs) as [L1 L2].
    constructor; cbn [p_shared p_main p_workers p_background p_id]; rewrite ?sumZ_app, ?omap_app, ?L1, ?L2 in *; try done. simpl in *. lia.
  - pose proof (pv_joined _ _ Hi) as Hj. simpl in Hj. rewrite take_ge in Hj by done.
    constructor; cbn [p_shared p_main p_workers p_background p_id]; rewrite ?app_nil_r; try done.
    + rewrite sumZ_app, (ended_unstarted bs Hj), Z.add_0_r in I2. done.
    + rewrite omap_app in I3. apply NoDup_cons in I3 as [F1 F2]. apply NoDup_app in F2 as [F2 _]. constructor; [|done]. set_solver.
    + rewrite omap_app in I4. apply Forall_cons_1 in I4 as [F1 F2]. apply Forall_app in F2 as [F2 _]. by constructor.
  - pose proof (pv_joined _ _ Hi) as Hj. simpl in Hj. rewrite take_ge in Hj by done.
    constructor; cbn [p_shared p_main p_workers p_background p_id]; rewrite ?app_nil_l; try done.
    + rewrite sumZ_app, (ended_unstarted ws Hj) in I2. done.
    + rewrite omap_app in I3. apply NoDup_cons in I3 as [F1 F2]. apply NoDup_app in F2 as (_ & _ & F2). constructor; [|done]. set_solver.
    + rewrite omap_app in I4. apply Forall_cons_1 in I4 as [F1 F2]. apply Forall_app in F2 as [_ F2]. by constructor.
Qed.

Lemma id_step n P P' : 0 < n < 2 ^ 31 -> process_inv n P -> id_inv n P -> pstep n P P' -> id_inv n P'.
Proof.
  intros Hn Hi Hid Hst. assert (ids_given n (p_main P) < 2 ^ 32) as Hg.
  { apply ids_bound; [done|]. pose proof (pv_joined _ _ Hi) as Hj. destruct (p_main P); simpl in *; rewrite ?take_nil; done. }
  destruct Hst as [P P' Hst|h pc l1 t l2 bs id h' t' Hst|h pc ws l1 t l2 id h' t' Hst]; [by eapply id_main| |].
  - destruct Hid as [I1 I2 I3 I4]. cbn [p_shared p_main p_workers p_background p_id] in *. rewrite <- !app_assoc, <- !app_comm_cons in *.
    destruct (ids_step h t h' t' l1 (l2 ++ bs) id _ Hst Hg I1 I2 I3 I4) as (? & ? & ? & ?).
    constructor; cbn [p_shared p_main p_workers p_background p_id]; by rewrite <- ?app_assoc, <- ?app_comm_cons.
  - destruct Hid as [I1 I2 I3 I4]. cbn [p_shared p_main p_workers p_background p_id] in *. rewrite !app_assoc in *.
    destruct (ids_step h t h' t' (ws ++ l1) l2 id _ Hst Hg I1 I2 I3 I4) as (? & ? & ? & ?).
    constructor; cbn [p_shared p_main p_workers p_background p_id]; by rewrite ?app_assoc.
Qed.

(** ** Statistics *)

(** The rates printed so far add up to the counters the thread remembers. *)
Definition stats_ok h (t : Thread) : Prop :=
  match t_pc t with
  | TLaunched BStats => sh_printed h = []
  | SPrint a b | SWait a b => a = u64 (sumZ fst (sh_printed h)) /\ b = u64 (sumZ snd (sh_printed h))
  | _ => True
  end.

Definition unprinted (pc : MainPc) : bool :=
  match pc with MStart | MLaunch _ | MLaunchHeartbeat | MLaunchStats => true | _ => false end.

Record stats_inv (P : Process) : Prop := {
  sv_threads : Forall (stats_ok (p_shared P)) (p_background P);
  sv_first : unprinted (p_main P) = true -> sh_printed (p_shared P) = []
}.

Lemma delta_sum s a prev : prev = u64 s -> u64 (s + (u64 (u64 a - prev) + 0)) = u64 a.
Proof.
  intros ->. unfold u64. rewrite Z.add_0_r, <- Zminus_mod, Zplus_mod_idemp_r. f_equal. lia.
Qed.

Lemma print_sum a b h :
  a = u64 (sumZ fst (sh_printed h)) -> b = u64 (sumZ snd (sh_printed h)) ->
  let '(a', b', h') := print_server_stats a b h in
  a' = u64 (sumZ fst (sh_printed h')) /\ b' = u64 (sumZ snd (sh_printed h')).
Proof.
  intros Ha Hb. simpl. rewrite !sumZ_app. unfold sumZ at 2 4. simpl. split; symmetry; by apply delta_sum.
Qed.

Lemma stats_same h h' t : sh_printed h' = sh_printed h -> stats_ok h t -> stats_ok h' t.
Proof. intros E. unfold stats_ok. by rewrite E. Qed.

Lemma stats_other body h t : runs body t -> body <> BStats -> stats_ok h t.
Proof. unfold runs, stats_ok. intros Hr Hb. destruct (t_pc t); repeat case_match; try done; congruence. Qed.

Lemma thread_step_stats h t h' t' :
  thread_step h t h' t' -> stats_ok h t ->
  stats_ok h' t' /\ (sh_printed h' = sh_printed h \/ exists a b, t_pc t = SPrint a b).
Proof.
  destruct 1 as [h id body|h id|h id now Ht|h id e s' Hs|h id e now s' Ht Hs|h id e now Ht He|h id e now Ht He|h id e now s' Ht He Hs
    |h id now s' Ht Hs|h id|h id a b|h id a b|h id]; intros Hok; try (split; [done|by left]).
  - split; [|by left]. destruct body; try done. unfold stats_ok in *. simpl in *. by rewrite Hok.
  - split; [|by left]. by destruct (sh_workers_running h).
  - split; [|by left]. by destruct (StopSignal_wait h).
  - split; [|right; eauto]. destruct Hok as [Ha Hb]. apply (print_sum a b h Ha Hb).
  - split; [|by left]. by destruct (StopSignal_wait h).
Qed.

Lemma stats_step n P P' : process_inv n P -> stats_inv P -> pstep n P P' -> stats_inv P'.
Proof.
  intros Hi [S1 S2] Hst. destruct Hst as [P P' Hst|h pc l1 t l2 bs id h' t' Hst|h pc ws l1 t l2 id h' t' Hst].
  - destruct Hst as [h s' id Hs|h s' id Hs|h i ws bs id Hi0|h i ws bs id Hi0|h ws bs id|h ws bs id|h ws bs id command|h ws bs id
      |h i t ws bs id Ht He|h i ws bs id Hi0|h ws bs id s' Hs|h ws bs id Hd|h ws bs id s' Hs|h ws bs id Hd|h ws bs id
      |h i t ws bs id Ht He|h i ws bs id Hi0|h ws bs id s' Hs|h ws bs id]; cbn [p_shared p_main p_workers p_background p_id] in *.
    all: try (destruct (quits command)); constructor; simpl in *; try done; try by intros; apply S2.
    all: try by (apply launch_all; [done|]; first [done|by apply S2]).
    pose proof (pv_background _ _ Hi) as Hb. simpl in Hb. by apply Forall2_nil_inv_l in Hb as ->.
  - pose proof (pv_worker _ _ Hi) as Hw. cbn [p_shared p_main p_workers p_background p_id] in *.
    assert (runs BWorker t) as Ht by (by apply Forall_app in Hw as [_ [? _]%Forall_cons_1]).
    destruct (thread_step_stats h t h' t' Hst (stats_other BWorker h t Ht ltac:(done))) as [_ [E|(a & b & E)]].
    + constructor; simpl; [|by rewrite E]. eapply Forall_impl; [exact S1|]. intros x. by apply stats_same.
    + unfold runs in Ht. rewrite E in Ht. done.
  - pose proof (pv_background _ _ Hi) as Hb. cbn [p_shared p_main p_workers p_background p_id] in *.
    assert (stats_ok h t) as Ht by (by apply Forall_app in S1 as [_ [? _]%Forall_cons_1]).
    destruct (thread_step_stats h t h' t' Hst Ht) as [Ht' [E|(a & b & E)]].
    + constructor; simpl; [|by rewrite E]. eapply Forall_replace; [|done]. eapply Forall_impl; [exact S1|]. intros x. by apply stats_same.
    + apply Forall2_app_inv_r in Hb as (k1 & k2 & F1 & F2 & Ek). inversion F2 as [|body ? k3 ? Fr F3 E3]; subst.
      unfold runs in Fr. rewrite E in Fr. subst body.
      assert (k1 = [BHeartbeat] /\ k3 = [] /\ unprinted pc = false) as (-> & -> & Hu).
      { destruct pc; simpl in Ek; try (by destruct k1); destruct k1 as [|b1 [|b2 k1]]; simplify_eq/=; try done; by destruct k1. }
      apply Forall2_nil_inv_l in F3 as ->. apply Forall2_cons_inv_l in F1 as (t1 & l3 & Ft & Fn & ->). apply Forall2_nil_inv_l in Fn as ->.
      constructor; simpl; [|congruence]. constructor; [by apply (stats_other BHeartbeat)|]. by constructor.
Qed.

(** ** Properties *)

Lemma process_start_ids n s : id_inv n (process_start s).
Proof. constructor; simpl; try done; [apply NoDup_singleton|by repeat constructor]. Qed.

Lemma process_reachable_all n P : 0 < n < 2 ^ 31 -> process_reachable n P -> process_inv n P /\ id_inv n P /\ stats_inv P.
Proof.
  intros Hn (s & Hs & Hr). assert (process_inv n (process_start s) /\ id_inv n (process_start s) /\ stats_inv (process_start s)) as Hi.
  { split; [by apply process_start_inv|]. split; [apply process_start_ids|]. by constructor; [constructor|]. }
  induction Hr as [|P P1 P2 Hst _ IH]; [done|]. apply IH. destruct Hi as (H1 & H2 & H3).
  split; [by eapply pstep_inv|]. split; [by eapply id_step|by eapply stats_step].
Qed.

(** [main] is inside of [close_service]. *)
Definition in_close (pc : MainPc) : bool :=
  match pc with MStopListener | MWaitListener | MCloseSessions | MWaitSessions => true | _ => false end.

(** C15: who outlives whom.  In every state the server process can reach: as long as [close_service]
    runs, all workers are in their loops, so that completions and jobs are still processed, and
    the heartbeat and statistics threads have ended, so that no heartbeat meets a closing service.
    The timer is cleared and the final statistics are printed when no worker is left, and when
    [main] returns no thread is left that could use its local variables [workers_running] and
    [background_stop].  All running threads have different ids.  The rates printed per second add
    up to the counters. *)
Theorem process_order n P :
  0 < n < 2 ^ 31 -> process_reachable n P ->
  (in_close (p_main P) = true ->
     Z.of_nat (length (p_workers P)) = n /\ Forall busy (p_workers P) /\ Forall (runs BWorker) (p_workers P) /\ p_background P = []) /\
  (p_main P = MClearTimer \/ p_main P = MPrint -> p_workers P = [] /\ p_background P = []) /\
  (forall code, p_main P = MReturned code -> p_workers P = [] /\ p_background P = []) /\
  NoDup (p_id P :: omap started_id (p_workers P ++ p_background P)) /\
  (forall t a b, t ∈ p_background P -> t_pc t = SWait a b ->
     a = u64 (sumZ fst (sh_printed (p_shared P))) /\ b = u64 (sumZ snd (sh_printed (p_shared P)))).
Proof.
  intros Hn Hr. destruct (process_reachable_all n P Hn Hr) as (Hi & Hid & Hst).
  pose proof (pv_workers _ _ Hi) as Hw. pose proof (pv_background _ _ Hi) as Hb. pose proof (pv_running _ _ Hi) as Hrun.
  assert (launched_workers n (p_main P) = 0 -> p_workers P = []) as Hnone.
  { intros E. rewrite E in Hw. destruct (p_workers P); [done|]. simpl in Hw. lia. }
  assert (launched_background (p_main P) = [] -> p_background P = []) as Hbg.
  { intros E. rewrite E in Hb. by apply Forall2_nil_inv_l in Hb. }
  split_and!.
  - intros Hc. assert (sh_workers_running (p_shared P) = true) as E by (by destruct (p_main P)).
    split_and!; [by destruct (p_main P)|by apply (pv_looping _ _ Hi)|apply (pv_worker _ _ Hi)|]. apply Hbg. by destruct (p_main P).
  - intros [E|E]; rewrite E in *; auto.
  - intros code E. rewrite E in *. auto.
  - apply (iv_distinct _ _ Hid).
  - intros t a b Ht E. pose proof (sv_threads _ Hst) as Hs. rewrite Forall_forall in Hs. specialize (Hs t Ht). unfold stats_ok in Hs. by rewrite E in Hs.
Qed.

(** The steps a thread that was told to stop has left, jobs not counted. *)
Definition steps_left (t : Thread) : nat :=
  match t_pc t with
  | TEnded => 0
  | TLeaving => 1
  | WTest | HWait | SWait _ _ => 2
  | WGlobal _ | HCheck | SPrint _ _ => 3
  | WDistribute _ => 4
  | WDispatch _ => 5
  | WTick => 6
  | TLaunched BWorker => 3
  | TLaunched _ => 4
  end.

Lemma told_step body h t h' t' :
  thread_step h t h' t' -> runs body t -> told body h ->
  (steps_left t' < steps_left t)%nat \/ (t' = t /\ body = BWorker /\ so_execute (sh_service h) (sh_service h')).
Proof.
  destruct 1; unfold runs, told, steps_left, StopSignal_wait; simpl; intros Hr Ht; subst; simpl in *; rewrite ?Ht; auto; try (left; lia).
  destruct body; simpl; left; lia.
Qed.

Lemma background_told n P t :
  process_inv n P -> t ∈ p_background P -> sh_requested (p_shared P) = true -> exists body, body <> BWorker /\ runs body t /\ told body (p_shared P).
Proof.
  intros Hi Ht Hr. apply list_elem_of_lookup in Ht as [k Hk]. destruct (Forall2_lookup_r _ _ _ _ _ (pv_background _ _ Hi) Hk) as (body & Hb & Hruns).
  assert (body <> BWorker) as Hne.
  { intros ->. apply list_elem_of_lookup_2 in Hb. destruct (p_main P); simpl in Hb; set_solver. }
  exists body. split; [done|]. split; [done|]. by destruct body.
Qed.

(** C16: the process ends.  From every state it can reach, whatever its threads are doing, there is a
    way for it to go on until [main] returns: the background threads leave their loops, the
    workers work off what the service has in flight so that [close_service] returns, and then
    leave theirs.  So no state is a deadlock between [main], the workers and the service.  And
    stopping is prompt in every schedule: a background thread makes at most four more steps
    after [request], a worker at most six after [workers_running] was cleared, the execution of job
    queues not counted. *)
Theorem process_can_end n P :
  0 < n < 2 ^ 31 -> process_reachable n P ->
  (exists P' code, rtc (pstep n) P P' /\ p_main P' = MReturned code) /\
  (sh_requested (p_shared P) = true -> forall t, t ∈ p_background P -> (steps_left t <= 4)%nat /\
     forall h' t', thread_step (p_shared P) t h' t' -> (steps_left t' < steps_left t)%nat) /\
  (sh_workers_running (p_shared P) = false -> forall t, t ∈ p_workers P -> (steps_left t <= 6)%nat /\
     forall h' t', thread_step (p_shared P) t h' t' ->
       (steps_left t' < steps_left t)%nat \/ (t' = t /\ so_execute (sh_service (p_shared P)) (sh_service h'))).
Proof.
  intros Hn Hr. pose proof (process_reachable_inv n P Hn Hr) as Hi. split_and!.
  - by apply (process_ends n Hn).
  - intros Hq t Ht. destruct (background_told n P t Hi Ht Hq) as (body & Hb & Hruns & Htold). split.
    + unfold steps_left, runs in *. repeat case_match; simplify_eq; lia || congruence.
    + intros h' t' Hst. destruct (told_step body _ t h' t' Hst Hruns Htold) as [?|(_ & ? & _)]; [done|congruence].
  - intros Hw t Ht. pose proof (pv_worker _ _ Hi) as Hall. rewrite Forall_forall in Hall. specialize (Hall t Ht). split.
    + unfold steps_left. repeat case_match; lia.
    + intros h' t' Hst. destruct (told_step BWorker _ t h' t' Hst Hall Hw) as [?|(? & _ & ?)]; auto.
Qed.
End Process.
