(* ===== verification/ServerService.v ===== *)
(** * The service of the server process

    The model of the whole server ([Managers], [Handlers]) behind the interface [ServiceOps] of
    ServerProcess, and the proof that it keeps the laws the process relies on.  The listener
    is represented by whether it is open and by the number of its accept operations in flight; its
    own code and theorems are in Listener. *)

From stdpp Require Import base list numbers option gmap relations.
From Stdlib Require Import ZArith Lia.
From S2P Require Import Prelude Buffers SendEvents Framing JobQueues Wire Protocol Messages Packets Runtime Accounts Rooms Sessions SessionSafety SessionTheorems Managers Handlers Users ServerSafety ServerTheorems ServerDemo ServerShutdown ServerProcess.

Record Backend := mkBackend { b_server : Server; b_listening : bool; b_accepts : nat }.

#[export] Instance Backend_settable : Settable Backend := fun b => mkBackend (b_server b) (b_listening b) (b_accepts b).

Section Service.
Context {utf8 : Utf8Check} {codec : PacketCodec} {laws : PacketCodecLaws codec}.
Context {api : StringApi} {api_laws : StringApiLaws api} {os : Os}.

(** An operation of the server.  While the service closes it needs no room for new jobs. *)
Definition server_step (op : ServerOp) (v v' : Server) : Prop := enabled op v /\ exec op v = Some ((), v').

Definition completion_step (v v' : Server) : Prop :=
  exists sid c failed s, sv_sessions v !! sid = Some s /\ exec (SvCompletion sid c failed) v = Some ((), v') /\
    (enabled (SvCompletion sid c failed) v \/ sv_closing v = true /\ reported c s).

Definition job_step (sid : nat) (v v' : Server) : Prop :=
  exists now s, sv_sessions v !! sid = Some s /\ s_logic_queue s <> [] /\ exec (SvJob sid now) v = Some ((), v') /\
    (enabled (SvJob sid now) v \/ sv_closing v = true).

(** [register_accept] for a new session. *)
Definition create_step (v v' : Server) : Prop := exists made, server_step (SvCreate made) v v'.

(** A completion is none, one of a session, an accept, which is registered again or given up, or
    the end of an accept of a closed listener. *)
Inductive backend_dispatch : Backend -> Backend -> Prop :=
| dispatch_timeout b : backend_dispatch b b
| dispatch_session v v' l k : completion_step v v' -> backend_dispatch (mkBackend v l k) (mkBackend v' l k)
| dispatch_accept v v1 v2 k sid :
    server_step (SvAccept sid) v v1 -> create_step v1 v2 -> backend_dispatch (mkBackend v true (S k)) (mkBackend v2 true (S k))
| dispatch_accept_fails v v1 k sid :
    server_step (SvAccept sid) v v1 -> backend_dispatch (mkBackend v true (S k)) (mkBackend v1 true k)
| dispatch_aborted v k : backend_dispatch (mkBackend v false (S k)) (mkBackend v false k).

(** The timer holds the retries of accepts. *)
Inductive backend_distribute : Backend -> Backend -> Prop :=
| distribute_none b : backend_distribute b b
| distribute_retry v v' k : create_step v v' -> backend_distribute (mkBackend v true k) (mkBackend v' true (S k)).

#[export] Instance backend_ops : ServiceOps Backend := {
  so_start ok b b' := rtc create_step (b_server b) (b_server b') /\ b_listening b' = ok;
  so_dispatch := backend_dispatch;
  so_distribute _ := backend_distribute;
  so_execute b b' := exists sid v', rtc (job_step sid) (b_server b) v' /\ b' = b <| b_server := v' |>;
  so_heartbeat now b b' := tick now /\ exists v', exec (SvHeartbeat now) (b_server b) = Some ((), v') /\ b' = b <| b_server := v' |>;
  so_stop_listener b b' := b' = b <| b_listening := false |>;
  so_listener_drained b := b_accepts b = 0%nat;
  so_close_sessions b b' := exists v', exec SvClose (b_server b) = Some ((), v') /\ b' = b <| b_server := v' |>;
  so_sessions_drained b := forall j s, sv_sessions (b_server b) !! j = Some s -> Session_shutdown_complete s = true;
  so_clear_timer b b' := b' = b;
  so_stats b := (st_recv_chat (e_stats (sv_env (b_server b))), st_broadcast_target (e_stats (sv_env (b_server b))))
}.

(** ** Laws *)

Abbreviation server_inv := (srv_inv None).

Lemma server_step_inv op v v' : server_inv v -> server_step op v v' -> server_inv v'.
Proof using laws api_laws. intros Hi [Hen E]. destruct (exec_inv v op Hi Hen) as (a & v1 & E1 & H). congruence. Qed.

Lemma create_steps_inv v v' : server_inv v -> rtc create_step v v' -> server_inv v'.
Proof using laws api_laws. intros Hi Hr. induction Hr as [|v v1 v2 [made Hst] _ IH]; [done|]. apply IH. by eapply server_step_inv. Qed.

Lemma completion_step_inv v v' : server_inv v -> completion_step v v' -> server_inv v'.
Proof using laws api_laws.
  intros Hi (sid & c & failed & s & Hs & E & [Hen|[Hc [Ho _]]]); [by eapply server_step_inv|].
  destruct (completion_down v sid s c failed (conj Hi Hc) Hs Ho) as (a & v1 & E1 & [? _] & _). congruence.
Qed.

Lemma job_step_inv sid v v' : server_inv v -> job_step sid v v' -> server_inv v'.
Proof using laws api_laws.
  intros Hi (now & s & Hs & Hq & E & [Hen|Hc]); [by eapply server_step_inv|].
  destruct (job_down v sid s now (conj Hi Hc) Hs Hq) as (a & v1 & E1 & [? _] & _). congruence.
Qed.

Lemma job_steps_inv sid v v' : server_inv v -> rtc (job_step sid) v v' -> server_inv v'.
Proof using laws api_laws. intros Hi Hr. induction Hr as [|v v1 v2 Hst _ IH]; [done|]. apply IH. by eapply job_step_inv. Qed.

Lemma work_inv b b' : server_inv (b_server b) -> so_work b b' -> server_inv (b_server b').
Proof using laws api_laws.
  intros Hi Hw. destruct Hw as [b b' Hw|b b' (sid & v' & Hr & ->)].
  - destruct Hw as [b|v v' l k Hc|v v1 v2 k sid Ha [made Hcr]|v v1 k sid Ha|v k]; simpl in *; try done.
    + by eapply completion_step_inv.
    + eapply server_step_inv; [|done]. by eapply server_step_inv.
    + by eapply server_step_inv.
  - simpl. by eapply job_steps_inv.
Qed.

Lemma distribute_inv b b' : server_inv (b_server b) -> backend_distribute b b' -> server_inv (b_server b').
Proof using laws api_laws. intros Hi Hd. destruct Hd as [|v v' k [made Hst]]; [done|]. by eapply server_step_inv. Qed.

(** *** While closing *)

Lemma create_closing v v' : sv_closing v = true -> create_step v v' -> v' = v.
Proof using.
  intros Hc (made & _ & E). cbn [exec] in E. unfold Service_create_session, mbind, WM_bind, wgets in E. unfold id in E. rewrite Hc in E.
  by injection E.
Qed.

Lemma no_accept v v' sid : server_inv v -> sv_closing v = true -> ~ server_step (SvAccept sid) v v'.
Proof using.
  intros [Hi Hok] Hc [(_ & _ & s & Hs & _ & Hd) _]. pose proof (uo_closing _ _ _ _ _ _ Hok Hc sid (view s) (views_lookup v sid s Hs)) as E. simpl in E. congruence.
Qed.

Lemma work_closing b b' : server_inv (b_server b) -> sv_closing (b_server b) = true -> so_work b b' -> sv_closing (b_server b') = true.
Proof using laws api_laws.
  intros Hi Hc Hw. destruct Hw as [b b' Hw|b b' (sid & v' & Hr & ->)].
  - destruct Hw as [b|v v' l k (sid & c & failed & s & Hs & E & Hrep)|v v1 v2 k sid Ha Hcr|v v1 k sid Ha|v k]; cbn [b_server] in *; try done.
    + assert (owner_of c s = true) as Ho.
      { destruct Hrep as [(_ & _ & s0 & Hs0 & Hfl)|[_ [? _]]]; [|done]. rewrite Hs in Hs0. injection Hs0 as <-. destruct c; simpl in *; tauto. }
      destruct (completion_down v sid s c failed (conj Hi Hc) Hs Ho) as (a & v1 & E1 & [_ ?] & _). congruence.
    + by destruct (no_accept _ _ _ Hi Hc Ha).
    + by destruct (no_accept _ _ _ Hi Hc Ha).
  - simpl. assert (server_inv (b_server b) /\ sv_closing (b_server b) = true) as Hok by done. clear Hi Hc.
    induction Hr as [|v v1 v2 (now & s & Hs & Hq & E & _) _ IH]; [by destruct Hok|]. apply IH.
    destruct (job_down v sid s now Hok Hs Hq) as (a & v3 & E1 & ? & _). by replace v1 with v3 by congruence.
Qed.

(** A session that is not done has a completion or a job left. *)
Lemma session_unfinished s :
  session_inv s -> s_shutdown_started s = true -> Session_shutdown_complete s = false -> (exists c, reported c s) \/ s_logic_queue s <> [].
Proof using.
  intros Hi Hs Hc. destruct (s_recv_owner s) eqn:E1; [left; exists (RecvCompletion []); by split; [|right]|].
  destruct (s_send_owner s) eqn:E2; [left; exists (SendCompletion 0); split; [done|left; by split]|].
  destruct (s_disconnect_owner s) eqn:E3; [left; exists DisconnectCompletion; split; [done|by left]|].
  destruct (s_logic_queue s) eqn:Eq; [|by right]. exfalso. destruct (session_at_rest s Hi Hs) as [? _]; [|done|congruence].
  intros [] [Ho _]; simpl in Ho; congruence.
Qed.

Lemma backend_progress b :
  server_inv (b_server b) -> sv_closing (b_server b) = true ->
  so_sessions_drained b \/ exists b', so_work b b' /\ (server_load (b_server b') < server_load (b_server b))%nat.
Proof using laws api_laws.
  intros Hi Hc. destruct b as [v l k]. simpl in *.
  destruct (decide (map_Forall (fun _ s => Session_shutdown_complete s = true) (sv_sessions v))) as [Hall|Hsome]; [by left|right].
  apply map_not_Forall in Hsome as (j & s & Hs & Hn); [|intros ? ?; apply _]. apply not_true_is_false in Hn.
  destruct (closing_down v j s (conj Hi Hc) Hs) as [Hsi Hd]. destruct (session_unfinished s Hsi Hd Hn) as [[c Hr]|Hq].
  - destruct (completion_down v j s c true (conj Hi Hc) Hs (proj1 Hr)) as ([] & v' & E & _ & Hl). exists (mkBackend v' l k). split; [|done].
    apply work_dispatch, dispatch_session. exists j, c, true, s. auto.
  - destruct (job_down v j s 0 (conj Hi Hc) Hs Hq) as ([] & v' & E & _ & Hl). exists (mkBackend v' l k). split; [|done].
    apply work_execute. exists j, v'. split; [|done]. apply rtc_once. exists 0, s. auto.
Qed.

#[export] Program Instance backend_laws : ServiceLaws Backend := {
  si_inv b := server_inv (b_server b);
  si_stopped b := b_listening b = false;
  si_closing b := sv_closing (b_server b) = true;
  stopped_load := b_accepts;
  closing_load b := server_load (b_server b);
  law_work := work_inv;
  law_distribute _ := distribute_inv;
  run_sessions := backend_progress
}.
Next Obligation. intros ok s s' Hi [Hr _]. apply (create_steps_inv (b_server s)); [exact Hi|exact Hr]. Qed.
Next Obligation.
  intros now s s' Hi (Hn & v' & E & ->). destruct (heartbeat_net (b_server s) now Hi Hn) as (a & v1 & E1 & Hat & Hq).
  simpl in *. replace v' with v1 by congruence. split; [done|]. eapply quiet_ok; [done|apply Hi].
Qed.
Next Obligation. intros s s' Hi ->. done. Qed.
Next Obligation. intros s s' Hi (v' & E & ->). destruct (close_inv (b_server s) Hi) as (a & v1 & E1 & H1 & H2). simpl in *. by replace v' with v1 by congruence. Qed.
Next Obligation. intros now s s' Hs Hd. destruct Hd; [done|by simpl in Hs]. Qed.
Next Obligation. intros now s s' Hs Hd. destruct Hd as [|v v' k Hcr]; [done|]. simpl in *. by rewrite (create_closing v v' Hs Hcr). Qed.
Next Obligation. intros s s' Hi ->. done. Qed.
Next Obligation.
  intros s s' Hi Hs [Hw|[now Hd]].
  - destruct Hw as [b b' Hw|b b' (sid & v' & _ & ->)]; [|done]. by destruct Hw.
  - by destruct Hd.
Qed.
Next Obligation.
  intros s s' Hi Hs [Hw|[now Hd]]; [exact (work_closing s s' Hi Hs Hw)|]. destruct Hd as [|v v' k Hcr]; [done|]. simpl in *. by rewrite (create_closing v v' Hs Hcr).
Qed.
Next Obligation. intros s Hi. exists (mkBackend (b_server s) true 0). by split. Qed.
Next Obligation. intros s Hi. exists s. constructor. Qed.
Next Obligation. intros now s Hi _. exists s. constructor. Qed.
Next Obligation. intros now s Hi Hn. destruct (heartbeat_net (b_server s) now Hi Hn) as ([] & v1 & E1 & _). eexists. split; [done|]. eauto. Qed.
Next Obligation. intros s Hi. by eexists. Qed.
Next Obligation.
  intros [v l [|k]] Hi Hs; [by left|]. right. simpl in Hs. subst l. exists (mkBackend v false k). split; [|simpl; lia].
  apply work_dispatch, dispatch_aborted.
Qed.
Next Obligation. intros s Hi. destruct (close_inv (b_server s) Hi) as ([] & v1 & E1 & _). eexists. exists v1. split; [exact E1|done]. Qed.
Next Obligation. intros s Hi. by eexists. Qed.
End Service.

(** ** Witnesses *)

#[local] Instance close_os : Os := fun _ => IoPending.

(** A server with one client that begins to close. *)
Definition closing_server : Server :=
  match run [SvCreate true; SvAccept 0; SvClose] (Server_new 2) with Some v => v | None => Server_new 2 end.

Lemma closing_server_reachable : reachable 2 closing_server.
Proof. apply (run_default 2 _ _ (reach_start 2)). vm_compute. reflexivity. Qed.

Lemma server_close_drains_witness :
  server_load closing_server = 2%nat /\ Acc (fun v2 v1 => close_step v1 v2) closing_server.
Proof.
  split; [vm_compute; reflexivity|].
  apply (server_close_drains 2 closing_server ltac:(lia) closing_server_reachable). vm_compute. reflexivity.
Defined.

(** A process with one worker, whose console is closed at once. *)
Definition demo_backend : Backend := mkBackend (Server_new 2) false 0.

Lemma demo_backend_inv : si_inv demo_backend.
Proof. apply server_new_inv. lia. Qed.

Definition demo_shared (requested : bool) (ids : Z) (printed : list (Z * Z)) (listening : bool) : Shared Backend :=
  mkShared (mkBackend (Server_new 2) listening 0) true requested ids printed.

Lemma demo_heartbeat : exec (SvHeartbeat 0) (Server_new 2) = Some ((), Server_new 2).
Proof. vm_compute. reflexivity. Qed.

(** The main thread has told the background threads to stop and waits for the first of them. *)
Definition demo_joining : Process :=
  mkProcess (demo_shared true 3 [] true) (MJoinBackground 0) [mkThread 0 (TLaunched BWorker)]
    [mkThread 0 (TLaunched BHeartbeat); mkThread 0 (TLaunched BStats)] 2.

(** It waits for the listener. *)
Definition demo_closing : Process :=
  mkProcess (demo_shared true 6 [(0, 0)] false) MWaitListener [mkThread 3 WTest] [] 2.

Lemma demo_joining_reachable : process_reachable 1 demo_joining.
Proof.
  exists demo_backend. split; [apply demo_backend_inv|].
  eapply rtc_l; [apply pstep_main, (main_start 1 _ (mkBackend (Server_new 2) true 0)); by split|].
  eapply rtc_l; [apply pstep_main, main_launch; lia|].
  eapply rtc_l; [apply pstep_main, main_launched; by vm_compute|].
  eapply rtc_l; [apply pstep_main, main_heartbeat|]. eapply rtc_l; [apply pstep_main, main_stats|].
  eapply rtc_l; [apply pstep_main, (main_getline 1 _ _ _ _ None)|]. apply rtc_once. apply pstep_main, main_request.
Qed.

Lemma demo_closing_run : rtc (pstep 1) demo_joining demo_closing.
Proof.
  eapply rtc_l; [apply (pstep_worker 1 _ _ []), step_init|].
  eapply rtc_l; [apply (pstep_background 1 _ _ _ []), step_init|].
  eapply rtc_l; [apply (pstep_background 1 _ _ _ []), (step_heartbeat _ _ 0 (mkBackend (Server_new 2) true 0) tick_0)|].
  { split; [apply tick_0|]. exists (Server_new 2). split; [apply demo_heartbeat|done]. }
  eapply rtc_l; [apply (pstep_background 1 _ _ _ []), step_heartbeat_wait|].
  eapply rtc_l; [apply (pstep_background 1 _ _ _ []), step_destroy|].
  eapply rtc_l; [apply pstep_main; eapply main_join_background; [reflexivity|reflexivity]|].
  eapply rtc_l; [apply (pstep_background 1 _ _ _ [_]), step_init|].
  eapply rtc_l; [apply (pstep_background 1 _ _ _ [_]), step_print|].
  eapply rtc_l; [apply (pstep_background 1 _ _ _ [_]), step_print_wait|].
  eapply rtc_l; [apply (pstep_background 1 _ _ _ [_]), step_destroy|].
  eapply rtc_l; [apply pstep_main; eapply main_join_background; [reflexivity|reflexivity]|].
  eapply rtc_l; [apply pstep_main, main_joined_background; simpl; lia|].
  eapply rtc_l; [apply pstep_main, (main_stop_listener 1 _ _ _ _ (mkBackend (Server_new 2) false 0)); done|].
  match goal with |- rtc _ ?x ?y => replace x with y by (vm_compute; reflexivity) end. done.
Qed.

Lemma demo_closing_reachable : process_reachable 1 demo_closing.
Proof. destruct demo_joining_reachable as (s & Hs & Hr). exists s. split; [done|]. etrans; [exact Hr|exact demo_closing_run]. Qed.

Lemma process_order_witness :
  Z.of_nat (length (p_workers demo_closing)) = 1 /\ Forall busy (p_workers demo_closing) /\
  NoDup (p_id demo_closing :: omap started_id (p_workers demo_closing ++ p_background demo_closing)).
Proof.
  destruct (process_order 1 demo_closing ltac:(lia) demo_closing_reachable) as (H1 & _ & _ & H2 & _).
  destruct (H1 eq_refl) as (H3 & H4 & _). exact (conj H3 (conj H4 H2)).
Defined.

Lemma process_can_end_witness :
  (exists P' code, rtc (pstep 1) demo_joining P' /\ p_main P' = MReturned code) /\
  (steps_left (mkThread 0 (TLaunched BStats)) <= 4)%nat.
Proof.
  destruct (process_can_end 1 demo_joining ltac:(lia) demo_joining_reachable) as (H1 & H2 & _). split; [exact H1|].
  apply (H2 eq_refl). right. left.
Defined.
