(* ===== verification/Interleaving.v ===== *)
(** * Concurrent programs: atomic actions, thread pools and ownership

    The methods of the sessions, of the test client and of the listener run on several threads at once and take
    locks around their critical sections.  A method is a [prog]: atomic actions, one per critical
    section or atomic access, joined by ordinary control flow.  A [world] is a shared state
    and a pool of running programs, and [wstep] lets any thread perform its next action, or
    the environment (a completion of the operating system, a call from outside) start a new
    thread.

    [safe] is the proof rule for such programs: a thread owns tokens, the invariant relates
    the state to the tokens of all threads, and every action trades the tokens of its thread
    against the state without touching those of the others.  [wstep_safe] says that threads
    that are safe one by one keep the invariant together; [drain_acc] says that threads end. *)

From stdpp Require Import base list numbers option relations.
From Stdlib Require Import ZArith Lia.
From S2P Require Import Prelude.

(** The answers of the system calls an action makes: the [i]-th call gets [o i]. *)
Abbreviation Oracle := (nat -> Z).

(** Constants of Winsock. *)
Definition INVALID_SOCKET : Z := 2 ^ 64 - 1.
Definition WSA_IO_PENDING : Z := 997.

(** More threads than a process can have. *)
Definition THREAD_MAX : Z := 2 ^ 30.

(** An operation in flight counts as one. *)
Definition flying {A} (k : option A) : Z := if k then 1 else 0.

Section Programs.
Context {St : Type}.

(** [Crash] is a failed [assert] or an access outside of a buffer. *)
Inductive prog (A : Type) : Type :=
| Ret (a : A)
| Act (B : Set) (f : Oracle -> St -> St * B) (k : B -> prog A)
| Crash.
Arguments Ret {A} a.
Arguments Act {A B} f k.
Arguments Crash {A}.

Fixpoint prog_bind {A B} (p : prog A) (k : A -> prog B) : prog B :=
  match p with
  | Ret a => k a
  | Act f k' => Act f (fun b => prog_bind (k' b) k)
  | Crash => Crash
  end.

(** One atomic action, which may fail an [assert]. *)
Definition atomic {B : Set} (f : Oracle -> St -> option (St * B)) : prog B :=
  Act (fun o s => match f o s with Some (s', b) => (s', Some b) | None => (s, None) end)
      (fun r => match r with Some b => Ret b | None => Crash end).

(** *** Thread pools *)

Record world := mkWorld { w_state : St; w_threads : list (prog unit) }.

Inductive tstep : prog unit -> St -> list (prog unit) -> St -> Prop :=
| tstep_act (B : Set) (f : Oracle -> St -> St * B) k o s : tstep (Act f k) s [k (snd (f o s))] (fst (f o s))
| tstep_ret a s : tstep (Ret a) s [] s.

(** [env s s' p]: the environment changes the state and starts a thread that runs [p]. *)
Inductive wstep (env : St -> St -> prog unit -> Prop) : world -> world -> Prop :=
| wstep_thread l1 p l2 s ps s' :
    tstep p s ps s' -> wstep env (mkWorld s (l1 ++ p :: l2)) (mkWorld s' (l1 ++ ps ++ l2))
| wstep_env l s s' p : env s s' p -> wstep env (mkWorld s l) (mkWorld s' (l ++ [p])).

(** *** Ownership *)

Section Safety.
Context {Token : Type} (Inv : list Token -> St -> Prop) (G : St -> St -> Prop) (lim : St -> Prop).
Context `{Inv_proper : !Proper ((≡ₚ) ==> (=) ==> iff) Inv}.

(** [safe p Φ t]: owning [t], the program keeps the invariant whatever the other threads do
    between its actions, never crashes, and ends with a result and tokens in [Φ].  [G] is
    what each action guarantees; [lim] bounds the states considered. *)
Fixpoint safe {A} (p : prog A) (Φ : A -> list Token -> Prop) (t : list Token) : Prop :=
  match p with
  | Ret a => Φ a t
  | Act f k => forall o s fr, Inv (t ++ fr) s ->
      G s (fst (f o s)) /\
      (lim (fst (f o s)) -> exists t', Inv (t' ++ fr) (fst (f o s)) /\ safe (k (snd (f o s))) Φ t')
  | Crash => False
  end.

Lemma safe_mono {A} (p : prog A) (Φ Ψ : A -> list Token -> Prop) t :
  (forall a t', Φ a t' -> Ψ a t') -> safe p Φ t -> safe p Ψ t.
Proof.
  intros H. revert t. induction p as [a|B f k IH|]; intros t; simpl; [auto| |done].
  intros Hs o s fr HI. destruct (Hs o s fr HI) as [HG Hs']. split; [done|].
  intros Hl. destruct (Hs' Hl) as (t' & HI' & Hs''). eauto.
Qed.

Lemma safe_bind {A B} (p : prog A) (k : A -> prog B) Φ t :
  safe p (fun a t' => safe (k a) Φ t') t -> safe (prog_bind p k) Φ t.
Proof.
  revert t. induction p as [a|C f k' IH|]; intros t; simpl; [auto| |done].
  intros Hs o s fr HI. destruct (Hs o s fr HI) as [HG Hs']. split; [done|].
  intros Hl. destruct (Hs' Hl) as (t' & HI' & Hs''). eauto.
Qed.

(** Tokens that a program does not need stay with its caller. *)
Lemma safe_frame {A} (p : prog A) Φ t fr :
  safe p Φ t -> safe p (fun a t' => exists t1, t' = t1 ++ fr /\ Φ a t1) (t ++ fr).
Proof using Inv_proper.
  revert t. induction p as [a|B f k IH|]; intros t; simpl; [eauto| |done].
  intros Hs o s fr' HI. rewrite <- app_assoc in HI. destruct (Hs o s _ HI) as [HG Hs']. split; [done|].
  intros Hl. destruct (Hs' Hl) as (t' & HI' & Hs''). exists (t' ++ fr). rewrite <- app_assoc. eauto.
Qed.

Lemma safe_atomic {B : Set} (f : Oracle -> St -> option (St * B)) Φ t :
  (forall o s fr, Inv (t ++ fr) s ->
     exists s' b, f o s = Some (s', b) /\ G s s' /\ (lim s' -> exists t', Inv (t' ++ fr) s' /\ Φ b t')) ->
  safe (atomic f) Φ t.
Proof.
  intros H o s fr HI. destruct (H o s fr HI) as (s' & b & -> & HG & H'). simpl. eauto.
Qed.

(** A program that needs and leaves no tokens. *)
Definition neutral {A} (p : prog A) : Prop := safe p (fun _ t => t = []) [].

Lemma neutral_bind {A B} (p : prog A) (k : A -> prog B) :
  neutral p -> (forall a, neutral (k a)) -> neutral (prog_bind p k).
Proof. intros Hp Hk. apply safe_bind. eapply safe_mono; [|exact Hp]. intros a t ->. apply Hk. Qed.

Lemma neutral_ret {A} (a : A) : neutral (Ret a).
Proof. reflexivity. Qed.

(** A neutral program in front of one that needs tokens. *)
Lemma safe_neutral_bind {A B} (p : prog A) (k : A -> prog B) Φ t :
  neutral p -> (forall a, safe (k a) Φ t) -> safe (prog_bind p k) Φ t.
Proof using Inv_proper.
  intros Hp Hk. apply safe_bind. eapply safe_mono; [|exact (safe_frame p _ [] t Hp)].
  intros a t' (t1 & -> & ->). apply Hk.
Qed.

(** The pool: every thread is safe with tokens of its own and leaves none behind. *)
Definition pool_ok (w : world) : Prop :=
  exists tss, Forall2 (fun p t => safe p (fun _ t' => t' = []) t) (w_threads w) tss /\ Inv (concat tss) (w_state w).

Definition env_ok (env : St -> St -> prog unit -> Prop) : Prop :=
  forall s s' p ts, env s s' p -> Inv ts s -> lim s' ->
    exists t, safe p (fun _ t' => t' = []) t /\ Inv (ts ++ t) s'.

Lemma tstep_safe p s ps s' t fr :
  tstep p s ps s' -> safe p (fun _ t' => t' = []) t -> Inv (t ++ fr) s ->
  (exists a, p = Ret a /\ s' = s) \/ (G s s' /\ (lim s' -> exists q t', ps = [q] /\ safe q (fun _ t' => t' = []) t' /\ Inv (t' ++ fr) s')).
Proof.
  intros [B f k o s0|a s0] Hs HI; [|by left; exists a].
  right. destruct (Hs o s0 fr HI) as [HG H]. split; [done|]. intros Hl.
  destruct (H Hl) as (t' & HI' & Hs'). exists (k (snd (f o s0))), t'. done.
Qed.

Theorem wstep_safe env w w' :
  env_ok env -> wstep env w w' -> lim (w_state w') -> pool_ok w -> pool_ok w'.
Proof using Inv_proper.
  intros Henv Hst Hl (tss & Hts & HI). destruct Hst as [l1 p l2 s ps s' Hst|l s s' p Hst]; simpl in *.
  - apply Forall2_app_inv_l in Hts as (ts1 & ts2' & H1 & H2 & ->).
    apply Forall2_cons_inv_l in H2 as (t & ts2 & Hp & H2 & ->).
    assert (Inv (t ++ concat ts1 ++ concat ts2) s) as HI'.
    { rewrite concat_app in HI. simpl in HI. eapply Inv_proper; [|reflexivity|exact HI]. by rewrite Permutation_app_swap_app. }
    destruct (tstep_safe _ _ _ _ _ _ Hst Hp HI') as [(a & -> & ->)|[_ H]].
    + inversion Hst; subst. simpl in Hp. subst t. exists (ts1 ++ ts2). split; [by apply Forall2_app|]. by rewrite concat_app.
    + destruct (H Hl) as (q & t' & -> & Hq & HIq). exists (ts1 ++ t' :: ts2). split; [by apply Forall2_app; [|constructor]|].
      rewrite concat_app. simpl. eapply Inv_proper; [|reflexivity|exact HIq]. by rewrite Permutation_app_swap_app.
  - destruct (Henv _ _ _ _ Hst HI Hl) as (t & Hp & HI'). exists (tss ++ [t]). split; [by apply Forall2_app; [|constructor]|].
    rewrite concat_app. simpl. by rewrite app_nil_r.
Qed.

(** No thread of a safe pool has crashed, and each of them can go on. *)
Lemma pool_no_crash w : pool_ok w -> Crash ∉ w_threads w.
Proof.
  intros (tss & Hts & _) Hin. apply list_elem_of_lookup in Hin as [i Hi].
  destruct (Forall2_lookup_l _ _ _ _ _ Hts Hi) as (t & _ & []).
Qed.

(** *** Termination *)

Section Drain.
Context (dead : St -> Prop) (flights : St -> nat) (io : St -> St -> prog unit -> Prop).
Context (G_dead : forall s s', G s s' -> dead s -> dead s' /\ flights s' = flights s).
Context (dead_lim : forall s, dead s -> lim s) (io_ok : env_ok io).
Context (io_dead : forall s s' p, io s s' p -> dead s -> dead s' /\ (flights s' < flights s)%nat).

(** A pool gets smaller when a thread goes on to one of its continuations or ends. *)
Definition continues (q p : prog unit) : Prop :=
  match p with Act f k => exists b, q = k b | _ => False end.

Inductive smaller : list (prog unit) -> list (prog unit) -> Prop :=
| smaller_act l1 l2 p q : continues q p -> smaller (l1 ++ q :: l2) (l1 ++ p :: l2)
| smaller_ret l1 l2 p : smaller (l1 ++ l2) (l1 ++ p :: l2).

Lemma smaller_cons_inv l' p l :
  smaller l' (p :: l) ->
  (exists l1, l' = p :: l1 /\ smaller l1 l) \/ (exists q, continues q p /\ l' = q :: l) \/ l' = l.
Proof.
  intros H. inversion H as [l1 l2 p1 q Hq E1 E2|l1 l2 a E1 E2]; destruct l1 as [|x l1]; simplify_eq/=.
  - right. left. eauto.
  - left. eexists. split; [done|]. by constructor.
  - by right; right.
  - left. eexists. split; [done|]. constructor.
Qed.

Lemma smaller_cons_acc p : forall l, Acc smaller l -> Acc smaller (p :: l).
Proof.
  induction p as [a|B f k IHp|]; intros l Hacc; pose proof Hacc as Hall; induction Hacc as [l _ IHl];
    constructor; intros l' [(l1 & -> & Hs)|[(q & Hq & ->)| ->]]%smaller_cons_inv;
    first [exact Hall|destruct Hq as [b ->]; exact (IHp b l Hall)|destruct Hq|exact (IHl l1 Hs (Acc_inv Hall Hs))].
Qed.

Lemma smaller_wf l : Acc smaller l.
Proof.
  induction l as [|p l IH]; [|by apply smaller_cons_acc].
  constructor. intros l' H. inversion H as [l1 l2 p q Hq E1 E2|l1 l2 p E1 E2]; by destruct l1.
Qed.

Lemma drain_step w w' : wstep io w w' -> dead (w_state w) -> pool_ok w ->
  dead (w_state w') /\ pool_ok w' /\
  ((flights (w_state w') < flights (w_state w))%nat \/
   (flights (w_state w') = flights (w_state w) /\ smaller (w_threads w') (w_threads w))).
Proof using All.
  intros Hst Hd Hok.
  assert (dead (w_state w') /\ ((flights (w_state w') < flights (w_state w))%nat \/
    (flights (w_state w') = flights (w_state w) /\ smaller (w_threads w') (w_threads w)))) as [Hd' Hm].
  { destruct Hst as [l1 p l2 s ps s' Ht|l s s' p He]; simpl in *.
    - destruct Hok as (tss & Hts & HI). simpl in *. apply Forall2_app_inv_l in Hts as (ts1 & ts2' & H1 & H2 & ->).
      apply Forall2_cons_inv_l in H2 as (t & ts2 & Hp & H2 & ->).
      destruct Ht as [B f k o s|a s]; [|split; [done|right; split; [done|constructor]]].
      destruct (Hp o s (concat ts1 ++ concat ts2)) as [HG _].
      { rewrite concat_app in HI. simpl in HI. eapply Inv_proper; [|reflexivity|exact HI]. by rewrite Permutation_app_swap_app. }
      destruct (G_dead _ _ HG Hd) as [? ?]. split; [done|]. right. split; [done|]. apply smaller_act. simpl. eauto.
    - destruct (io_dead _ _ _ He Hd). split; [done|by left]. }
  split_and!; [done| |done]. eapply wstep_safe; eauto.
Qed.

(** A dead world comes to rest, whatever the order in which its threads and completions run. *)
Theorem drain_acc w : dead (w_state w) -> pool_ok w -> Acc (fun w2 w1 => wstep io w1 w2) w.
Proof using All.
  remember (flights (w_state w)) as n eqn:Hn. revert w Hn.
  induction n as [n IHn] using lt_wf_ind. intros w Hn Hd Hok.
  remember (w_threads w) as l eqn:Hl. revert w Hn Hd Hok Hl.
  induction (smaller_wf l) as [l _ IHl]. intros w Hn Hd Hok Hl.
  constructor. intros w' Hst. destruct (drain_step w w' Hst Hd Hok) as (Hd' & Hok' & [Hlt|[Heq Hs]]).
  - eapply IHn; [|reflexivity|done|done]. lia.
  - eapply IHl; [|by rewrite Heq|done|done|reflexivity]. by subst l.
Qed.

(** At rest all threads have returned. *)
Lemma rest_no_threads w : pool_ok w -> (forall w', ~ wstep io w w') -> w_threads w = [].
Proof.
  destruct w as [s [|p l]]; [done|]. intros Hok Hrest. exfalso. destruct p as [a|B f k|].
  - apply (Hrest (mkWorld s ([] ++ [] ++ l))). apply (wstep_thread io [] (Ret a) l s [] s). constructor.
  - apply (Hrest (mkWorld (fst (f (fun _ => 0) s)) ([] ++ [k (snd (f (fun _ => 0) s))] ++ l))).
    apply (wstep_thread io [] (Act f k) l s). constructor.
  - apply (pool_no_crash _ Hok). simpl. constructor.
Qed.
End Drain.
End Safety.
End Programs.

Arguments prog St A : clear implicits.
Arguments Ret {St A} a.
Arguments Act {St A B} f k.
Arguments Crash {St A}.
Arguments world St : clear implicits.
Arguments mkWorld {St} _ _.

(** The notation of stdpp for monads. *)
#[export] Instance prog_mret {St} : MRet (prog St) := fun A a => Ret a.
#[export] Instance prog_mbind {St} : MBind (prog St) := fun A B k p => prog_bind p k.

(** ** Executions

    Runs that can be evaluated: [Spawn e] lets the environment do [e], [Advance i n o] lets
    thread [i] perform up to [n] actions, with the answers [o]; a thread that has returned is
    removed.  A run that evaluates to a world shows that the world is reachable. *)

Section Executions.
Context {St E : Type} (env : St -> St -> prog St unit -> Prop) (lim : St -> Prop).
Context (limb : St -> bool) (limb_sound : forall s, limb s = true -> lim s).
Context (spawn : E -> St -> option (St * prog St unit)).
Context (spawn_sound : forall e s s' p, spawn e s = Some (s', p) -> env s s' p).

Inductive Sched := Spawn (e : E) | Advance (i n : nat) (o : Oracle).

Definition lim_step (w w' : world St) : Prop := wstep env w w' /\ lim (w_state w').

Fixpoint advance (n : nat) (o : Oracle) (p : prog St unit) (s : St) : option (St * prog St unit) :=
  match p, n with
  | Crash, _ => None
  | Act f k, S n' => let r := f o s in if limb (fst r) then advance n' o (k (snd r)) (fst r) else None
  | _, _ => Some (s, p)
  end.

Definition wexec (sc : Sched) (w : world St) : option (world St) :=
  match sc with
  | Spawn e =>
      '(s', p) ← spawn e (w_state w);
      if limb s' then Some (mkWorld s' (w_threads w ++ [p])) else None
  | Advance i n o =>
      p ← w_threads w !! i;
      '(s', p') ← advance n o p (w_state w);
      Some (mkWorld s' (take i (w_threads w) ++ match p' with Ret _ => [] | _ => [p'] end ++ drop (S i) (w_threads w)))
  end.

Fixpoint wexec_all (scs : list Sched) (w : world St) : option (world St) :=
  match scs with
  | [] => Some w
  | sc :: rest => w' ← wexec sc w; wexec_all rest w'
  end.

Lemma advance_steps n o l1 l2 : forall p s s' p',
  lim s -> advance n o p s = Some (s', p') ->
  rtc lim_step (mkWorld s (l1 ++ p :: l2)) (mkWorld s' (l1 ++ p' :: l2)) /\ lim s'.
Proof using limb_sound.
  induction n as [|n IH]; intros p s s' p' Hl H; destruct p as [a|B f k|]; cbn in H; simplify_eq; try by split; [apply rtc_refl|].
  destruct (limb (fst (f o s))) eqn:El; [|done]. apply limb_sound in El.
  destruct (IH _ _ _ _ El H) as [Hr Hl']. split; [|done]. eapply rtc_l; [|exact Hr]. split; [|exact El].
  apply (wstep_thread env l1 (Act f k) l2 s [k (snd (f o s))] (fst (f o s))). constructor.
Qed.

Lemma wexec_steps sc w w' : lim (w_state w) -> wexec sc w = Some w' -> rtc lim_step w w' /\ lim (w_state w').
Proof using limb_sound spawn_sound.
  destruct w as [s l]. intros Hl. destruct sc as [e|i n o]; cbn [wexec w_state w_threads] in *.
  - destruct (spawn e s) as [[s1 p]|] eqn:Es; [|done]. cbn. destruct (limb s1) eqn:El; [|done]. intros [= <-]. apply limb_sound in El.
    split; [|done]. apply rtc_once. split; [|done]. by apply wstep_env, (spawn_sound e).
  - destruct (l !! i) as [p|] eqn:Ep; [|done]. cbn. destruct (advance n o p s) as [[s1 p1]|] eqn:Ea; [|done]. cbn. intros [= <-].
    rewrite <- (take_drop_middle l i p Ep) at 1.
    destruct (advance_steps n o (take i l) (drop (S i) l) p s s1 p1 Hl Ea) as [Hr Hl1]. split; [|done].
    etrans; [exact Hr|]. destruct p1 as [a| |]; [|apply rtc_refl..].
    apply rtc_once. split; [|done]. apply (wstep_thread env (take i l) (Ret a) (drop (S i) l) s1 [] s1). constructor.
Qed.

Lemma wexec_all_steps scs : forall w w',
  lim (w_state w) -> wexec_all scs w = Some w' -> rtc lim_step w w' /\ lim (w_state w').
Proof using limb_sound spawn_sound.
  induction scs as [|sc scs IH]; intros w w' Hl H; cbn in H; [simplify_eq; by split; [apply rtc_refl|]|].
  destruct (wexec sc w) as [w1|] eqn:E1; [|done]. cbn in H. destruct (wexec_steps sc w w1 Hl E1) as [Hr1 Hl1].
  destruct (IH w1 w' Hl1 H) as [Hr Hl']. split; [|done]. by etrans.
Qed.

(** The world a schedule leads to; [w] when it cannot be followed. *)
Definition wrun (scs : list Sched) (w : world St) : world St := default w (wexec_all scs w).

Lemma wrun_steps scs w : lim (w_state w) -> rtc lim_step w (wrun scs w) /\ lim (w_state (wrun scs w)).
Proof using limb_sound spawn_sound.
  intros Hl. unfold wrun. destruct (wexec_all scs w) as [w'|] eqn:Ew; cbn; [by eapply wexec_all_steps|by split; [apply rtc_refl|]].
Qed.
End Executions.
Arguments Sched : clear implicits.
Arguments Spawn {E} e.
Arguments Advance {E} i n o.
