(* ===== verification/Listener.v ===== *)
(** * The listener: accept slots, retries and shutdown

    [Listener] (ServerCore/NetWork/Listener.{h,cpp}) keeps [ACCEPT_COUNT] overlapped accepts
    going.  Each has its own [AcceptEvent], here its index in [_accept_events].  A worker that
    takes the completion of an event hands the new session to the session manager and gives
    the event back to [AcceptEx]; when that fails for a passing reason the event waits in the
    job timer and is tried again from [_accept_retry_queue].

    The critical sections under [WRITE_LOCK] are the atomic actions of [Interleaving], so that
    workers, the timer, the start-up and [close_socket] interleave at every other point.  The
    answers of Winsock, [Service::create_session] and [GetTickCount64] come from the oracle.
    What [SessionManager::on_connected] does with a session is the operation [accept_session]
    of [Handlers]; here the session is recorded.

    Proved: an event is in exactly one place at any time (in flight, with one thread, in the
    timer, in the retry queue, or given up for a reason), so that none is lost and none is
    submitted twice; [_pending_io] is exact; and after [close_socket] everything ends, which is
    what [ServerService::close_service] waits for. *)

From stdpp Require Import base list numbers option relations.
From Stdlib Require Import ZArith Lia.
From S2P Require Import Prelude Interleaving JobTimers.

(** ** Data *)

Definition ACCEPT_RETRY_INTERVAL_MS : Z := 100.
Definition ACCEPT_COUNT : nat := 32.

(** [_owner] is the listener or null. *)
Record AcceptEvent := mkAcceptEvent { ae_session : option nat; ae_owner : bool }.

Definition AcceptEvent_new : AcceptEvent := mkAcceptEvent None false.

(** The members of the listener, then the timer and the queue it uses, then what happens
    around it: the accepts in flight, the workers in [dispatch], the sessions created and
    handed on, and the events that are no longer used, because the listener was closed or
    because of an error that is not retried. *)
Record Listener := mkListener {
  ls_accept_stopped : bool;
  ls_socket : Z;
  ls_accept_events : list AcceptEvent;
  ls_pending_io : Z;
  ls_timer : JobTimer nat;
  ls_accept_retry_queue : list nat;
  ls_started : bool;
  ls_listening : bool;
  ls_flying : list nat;
  ls_busy : Z;
  ls_sessions : nat;
  ls_accepted : list nat;
  ls_retired : list nat;
  ls_failed : list nat
}.

#[export] Instance Listener_settable : Settable Listener :=
  fun s => mkListener (ls_accept_stopped s) (ls_socket s) (ls_accept_events s) (ls_pending_io s)
    (ls_timer s) (ls_accept_retry_queue s) (ls_started s) (ls_listening s) (ls_flying s) (ls_busy s)
    (ls_sessions s) (ls_accepted s) (ls_retired s) (ls_failed s).

Definition Listener_new : Listener :=
  mkListener false INVALID_SOCKET [] 0 (mkJobTimer [] false) [] false false [] 0 0 [] [] [].

Abbreviation aprog := (prog Listener).

(** ** Operations *)

Definition set_event (acceptEvent : nat) (e : AcceptEvent) (s : Listener) : Listener :=
  s <| ls_accept_events ::= <[acceptEvent := e]> |>.

(** [IocpObject::finish_io] of the listener. *)
Definition listener_finish_io (s : Listener) : option Listener :=
  if ls_pending_io s >? 0 then Some (s <| ls_pending_io ::= fun n => u32 (n - 1) |>) else None.

Definition reserve_accept_retry (tick_count : Z) (acceptEvent : nat) (s : Listener) : Listener :=
  s <| ls_timer ::= JobTimer_reserve tick_count ACCEPT_RETRY_INTERVAL_MS 0 acceptEvent |>.

(** [WSAENOBUFS], [WSAEMFILE], [WSAECONNRESET], [WSAECONNABORTED]. *)
Definition accept_error_passes (errorCode : Z) : bool := existsb (Z.eqb errorCode) [10055; 10024; 10054; 10053].

(** The answers: [o 0] is 0 when no session could be created, [o 1] the result of [AcceptEx],
    [o 2] the error, [o 3] the time. *)
Definition register_accept_cs (acceptEvent : nat) (o : Oracle) (s : Listener) : option (Listener * unit) :=
  if ls_accept_stopped s || (ls_socket s =? INVALID_SOCKET) then
    Some (s <| ls_retired ::= cons acceptEvent |>, tt)
  else if o 0%nat =? 0 then
    Some (reserve_accept_retry (o 3%nat) acceptEvent (set_event acceptEvent AcceptEvent_new s), tt)
  else
    let session := ls_sessions s in
    let s1 := set_event acceptEvent (mkAcceptEvent (Some session) true) (s <| ls_sessions ::= S |>)
                <| ls_pending_io ::= fun n => u32 (n + 1) |> in
    if negb (o 1%nat =? 0) then Some (s1 <| ls_flying ::= cons acceptEvent |>, tt)
    else if o 2%nat =? WSA_IO_PENDING then Some (s1 <| ls_flying ::= cons acceptEvent |>, tt)
    else
      s2 ← listener_finish_io (set_event acceptEvent AcceptEvent_new s1);
      if accept_error_passes (o 2%nat) then Some (reserve_accept_retry (o 3%nat) acceptEvent s2, tt)
      else Some (s2 <| ls_failed ::= cons acceptEvent |>, tt).

Definition register_accept (acceptEvent : nat) : aprog unit := atomic (register_accept_cs acceptEvent).

(** The critical section of [process_accept]; the result is the session to hand on.  [o 0] and
    [o 1] are the results of [set_update_accept_socket] and [getpeername]. *)
Definition process_accept_cs (acceptEvent : nat) (o : Oracle) (s : Listener) : option (Listener * option nat) :=
  e ← ls_accept_events s !! acceptEvent;
  let s := set_event acceptEvent AcceptEvent_new s in
  match ae_session e with
  | None => Some (s <| ls_retired ::= cons acceptEvent |>, None)
  | Some session =>
      if ls_accept_stopped s || (ls_socket s =? INVALID_SOCKET) then
        Some (s <| ls_retired ::= cons acceptEvent |>, None)
      else if o 0%nat =? 0 then Some (reserve_accept_retry (o 3%nat) acceptEvent s, None)
      else if o 1%nat =? -1 then Some (reserve_accept_retry (o 3%nat) acceptEvent s, None)
      else Some (s, Some session)
  end.

(** [on_connected], or [reject_connection] when the server is full. *)
Definition hand_on (session : nat) : aprog unit :=
  atomic (fun _ s => Some (s <| ls_accepted ::= cons session |>, tt)).

Definition process_accept (acceptEvent : nat) : aprog unit :=
  session ← atomic (process_accept_cs acceptEvent);
  match session with
  | None => mret ()
  | Some session => hand_on session ≫= fun _ => register_accept acceptEvent
  end.

Definition leave (s : Listener) : Listener := s <| ls_busy ::= fun n => n - 1 |>.

(** A completion of an accept in [IocpCore::dispatch]: the owner is read, [Listener::dispatch]
    processes the event, and [finish_io] is called last. *)
Definition dispatch_accept (acceptEvent : nat) : aprog unit :=
  owner ← atomic (fun _ s => e ← ls_accept_events s !! acceptEvent; Some (s, ae_owner e));
  if negb owner then atomic (fun _ s => Some (leave s, tt))
  else process_accept acceptEvent ≫= fun _ =>
       atomic (fun _ s => s ← listener_finish_io s; Some (leave s, tt)).

Definition close_socket_cs (s : Listener) : Listener :=
  if ls_accept_stopped s then s else s <| ls_accept_stopped := true |> <| ls_socket := INVALID_SOCKET |>.

Definition close_socket : aprog unit := atomic (fun _ s => Some (close_socket_cs s, tt)).

(** [start_accept] up to its loop: the socket, its registration with the port and its options,
    [bind] and [listen]; 0 is a failed call. *)
Definition start_accept_setup (o : Oracle) (s : Listener) : Listener * bool :=
  let s := s <| ls_socket := o 0%nat |> in
  if o 0%nat =? INVALID_SOCKET then (s, false)
  else if o 1%nat =? 0 then (s, false)
  else if o 2%nat =? 0 then (s, false)
  else if o 3%nat =? 0 then (s, false)
  else if o 4%nat =? 0 then (s, false)
  else if o 5%nat =? 0 then (s, false)
  else (s <| ls_listening := true |>, true).

Definition new_accept_event : aprog nat :=
  atomic (fun _ s => Some (s <| ls_accept_events ::= fun l => l ++ [AcceptEvent_new] |>, length (ls_accept_events s))).

Fixpoint accept_loop (n : nat) : aprog unit :=
  match n with
  | O => mret ()
  | S n' => new_accept_event ≫= fun acceptEvent => register_accept acceptEvent ≫= fun _ => accept_loop n'
  end.

Definition start_accept : aprog bool :=
  ok ← atomic (fun o s => Some (start_accept_setup o s));
  if negb ok then mret false else accept_loop ACCEPT_COUNT ≫= fun _ => mret true.

(** [ServerService::start]. *)
Definition ServerService_start : aprog unit :=
  ok ← start_accept; if negb ok then close_socket else mret ().

(** ** Runs *)

(** The threads that end by themselves: a worker that takes a completion, and a retry. *)
Inductive accept_io : Listener -> Listener -> aprog unit -> Prop :=
| accept_completes s acceptEvent l1 l2 :
    ls_flying s = l1 ++ acceptEvent :: l2 -> ls_busy s < THREAD_MAX ->
    accept_io s (s <| ls_flying := l1 ++ l2 |> <| ls_busy ::= fun n => n + 1 |>) (dispatch_accept acceptEvent)
| accept_retries s acceptEvent rest :
    ls_accept_retry_queue s = acceptEvent :: rest ->
    accept_io s (s <| ls_accept_retry_queue := rest |>) (register_accept acceptEvent).

Inductive accept_env : Listener -> Listener -> aprog unit -> Prop :=
| accept_env_io s s' p : accept_io s s' p -> accept_env s s' p
| accept_starts s : ls_started s = false -> accept_env s (s <| ls_started := true |>) ServerService_start
| accept_distributes s now jobs timer :
    JobTimer_distribute now (fun _ => true) (ls_timer s) = (jobs, timer) ->
    accept_env s (s <| ls_timer := timer |> <| ls_accept_retry_queue ::= fun l => l ++ (snd <$> jobs) |>) (mret ())
| accept_closes s : ls_started s = true -> accept_env s s close_socket.

Definition listener_start : world Listener := mkWorld Listener_new [].
Definition areachable (w : world Listener) : Prop := rtc (wstep accept_env) listener_start w.

(** ** Ownership *)

(** What a thread may hold: an event that is in no other place, an event whose completion it
    has taken, a session it is about to hand on, a place in [dispatch], the start-up with the
    events still to be made. *)
Inductive AcceptToken :=
| THeld (acceptEvent : nat) | TComplete (acceptEvent : nat) | TGot (session : nat) | TWork
| TOpening (ready : bool) (todo : nat).

Definition held : list AcceptToken -> list nat := omap (fun k => match k with THeld n => Some n | _ => None end).
Definition completes : list AcceptToken -> list nat := omap (fun k => match k with TComplete n => Some n | _ => None end).
Definition gots : list AcceptToken -> list nat := omap (fun k => match k with TGot n => Some n | _ => None end).
Definition works : list AcceptToken -> list unit := omap (fun k => match k with TWork => Some tt | _ => None end).
Definition openings : list AcceptToken -> list (bool * nat) :=
  omap (fun k => match k with TOpening ready todo => Some (ready, todo) | _ => None end).

Definition retries (s : Listener) : list nat := ti_job <$> jt_items (ls_timer s).

(** All the places an event can be in. *)
Definition places (t : list AcceptToken) (s : Listener) : list nat :=
  held t ++ completes t ++ ls_flying s ++ retries s ++ ls_accept_retry_queue s ++ ls_retired s ++ ls_failed s.

(** The sessions that are with an event, with a thread or handed on. *)
Definition known_sessions (t : list AcceptToken) (s : Listener) : list nat :=
  omap ae_session (ls_accept_events s) ++ gots t ++ ls_accepted s.

Record AcceptInv (t : list AcceptToken) (s : Listener) : Prop := {
  ai_places : places t s ≡ₚ seq 0 (length (ls_accept_events s));
  ai_busy_events n : n ∈ completes t ++ ls_flying s ->
    exists session, ls_accept_events s !! n = Some (mkAcceptEvent (Some session) true);
  ai_idle_events n e : ls_accept_events s !! n = Some e -> n ∉ completes t ++ ls_flying s -> e = AcceptEvent_new;
  ai_sessions : NoDup (known_sessions t s) /\ Forall (fun n => (n < ls_sessions s)%nat) (known_sessions t s);
  ai_pending : ls_pending_io s = zlen (ls_flying s) + zlen (works t);
  ai_busy : ls_busy s = zlen (works t) /\ ls_busy s <= THREAD_MAX;
  ai_open : ls_accept_stopped s = false -> ls_retired s = [];
  ai_timer : jt_distributing (ls_timer s) = false;
  ai_one : zlen (openings t) <= 1;
  ai_fresh : ls_started s = false -> openings t = [] /\ ls_listening s = false;
  ai_opening : Forall (fun k => ls_listening s = fst k /\
                                (if fst k then (length (ls_accept_events s) + snd k = ACCEPT_COUNT)%nat else snd k = ACCEPT_COUNT)) (openings t);
  ai_all : openings t = [] -> ls_listening s = true -> length (ls_accept_events s) = ACCEPT_COUNT;
  ai_none : ls_listening s = false -> ls_accept_events s = [];
  ai_socket : ls_accept_stopped s = false -> ls_listening s = true -> ls_socket s <> INVALID_SOCKET
}.

(** What every action guarantees: a closed listener stays closed and submits nothing. *)
Definition AcceptG (s s' : Listener) : Prop :=
  ls_accept_stopped s = true ->
  ls_accept_stopped s' = true /\ ls_flying s' = ls_flying s /\ ls_accept_retry_queue s' = ls_accept_retry_queue s.

Abbreviation asafe := (safe AcceptInv AcceptG (fun _ => True)).
Abbreviation aneutral := (neutral AcceptInv AcceptG (fun _ => True)).

#[global] Instance held_proper : Proper ((≡ₚ) ==> (≡ₚ)) held := omap_Permutation _.
#[global] Instance completes_proper : Proper ((≡ₚ) ==> (≡ₚ)) completes := omap_Permutation _.
#[global] Instance gots_proper : Proper ((≡ₚ) ==> (≡ₚ)) gots := omap_Permutation _.
#[global] Instance works_proper : Proper ((≡ₚ) ==> (≡ₚ)) works := omap_Permutation _.
#[global] Instance openings_proper : Proper ((≡ₚ) ==> (≡ₚ)) openings := omap_Permutation _.

Lemma AcceptInv_weak t t' s : t ≡ₚ t' -> AcceptInv t s -> AcceptInv t' s.
Proof.
  intros H []. assert (openings t' = [] -> openings t = []) as Ho.
  { intros E. apply Permutation_nil_r. rewrite <- E. by rewrite H. }
  constructor; try done.
  - unfold places. rewrite <- H. done.
  - intros n. rewrite <- H. apply ai_busy_events0.
  - intros n e. rewrite <- H. apply ai_idle_events0.
  - unfold known_sessions. by rewrite <- H.
  - by rewrite <- H.
  - by rewrite <- H.
  - by rewrite <- H.
  - intros E. destruct (ai_fresh0 E) as [E1 ?]. split; [|done]. apply Permutation_nil_r. rewrite <- E1. by rewrite H.
  - by rewrite <- H.
  - intros E. by apply ai_all0, Ho.
Qed.

#[global] Instance AcceptInv_proper : Proper ((≡ₚ) ==> (=) ==> iff) AcceptInv.
Proof. intros t t' H s s' <-. split; apply AcceptInv_weak; [done|by symmetry]. Qed.

Lemma held_cons k t : held (k :: t) = match k with THeld n => n :: held t | _ => held t end.
Proof. by destruct k. Qed.
Lemma completes_cons k t : completes (k :: t) = match k with TComplete n => n :: completes t | _ => completes t end.
Proof. by destruct k. Qed.
Lemma gots_cons k t : gots (k :: t) = match k with TGot n => n :: gots t | _ => gots t end.
Proof. by destruct k. Qed.
Lemma works_cons k t : works (k :: t) = match k with TWork => tt :: works t | _ => works t end.
Proof. by destruct k. Qed.
Lemma openings_cons k t :
  openings (k :: t) = match k with TOpening ready todo => (ready, todo) :: openings t | _ => openings t end.
Proof. by destruct k. Qed.

Create HintDb accept.
#[local] Hint Rewrite held_cons completes_cons gots_cons works_cons openings_cons @zlen_cons : accept.

(** Computes the members of an updated listener. *)
Tactic Notation "listener" "in" "*" :=
  cbn [upd Listener_settable set_event leave reserve_accept_retry JobTimer_reserve jt_items jt_distributing
       ls_accept_stopped ls_socket ls_accept_events ls_pending_io ls_timer ls_accept_retry_queue ls_started
       ls_listening ls_flying ls_busy ls_sessions ls_accepted ls_retired ls_failed app fst snd] in *.
Tactic Notation "listener" :=
  cbn [upd Listener_settable set_event leave reserve_accept_retry JobTimer_reserve jt_items jt_distributing
       ls_accept_stopped ls_socket ls_accept_events ls_pending_io ls_timer ls_accept_retry_queue ls_started
       ls_listening ls_flying ls_busy ls_sessions ls_accepted ls_retired ls_failed app fst snd].

Ltac open_accept s HI :=
  destruct s as [stopped sock evs pio tm q started listening fl busy ns accepted retired failed];
  destruct HI as [Hpl Hbe Hie Hses Hpend Hbusy Hopen Htm Hone Hfresh Hop Hall Hnone Hsock];
  unfold places, known_sessions, retries in *; listener in *; autorewrite with accept in *.

Ltac build_accept :=
  constructor; unfold places, known_sessions, retries; listener; autorewrite with accept; listener; try done.

(** *** The events *)

Lemma events_split {A} (l : list AcceptEvent) n e (f : AcceptEvent -> option A) :
  l !! n = Some e ->
  exists r, omap f l ≡ₚ option_list (f e) ++ r /\ forall e', omap f (<[n := e']> l) ≡ₚ option_list (f e') ++ r.
Proof.
  intros H. exists (omap f (take n l) ++ omap f (drop (S n) l)). split.
  - rewrite <- (take_drop_middle l n e H) at 1. rewrite omap_app. cbn. destruct (f e); cbn; solve_Permutation.
  - intros e'. rewrite insert_take_drop by by eapply lookup_lt_Some. rewrite omap_app. cbn.
    destruct (f e'); cbn; solve_Permutation.
Qed.

Lemma place_nodup t s : AcceptInv t s -> NoDup (places t s).
Proof. intros HI. rewrite (ai_places _ _ HI). apply NoDup_seq. Qed.

Lemma place_lt t s n : AcceptInv t s -> n ∈ places t s -> (n < length (ls_accept_events s))%nat.
Proof. intros HI. rewrite (ai_places _ _ HI), elem_of_seq. lia. Qed.

Lemma events_le t s : AcceptInv t s -> (length (ls_accept_events s) <= ACCEPT_COUNT)%nat.
Proof.
  intros HI. destruct (ls_listening s) eqn:El; [|rewrite (ai_none _ _ HI El); unfold ACCEPT_COUNT; cbn; lia].
  destruct (openings t) as [|[r k] l] eqn:Eo; [by rewrite (ai_all _ _ HI Eo El)|].
  pose proof (ai_opening _ _ HI) as Hop. rewrite Eo, El in Hop. apply Forall_cons_1 in Hop as [[Er Hk] _].
  cbn in Er, Hk. rewrite <- Er in Hk. lia.
Qed.

Lemma flying_le t s : AcceptInv t s -> zlen (ls_flying s) <= 32.
Proof.
  intros HI. pose proof (events_le t s HI) as He. pose proof (Permutation_length (ai_places _ _ HI)) as Hl.
  rewrite length_seq in Hl. unfold places in Hl. rewrite !length_app in Hl. unfold zlen, ACCEPT_COUNT in *. lia.
Qed.

(** An event that a thread holds is idle, and there is one only while the listener listens. *)
Lemma held_idle t s n :
  AcceptInv (THeld n :: t) s ->
  ls_accept_events s !! n = Some AcceptEvent_new /\ n ∉ completes t ++ ls_flying s /\ ls_listening s = true.
Proof.
  intros HI. pose proof (place_nodup _ _ HI) as Hn.
  assert (n ∈ places (THeld n :: t) s) as Hp by (unfold places; rewrite held_cons; set_solver).
  destruct (lookup_lt_is_Some_2 _ _ (place_lt _ _ _ HI Hp)) as [e He].
  assert (n ∉ completes t ++ ls_flying s) as Hni.
  { unfold places in Hn. rewrite held_cons, completes_cons in Hn. cbn [app] in Hn. apply NoDup_cons_1_1 in Hn. set_solver. }
  split_and!; [|done|].
  - rewrite He. f_equal. eapply (ai_idle_events _ _ HI); [done|]. by rewrite completes_cons.
  - destruct (ls_listening s) eqn:El; [done|]. by rewrite (ai_none _ _ HI El) in He.
Qed.

Lemma complete_event t s n :
  AcceptInv (TComplete n :: t) s ->
  (exists session, ls_accept_events s !! n = Some (mkAcceptEvent (Some session) true)) /\
  n ∉ completes t ++ ls_flying s /\ ls_listening s = true.
Proof.
  intros HI. pose proof (place_nodup _ _ HI) as Hn.
  destruct (ai_busy_events _ _ HI n) as [session He]; [rewrite completes_cons; set_solver|]. split_and!; [by exists session| |].
  - unfold places in Hn. rewrite held_cons, completes_cons in Hn. apply NoDup_app in Hn as (_ & _ & Hn).
    cbn [app] in Hn. apply NoDup_cons_1_1 in Hn. set_solver.
  - destruct (ls_listening s) eqn:El; [done|]. by rewrite (ai_none _ _ HI El) in He.
Qed.

(** *** Moves of an event *)

Ltac perm H := etrans; [|exact H]; rewrite ?fmap_app; cbn [fmap list_fmap ti_job]; solve_Permutation.

Lemma inv_retire n t s :
  AcceptInv (THeld n :: t) s -> ls_accept_stopped s = true -> AcceptInv t (s <| ls_retired ::= cons n |>).
Proof. intros HI Hs. open_accept s HI. subst stopped. build_accept. perm Hpl. Qed.

Lemma inv_reserve tick n t s : AcceptInv (THeld n :: t) s -> AcceptInv t (reserve_accept_retry tick n s).
Proof. intros HI. open_accept s HI. build_accept. perm Hpl. Qed.

Lemma inv_fail n t s : AcceptInv (THeld n :: t) s -> AcceptInv t (s <| ls_failed ::= cons n |>).
Proof. intros HI. open_accept s HI. build_accept. perm Hpl. Qed.

(** A session that was created and not used. *)
Lemma inv_unused t s : AcceptInv t s -> AcceptInv t (s <| ls_sessions ::= S |>).
Proof.
  intros HI. open_accept s HI. build_accept. destruct Hses as [? Hlt]. split; [done|].
  eapply Forall_impl; [exact Hlt|]. cbn. lia.
Qed.

Lemma inv_forget n t s : AcceptInv (TGot n :: t) s -> AcceptInv t s.
Proof.
  intros HI. open_accept s HI. build_accept. destruct Hses as [Hnd Hlt].
  assert (omap ae_session evs ++ (n :: gots t) ++ accepted ≡ₚ n :: omap ae_session evs ++ gots t ++ accepted) as E
    by solve_Permutation.
  listener in *. rewrite E in Hnd, Hlt. apply NoDup_cons_1_2 in Hnd. by apply Forall_cons_1 in Hlt as [_ Hlt].
Qed.

Lemma inv_fly n t s :
  AcceptInv (THeld n :: t) s ->
  AcceptInv t (set_event n (mkAcceptEvent (Some (ls_sessions s)) true) (s <| ls_sessions ::= S |>)
                 <| ls_pending_io ::= fun k => u32 (k + 1) |> <| ls_flying ::= cons n |>).
Proof.
  intros HI. destruct (held_idle t s n HI) as (He & Hni & Hl). pose proof (flying_le _ _ HI) as Hfl.
  open_accept s HI. destruct (events_split evs n _ ae_session He) as (r & Er & Er'). destruct Hses as [Hnd Hlt].
  pose proof (zlen_nonneg fl). pose proof (zlen_nonneg (works t)). unfold THREAD_MAX in *.
  build_accept; rewrite ?length_insert; try done.
  - perm Hpl.
  - intros m Hm. destruct (decide (m = n)) as [->|Hne].
    + eexists. apply list_lookup_insert_eq. by eapply lookup_lt_Some.
    + rewrite list_lookup_insert_ne by done. apply Hbe. set_solver.
  - intros m e Hm Hnm. assert (m <> n) as Hne by set_solver. rewrite list_lookup_insert_ne in Hm by done.
    eapply Hie; [done|]. set_solver.
  - rewrite Er' in *. rewrite Er in Hnd, Hlt. cbn [option_list ae_session AcceptEvent_new app] in *. split.
    + constructor; [|done]. intros Hin. rewrite Forall_forall in Hlt. specialize (Hlt _ Hin). cbn in Hlt. lia.
    + constructor; [lia|]. eapply Forall_impl; [exact Hlt|]. cbn. lia.
  - rewrite u32_small; lia.
  - intros E. by rewrite Hnone in He.
Qed.

(** A completion: the event is idle again, and the thread holds it and the session. *)
Lemma inv_take n session t s :
  AcceptInv (TComplete n :: t) s -> ls_accept_events s !! n = Some (mkAcceptEvent (Some session) true) ->
  AcceptInv (TGot session :: THeld n :: t) (set_event n AcceptEvent_new s).
Proof.
  intros HI He. destruct (complete_event t s n HI) as (_ & Hni & Hl).
  open_accept s HI. destruct (events_split evs n _ ae_session He) as (r & Er & Er'). destruct Hses as [Hnd Hlt].
  build_accept; rewrite ?length_insert; try done.
  - perm Hpl.
  - intros m Hm. rewrite list_lookup_insert_ne by set_solver. apply Hbe. set_solver.
  - intros m e Hm Hnm. destruct (decide (m = n)) as [->|Hne].
    + rewrite list_lookup_insert_eq in Hm by by eapply lookup_lt_Some. by injection Hm.
    + rewrite list_lookup_insert_ne in Hm by done. eapply Hie; [done|]. set_solver.
  - rewrite Er'. rewrite Er in Hnd, Hlt. cbn [option_list ae_session AcceptEvent_new app] in *.
    assert (r ++ session :: gots t ++ accepted ≡ₚ session :: r ++ gots t ++ accepted) as E by solve_Permutation.
    rewrite E. done.
  - intros E. by rewrite Hnone in He.
Qed.

(** *** The actions *)

Lemma register_accept_safe n : asafe (register_accept n) (fun _ t => t = []) [THeld n].
Proof.
  apply safe_atomic. intros o s t HI. cbn [app] in HI. destruct (held_idle t s n HI) as (He & _ & Hl).
  unfold register_accept_cs. assert (set_event n AcceptEvent_new s = s) as Eset.
  { destruct s. unfold set_event. listener in *. by rewrite list_insert_id. }
  destruct (ls_accept_stopped s) eqn:Es; cbn [orb].
  { eexists _, _. split; [done|]. split; [by intros _; destruct s|]. intros _. exists []. split; [by apply inv_retire|done]. }
  pose proof (ai_socket _ _ HI Es Hl) as Hs. rewrite (proj2 (Z.eqb_neq _ _) Hs). rewrite Eset.
  destruct (o 0%nat =? 0).
  { eexists _, _. split; [done|]. split; [intros E; congruence|]. intros _. exists []. split; [by apply inv_reserve|done]. }
  cbv zeta.
  assert (exists s2, listener_finish_io (set_event n AcceptEvent_new
      (set_event n (mkAcceptEvent (Some (ls_sessions s)) true) (s <| ls_sessions ::= S |>) <| ls_pending_io ::= fun k => u32 (k + 1) |>))
      = Some s2 /\ s2 = s <| ls_sessions ::= S |>) as (s2 & Hf & ->).
  { pose proof (flying_le _ _ HI). destruct (ai_busy _ _ HI). pose proof (ai_pending _ _ HI) as Hp.
    pose proof (zlen_nonneg (ls_flying s)). pose proof (zlen_nonneg (works (THeld n :: t))). unfold THREAD_MAX in *.
    destruct s. unfold set_event, listener_finish_io in *. listener in *.
    rewrite list_insert_insert_eq, list_insert_id by done. rewrite (u32_small (_ + 1)) by lia.
    rewrite Z_gtb_true by lia. rewrite Z.add_simpl_r, u32_small by lia. eauto. }
  destruct (negb (o 1%nat =? 0)); [|destruct (o 2%nat =? WSA_IO_PENDING)].
  1,2: eexists _, _; split; [done|]; split; [intros E; congruence|]; intros _; exists []; split; [by apply inv_fly|done].
  rewrite Hf. cbn [mbind option_bind]. assert (AcceptInv (THeld n :: t) (s <| ls_sessions ::= S |>)) as HI2 by by apply inv_unused.
  destruct (accept_error_passes _); eexists _, _; (split; [done|]); (split; [intros E; congruence|]); intros _; exists [];
    (split; [|done]); [by apply inv_reserve|by apply inv_fail].
Qed.

Lemma process_accept_cs_safe n :
  asafe (atomic (process_accept_cs n))
    (fun r t => t = match r with Some session => [TGot session; THeld n] | None => [] end) [TComplete n].
Proof.
  apply safe_atomic. intros o s t HI. cbn [app] in HI. destruct (complete_event t s n HI) as ((session & He) & _ & Hl).
  unfold process_accept_cs. rewrite He. cbn [mbind option_bind ae_session].
  pose proof (inv_take n session t s HI He) as HT. set (s1 := set_event n AcceptEvent_new s) in *.
  assert (AcceptG s s1) as HG by by destruct s.
  assert (ls_accept_stopped s1 = ls_accept_stopped s) as E1 by by destruct s.
  assert (ls_socket s1 = ls_socket s) as E2 by by destruct s.
  pose proof (inv_forget _ _ _ HT) as HT'. rewrite E1. destruct (ls_accept_stopped s) eqn:Es; cbn [orb].
  { eexists _, _. split; [done|]. split; [by destruct s|]. intros _. exists []. split; [by apply inv_retire|done]. }
  pose proof (ai_socket _ _ HI Es Hl) as Hs. rewrite E2, (proj2 (Z.eqb_neq _ _) Hs).
  destruct (o 0%nat =? 0); [|destruct (o 1%nat =? -1)];
    eexists _, _; (split; [done|]); (split; [intros E; congruence|]); intros _; eexists; (split; [|done]); cbn [app];
    try by apply inv_reserve. exact HT.
Qed.

Lemma hand_on_safe session : asafe (hand_on session) (fun _ t => t = []) [TGot session].
Proof.
  apply safe_atomic. intros o s t HI. cbn [app] in HI. eexists _, _. split; [done|]. split; [by destruct s|].
  intros _. exists []. split; [|done]. open_accept s HI. build_accept.
  assert (omap ae_session evs ++ gots t ++ session :: accepted ≡ₚ omap ae_session evs ++ (session :: gots t) ++ accepted) as E
    by solve_Permutation.
  rewrite E. done.
Qed.

Lemma process_accept_safe n : asafe (process_accept n) (fun _ t => t = []) [TComplete n].
Proof.
  apply safe_bind. eapply safe_mono; [|apply process_accept_cs_safe].
  intros [session|] t ->; [|reflexivity]. apply safe_bind.
  eapply safe_mono; [|exact (safe_frame AcceptInv AcceptG _ _ _ [TGot session] [THeld n] (hand_on_safe session))].
  intros _ t (t1 & -> & ->). apply register_accept_safe.
Qed.

Lemma finish_accept_safe :
  asafe (atomic (fun _ s => s ← listener_finish_io s; Some (leave s, tt))) (fun _ t => t = []) [TWork].
Proof.
  apply safe_atomic. intros o s t HI. cbn [app] in HI. pose proof (flying_le _ _ HI). open_accept s HI.
  pose proof (zlen_nonneg fl). pose proof (zlen_nonneg (works t)). unfold THREAD_MAX in *.
  unfold listener_finish_io. listener. rewrite Z_gtb_true by lia. cbn [mbind option_bind].
  eexists _, _. split; [done|]. split; [done|]. intros _. exists []. split; [|done]. build_accept; [|unfold THREAD_MAX; lia].
  rewrite u32_small; lia.
Qed.

Lemma dispatch_accept_safe n : asafe (dispatch_accept n) (fun _ t => t = []) [TComplete n; TWork].
Proof.
  apply safe_bind. apply (safe_mono _ _ _ _ (fun owner t => owner = true /\ t = [TComplete n; TWork])).
  { intros owner t [-> ->]. cbn [negb]. apply safe_bind.
    eapply safe_mono; [|exact (safe_frame AcceptInv AcceptG _ _ _ [TComplete n] [TWork] (process_accept_safe n))].
    intros _ t (t1 & -> & ->). apply finish_accept_safe. }
  apply safe_atomic. intros o s t HI. destruct (complete_event (TWork :: t) s n HI) as ((session & He) & _ & _).
  rewrite He. eexists _, _. split; [done|]. split; [done|]. intros _. exists [TComplete n; TWork]. done.
Qed.

Lemma close_socket_neutral : aneutral close_socket.
Proof.
  apply safe_atomic. intros o s t HI. cbn [app] in HI. eexists _, _. split; [done|]. unfold close_socket_cs.
  destruct (ls_accept_stopped s) eqn:Es; [split; [done|]; intros _; by exists []|]. split; [intros E; congruence|].
  intros _. exists []. split; [|done]. open_accept s HI. build_accept.
Qed.

(** *** Starting *)

(** The start-up has nothing left to do once all events are made. *)
Definition opening (n : nat) : list AcceptToken := match n with O => [] | _ => [TOpening true n] end.

Lemma setup_safe :
  asafe (atomic (fun o s => Some (start_accept_setup o s))) (fun ok t => t = if ok then opening ACCEPT_COUNT else [])
    [TOpening false ACCEPT_COUNT].
Proof.
  apply safe_atomic. intros o s t HI. cbn [app] in HI. eexists _, _. split; [apply f_equal, surjective_pairing|].
  open_accept s HI. apply Forall_cons_1 in Hop as [[Hlis _] Hop]. listener in *. subst listening. rewrite Hnone in * by done.
  assert (openings t = []) as Eo by (destruct (openings t); [done|]; rewrite zlen_cons in Hone; pose proof (zlen_nonneg l); lia).
  assert (started = true) as -> by (destruct started; [done|]; by destruct (Hfresh eq_refl)).
  unfold start_accept_setup. listener. destruct (o 0%nat =? INVALID_SOCKET) eqn:E0; bool_lia;
    [|destruct (o 1%nat =? 0); [|destruct (o 2%nat =? 0); [|destruct (o 3%nat =? 0); [|destruct (o 4%nat =? 0); [|destruct (o 5%nat =? 0)]]]]];
    listener; (split; [done|]); intros _; eexists; (split; [|done]); cbn [opening ACCEPT_COUNT app];
    build_accept; rewrite ?Eo; try done. by repeat constructor.
Qed.

Lemma new_event_safe n :
  asafe new_accept_event (fun e t => t = THeld e :: opening n) (opening (S n)).
Proof.
  apply safe_atomic. intros o s t HI. cbn [opening app] in HI. eexists _, _. split; [done|]. split; [by destruct s|].
  intros _. eexists. split; [|done]. open_accept s HI. apply Forall_cons_1 in Hop as [[Hlis Hn] Hop]. listener in *. subst listening.
  assert (openings t = []) as Eo by (destruct (openings t); [done|]; rewrite zlen_cons in Hone; pose proof (zlen_nonneg l); lia).
  assert (started = true) as -> by (destruct started; [done|]; by destruct (Hfresh eq_refl)).
  assert (forall f : list AcceptToken -> list nat, f = held \/ f = completes \/ f = gots -> f (opening n ++ t) = f t) as Ef
    by (by destruct n; intros f [->|[->| ->]]).
  assert (works (opening n ++ t) = works t) as Ew by by destruct n.
  assert (openings (opening n ++ t) = match n with O => [] | _ => [(true, n)] end) as Eop by (destruct n; cbn [opening app]; [done|]; rewrite openings_cons; by rewrite Eo).
  assert (length evs ∉ completes t ++ fl) as Hni.
  { intros Hin. destruct (Hbe _ Hin) as [ses He]. apply lookup_lt_Some in He. lia. }
  build_accept; rewrite ?Ef, ?Ew, ?Eop by tauto; rewrite ?length_app; cbn [length]; try done.
  - rewrite seq_app. cbn [seq Nat.add]. etrans; [|apply Permutation_app_comm]. cbn [app]. constructor. exact Hpl.
  - intros m Hm. destruct (Hbe m Hm) as [ses He]. exists ses. by apply lookup_app_l_Some.
  - intros m e Hm Hnm. apply lookup_app_Some in Hm as [Hm|[_ Hm]]; [by eapply Hie|]. by apply list_lookup_singleton_Some in Hm as [_ <-].
  - rewrite omap_app. cbn. rewrite app_nil_r. done.
  - destruct n; unfold zlen; cbn [length]; lia.
  - destruct n; [constructor|]. constructor; [|constructor]. cbn [fst snd]. split; [done|]. lia.
  - intros E. destruct n; [|done]. lia.
Qed.

Lemma accept_loop_safe n : asafe (accept_loop n) (fun _ t => t = []) (opening n).
Proof.
  induction n as [|n IH]; [reflexivity|]. cbn [accept_loop]. apply safe_bind.
  eapply safe_mono; [|apply new_event_safe]. intros e t ->. apply safe_bind.
  eapply safe_mono; [|exact (safe_frame AcceptInv AcceptG _ _ _ [THeld e] (opening n) (register_accept_safe e))].
  intros _ t (t1 & -> & ->). exact IH.
Qed.

Lemma start_safe : asafe ServerService_start (fun _ t => t = []) [TOpening false ACCEPT_COUNT].
Proof.
  apply safe_bind. apply (safe_mono _ _ _ _ (fun _ t => t = [])).
  { intros [|] t ->; [reflexivity|]. apply close_socket_neutral. }
  apply safe_bind. eapply safe_mono; [|apply setup_safe]. intros [|] t ->; cbn [negb]; [|reflexivity].
  apply safe_bind. eapply safe_mono; [|apply accept_loop_safe]. intros _ t ->. reflexivity.
Qed.

(** *** The environment *)

Lemma distribute_keeps now (jt : JobTimer nat) jobs jt' :
  jt_distributing jt = false -> JobTimer_distribute now (fun _ => true) jt = (jobs, jt') ->
  ti_job <$> jt_items jt ≡ₚ (snd <$> jobs) ++ (ti_job <$> jt_items jt') /\ jt_distributing jt' = false.
Proof.
  intros Hd. unfold JobTimer_distribute. rewrite Hd. destruct (distribute_loop _ _ _ _) as [due rest] eqn:E. intros [= <- <-].
  apply distribute_loop_spec in E as (new & -> & Hp & _); [|done]. cbn [jt_items jt_distributing app]. split; [|done].
  rewrite Hp, fmap_app. apply Permutation_app_tail. clear Hp. induction new as [|i new IH]; [done|].
  rewrite filter_cons_True by done. cbn [fmap list_fmap snd]. by rewrite IH.
Qed.

Lemma accept_io_ok : env_ok AcceptInv AcceptG (fun _ => True) accept_io.
Proof.
  intros s s' p t Hst HI _. destruct Hst as [s n l1 l2 Hfl Hb|s n rest Hq].
  - exists [TComplete n; TWork]. split; [apply dispatch_accept_safe|].
    apply (AcceptInv_weak (TComplete n :: TWork :: t)); [by rewrite (Permutation_app_comm t)|].
    open_accept s HI. subst fl. assert (forall m, m ∈ (n :: completes t) ++ l1 ++ l2 <-> m ∈ completes t ++ l1 ++ n :: l2) as Hm by set_solver.
    build_accept.
    + perm Hpl.
    + intros m Hin. apply Hbe, Hm, Hin.
    + intros m e He Hin. eapply Hie; [done|]. by rewrite <- Hm.
    + rewrite !zlen_app, zlen_cons in *. lia.
    + lia.
  - exists [THeld n]. split; [apply register_accept_safe|].
    apply (AcceptInv_weak (THeld n :: t)); [by rewrite (Permutation_app_comm t)|].
    open_accept s HI. subst q. build_accept. perm Hpl.
Qed.

Lemma accept_env_ok : env_ok AcceptInv AcceptG (fun _ => True) accept_env.
Proof.
  intros s s' p t Hst HI _. destruct Hst as [s s' p Hst|s Hs|s now jobs timer Hd|s Hs].
  - by eapply accept_io_ok.
  - exists [TOpening false ACCEPT_COUNT]. split; [apply start_safe|].
    apply (AcceptInv_weak (TOpening false ACCEPT_COUNT :: t)); [by rewrite (Permutation_app_comm t)|].
    open_accept s HI. subst started. destruct (Hfresh eq_refl) as [Eo ->]. build_accept; rewrite ?Eo; try done. by repeat constructor.
  - exists []. split; [reflexivity|]. rewrite app_nil_r.
    destruct (distribute_keeps now (ls_timer s) jobs timer (ai_timer _ _ HI) Hd) as [Hp Hf].
    open_accept s HI. build_accept. rewrite <- Hpl, Hp. solve_Permutation.
  - exists []. split; [apply close_socket_neutral|]. by rewrite app_nil_r.
Qed.

Lemma AcceptInv_new : AcceptInv [] Listener_new.
Proof.
  constructor; try done.
  - intros n Hn. by apply not_elem_of_nil in Hn.
  - split; constructor.
Qed.

Abbreviation accept_ok := (pool_ok AcceptInv AcceptG (fun _ => True)).

Lemma areachable_ok w : areachable w -> accept_ok w.
Proof.
  intros Hr. assert (accept_ok listener_start) as Hstart by (exists []; split; [constructor|apply AcceptInv_new]).
  unfold areachable in Hr. revert Hstart. induction Hr as [w|w w1 w2 Hst _ IH]; [done|].
  intros Hok. apply IH. by apply (wstep_safe AcceptInv AcceptG (fun _ => True) accept_env w w1 accept_env_ok).
Qed.

(** At rest no thread holds anything. *)
Lemma accept_rest w : accept_ok w -> exists t, AcceptInv t (w_state w) /\ (w_threads w = [] -> t = []).
Proof.
  intros (tss & Hts & HI). exists (concat tss). split; [done|]. intros Hw. rewrite Hw in Hts.
  by apply Forall2_nil_inv_l in Hts as ->.
Qed.

(** *** After [close_socket] *)

Definition accept_flights (s : Listener) : nat := length (ls_flying s) + length (ls_accept_retry_queue s).

Lemma AcceptG_closed s s' :
  AcceptG s s' -> ls_accept_stopped s = true -> ls_accept_stopped s' = true /\ accept_flights s' = accept_flights s.
Proof. intros HG Hs. destruct (HG Hs) as (? & Hf & Hq). unfold accept_flights. by rewrite Hf, Hq. Qed.

Lemma accept_io_closed s s' p :
  accept_io s s' p -> ls_accept_stopped s = true ->
  ls_accept_stopped s' = true /\ (accept_flights s' < accept_flights s)%nat.
Proof.
  intros Hst Hs. unfold accept_flights. destruct Hst as [s n l1 l2 E Hb|s n rest E]; rewrite E; destruct s; listener in *;
    (split; [done|]); rewrite ?length_app; cbn [length]; lia.
Qed.

Lemma drain_accept_runs w w' :
  rtc (wstep accept_io) w w' -> ls_accept_stopped (w_state w) = true -> accept_ok w ->
  ls_accept_stopped (w_state w') = true /\ accept_ok w'.
Proof.
  induction 1 as [w|w w1 w2 Hst _ IH]; [done|]. intros Hs Hok.
  destruct (drain_step AcceptInv AcceptG (fun _ => True) (fun s => ls_accept_stopped s = true) accept_flights accept_io
              AcceptG_closed (fun _ _ => I) accept_io_ok accept_io_closed w w1 Hst Hs Hok) as (Hs1 & Hok1 & _).
  by apply IH.
Qed.

(** ** Properties *)

(** C26: accept slots.  Under every interleaving of workers, retries, start-up and closing, the
    listener never fails an assertion, and every accept event is in exactly one place: with one
    thread, in flight, waiting for a retry, or given up, the last only after [close_socket] or
    after an error that is not retried.  So an open listener at rest has all its 32 events in
    flight or about to be retried unless such an error occurred; no session is handed to the
    session manager twice; and [_pending_io] counts the accepts in flight and the workers. *)
Theorem accept_slots_exact w :
  areachable w ->
  let s := w_state w in
  Crash ∉ w_threads w /\
  (exists working, working ++ ls_flying s ++ retries s ++ ls_accept_retry_queue s ++ ls_retired s ++ ls_failed s
                     ≡ₚ seq 0 (length (ls_accept_events s)) /\ (w_threads w = [] -> working = [])) /\
  (ls_accept_stopped s = false -> ls_retired s = []) /\
  (w_threads w = [] -> ls_listening s = true -> length (ls_accept_events s) = ACCEPT_COUNT) /\
  NoDup (ls_accepted s) /\
  ls_pending_io s = ls_busy s + zlen (ls_flying s).
Proof.
  intros Hok%areachable_ok s. destruct (accept_rest w Hok) as (t & HI & Ht). fold s in HI. split_and!.
  - by eapply pool_no_crash.
  - exists (held t ++ completes t). rewrite <- app_assoc. split; [exact (ai_places _ _ HI)|]. intros Hw. by rewrite (Ht Hw).
  - apply (ai_open _ _ HI).
  - intros Hw. apply (ai_all _ _ HI). by rewrite (Ht Hw).
  - destruct (ai_sessions _ _ HI) as [Hn _]. unfold known_sessions in Hn. apply NoDup_app in Hn as (_ & _ & Hn).
    by apply NoDup_app in Hn as (_ & _ & Hn).
  - rewrite (ai_pending _ _ HI). destruct (ai_busy _ _ HI) as [-> _]. lia.
Qed.

(** C27: closing ends.  After [close_socket] no order of the remaining steps of the workers,
    completions and retries goes on for ever, and when nothing more can happen all threads have
    returned, [_pending_io] is zero, so that [wait_for_io] returns, and no event refers to the
    listener or to a session, so that they can be destroyed. *)
Theorem listener_drains w :
  areachable w -> ls_accept_stopped (w_state w) = true ->
  Acc (fun w2 w1 => wstep accept_io w1 w2) w /\
  forall w', rtc (wstep accept_io) w w' -> (forall w'', ~ wstep accept_io w' w'') ->
    let s := w_state w' in
    w_threads w' = [] /\ ls_pending_io s = 0 /\ ls_flying s = [] /\ ls_accept_retry_queue s = [] /\
    Forall (eq AcceptEvent_new) (ls_accept_events s).
Proof.
  intros Hok%areachable_ok Hs. split.
  - eapply (drain_acc AcceptInv AcceptG (fun _ => True) (fun s => ls_accept_stopped s = true) accept_flights accept_io);
      eauto using AcceptG_closed, accept_io_ok, accept_io_closed.
  - intros w' Hr Hrest. destruct (drain_accept_runs w w' Hr Hs Hok) as [Hs' Hok'].
    pose proof (rest_no_threads AcceptInv AcceptG (fun _ => True) accept_io w' Hok' Hrest) as Hw.
    destruct (accept_rest w' Hok') as (t & HI & Ht). rewrite (Ht Hw) in HI. cbn zeta. destruct w' as [s l]. cbn [w_state w_threads] in *.
    destruct (ai_busy _ _ HI) as [Hb _]. change (zlen (works [])) with 0 in Hb.
    assert (ls_flying s = []) as Hf.
    { destruct (ls_flying s) as [|n fl] eqn:E; [done|]. exfalso. eapply Hrest, wstep_env, (accept_completes s n [] fl E).
      unfold THREAD_MAX. lia. }
    assert (ls_accept_retry_queue s = []) as Hq.
    { destruct (ls_accept_retry_queue s) as [|n q] eqn:E; [done|]. exfalso. eapply Hrest, wstep_env, (accept_retries s n q E). }
    split_and!; [done|by rewrite (ai_pending _ _ HI), Hf|done|done|]. apply Forall_lookup. intros n e He. symmetry.
    eapply (ai_idle_events _ _ HI); [done|]. rewrite Hf. apply not_elem_of_nil.
Qed.

(** ** A run *)

Inductive AcceptEnv := AStart | AComplete | ADistribute (now : Z) | AClose.

Definition accept_spawn (e : AcceptEnv) (s : Listener) : option (Listener * aprog unit) :=
  match e with
  | AStart => if ls_started s then None else Some (s <| ls_started := true |>, ServerService_start)
  | AComplete =>
      match ls_flying s with
      | n :: rest => if ls_busy s <? THREAD_MAX
                     then Some (s <| ls_flying := [] ++ rest |> <| ls_busy ::= fun k => k + 1 |>, dispatch_accept n) else None
      | [] => None
      end
  | ADistribute now =>
      let '(jobs, timer) := JobTimer_distribute now (fun _ => true) (ls_timer s) in
      Some (s <| ls_timer := timer |> <| ls_accept_retry_queue ::= fun l => l ++ (snd <$> jobs) |>, mret ())
  | AClose => if ls_started s then Some (s, close_socket) else None
  end.

Lemma accept_spawn_sound e s s' p : accept_spawn e s = Some (s', p) -> accept_env s s' p.
Proof.
  destruct e as [| |now|]; cbn [accept_spawn].
  - destruct (ls_started s) eqn:E; [done|]. intros [= <- <-]. by apply accept_starts.
  - destruct (ls_flying s) as [|n rest] eqn:E; [done|]. destruct (ls_busy s <? THREAD_MAX) eqn:Eb; [|done]. intros [= <- <-]. bool_lia.
    by apply accept_env_io, (accept_completes s n [] rest).
  - destruct (JobTimer_distribute _ _ _) as [jobs timer] eqn:E. intros [= <- <-]. by apply (accept_distributes s now).
  - destruct (ls_started s) eqn:E; [|done]. intros [= <- <-]. by apply accept_closes.
Qed.

Definition accept_run (scs : list (Sched AcceptEnv)) : world Listener := wrun (fun _ => true) accept_spawn scs listener_start.

Lemma accept_run_reach scs : areachable (accept_run scs).
Proof.
  eapply rtc_subrel; [|by apply (wrun_steps accept_env (fun _ => True) (fun _ => true) (fun _ _ => I) accept_spawn accept_spawn_sound)].
  by intros w w' [? _].
Qed.

(** Start-up with all calls successful; the completion of one accept cannot be used and the
    event is reserved at time 1000; that of another one gives a session; the timer runs at
    time 1100; the listener is closed. *)
Definition calls_succeed : Oracle := fun _ => 1.
Definition update_fails : Oracle := fun i => match i with 0%nat => 0 | 3%nat => 1000 | _ => 1 end.

Definition accept_sched : list (Sched AcceptEnv) :=
  [Spawn AStart; Advance 0 1000 calls_succeed; Spawn AComplete; Advance 0 1000 update_fails;
   Spawn AComplete; Advance 0 1000 calls_succeed; Spawn (ADistribute 1100); Advance 0 1000 calls_succeed].

Definition accept_demo : world Listener := accept_run accept_sched.
Definition accept_closed : world Listener := accept_run (accept_sched ++ [Spawn AClose; Advance 0 1000 calls_succeed]).

Lemma accept_demo_reach : areachable accept_demo.
Proof. apply accept_run_reach. Qed.

Lemma accept_closed_reach : areachable accept_closed.
Proof. apply accept_run_reach. Qed.

#[local] Opaque accept_demo accept_closed.

Lemma accept_slots_exact_witness :
  let s := w_state accept_demo in
  (exists working, working ++ ls_flying s ++ retries s ++ ls_accept_retry_queue s ++ ls_retired s ++ ls_failed s
                     ≡ₚ seq 0 (length (ls_accept_events s)) /\ working = []) /\
  ls_accept_retry_queue s = [31%nat] /\ ls_accepted s = [30%nat].
Proof.
  destruct (accept_slots_exact accept_demo accept_demo_reach) as (_ & (working & Hp & Hw) & _ & _ & _ & _).
  split; [exists working; split; [exact Hp|apply Hw; vm_compute; reflexivity]|split; vm_compute; reflexivity].
Defined.

Lemma listener_drains_witness :
  length (ls_flying (w_state accept_closed)) = 31%nat /\ Acc (fun w2 w1 => wstep accept_io w1 w2) accept_closed.
Proof.
  split; [vm_compute; reflexivity|].
  apply (listener_drains accept_closed accept_closed_reach). vm_compute. reflexivity.
Defined.
