(* ===== verification/ClientEvents.v ===== *)
(** * The send event of the test client

    [SendEvent] of TestClient/NetWork/IocpEvent.h.  The class is the server's (file
    SendEvents; the buffers of TestClient/Buffer are the server's too), except that
    [consume_sent_bytes] counts in [uint32] where the server counts in [int32].  The queue
    of the client has no limit, so the bound on the number of buffers is that of the memory
    they take. *)

From stdpp Require Import base list numbers option.
From Stdlib Require Import ZArith Lia.
From S2P Require Import Prelude Buffers SendEvents.

(** The [while (num_bytes > 0)] loop; [bufs] is the buffers from [index] on, and [None] is
    the out-of-range access [_send_Buffers[_buffer_index]]. *)
Fixpoint client_consume_loop (bufs : list SendBuffer) (index offset num_bytes : Z) : option (Z * Z) :=
  if num_bytes >? 0 then
    match bufs with
    | [] => None
    | b :: rest =>
        let available := u32 (SendBuffer_get_write_size b - offset) in
        if num_bytes <? available then Some (index, i32 (offset + i32 num_bytes))
        else client_consume_loop rest (index + 1) 0 (u32 (num_bytes - available))
    end
  else Some (index, offset).

Definition client_consume_sent_bytes (num_bytes : Z) (ev : SendEvent) : option (bool * SendEvent) :=
  if num_bytes =? 0 then Some (false, ev)
  else
    let remaining := u64 (remaining_bytes (SendEvent_rest ev) - u64 (se_buffer_offset ev)) in
    if num_bytes >? remaining then Some (false, ev)
    else
      match client_consume_loop (SendEvent_rest ev) (se_buffer_index ev) (se_buffer_offset ev) num_bytes with
      | None => None
      | Some (index, offset) =>
          Some (true, ev <| se_buffer_index := index |> <| se_buffer_offset := offset |>)
      end.

(** As [SendEvent_wf], with room for 2^41 buffers and none of them empty. *)
Definition client_buf_ok (b : SendBuffer) : Prop := SendBuffer_wf b /\ 0 < sb_write_size b < 2 ^ 16.

Record ClientEvent_wf (ev : SendEvent) : Prop := {
  cew_bufs : Forall client_buf_ok (se_send_Buffers ev);
  cew_count : zlen (se_send_Buffers ev) <= 2 ^ 41;
  cew_index : 0 <= se_buffer_index ev <= zlen (se_send_Buffers ev);
  cew_offset : match SendEvent_rest ev with
               | [] => se_buffer_offset ev = 0
               | b :: _ => 0 <= se_buffer_offset ev < sb_write_size b
               end
}.

Lemma client_bufs_ok bufs : Forall client_buf_ok bufs -> bufs_ok bufs.
Proof. apply Forall_impl. intros b [? ?]. split; [done|lia]. Qed.

Lemma client_consume_loop_spec bufs idx off n :
  Forall client_buf_ok bufs -> 0 <= idx -> 0 <= n < 2 ^ 32 ->
  match bufs with [] => off = 0 | b :: _ => 0 <= off < sb_write_size b end ->
  off + n <= zlen (payloads bufs) ->
  exists k off', client_consume_loop bufs idx off n = Some (idx + Z.of_nat k, off') /\
    (k <= length bufs)%nat /\
    match drop k bufs with [] => off' = 0 | b :: _ => 0 <= off' < sb_write_size b end /\
    drop (Z.to_nat off') (payloads (drop k bufs)) = drop (Z.to_nat (off + n)) (payloads bufs).
Proof.
  intros Hok. revert idx off n.
  induction Hok as [|b bufs [Hb Hs] Hok IH]; intros idx off n Hidx Hn Hoff Hle.
  - unfold payloads in Hle; simpl in Hle. rewrite zlen_nil in Hle.
    assert (n = 0) as -> by lia. subst off. exists 0%nat, 0. split; [|done].
    simpl. by rewrite Z.add_0_r.
  - pose proof Hb as [Hw Hmax]. rewrite payloads_cons, zlen_app, payload_len in Hle by done.
    simpl client_consume_loop. destruct (n >? 0) eqn:En; bool_lia.
    2: { assert (n = 0) as -> by lia. exists 0%nat, off. rewrite !Z.add_0_r. simpl drop. repeat split; lia || done. }
    unfold SendBuffer_get_write_size. rewrite (u32_small (sb_write_size b - off)) by lia.
    destruct (n <? sb_write_size b - off) eqn:Ea; bool_lia.
    + exists 0%nat, (off + n). rewrite Z.add_0_r, (i32_small n), i32_small by lia. simpl drop.
      repeat split; lia || done.
    + rewrite u32_small by lia.
      destruct (IH (idx + 1) 0 (n - (sb_write_size b - off))) as (k & off' & Hc & Hk & Ho & Hd); try lia.
      { destruct Hok as [|? ? [? ?] ?]; [done|lia]. }
      exists (S k), off'. split; [rewrite Hc; f_equal; f_equal; lia|].
      split; [simpl; lia|]. split; [exact Ho|]. rewrite payloads_cons. simpl drop. rewrite Hd.
      pose proof (payload_len b Hb) as Hpl. unfold zlen in Hpl.
      rewrite drop_app_ge by lia. f_equal. lia.
Qed.

Section ClientEventLemmas.
Context (ev : SendEvent) (Hwf : ClientEvent_wf ev).

Lemma client_rest_ok : Forall client_buf_ok (SendEvent_rest ev).
Proof using Hwf. destruct Hwf. by apply Forall_drop. Qed.

Lemma client_rest_len : zlen (SendEvent_rest ev) <= 2 ^ 41.
Proof using Hwf. destruct Hwf. unfold SendEvent_rest, zlen in *. rewrite length_drop. lia. Qed.

Lemma client_offset_le : 0 <= se_buffer_offset ev <= zlen (payloads (SendEvent_rest ev)).
Proof using Hwf.
  pose proof client_rest_ok as Hok. destruct Hwf as [_ _ _ Ho].
  destruct (SendEvent_rest ev) as [|b r] eqn:E.
  { rewrite Ho. pose proof (zlen_nonneg (payloads [])). lia. }
  apply Forall_cons_1 in Hok as [[Hb _] _]. rewrite payloads_cons, zlen_app, payload_len by done.
  pose proof (zlen_nonneg (payloads r)). lia.
Qed.

Lemma client_pending_len :
  zlen (SendEvent_pending ev) = zlen (payloads (SendEvent_rest ev)) - se_buffer_offset ev.
Proof using Hwf. pose proof client_offset_le. unfold SendEvent_pending. apply zlen_drop. lia. Qed.

Lemma client_remaining_eq :
  u64 (remaining_bytes (SendEvent_rest ev) - u64 (se_buffer_offset ev)) = zlen (SendEvent_pending ev).
Proof using Hwf.
  pose proof (client_bufs_ok _ client_rest_ok) as Hok. pose proof (payloads_bound _ Hok).
  pose proof client_rest_len. pose proof client_offset_le. rewrite client_pending_len. unfold remaining_bytes.
  rewrite remaining_bytes_acc by (done || lia).
  rewrite (u64_small (se_buffer_offset ev)) by lia. rewrite Z.add_0_l. apply u64_small. lia.
Qed.

Lemma client_wsabufs : wsabufs_bytes (SendEvent_build_wsabufs ev) = SendEvent_pending ev.
Proof using Hwf.
  apply wsabufs_loop_bytes; [by apply client_bufs_ok, client_rest_ok|].
  destruct Hwf as [_ _ _ Ho]. destruct (SendEvent_rest ev); [done|lia].
Qed.

(** The event has pending data exactly while bytes are left. *)
Lemma client_has_pending : SendEvent_has_pending_data ev = true <-> SendEvent_pending ev <> [].
Proof using Hwf.
  pose proof client_rest_ok as Hok. pose proof client_pending_len as Hl. destruct Hwf as [_ _ Hi Ho].
  unfold SendEvent_has_pending_data. rewrite Z.ltb_lt.
  assert (se_buffer_index ev < zlen (se_send_Buffers ev) <-> SendEvent_rest ev <> []) as ->.
  { unfold SendEvent_rest, zlen in *. rewrite <- length_zero_iff_nil, length_drop. lia. }
  destruct (SendEvent_rest ev) as [|b r] eqn:E.
  { unfold SendEvent_pending. rewrite E. unfold payloads. simpl. rewrite drop_nil. done. }
  split; [|done]. intros _ Hp. rewrite Hp in Hl. apply Forall_cons_1 in Hok as [[Hb _] _].
  rewrite payloads_cons, zlen_app, payload_len, zlen_nil in Hl by done. pose proof (zlen_nonneg (payloads r)). lia.
Qed.

Lemma client_consume_accepts n :
  0 < n <= zlen (SendEvent_pending ev) -> n < 2 ^ 32 ->
  exists ev', client_consume_sent_bytes n ev = Some (true, ev') /\ ClientEvent_wf ev' /\
    se_send_Buffers ev' = se_send_Buffers ev /\
    SendEvent_pending ev' = drop (Z.to_nat n) (SendEvent_pending ev).
Proof using Hwf.
  intros Hn Hn32. pose proof client_rest_ok as Hok. pose proof client_offset_le as Ho. pose proof client_pending_len as Hpl.
  unfold client_consume_sent_bytes. rewrite client_remaining_eq.
  rewrite (proj2 (Z.eqb_neq n 0)), Z_gtb_false by lia.
  pose proof Hwf as [Hbufs Hcnt Hi Hoff].
  destruct (client_consume_loop_spec (SendEvent_rest ev) (se_buffer_index ev) (se_buffer_offset ev) n)
    as (k & off' & Hc & Hk & Hoff' & Hd); try (done || lia).
  rewrite Hc. eexists; split; [done|].
  assert (SendEvent_rest (ev <| se_buffer_index := se_buffer_index ev + Z.of_nat k |>
                             <| se_buffer_offset := off' |>) = drop k (SendEvent_rest ev)) as Hrest.
  { unfold SendEvent_rest; simpl. rewrite drop_drop. f_equal. lia. }
  split; [|split; [done|]].
  - constructor; rewrite ?Hrest; simpl; try done.
    unfold SendEvent_rest, zlen in *. rewrite length_drop in Hk. lia.
  - unfold SendEvent_pending. rewrite Hrest. simpl. rewrite Hd, drop_drop. f_equal. lia.
Qed.

Lemma client_consume_zero : client_consume_sent_bytes 0 ev = Some (false, ev).
Proof. reflexivity. Qed.
End ClientEventLemmas.

Lemma ClientEvent_new_wf : ClientEvent_wf SendEvent_new.
Proof. constructor; simpl; done || lia. Qed.

Lemma client_clear_new ev : SendEvent_clear ev = SendEvent_new.
Proof. by destruct ev. Qed.

Lemma pending_new : SendEvent_pending SendEvent_new = [].
Proof. reflexivity. Qed.

(** C32: the event of the client and that of the server, which count in different integer
    types, do the same on every event the client can have and every completion size
    below 2^31. *)
Theorem client_consume_equiv ev n :
  ClientEvent_wf ev -> zlen (se_send_Buffers ev) <= 2 ^ 14 -> 0 <= n < 2 ^ 31 ->
  client_consume_sent_bytes n ev = SendEvent_consume_sent_bytes n ev.
Proof.
  intros Hwf Hc Hn. unfold client_consume_sent_bytes, SendEvent_consume_sent_bytes.
  destruct (n =? 0) eqn:E0; bool_lia; [subst; done|]. rewrite (proj2 (Z.leb_gt n 0)) by lia.
  rewrite (u64_small n) by lia. rewrite (client_remaining_eq ev Hwf).
  destruct (n >? zlen (SendEvent_pending ev)) eqn:E1; bool_lia; [done|].
  pose proof (client_offset_le ev Hwf) as Ho. pose proof (client_pending_len ev Hwf) as Hpl.
  assert (forall bufs i off m, Forall client_buf_ok bufs -> 0 <= m < 2 ^ 31 ->
    match bufs with [] => off = 0 | b :: _ => 0 <= off < sb_write_size b end ->
    client_consume_loop bufs i off m = consume_loop bufs i off m) as Hloop.
  { induction bufs as [|b bufs IH]; intros i off m Hok Hm Hoff; [done|].
    apply Forall_cons_1 in Hok as [[Hb Hs] Hok]. cbn [client_consume_loop consume_loop].
    destruct (m >? 0) eqn:Em; bool_lia; [|done]. unfold SendBuffer_get_write_size.
    rewrite (u32_small (sb_write_size b - off)), (i32_small (sb_write_size b - off)) by lia. destruct (m <? _) eqn:Ea; bool_lia.
    - by rewrite (i32_small m) by lia.
    - rewrite u32_small, i32_small by lia. apply IH; [done|lia|]. destruct Hok as [|? ? [? ?] ?]; [done|lia]. }
  rewrite Hloop; [done|by apply client_rest_ok|done|apply Hwf].
Qed.

Lemma client_consume_equiv_witness :
  client_consume_sent_bytes 3 demo_send_event = SendEvent_consume_sent_bytes 3 demo_send_event.
Proof.
  apply (client_consume_equiv demo_send_event 3).
  - constructor; [|vm_compute; intuition congruence..].
    repeat constructor; vm_compute; intuition congruence.
  - vm_compute. congruence.
  - lia.
Defined.
