(* ===== verification/Clients.v ===== *)
(** * Sessions of the test client

    [TestSession] (TestClient/Session/TestSession.{h,cpp}), the packet handlers
    (TestClient/Packet/ClientPacketHandler.{h,cpp}) and the counters of
    TestClient/Utils/GlobalData.h.

    Threads of the client (the main thread, the bots, the workers of [ClientServer]) call the
    methods of one session concurrently.  Every critical section under [_send_lock] and every
    access to an atomic member is one atomic action of the file Interleaving; a method is the
    program of its actions.  [_io_lock] is only taken for one access at a time, so
    [begin_io] and [finish_io] are parts of the action that calls them.  [_recv_buffer] is
    not protected by a lock: the actions on it are separate, and that no other thread comes
    between them is a theorem.

    A session is shown together with the part of the operating system it talks to: the sends
    and receives in flight and the association with the completion port.  The members named
    [c_accepted], [c_sent], [c_received] and [c_handled] record the history: the buffers
    [send] queued, the bytes the system sent and received, the packets handed to
    [HandlePacket].  Output on the console is left out, and with it [GClientMode], which only
    decides what is printed. *)

From stdpp Require Import base list numbers option.
From Stdlib Require Import ZArith Lia.
From Stdlib Require String.
From S2P Require Import Prelude Interleaving Buffers SendEvents ClientEvents Framing Wire Protocol Packets Config.

Import String.StringSyntax.

(** ** Data *)

Inductive TEST_SESSION_STATE :=
| TS_NONE | TS_DISCONNECTED | TS_CONNECTED | TS_LOGIN_SEND | TS_LOGIN | TS_CHAT.

Inductive ROOM_REQUEST := RR_NONE | RR_ENTER | RR_EXIT.

Definition MAX_PACKET_SIZE : Z := 65536.

Record TestSession := mkTestSession {
  ts_is_connect : bool;
  ts_is_login : bool;
  ts_is_disconnect : bool;
  ts_recv_started : bool;
  ts_account_idx : Z;
  ts_room_id : Z;
  ts_test_session_state : TEST_SESSION_STATE;
  ts_bot_index : Z;
  ts_login_pending : bool;
  ts_room_request : ROOM_REQUEST;
  ts_socket : Z;
  ts_recv_buffer : RecvBuffer;
  ts_send_queue : list SendBuffer;
  ts_is_send_register : bool;
  ts_send_event : SendEvent;
  ts_pending_io : Z
}.

#[export] Instance TestSession_settable : Settable TestSession :=
  fun x => mkTestSession (ts_is_connect x) (ts_is_login x) (ts_is_disconnect x) (ts_recv_started x)
    (ts_account_idx x) (ts_room_id x) (ts_test_session_state x) (ts_bot_index x) (ts_login_pending x)
    (ts_room_request x) (ts_socket x) (ts_recv_buffer x) (ts_send_queue x) (ts_is_send_register x)
    (ts_send_event x) (ts_pending_io x).

Definition TestSession_new : TestSession :=
  mkTestSession false false false false 0 (-1) TS_NONE 0 false RR_NONE INVALID_SOCKET
    (RecvBuffer_new 65536) [] false SendEvent_new 0.

(** [ServerStats] of the client. *)
Record ClientStats := mkClientStats {
  st_connect_success : Z;
  st_login_success : Z;
  st_send_chat : Z;
  st_recv_chat : Z;
  st_expected_chat_recv : Z;
  st_disconnect : Z
}.

#[export] Instance ClientStats_settable : Settable ClientStats :=
  fun g => mkClientStats (st_connect_success g) (st_login_success g) (st_send_chat g) (st_recv_chat g)
    (st_expected_chat_recv g) (st_disconnect g).

(** The session, [GServerStats], the operating system, the number of worker threads that are
    in [dispatch], and the history. *)
Record Client := mkClient {
  c_session : TestSession;
  c_stats : ClientStats;
  c_iocp : bool;
  c_send : option bytes;
  c_recv : option Z;
  c_busy : Z;
  c_accepted : list SendBuffer;
  c_sent : bytes;
  c_received : bytes;
  c_handled : list bytes
}.

#[export] Instance Client_settable : Settable Client :=
  fun s => mkClient (c_session s) (c_stats s) (c_iocp s) (c_send s) (c_recv s) (c_busy s)
    (c_accepted s) (c_sent s) (c_received s) (c_handled s).

Definition Client_new : Client :=
  mkClient TestSession_new (mkClientStats 0 0 0 0 0 0) false None None 0 [] [] [] [].

(** ** Actions *)

Abbreviation cprog := (prog Client).

(** An action on the members of the session. *)
Definition on_session {B : Set} (f : TestSession -> TestSession * B) : cprog B :=
  atomic (fun _ s => let '(x, b) := f (c_session s) in Some (s <| c_session := x |>, b)).

(** Reading atomic members. *)
Definition load_session {B : Set} (f : TestSession -> B) : cprog B := on_session (fun x => (x, f x)).

(** [++] and [+=] of the counters. *)
Definition count (f : ClientStats -> ClientStats) : cprog unit :=
  atomic (fun _ s => Some (s <| c_stats ::= f |>, tt)).

Definition begin_io (x : TestSession) : TestSession := x <| ts_pending_io := i32 (ts_pending_io x + 1) |>.

Definition finish_io (x : TestSession) : option TestSession :=
  if ts_pending_io x >? 0 then Some (x <| ts_pending_io := i32 (ts_pending_io x - 1) |>) else None.

Definition is_connected : cprog bool := load_session ts_is_connect.
Definition get_account : cprog Z := load_session ts_account_idx.
Definition get_is_login : cprog bool := load_session ts_is_login.
Definition get_room_id : cprog Z := load_session ts_room_id.
Definition get_bot_index : cprog Z := load_session ts_bot_index.
Definition set_account (idx : Z) : cprog unit := on_session (fun x => (x <| ts_account_idx := idx |>, tt)).
Definition set_is_login (is_login : bool) : cprog unit := on_session (fun x => (x <| ts_is_login := is_login |>, tt)).
Definition has_pending_io : cprog bool := load_session (fun x => negb (ts_pending_io x =? 0)).

(** *** Connecting and disconnecting *)

(** [o 0] is the socket [WSASocket] returns, [o 1] the result of [::connect]. *)
Definition connect_cs (o : Oracle) (s : Client) : Client * bool :=
  let x := c_session s in
  if ts_is_connect x || ts_is_disconnect x then (s, false)
  else
    let client_socket := o 0%nat in
    if client_socket =? INVALID_SOCKET then (s, false)
    else if negb (o 1%nat =? 0) then (s <| c_session := x <| ts_is_connect := false |> |>, false)
    else
      (s <| c_session := x <| ts_socket := client_socket |> <| ts_is_connect := true |>
                            <| ts_test_session_state := TS_CONNECTED |> |>
         <| c_stats ::= fun g => g <| st_connect_success := u64 (st_connect_success g + 1) |> |>, true).

Definition connect : cprog bool := atomic (fun o s => Some (connect_cs o s)).

Definition disconnect_cs (s : Client) : Client :=
  let x := c_session s in
  if negb (ts_is_connect x) then s
  else
    let x := x <| ts_is_connect := false |> in
    if ts_is_disconnect x then s <| c_session := x |>
    else
      let x := x <| ts_is_disconnect := true |> <| ts_test_session_state := TS_DISCONNECTED |>
                 <| ts_is_login := false |> <| ts_account_idx := 0 |> <| ts_room_id := -1 |>
                 <| ts_login_pending := false |> <| ts_room_request := RR_NONE |>
                 <| ts_is_send_register := false |> <| ts_send_queue := [] |> in
      s <| c_session := if negb (ts_socket x =? INVALID_SOCKET) then x <| ts_socket := INVALID_SOCKET |> else x |>
        <| c_stats ::= fun g => g <| st_disconnect := u64 (st_disconnect g + 1) |> |>.

Definition disconnect : cprog unit := atomic (fun _ s => Some (disconnect_cs s, tt)).

(** [o 0] is the error of [CreateIoCompletionPort], [0] when it succeeds. *)
Definition register_iocp_cs (o : Oracle) (s : Client) : Client * bool :=
  let x := c_session s in
  if negb (ts_is_connect x) || (ts_socket x =? INVALID_SOCKET) then (s, false)
  else if negb (o 0%nat =? 0) then (s, false)
  else (s <| c_iocp := true |>, true).

Definition register_iocp : cprog bool := atomic (fun o s => Some (register_iocp_cs o s)).

(** *** Sending *)

(** A critical section that fails a system call leaves the [disconnect] to the code behind
    the lock. *)
Inductive Registered := Returns (result : bool) | MustDisconnect.

(** [_send_event.init()] only clears the [OVERLAPPED]. [o 0] is the error of [WSASend]. *)
Definition register_send_cs (o : Oracle) (s : Client) : option (Client * Registered) :=
  let x := c_session s in
  if negb (ts_is_connect x) then
    Some (s <| c_session := x <| ts_send_event := SendEvent_clear (ts_send_event x) |>
                              <| ts_is_send_register := false |> |>, Returns false)
  else
    let x := if negb (SendEvent_has_pending_data (ts_send_event x))
             then x <| ts_send_event := foldl (fun ev b => SendEvent_push b ev) (ts_send_event x) (ts_send_queue x) |>
                    <| ts_send_queue := [] |>
             else x in
    let wsaBufs := SendEvent_build_wsabufs (ts_send_event x) in
    if zlen wsaBufs =? 0 then
      Some (s <| c_session := x <| ts_send_event := SendEvent_clear (ts_send_event x) |>
                                <| ts_is_send_register := false |> |>, Returns true)
    else
      let x := begin_io x in
      let errorCode := o 0%nat in
      if (errorCode =? 0) || (errorCode =? WSA_IO_PENDING) then
        Some (s <| c_session := x |>
                <| c_send := Some (wsabufs_bytes (take (Z.to_nat (u32 (zlen wsaBufs))) wsaBufs)) |>, Returns true)
      else
        x ← finish_io x;
        Some (s <| c_session := x <| ts_send_event := SendEvent_clear (ts_send_event x) |> |>, MustDisconnect).

Definition register_send : cprog bool :=
  r ← atomic register_send_cs;
  match r with
  | Returns result => mret result
  | MustDisconnect => disconnect ≫= fun _ => mret false
  end.

(** The critical section of [send]: whether it queued the buffer, and whether this call has
    to register. *)
Definition send_cs (send_buffer : SendBuffer) (s : Client) : Client * (bool * bool) :=
  let x := c_session s in
  if negb (ts_is_connect x) then (s, (false, false))
  else
    (s <| c_session := x <| ts_send_queue := ts_send_queue x ++ [send_buffer] |> <| ts_is_send_register := true |> |>
       <| c_accepted := c_accepted s ++ [send_buffer] |>, (true, negb (ts_is_send_register x))).

Definition send (send_buffer : option SendBuffer) : cprog bool :=
  match send_buffer with
  | None => mret false
  | Some send_buffer =>
      if SendBuffer_get_write_size send_buffer <=? 0 then mret false
      else
        r ← atomic (fun _ s => Some (send_cs send_buffer s));
        match r with
        | (false, _) => mret false
        | (true, true) => register_send
        | (true, false) => mret true
        end
  end.

Inductive SendCompleted := SendReturns | SendRegisters | SendDisconnects.

Definition process_send_cs (num_bytes : Z) (s : Client) : option (Client * SendCompleted) :=
  let x := c_session s in
  if negb (ts_is_connect x) then
    Some (s <| c_session := x <| ts_send_event := SendEvent_clear (ts_send_event x) |>
                              <| ts_is_send_register := false |> |>, SendReturns)
  else
    r ← client_consume_sent_bytes num_bytes (ts_send_event x);
    let '(ok, ev) := r in
    if negb ok then Some (s <| c_session := x <| ts_send_event := SendEvent_clear ev |> |>, SendDisconnects)
    else if SendEvent_has_pending_data ev then
      Some (s <| c_session := x <| ts_send_event := ev |> |>, SendRegisters)
    else
      let x := x <| ts_send_event := SendEvent_clear ev |> in
      if bool_decide (ts_send_queue x = [])
      then Some (s <| c_session := x <| ts_is_send_register := false |> |>, SendReturns)
      else Some (s <| c_session := x |>, SendRegisters).

Definition process_send (num_bytes : Z) : cprog unit :=
  r ← atomic (fun _ => process_send_cs num_bytes);
  match r with
  | SendReturns => mret ()
  | SendRegisters => register_send ≫= fun _ => mret ()
  | SendDisconnects => disconnect
  end.

(** *** Receiving *)

(** [o 0] is the error of [WSARecv]. *)
Definition register_recv_cs (o : Oracle) (s : Client) : option (Client * Registered) :=
  let x := c_session s in
  if negb (ts_is_connect x) then Some (s, Returns false)
  else
    let len := RecvBuffer_free_size (ts_recv_buffer x) in
    let x := begin_io x in
    let errorCode := o 0%nat in
    if (errorCode =? 0) || (errorCode =? WSA_IO_PENDING) then
      Some (s <| c_session := x |> <| c_recv := Some (u32 len) |>, Returns true)
    else
      x ← finish_io x;
      Some (s <| c_session := x |>, MustDisconnect).

Definition register_recv : cprog bool :=
  r ← atomic register_recv_cs;
  match r with
  | Returns result => mret result
  | MustDisconnect => disconnect ≫= fun _ => mret false
  end.

Definition start : cprog bool :=
  connected ← is_connected;
  if negb connected then disconnect ≫= fun _ => mret false
  else
    started ← on_session (fun x => (x <| ts_recv_started := true |>, ts_recv_started x));
    if (started : bool) then mret false
    else
      ok ← register_recv;
      if negb ok then disconnect ≫= fun _ => mret false else mret true.

(** *** Logging in *)

Definition begin_login_cs (x : TestSession) : TestSession * bool :=
  if negb (ts_is_connect x) || ts_is_login x || ts_login_pending x then (x, false)
  else (x <| ts_login_pending := true |> <| ts_test_session_state := TS_LOGIN_SEND |>, true).

Definition begin_login : cprog bool := on_session begin_login_cs.

Definition complete_login_cs (success : bool) (account_idx : Z) (x : TestSession) : TestSession :=
  let x := if ts_is_connect x
           then x <| ts_account_idx := if success then account_idx else 0 |> <| ts_is_login := success |>
                  <| ts_test_session_state := if success then TS_LOGIN else TS_CONNECTED |>
           else x in
  x <| ts_login_pending := false |>.

Definition complete_login (success : bool) (account_idx : Z) : cprog unit :=
  on_session (fun x => (complete_login_cs success account_idx x, tt)).

(** The predicate of a [wait_for] when it returns, woken or timed out. *)
Definition wait_for_login : cprog bool := load_session (fun x => negb (ts_login_pending x) || negb (ts_is_connect x)).
Definition wait_for_disconnect : cprog bool := load_session (fun x => negb (ts_is_connect x)).

(** *** Rooms *)

Definition begin_enter_cs (x : TestSession) : TestSession * bool :=
  if negb (ts_is_connect x) || negb (ts_is_login x) || (ts_room_id x >=? 0) ||
     negb (match ts_room_request x with RR_NONE => true | _ => false end)
  then (x, false)
  else (x <| ts_room_request := RR_ENTER |>, true).

Definition begin_exit_cs (x : TestSession) : TestSession * bool :=
  if negb (ts_is_connect x) || negb (ts_is_login x) || (ts_room_id x <? 0) ||
     negb (match ts_room_request x with RR_NONE => true | _ => false end)
  then (x, false)
  else (x <| ts_room_request := RR_EXIT |>, true).

Definition complete_enter_room_cs (success : bool) (room_id : Z) (x : TestSession) : TestSession :=
  match ts_room_request x with
  | RR_ENTER =>
      let x := if ts_is_connect x && success then x <| ts_room_id := room_id |> else x in
      x <| ts_room_request := RR_NONE |>
  | _ => x
  end.

Definition complete_exit_room_cs (success : bool) (x : TestSession) : TestSession :=
  match ts_room_request x with
  | RR_EXIT =>
      let x := if ts_is_connect x && success then x <| ts_room_id := -1 |> else x in
      x <| ts_room_request := RR_NONE |>
  | _ => x
  end.

Definition complete_enter_room (success : bool) (room_id : Z) : cprog unit :=
  on_session (fun x => (complete_enter_room_cs success room_id x, tt)).

Definition complete_exit_room (success : bool) : cprog unit :=
  on_session (fun x => (complete_exit_room_cs success x, tt)).

(** ** Packets *)

Section ClientPackets.
Context {utf8 : Utf8Check} {codec : PacketCodec} {api : StringApi}.

(** [ClientPacketHandler::MakeSendBuffer]; [None] is [nullptr]. *)
Definition ClientMakeSendBuffer (pkt : Packet) : option SendBuffer :=
  let dataSize := ByteSizeLong pkt in
  if dataSize >? UINT16_MAX - sizeof_PacketHeader then None
  else
    let packetSize := u16 (dataSize + sizeof_PacketHeader) in
    let sendBuffer := SendBuffer_new packetSize in
    let header := PacketHeader_write (mkPacketHeader packetSize (packet_id pkt)) in
    match SerializeToArray pkt (i32 dataSize) with
    | None => None
    | Some bs => Some (SendBuffer_close packetSize
                         (sendBuffer <| sb_buffer := header ++ overwrite bs (drop 4 (sb_buffer sendBuffer)) |>))
    end.

(** *** Requests *)

Definition login (is_create : bool) (id pw : bytes) (name : wstring) : cprog bool :=
  let user_name := WStringToUtf8 name in
  if bool_decide (id = []) || (zlen id >? 32) || bool_decide (pw = []) || (zlen pw >? 32) ||
     (is_create && (bool_decide (user_name = []) || (zlen user_name >? 32)))
  then mret false
  else
    begun ← begin_login;
    if negb begun then mret false
    else
      let pkt := REQ_LOGIN_default <| REQ_LOGIN_is_create := is_create |> <| REQ_LOGIN_id := id |>
                   <| REQ_LOGIN_pw := pw |> <| REQ_LOGIN_name := user_name |> in
      ok ← send (ClientMakeSendBuffer (P_REQ_LOGIN pkt));
      if negb ok then complete_login false 0 ≫= fun _ => mret false else mret true.

Definition test_login (index : Z) (is_create_has_account : bool) : cprog bool :=
  begun ← begin_login;
  if negb begun then mret false
  else
    let pkt := REQ_BOT_LOGIN_default <| REQ_BOT_LOGIN_id := str "bot_" ++ to_string index |>
                 <| REQ_BOT_LOGIN_pw := str "1234" |> <| REQ_BOT_LOGIN_name := str "Bot_" ++ to_string index |>
                 <| REQ_BOT_LOGIN_is_create := negb is_create_has_account |> in
    ok ← send (ClientMakeSendBuffer (P_REQ_BOT_LOGIN pkt));
    if negb ok then complete_login false 0 ≫= fun _ => mret false else mret true.

Definition logout : cprog unit :=
  idx ← get_account;
  _ ← send (ClientMakeSendBuffer (P_REQ_LOGOUT (REQ_LOGOUT_default <| REQ_LOGOUT_idx := idx |>)));
  mret ().

Definition send_get_room_info : cprog unit :=
  _ ← send (ClientMakeSendBuffer (P_REQ_GET_ROOM_INFO REQ_GET_ROOM_INFO_default));
  mret ().

Definition send_enter_room (room_id : Z) : cprog bool :=
  begun ← on_session begin_enter_cs;
  if negb begun then mret false
  else
    ok ← send (ClientMakeSendBuffer (P_REQ_ENTER_ROOM (REQ_ENTER_ROOM_default <| REQ_ENTER_ROOM_room_id := room_id |>)));
    if negb ok then complete_enter_room false (-1) ≫= fun _ => mret false else mret true.

Definition send_exit_room : cprog bool :=
  begun ← on_session begin_exit_cs;
  if negb begun then mret false
  else
    ok ← send (ClientMakeSendBuffer (P_REQ_EXIT_ROOM REQ_EXIT_ROOM_default));
    if negb ok then complete_exit_room false ≫= fun _ => mret false else mret true.

Definition count_send_chat : cprog unit := count (fun g => g <| st_send_chat := u64 (st_send_chat g + 1) |>).

Definition send_chat (message : wstring) (chat_state room_id : Z) : cprog unit :=
  let text := WStringToUtf8 message in
  if bool_decide (text = []) || (zlen text >? 256) then mret ()
  else
    let pkt := REQ_CHAT_default <| REQ_CHAT_message := text |> <| REQ_CHAT_chat_state := chat_state |>
                 <| REQ_CHAT_room_id := room_id |> in
    ok ← send (ClientMakeSendBuffer (P_REQ_CHAT pkt));
    if (ok : bool) then count_send_chat else mret ().

(** [room_id] is not used: the field of the packet keeps its default. *)
Definition send_whisper_chat (target_name message : wstring) (chat_state room_id : Z) : cprog unit :=
  let target := WStringToUtf8 target_name in
  let text := WStringToUtf8 message in
  if bool_decide (target = []) || (zlen target >? 32) || bool_decide (text = []) || (zlen text >? 256) then mret ()
  else
    let pkt := REQ_CHAT_default <| REQ_CHAT_message := text |> <| REQ_CHAT_chat_state := chat_state |>
                 <| REQ_CHAT_target_name := target |> in
    ok ← send (ClientMakeSendBuffer (P_REQ_CHAT pkt));
    if (ok : bool) then count_send_chat else mret ().

(** *** Handlers

    An integer of a packet is passed on as the C++ type of its accessor. *)

Definition Handle_ACK_LOGIN (pkt : ACK_LOGIN) : cprog bool :=
  complete_login (ACK_LOGIN_result pkt =? LOGIN_SUCCESS) (u64 (ACK_LOGIN_idx pkt)) ≫= fun _ => mret true.

Definition Handle_ACK_BOT_LOGIN (pkt : ACK_BOT_LOGIN) : cprog bool :=
  let success := ACK_BOT_LOGIN_result pkt =? LOGIN_SUCCESS in
  complete_login success (u64 (ACK_BOT_LOGIN_idx pkt)) ≫= fun _ =>
  if success then
    count (fun g => g <| st_login_success := u64 (st_login_success g + 1) |>) ≫= fun _ => mret true
  else if ACK_BOT_LOGIN_result pkt =? LOGIN_CREATE_HAS_ACCOUNT then
    bot_index ← get_bot_index;
    _ ← test_login (u32 bot_index) true;
    mret true
  else disconnect ≫= fun _ => mret true.

Definition Handle_ACK_LOGOUT (pkt : ACK_LOGOUT) : cprog bool := disconnect ≫= fun _ => mret true.

(** The room list is only printed. *)
Definition Handle_ACK_GET_ROOM_INFO (pkt : ACK_GET_ROOM_INFO) : cprog bool := mret true.

Definition Handle_ACK_ENTER_ROOM (pkt : ACK_ENTER_ROOM) : cprog bool :=
  complete_enter_room (ACK_ENTER_ROOM_result pkt =? ENTER_ROOM_SUCCESS) (i32 (ACK_ENTER_ROOM_room_id pkt)) ≫= fun _ => mret true.

Definition Handle_ACK_EXIT_ROOM (pkt : ACK_EXIT_ROOM) : cprog bool :=
  complete_exit_room (ACK_EXIT_ROOM_result pkt =? EXIT_ROOM_SUCCESS) ≫= fun _ => mret true.

Definition Handle_ACK_CHAT (pkt : ACK_CHAT) : cprog bool :=
  if ACK_CHAT_result pkt =? CHAT_ERROR_SUCCESS then
    count (fun g => g <| st_expected_chat_recv := u64 (st_expected_chat_recv g + u32 (ACK_CHAT_target_count pkt)) |>) ≫= fun _ =>
    mret true
  else mret true.

(** The message is only printed. *)
Definition Handle_ACK_SEND_CHAT (pkt : ACK_SEND_CHAT) : cprog bool :=
  count (fun g => g <| st_recv_chat := u64 (st_recv_chat g + 1) |>) ≫= fun _ => mret true.

Definition Handle_ACK_SEND_CONNECT_PING (pkt : ACK_SEND_CONNECT_PING) : cprog bool :=
  let pong := REQ_CONNECT_PONG_default <| REQ_CONNECT_PONG_server_tick := u64 (ACK_SEND_CONNECT_PING_server_tick pkt) |> in
  _ ← send (ClientMakeSendBuffer (P_REQ_CONNECT_PONG pong));
  mret true.

Definition Handle_ACK_SERVER_FULL (pkt : ACK_SERVER_FULL) : cprog bool :=
  set_account 0 ≫= fun _ => set_is_login false ≫= fun _ => disconnect ≫= fun _ => mret true.

(** [GPacketHandler] as [Init] fills it. *)
Definition client_registered (id : Z) : bool :=
  existsb (Z.eqb id)
    [PKT_ACK_LOGIN; PKT_ACK_BOT_LOGIN; PKT_ACK_LOGOUT; PKT_ACK_GET_ROOM_INFO; PKT_ACK_ENTER_ROOM;
     PKT_ACK_EXIT_ROOM; PKT_ACK_CHAT; PKT_ACK_SEND_CHAT; PKT_ACK_SEND_CONNECT_PING; PKT_ACK_SERVER_FULL].

Definition client_handler (pkt : Packet) : cprog bool :=
  match pkt with
  | P_ACK_LOGIN m => Handle_ACK_LOGIN m
  | P_ACK_BOT_LOGIN m => Handle_ACK_BOT_LOGIN m
  | P_ACK_LOGOUT m => Handle_ACK_LOGOUT m
  | P_ACK_GET_ROOM_INFO m => Handle_ACK_GET_ROOM_INFO m
  | P_ACK_ENTER_ROOM m => Handle_ACK_ENTER_ROOM m
  | P_ACK_EXIT_ROOM m => Handle_ACK_EXIT_ROOM m
  | P_ACK_CHAT m => Handle_ACK_CHAT m
  | P_ACK_SEND_CHAT m => Handle_ACK_SEND_CHAT m
  | P_ACK_SEND_CONNECT_PING m => Handle_ACK_SEND_CONNECT_PING m
  | P_ACK_SERVER_FULL m => Handle_ACK_SERVER_FULL m
  | _ => mret false
  end.

(** What [HandlePacket] does with the bytes before it calls a handler. *)
Definition client_parse (buffer : bytes) (len : Z) : option Packet :=
  if u64 len <? sizeof_PacketHeader then None
  else
    let header := PacketHeader_read buffer in
    if negb (hdr_size header =? len) || (hdr_id header >=? UINT16_MAX) then None
    else if negb (client_registered (hdr_id header)) then None
    else ParseFromArray (hdr_id header) (slice 4 (len - sizeof_PacketHeader) buffer).

Definition ClientHandlePacket (buffer : bytes) (len : Z) : cprog bool :=
  match client_parse buffer len with
  | None => mret false
  | Some pkt => client_handler pkt
  end.

(** *** Completions *)

(** The packet is recorded when it is handed to [HandlePacket]. *)
Definition record_packet (packet : bytes) : cprog unit :=
  atomic (fun _ s => Some (s <| c_handled := c_handled s ++ [packet] |>, tt)).

(** The [while (true)] loop: [Some processLen] when it is left by [break], [None] when the
    function returned after a [disconnect]. *)
Fixpoint process_loop (fuel : nat) (recv_buffer : bytes) (recv_len process_len : Z) : cprog (option Z) :=
  match fuel with
  | O => Crash
  | S fuel' =>
      let data_size := i32 (recv_len - process_len) in
      if u64 data_size <? sizeof_PacketHeader then mret (Some process_len)
      else
        let header := PacketHeader_read (drop (Z.to_nat process_len) recv_buffer) in
        if hdr_size header <? sizeof_PacketHeader then disconnect ≫= fun _ => mret None
        else if hdr_size header >? MAX_PACKET_SIZE then disconnect ≫= fun _ => mret None
        else if data_size <? hdr_size header then mret (Some process_len)
        else
          let packet := slice process_len (hdr_size header) recv_buffer in
          record_packet packet ≫= fun _ =>
          ok ← ClientHandlePacket packet (hdr_size header);
          if negb ok then disconnect ≫= fun _ => mret None
          else
            let process_len := i32 (process_len + hdr_size header) in
            connected ← is_connected;
            if negb connected then mret (Some process_len)
            else process_loop fuel' recv_buffer recv_len process_len
  end.

(** Every round of the loop consumes at least a header. *)
Definition process_recv (num_bytes : Z) : cprog unit :=
  connected ← is_connected;
  if negb connected then mret ()
  else if num_bytes =? 0 then disconnect
  else
    written ← on_session (fun x => let '(ok, rb) := RecvBuffer_on_write (i32 num_bytes) (ts_recv_buffer x) in
                                   (x <| ts_recv_buffer := rb |>, ok));
    if negb written then disconnect
    else
      recv_len ← load_session (fun x => RecvBuffer_data_size (ts_recv_buffer x));
      recv_buffer ← load_session (fun x => RecvBuffer_read_pos (ts_recv_buffer x));
      r ← process_loop (Z.to_nat recv_len + 1) recv_buffer recv_len 0;
      match r with
      | None => mret ()
      | Some process_len =>
          if (process_len <? 0) || (process_len >? recv_len) then disconnect
          else
            read ← on_session (fun x => let '(ok, rb) := RecvBuffer_on_read process_len (ts_recv_buffer x) in
                                        (x <| ts_recv_buffer := rb |>, ok));
            if negb read then disconnect
            else
              on_session (fun x => (x <| ts_recv_buffer := RecvBuffer_clean (ts_recv_buffer x) |>, tt)) ≫= fun _ =>
              _ ← register_recv;
              mret ()
      end.

Inductive ClientEventType := EVENT_RECV | EVENT_SEND.

(** [dispatch] takes the count as [INT32], the functions it calls as [uint32]. *)
Definition dispatch (event_type : ClientEventType) (numOfbyte : Z) : cprog unit :=
  match event_type with
  | EVENT_SEND => process_send (u32 numOfbyte)
  | EVENT_RECV => process_recv (u32 numOfbyte)
  end ≫= fun _ =>
  atomic (fun _ s => x ← finish_io (c_session s); Some (s <| c_session := x |> <| c_busy := c_busy s - 1 |>, tt)).

(** ** Runs *)

(** [start_worker_thread] starts at most 256 workers. *)
Definition WORKER_MAX : Z := 256.

(** The methods other threads call. *)
Inductive ApiCall :=
| CallConnect | CallRegisterIocp | CallStart | CallDisconnect
| CallLogin (is_create : bool) (id pw : bytes) (name : wstring)
| CallTestLogin (index : Z) (is_create_has_account : bool)
| CallWaitForLogin | CallWaitForDisconnect | CallLogout | CallGetRoomInfo
| CallEnterRoom (room_id : Z) | CallExitRoom
| CallChat (message : wstring) (chat_state room_id : Z)
| CallWhisper (target_name message : wstring) (chat_state room_id : Z).

Definition api_prog (call : ApiCall) : cprog unit :=
  match call with
  | CallConnect => connect ≫= fun _ => mret ()
  | CallRegisterIocp => register_iocp ≫= fun _ => mret ()
  | CallStart => start ≫= fun _ => mret ()
  | CallDisconnect => disconnect
  | CallLogin is_create id pw name => login is_create id pw name ≫= fun _ => mret ()
  | CallTestLogin index has => test_login index has ≫= fun _ => mret ()
  | CallWaitForLogin => wait_for_login ≫= fun _ => mret ()
  | CallWaitForDisconnect => wait_for_disconnect ≫= fun _ => mret ()
  | CallLogout => logout
  | CallGetRoomInfo => send_get_room_info
  | CallEnterRoom room_id => send_enter_room room_id ≫= fun _ => mret ()
  | CallExitRoom => send_exit_room ≫= fun _ => mret ()
  | CallChat message chat_state room_id => send_chat message chat_state room_id
  | CallWhisper target_name message chat_state room_id => send_whisper_chat target_name message chat_state room_id
  end.

(** Arguments of their C++ types; text that fits a [string], encoded as UTF-8. *)
Definition call_ok (call : ApiCall) : Prop :=
  match call with
  | CallLogin _ id pw name => string_wf id /\ string_wf pw /\ zlen name < 2 ^ 29
  | CallTestLogin index _ => 0 <= index < 2 ^ 32
  | CallEnterRoom room_id => 0 <= room_id < 2 ^ 8
  | CallChat _ chat_state room_id | CallWhisper _ _ chat_state room_id =>
      -2 ^ 31 <= chat_state < 2 ^ 31 /\ -2 ^ 31 <= room_id < 2 ^ 31
  | _ => True
  end.

(** What a completion does to the state, before a free worker that takes it from the port calls
    [dispatch]: the system has sent a prefix of the bytes it was given, or has stored bytes
    behind [write_pos()]; no bytes is also how a failed operation is reported. *)
Inductive completion : Client -> Client -> cprog unit -> Prop :=
| complete_send s bs n :
    c_iocp s = true -> c_busy s < WORKER_MAX -> c_send s = Some bs -> 0 <= n <= zlen bs -> n < 2 ^ 32 ->
    completion s (s <| c_busy := c_busy s + 1 |> <| c_send := None |> <| c_sent := c_sent s ++ take (Z.to_nat n) bs |>) (dispatch EVENT_SEND (i32 n))
| complete_recv s len chunk :
    c_iocp s = true -> c_busy s < WORKER_MAX -> c_recv s = Some len -> zlen chunk <= len -> byte_stream chunk ->
    completion s
      (s <| c_busy := c_busy s + 1 |> <| c_recv := None |> <| c_received := c_received s ++ chunk |>
         <| c_session ::= fun x => x <| ts_recv_buffer ::= RecvBuffer_os_store chunk |> |>)
      (dispatch EVENT_RECV (i32 (zlen chunk))).

(** The environment: completions, and calls of methods on other threads. *)
Inductive client_env : Client -> Client -> cprog unit -> Prop :=
| env_completion s s' p : completion s s' p -> client_env s s' p
| env_call s call : call_ok call -> client_env s s (api_prog call).
End ClientPackets.
