(* ===== verification/ClientSafety.v ===== *)
(** * The invariant of the test client

    What holds between any two actions of any threads of a session ([Inv]), and that every
    method keeps it ([client_env_ok]).  A thread owns tokens:

    - [TSend]: it is the one thread that may register the next send;
    - [TDone n]: it processes the completion of [n] bytes of the send that was in flight;
    - [TFail]: its send could not be registered and it is about to disconnect;
    - [TRecv rb u]: it is the one thread that may use the receive buffer, which is [rb], and
      [u] is what has been received and not yet handed to [HandlePacket];
    - [TIo]: it is a worker in [dispatch] that has not called [finish_io] yet;
    - [TOpened], [TClosed]: it has seen that the session was connected, that it is
      disconnected. *)

From stdpp Require Import base list numbers option relations.
From Stdlib Require Import ZArith Lia.
From Stdlib Require String.
From S2P Require Import Prelude Interleaving Buffers SendEvents ClientEvents Framing Wire Protocol Packets Config Sessions Clients.

Import String.StringSyntax.

Inductive Token :=
| TSend | TDone (n : Z) | TFail | TRecv (rb : RecvBuffer) (unread : bytes) | TIo | TOpened | TClosed.

Definition sends : list Token -> list unit := omap (fun k => match k with TSend => Some tt | _ => None end).
Definition dones : list Token -> list Z := omap (fun k => match k with TDone n => Some n | _ => None end).
Definition fails : list Token -> list unit := omap (fun k => match k with TFail => Some tt | _ => None end).
Definition recvs : list Token -> list (RecvBuffer * bytes) :=
  omap (fun k => match k with TRecv rb u => Some (rb, u) | _ => None end).
Definition ios : list Token -> list unit := omap (fun k => match k with TIo => Some tt | _ => None end).
Definition opens : list Token -> list unit := omap (fun k => match k with TOpened => Some tt | _ => None end).
Definition closes : list Token -> list unit := omap (fun k => match k with TClosed => Some tt | _ => None end).

Section ClientSafety.
Context {utf8 : Utf8Check} {codec : PacketCodec} {laws : PacketCodecLaws codec}.
Context {api : StringApi} {string_laws : StringApiLaws api}.

(** A buffer that holds a request the server has a handler for. *)
Definition request_buffer (sb : SendBuffer) : Prop :=
  exists p, packet_wf p /\ registered (packet_id p) = true /\ ByteSizeLong p <= 65531 /\ MakeSendBuffer p = Some sb.

(** The threads that are responsible for the send flag, and the send in flight. *)
Definition senders (t : list Token) (s : Client) : Z :=
  zlen (sends t) + zlen (dones t) + zlen (fails t) + flying (c_send s).

(** The completed bytes of the send event that its thread has not consumed yet. *)
Definition taken (t : list Token) : Z := foldr Z.add 0 (dones t).

Record SendInv (t : list Token) (s : Client) : Prop := {
  si_one : senders t s <= 1;
  si_flag : ts_is_send_register (c_session s) = if ts_is_connect (c_session s) then senders t s =? 1 else false;
  si_event : ClientEvent_wf (ts_send_event (c_session s));
  si_clear : zlen (sends t) + zlen (dones t) + flying (c_send s) = 0 -> ts_send_event (c_session s) = SendEvent_new;
  si_flight bs : c_send s = Some bs -> bs `prefix_of` SendEvent_pending (ts_send_event (c_session s));
  si_done : Forall (fun n => 0 <= n < 2 ^ 32 /\ n <= zlen (SendEvent_pending (ts_send_event (c_session s)))) (dones t);
  si_queue : Forall client_buf_ok (ts_send_queue (c_session s));
  si_requests : Forall request_buffer (c_accepted s);
  si_count : zlen (se_send_Buffers (ts_send_event (c_session s))) + zlen (ts_send_queue (c_session s)) <= zlen (c_accepted s);
  si_drop : ts_is_connect (c_session s) = false -> ts_send_queue (c_session s) = [];
  si_fresh : ts_is_connect (c_session s) = false -> ts_is_disconnect (c_session s) = false ->
    senders t s = 0 /\ c_accepted s = [];
  si_idle : senders t s = 0 -> ts_send_queue (c_session s) = [];
  si_order : exists rest,
    payloads (c_accepted s) =
      c_sent s ++ drop (Z.to_nat (taken t)) (SendEvent_pending (ts_send_event (c_session s))) ++ rest /\
    (ts_is_connect (c_session s) = true -> fails t = [] -> rest = payloads (ts_send_queue (c_session s)))
}.

Record RecvInv (t : list Token) (s : Client) : Prop := {
  ri_one : zlen (recvs t) + flying (c_recv s) <= 1;
  ri_started : ts_recv_started (c_session s) = false ->
    zlen (recvs t) + flying (c_recv s) = 0 /\ c_received s = [] /\ c_handled s = [] /\
    RecvBuffer_data (ts_recv_buffer (c_session s)) = [] /\ 65536 <= RecvBuffer_free_size (ts_recv_buffer (c_session s));
  ri_opened : ts_recv_started (c_session s) = true -> ts_is_connect (c_session s) || ts_is_disconnect (c_session s) = true;
  ri_buffer : RecvBuffer_wf (ts_recv_buffer (c_session s)) /\ rb_Buffer_size (ts_recv_buffer (c_session s)) = 65536;
  ri_known : Forall (fun k => ts_recv_buffer (c_session s) = fst k /\ c_received s = concat (c_handled s) ++ snd k) (recvs t);
  ri_flight len : c_recv s = Some len ->
    len = RecvBuffer_free_size (ts_recv_buffer (c_session s)) /\ 65536 <= len /\
    c_received s = concat (c_handled s) ++ RecvBuffer_data (ts_recv_buffer (c_session s)) /\
    incomplete (RecvBuffer_data (ts_recv_buffer (c_session s)));
  ri_bytes : byte_stream (c_received s);
  ri_handled : Forall is_packet (c_handled s) /\ concat (c_handled s) `prefix_of` c_received s
}.

Record IoInv (t : list Token) (s : Client) : Prop := {
  io_pending : ts_pending_io (c_session s) = zlen (ios t) + flying (c_send s) + flying (c_recv s);
  io_busy : c_busy s = zlen (ios t) /\ c_busy s <= WORKER_MAX;
  io_open : ts_is_connect (c_session s) = true ->
    ts_is_disconnect (c_session s) = false /\ ts_socket (c_session s) <> INVALID_SOCKET;
  io_closed : ts_is_connect (c_session s) = false -> ts_socket (c_session s) = INVALID_SOCKET;
  io_connects : st_connect_success (c_stats s) = if ts_is_connect (c_session s) || ts_is_disconnect (c_session s) then 1 else 0;
  io_disconnects : st_disconnect (c_stats s) = if ts_is_disconnect (c_session s) then 1 else 0;
  io_opened : Forall (fun _ => ts_is_connect (c_session s) || ts_is_disconnect (c_session s) = true) (opens t);
  io_closes : Forall (fun _ => ts_is_disconnect (c_session s) = true /\ ts_is_connect (c_session s) = false) (closes t)
}.

(** The state the requests and answers change; without a connection it is that of a fresh
    session. *)
Record AppInv (x : TestSession) : Prop := {
  ap_inert : ts_is_connect x = false ->
    ts_is_login x = false /\ ts_account_idx x = 0 /\ ts_room_id x = -1 /\ ts_login_pending x = false /\
    ts_room_request x = RR_NONE /\ ts_test_session_state x = (if ts_is_disconnect x then TS_DISCONNECTED else TS_NONE);
  ap_room : match ts_room_request x with
            | RR_NONE => True | RR_ENTER => ts_room_id x < 0 | RR_EXIT => 0 <= ts_room_id x
            end;
  ap_types : 0 <= ts_account_idx x < 2 ^ 64 /\ -2 ^ 31 <= ts_room_id x < 2 ^ 31 /\ -2 ^ 31 <= ts_bot_index x < 2 ^ 31
}.

Record Inv (t : list Token) (s : Client) : Prop := {
  inv_send : SendInv t s;
  inv_recv : RecvInv t s;
  inv_io : IoInv t s;
  inv_app : AppInv (c_session s)
}.

(** Fewer than 2^40 buffers have been queued. *)
Definition lim (s : Client) : Prop := zlen (c_accepted s) < 2 ^ 40.

Definition closed (s : Client) : Prop :=
  ts_is_disconnect (c_session s) = true /\ ts_is_connect (c_session s) = false.

(** What every action guarantees: after the disconnect nothing is sent, received or queued
    any more, and a session stays associated with its port. *)
Definition G (s s' : Client) : Prop :=
  (closed s -> closed s' /\ c_send s' = c_send s /\ c_recv s' = c_recv s /\ c_accepted s' = c_accepted s) /\
  (c_iocp s = true -> c_iocp s' = true).

(** ** The invariant does not depend on the order of the threads *)

#[global] Instance sends_proper : Proper ((≡ₚ) ==> (≡ₚ)) sends := omap_Permutation _.
#[global] Instance dones_proper : Proper ((≡ₚ) ==> (≡ₚ)) dones := omap_Permutation _.
#[global] Instance fails_proper : Proper ((≡ₚ) ==> (≡ₚ)) fails := omap_Permutation _.
#[global] Instance recvs_proper : Proper ((≡ₚ) ==> (≡ₚ)) recvs := omap_Permutation _.
#[global] Instance ios_proper : Proper ((≡ₚ) ==> (≡ₚ)) ios := omap_Permutation _.
#[global] Instance opens_proper : Proper ((≡ₚ) ==> (≡ₚ)) opens := omap_Permutation _.
#[global] Instance closes_proper : Proper ((≡ₚ) ==> (≡ₚ)) closes := omap_Permutation _.

#[global] Instance taken_proper : Proper ((≡ₚ) ==> (=)) taken.
Proof.
  intros l k H. unfold taken. apply dones_proper in H.
  induction H; simpl; lia || congruence.
Qed.

#[global] Instance senders_proper : Proper ((≡ₚ) ==> (=) ==> (=)) senders.
Proof. intros l k H s s' <-. unfold senders. by rewrite H. Qed.

Lemma Inv_weak t t' s : t ≡ₚ t' -> Inv t s -> Inv t' s.
Proof.
  intros H [[] [] [] ?]. constructor; [constructor|constructor|constructor|]; try done.
  all: try (rewrite <- H; done).
  - destruct si_order0 as (rest & E & Hr). exists rest. split; [by rewrite <- H|].
    intros Hc Hf. apply Hr; [done|]. eapply nil_proper; [|exact Hf]. by rewrite H.
Qed.

#[global] Instance Inv_proper : Proper ((≡ₚ) ==> (=) ==> iff) Inv.
Proof. intros t t' H s s' <-. split; apply Inv_weak; [done|by symmetry]. Qed.

(** ** Actions on tokens *)

Lemma sends_cons k t : sends (k :: t) = match k with TSend => tt :: sends t | _ => sends t end.
Proof. by destruct k. Qed.
Lemma dones_cons k t : dones (k :: t) = match k with TDone n => n :: dones t | _ => dones t end.
Proof. by destruct k. Qed.
Lemma fails_cons k t : fails (k :: t) = match k with TFail => tt :: fails t | _ => fails t end.
Proof. by destruct k. Qed.
Lemma recvs_cons k t : recvs (k :: t) = match k with TRecv rb u => (rb, u) :: recvs t | _ => recvs t end.
Proof. by destruct k. Qed.
Lemma ios_cons k t : ios (k :: t) = match k with TIo => tt :: ios t | _ => ios t end.
Proof. by destruct k. Qed.
Lemma opens_cons k t : opens (k :: t) = match k with TOpened => tt :: opens t | _ => opens t end.
Proof. by destruct k. Qed.
Lemma closes_cons k t : closes (k :: t) = match k with TClosed => tt :: closes t | _ => closes t end.
Proof. by destruct k. Qed.

Create HintDb tokens.
#[local] Hint Rewrite sends_cons dones_cons fails_cons recvs_cons ios_cons opens_cons closes_cons @zlen_cons : tokens.

Lemma taken_nil t : dones t = [] -> taken t = 0.
Proof. unfold taken. by intros ->. Qed.

(** Lengths of token lists are not negative. *)
Ltac token_bounds t :=
  pose proof (zlen_nonneg (sends t)); pose proof (zlen_nonneg (dones t)); pose proof (zlen_nonneg (fails t));
  pose proof (zlen_nonneg (recvs t)); pose proof (zlen_nonneg (ios t)).

(** Computes the members of an updated state. *)
Tactic Notation "fields" "in" "*" :=
  cbn [c_session c_stats c_iocp c_send c_recv c_busy c_accepted c_sent c_received c_handled
       ts_is_connect ts_is_login ts_is_disconnect ts_recv_started ts_account_idx ts_room_id
       ts_test_session_state ts_bot_index ts_login_pending ts_room_request ts_socket ts_recv_buffer
       ts_send_queue ts_is_send_register ts_send_event ts_pending_io] in *.
Tactic Notation "fields" :=
  cbn [upd andb negb c_session c_stats c_iocp c_send c_recv c_busy c_accepted c_sent c_received c_handled
       ts_is_connect ts_is_login ts_is_disconnect ts_recv_started ts_account_idx ts_room_id
       ts_test_session_state ts_bot_index ts_login_pending ts_room_request ts_socket ts_recv_buffer
       ts_send_queue ts_is_send_register ts_send_event ts_pending_io].

(** Takes a state and its invariant apart. *)
Ltac open_inv t s HI :=
  destruct s as [[conn lg disc rst acct room tst bot lp rr sock rbuf q flag ev pio]
                 g iocp out inc busy acc sent rec hd];
  destruct HI as [[Hone Hflag Hev Hclear Hflight Hdone Hq Hreqs Hcount Hdrop Hfresh Hidle Horder]
                  [Rone Rstart Ropened Rbuf Rknown Rflight Rbytes Rhandled]
                  [Ipend Ibusy Iopen Iclosed Iconn Idisc Iopened Icloses] Happ];
  cbn [app] in *; unfold senders, taken, WORKER_MAX in *;
  fields in *;
  token_bounds t.

(** Builds the invariant of a state whose requests and answers are those of [Happ]. *)
Ltac build_inv :=
  constructor; [constructor|constructor|constructor|
    match goal with H : AppInv _ |- _ => destruct H as [Hinert Hroom Htypes]; fields in *; constructor end];
  unfold senders, taken, WORKER_MAX; cbn [app]; autorewrite with tokens; fields; try done.

Abbreviation csafe := (safe Inv G lim).
Abbreviation cneutral := (neutral Inv G lim).

Lemma G_refl s : G s s.
Proof. by split. Qed.

Ltac solve_G :=
  split; [intros [Hcl1 Hcl2]; fields in *; first [discriminate Hcl1|discriminate Hcl2|repeat split; fields; done]|done].

(** *** Actions on the state of requests and answers *)

(** Everything else of the session is left as it is. *)
Definition same_io (x x' : TestSession) : Prop :=
  ts_is_connect x' = ts_is_connect x /\ ts_is_disconnect x' = ts_is_disconnect x /\
  ts_recv_started x' = ts_recv_started x /\ ts_socket x' = ts_socket x /\ ts_recv_buffer x' = ts_recv_buffer x /\
  ts_send_queue x' = ts_send_queue x /\ ts_is_send_register x' = ts_is_send_register x /\
  ts_send_event x' = ts_send_event x /\ ts_pending_io x' = ts_pending_io x.

Lemma neutral_on_session {B : Set} (f : TestSession -> TestSession * B) :
  (forall x, AppInv x -> same_io x (fst (f x)) /\ AppInv (fst (f x))) -> cneutral (on_session f).
Proof.
  intros Hf. apply safe_atomic. intros o s fr HI.
  destruct (Hf (c_session s) (inv_app _ _ HI)) as [Hio Happ].
  destruct (f (c_session s)) as [x' b]. simpl in *. exists (s <| c_session := x' |>), b.
  destruct s as [x g iocp out inc busy acc sent rec hd].
  destruct x, x'. unfold same_io in Hio. simpl in Hio. destruct_and!. simplify_eq.
  split; [done|]. split; [by split|]. intros _. exists []. split; [|done].
  destruct HI as [[] [] [] ?]. constructor; [constructor|constructor|constructor|]; done.
Qed.

Lemma neutral_load {B : Set} (f : TestSession -> B) : cneutral (load_session f).
Proof. apply neutral_on_session. intros x Hx. by split; [repeat split|]. Qed.

(** Counters other than those of connections. *)
Lemma neutral_count f :
  (forall g, st_connect_success (f g) = st_connect_success g /\ st_disconnect (f g) = st_disconnect g) ->
  cneutral (count f).
Proof.
  intros Hf. apply safe_atomic. intros o s fr HI. exists (s <| c_stats ::= f |>), tt.
  split; [done|]. split; [by destruct s; split|]. intros _. exists []. split; [|done].
  destruct (Hf (c_stats s)) as [H1 H2]. destruct s. destruct HI as [[] [] [] ?]. simpl in *.
  constructor; [constructor|constructor|constructor|]; simpl; try done; by rewrite ?H1, ?H2.
Qed.

(** *** Disconnecting *)

Lemma client_disconnect_inv t s :
  Inv t s -> Inv t (disconnect_cs s) /\ G s (disconnect_cs s) /\ c_accepted (disconnect_cs s) = c_accepted s /\
             ts_is_connect (c_session (disconnect_cs s)) = false.
Proof.
  intros HI. unfold disconnect_cs. destruct (ts_is_connect (c_session s)) eqn:Ec; cbn [negb];
    [|split; [done|by split; [apply G_refl|]]].
  open_inv t s HI. subst conn. destruct (Iopen eq_refl) as [-> Hs].
  destruct Happ as [_ Hroom Htypes]. cbn in *.
  rewrite (proj2 (Z.eqb_neq _ _) Hs). cbn. split; [|split_and!; [split; [by intros []|done]|done|done]].
  constructor; [constructor|constructor|constructor|constructor]; cbn; try done.
  - rewrite zlen_nil. pose proof (zlen_nonneg q). lia.
  - destruct Horder as (rest & E & _). by exists rest.
  - by rewrite Idisc.
  - by apply Forall_true.
  - split_and!; lia.
Qed.

(** A thread whose send could not be registered has done its part once the session is
    disconnected. *)
Lemma drop_fail t s : Inv (TFail :: t) s -> ts_is_connect (c_session s) = false -> Inv t s.
Proof.
  intros HI Ec. open_inv t s HI. subst conn. autorewrite with tokens in *.
  constructor; [constructor|constructor|constructor|]; unfold senders; cbn; try done.
  - lia.
  - intros _ Hd. destruct (Hfresh eq_refl Hd) as [Hz ?]. exfalso. revert Hz. autorewrite with tokens. destruct out; cbn; lia.
  - intros _. by apply Hdrop.
  - destruct Horder as (rest & E & _). by exists rest.
Qed.

Lemma neutral_disconnect : cneutral disconnect.
Proof.
  apply safe_atomic. intros o s fr HI. destruct (client_disconnect_inv _ _ HI) as (HI' & HG & _ & _). eauto 10.
Qed.

Lemma disconnect_fail : csafe disconnect (fun _ t => t = []) [TFail].
Proof.
  apply safe_atomic. intros o s fr HI. destruct (client_disconnect_inv _ _ HI) as (HI' & HG & _ & Hc).
  eexists _, _. split; [done|]. split; [done|]. intros _. exists []. split; [|done]. by apply drop_fail.
Qed.

(** *** Requests and answers *)

Lemma neutral_begin_login : cneutral begin_login.
Proof.
  apply neutral_on_session. intros x Hx. unfold begin_login_cs.
  destruct (_ || _ || _)%bool eqn:E; [by split; [repeat split|]|]. bool_lia.
  split; [repeat split|]. destruct Hx as [Hi Hr Ht]. constructor; cbn; try done. congruence.
Qed.

Lemma neutral_complete_login success idx : 0 <= idx < 2 ^ 64 -> cneutral (complete_login success idx).
Proof.
  intros Hidx. apply neutral_on_session. intros x [Hi Hr Ht]. unfold complete_login_cs. cbn [fst].
  destruct (ts_is_connect x) eqn:E; (split; [repeat split|]); constructor; cbn; try done; rewrite ?E; try done.
  - split; [|tauto]. destruct success; lia.
  - intros _. destruct (Hi eq_refl) as (? & ? & ? & ? & ? & ?). done.
Qed.

Lemma neutral_begin_enter : cneutral (on_session begin_enter_cs).
Proof.
  apply neutral_on_session. intros x Hx. unfold begin_enter_cs.
  destruct (_ || _)%bool eqn:E; [by split; [repeat split|]|]. bool_lia.
  split; [repeat split|]. destruct Hx as [Hi Hr Ht]. constructor; cbn; try done. congruence.
Qed.

Lemma neutral_begin_exit : cneutral (on_session begin_exit_cs).
Proof.
  apply neutral_on_session. intros x Hx. unfold begin_exit_cs.
  destruct (_ || _)%bool eqn:E; [by split; [repeat split|]|]. bool_lia.
  split; [repeat split|]. destruct Hx as [Hi Hr Ht]. constructor; cbn; try done. congruence.
Qed.

Lemma neutral_complete_enter success room_id :
  -2 ^ 31 <= room_id < 2 ^ 31 -> cneutral (complete_enter_room success room_id).
Proof.
  intros Hid. apply neutral_on_session. intros x Hx. unfold complete_enter_room_cs. cbn [fst].
  pose proof Hx as [Hi Hr Ht]. destruct (ts_room_request x) eqn:E; try by split; [repeat split|].
  destruct (ts_is_connect x) eqn:Ec; [|by destruct (Hi eq_refl) as (_ & _ & _ & _ & ? & _)].
  destruct success; cbn [andb]; (split; [repeat split|]); constructor; cbn; try done; rewrite ?Ec; try done. lia.
Qed.

Lemma neutral_complete_exit success : cneutral (complete_exit_room success).
Proof.
  apply neutral_on_session. intros x Hx. unfold complete_exit_room_cs. cbn [fst].
  pose proof Hx as [Hi Hr Ht]. destruct (ts_room_request x) eqn:E; try by split; [repeat split|].
  destruct (ts_is_connect x) eqn:Ec; [|by destruct (Hi eq_refl) as (_ & _ & _ & _ & ? & _)].
  destruct success; cbn [andb]; (split; [repeat split|]); constructor; cbn; try done; rewrite ?Ec; try done. lia.
Qed.

Lemma neutral_set_account : cneutral (set_account 0).
Proof.
  apply neutral_on_session. intros x [Hi Hr Ht]. cbn [fst]. split; [repeat split|]. constructor; cbn; try done.
  - intros E. destruct (Hi E) as (? & ? & ? & ? & ? & ?). done.
  - lia.
Qed.

Lemma neutral_set_is_login : cneutral (set_is_login false).
Proof.
  apply neutral_on_session. intros x [Hi Hr Ht]. cbn [fst]. split; [repeat split|]. constructor; cbn; try done.
  intros E. destruct (Hi E) as (? & ? & ? & ? & ? & ?). done.
Qed.

(** *** Connecting *)

Lemma neutral_connect : cneutral connect.
Proof.
  apply safe_atomic. intros o s fr HI. unfold connect_cs.
  destruct (ts_is_connect (c_session s) || ts_is_disconnect (c_session s))%bool eqn:E.
  { eexists _, _. split; [done|]. split; [apply G_refl|]. eauto. }
  apply orb_false_iff in E as [Ec Ed].
  destruct (o 0%nat =? INVALID_SOCKET) eqn:Es; bool_lia.
  { eexists _, _. split; [done|]. split; [apply G_refl|]. eauto. }
  open_inv fr s HI. subst conn disc. destruct (Hfresh eq_refl eq_refl) as [Hz ->].
  destruct (o 1%nat =? 0); cbn [negb]; eexists _, _; (split; [done|]); (split; [by split; [intros [? ?]|]|]);
    intros _; exists []; (split; [|done]).
  - destruct Happ as [Hi Hr Ht]. cbn in *.
    constructor; [constructor|constructor|constructor|constructor]; unfold senders; cbn; try done.
    + rewrite Hz. done.
    + destruct Horder as (rest & E & _). exists []. rewrite Hdrop by done. split; [|done].
      rewrite app_nil_r. unfold payloads in E. simpl in E.
      destruct sent; [|done]. destruct (drop _ _); [|done]. done.
    + by rewrite Iconn.
    + by apply Forall_true.
    + eapply Forall_impl; [exact Icloses|]. by intros _ [? ?].
  - constructor; [constructor|constructor|constructor|]; unfold senders; cbn; done.
Qed.

Lemma neutral_register_iocp : cneutral register_iocp.
Proof.
  apply safe_atomic. intros o s fr HI. unfold register_iocp_cs.
  destruct (negb _ || _)%bool eqn:E.
  { eexists _, _. split; [done|]. split; [apply G_refl|]. eauto. }
  destruct (negb (o 0%nat =? 0)).
  { eexists _, _. split; [done|]. split; [apply G_refl|]. eauto. }
  open_inv fr s HI. bool_lia. eexists _, _. split; [done|].
  split; [by split; [intros [? ?]; cbn in *; congruence|]|]. intros _. exists []. split; [|done].
  constructor; [constructor|constructor|constructor|]; unfold senders; cbn; done.
Qed.

(** *** Sending *)

Lemma request_buffer_ok sb : request_buffer sb -> client_buf_ok sb.
Proof.
  intros (p & Hp & _ & Hsz & Hm). pose proof (packet_wf_sized p Hp) as Hs. pose proof (codec_bound p Hs) as [Hz _].
  destruct (codec_serialize p (ByteSizeLong p) Hs) as (bs & Hb & Hl); [lia..|].
  rewrite (MakeSendBuffer_serialized p bs) in Hm by lia || done. injection Hm as <-.
  unfold client_buf_ok, SendBuffer_wf. cbn. rewrite !zlen_cons. lia.
Qed.

(** The critical section of [send]: the thread that sets the flag may register. *)
Lemma send_cs_safe sb :
  request_buffer sb ->
  csafe (atomic (fun _ s => Some (send_cs sb s)))
    (fun r t => t = if fst r && snd r then [TSend] else []) [].
Proof.
  intros Hreq. pose proof (request_buffer_ok sb Hreq) as Hsb. apply safe_atomic. intros o s fr HI. unfold send_cs.
  destruct (ts_is_connect (c_session s)) eqn:Ec; cbn [negb].
  2: { eexists _, _. split; [done|]. split; [apply G_refl|]. intros _. by exists []. }
  eexists _, _. split; [done|]. split.
  { split; [by intros [? ?]; congruence|done]. }
  intros Hl. open_inv fr s HI. subst conn. cbn [fst snd andb].
  exists (if flag then [] else [TSend]). split; [|by destruct flag].
  assert (if flag then True else zlen (sends fr) + zlen (dones fr) + zlen (fails fr) + flying out = 0) as Hzero.
  { destruct flag; [done|]. symmetry in Hflag. bool_lia. unfold flying in *. destruct out; lia. }
  destruct flag; cbn [negb app] in *.
  - build_inv.
    + by apply Forall_app_2; [|constructor].
    + by apply Forall_app_2; [|constructor].
    + rewrite !zlen_app. change (zlen [sb]) with 1. lia.
    + intros Hz. symmetry in Hflag. bool_lia. lia.
    + destruct Horder as (rest & E & Hr). exists (rest ++ SendBuffer_payload sb).
      rewrite !payloads_snoc, E, <- !app_assoc. split; [done|]. intros _ Hf. by rewrite Hr.
  - assert (flying out = 0 /\ zlen (sends fr) = 0 /\ zlen (dones fr) = 0 /\ zlen (fails fr) = 0) as (E1 & E2 & E3 & E4).
    { unfold flying in *. destruct out; lia. }
    destruct out; [done|].
    build_inv.
    + lia.
    + by rewrite E2, E3, E4.
    + lia.
    + by apply Forall_app_2; [|constructor].
    + by apply Forall_app_2; [|constructor].
    + rewrite !zlen_app. change (zlen [sb]) with 1. lia.
    + lia.
    + destruct Horder as (rest & E & Hr). exists (rest ++ SendBuffer_payload sb).
      rewrite !payloads_snoc, E, <- !app_assoc. split; [done|]. intros _ Hf. by rewrite Hr.
Qed.

(** The event takes over the queue when it has nothing left to send. *)
Lemma push_queue ev q :
  ClientEvent_wf ev -> SendEvent_has_pending_data ev = false -> Forall client_buf_ok q ->
  zlen (se_send_Buffers ev) + zlen q <= 2 ^ 41 ->
  let ev1 := foldl (fun ev b => SendEvent_push b ev) ev q in
  ClientEvent_wf ev1 /\ SendEvent_pending ev1 = payloads q /\ se_send_Buffers ev1 = se_send_Buffers ev ++ q.
Proof.
  intros Hwf Hp Hq Hn ev1. pose proof Hwf as [Hb Hc Hi Ho].
  assert (SendEvent_rest ev = [] /\ se_buffer_index ev = zlen (se_send_Buffers ev)) as [Hrest Hidx].
  { unfold SendEvent_has_pending_data in Hp. bool_lia. unfold SendEvent_rest. split; [|lia].
    apply drop_ge. unfold zlen in *. lia. }
  rewrite Hrest in Ho.
  assert (ev1 = mkSendEvent (se_send_Buffers ev ++ q) (se_buffer_index ev) (se_buffer_offset ev)) as ->.
  { subst ev1. clear. revert ev. induction q as [|b q IH]; intros [bs i o]; simpl; [by rewrite app_nil_r|].
    rewrite IH. unfold SendEvent_push. simpl. by rewrite <- app_assoc. }
  assert (SendEvent_rest (mkSendEvent (se_send_Buffers ev ++ q) (se_buffer_index ev) (se_buffer_offset ev)) = q) as Hr1.
  { unfold SendEvent_rest. simpl. rewrite Hidx. unfold zlen. rewrite Nat2Z.id. apply drop_app_length. }
  split_and!; [|unfold SendEvent_pending; rewrite Hr1; simpl; rewrite Ho; done|done].
  constructor; rewrite ?Hr1; simpl.
  - by apply Forall_app_2.
  - rewrite zlen_app. lia.
  - rewrite zlen_app. pose proof (zlen_nonneg q). lia.
  - rewrite Ho. destruct Hq as [|b ? [_ ?] _]; [done|lia].
Qed.

Lemma wsabufs_none ev : zlen (SendEvent_build_wsabufs ev) = 0 -> ClientEvent_wf ev -> SendEvent_pending ev = [].
Proof. intros H Hwf. rewrite <- client_wsabufs by done. by rewrite (zlen_zero _ H). Qed.

(** With the token of the sender nobody else has a part in sending. *)
Lemma only_sender (a b c : Z) {A} (k : option A) :
  0 <= a -> 0 <= b -> 0 <= c -> a + 1 + b + c + flying k <= 1 -> a = 0 /\ b = 0 /\ c = 0 /\ k = None.
Proof. destruct k; simpl; intros; split_and!; lia || done. Qed.

Lemma finish_begin x : 0 <= ts_pending_io x < 2 ^ 30 -> finish_io (begin_io x) = Some x.
Proof.
  intros H. unfold finish_io, begin_io. destruct x. cbn in *. rewrite (i32_small (_ + 1)), Z_gtb_true by lia.
  do 2 f_equal. rewrite i32_small; lia.
Qed.

(** The event and the queue with which [register_send] goes on. *)
Lemma refill ev q acc :
  ClientEvent_wf ev -> Forall client_buf_ok q -> zlen (se_send_Buffers ev) + zlen q <= zlen (A := SendBuffer) acc ->
  zlen acc < 2 ^ 40 ->
  exists ev1 q1,
    (if negb (SendEvent_has_pending_data ev)
     then (foldl (fun ev b => SendEvent_push b ev) ev q, []) else (ev, q)) = (ev1, q1) /\
    ClientEvent_wf ev1 /\ Forall client_buf_ok q1 /\ zlen (se_send_Buffers ev1) + zlen q1 <= zlen acc /\
    SendEvent_pending ev1 ++ payloads q1 = SendEvent_pending ev ++ payloads q /\
    (zlen (SendEvent_build_wsabufs ev1) = 0 -> q1 = []).
Proof.
  intros Hev Hq Hc Hl. destruct (SendEvent_has_pending_data ev) eqn:Hp; cbn [negb].
  { exists ev, q. split_and!; [done..|]. intros Hw. apply wsabufs_none in Hw; [|done].
    by apply (client_has_pending ev Hev) in Hp. }
  destruct (push_queue ev q Hev Hp Hq ltac:(lia)) as (Hwf & Hpend & Hbufs).
  eexists _, _. split; [done|]. rewrite Hpend, Hbufs, zlen_app, zlen_nil. split_and!; [done|constructor|lia| |done].
  assert (SendEvent_pending ev = []) as ->; [|unfold payloads; simpl; by rewrite app_nil_r].
  destruct (SendEvent_pending ev) eqn:E; [done|]. rewrite (proj2 (client_has_pending ev Hev)) in Hp; [done|]. by rewrite E.
Qed.

Lemma register_send_cs_safe :
  csafe (atomic register_send_cs)
    (fun r t => t = match r with Returns _ => [] | MustDisconnect => [TFail] end) [TSend].
Proof.
  apply safe_atomic. intros o s fr HI. unfold register_send_cs. open_inv fr s HI. autorewrite with tokens in *.
  cbn [foldr] in *. unfold lim. fields.
  destruct (only_sender (zlen (sends fr)) (zlen (dones fr)) (zlen (fails fr)) out) as (E1 & E2 & E3 & ->); [lia..|]. cbn [flying] in *.
  apply zlen_zero in E1, E2, E3. rewrite E2 in Horder, Hdone. cbn [foldr] in Horder. change (Z.to_nat 0) with 0%nat in Horder.
  rewrite drop_0, ?E3 in Horder. destruct Horder as (rest & Eorder & Hrest).
  destruct conn; fields; cycle 1.
  { eexists _, _. split; [done|]. split; [solve_G|]. intros Hl. exists []. split; [|done].
    rewrite client_clear_new. build_inv; rewrite ?E1, ?E2, ?E3; try done.
    - change (zlen (se_send_Buffers SendEvent_new)) with 0. rewrite Hdrop in * by done. rewrite zlen_nil in *. pose proof (zlen_nonneg (se_send_Buffers ev)). lia.
    - intros _ Hd. destruct (Hfresh eq_refl Hd). lia.
    - intros _. by apply Hdrop.
    - rewrite pending_new, drop_nil. exists (SendEvent_pending ev ++ rest). by split. }
  rewrite (Hrest eq_refl eq_refl) in Eorder. clear Hrest. rewrite E1, E2, E3 in Hflag. cbn in Hflag. subst flag.
  pose proof (refill ev q acc Hev Hq Hcount) as Hre. clear Hev Hq Hcount Hclear.
  match goal with |- context [if negb (SendEvent_has_pending_data ev) then ?x1 else ?x2] =>
    replace (if negb (SendEvent_has_pending_data ev) then x1 else x2) with
      (let '(ev1, q1) := if negb (SendEvent_has_pending_data ev)
         then (foldl (fun ev b => SendEvent_push b ev) ev q, []) else (ev, q) in
       mkTestSession true lg disc rst acct room tst bot lp rr sock rbuf q1 true ev1 pio)
      by (destruct (SendEvent_has_pending_data ev); reflexivity) end.
  destruct (if negb (SendEvent_has_pending_data ev) then _ else _) as [ev1 q1]. fields.
  assert (zlen acc < 2 ^ 40 -> ClientEvent_wf ev1 /\ Forall client_buf_ok q1 /\
    zlen (se_send_Buffers ev1) + zlen q1 <= zlen acc /\
    payloads acc = sent ++ SendEvent_pending ev1 ++ payloads q1 /\
    (zlen (SendEvent_build_wsabufs ev1) = 0 -> q1 = [])) as Hre'.
  { intros Hl. destruct (Hre Hl) as (e & q' & [= -> ->] & ? & ? & ? & E & ?). by rewrite E. }
  clear Hre Eorder. pose proof (zlen_nonneg (A := unit) (ios fr)).
  destruct (zlen (SendEvent_build_wsabufs ev1) =? 0) eqn:Ews; bool_lia.
  { eexists _, _. split; [done|]. split; [solve_G|]. intros Hl. exists []. split; [|done]. fields in *.
    destruct (Hre' Hl) as (Hev & Hq & Hcount & Horder & Hnoq). rewrite client_clear_new.
    rewrite (wsabufs_none ev1 Ews Hev) in Horder.
    build_inv; rewrite ?E1, ?E2, ?E3; try done.
    - change (zlen (se_send_Buffers SendEvent_new)) with 0. pose proof (zlen_nonneg (se_send_Buffers ev1)). lia.
    - intros _. by apply Hnoq.
    - rewrite pending_new, drop_nil. by exists (payloads q1). }
  assert (0 <= pio < 2 ^ 30) as Hpio by (destruct inc; cbn [flying] in *; lia).
  destruct ((o 0%nat =? 0) || _)%bool.
  - eexists _, _. split; [done|]. split; [solve_G|]. intros Hl. exists []. split; [|done]. unfold begin_io. fields in *.
    destruct (Hre' Hl) as (Hev & Hq & Hcount & Horder & Hnoq).
    build_inv; rewrite ?E1, ?E2, ?E3; try done.
    + intros bs [= <-]. rewrite <- (client_wsabufs ev1 Hev). apply wsabufs_prefix.
    + exists (payloads q1). rewrite drop_0. by split.
    + cbn [flying]. rewrite i32_small by lia. lia.
  - rewrite finish_begin by (fields; lia). cbn [mbind option_bind]. fields.
    eexists _, _. split; [done|]. split; [solve_G|]. intros Hl. exists [TFail]. split; [|done]. fields in *.
    destruct (Hre' Hl) as (Hev & Hq & Hcount & Horder & Hnoq). rewrite client_clear_new.
    build_inv; rewrite ?E1, ?E2, ?E3; try done.
    + change (zlen (se_send_Buffers SendEvent_new)) with 0. pose proof (zlen_nonneg (se_send_Buffers ev1)). lia.
    + rewrite pending_new, drop_nil. exists (SendEvent_pending ev1 ++ payloads q1). by split.
Qed.

Lemma register_send_safe : csafe register_send (fun _ t => t = []) [TSend].
Proof.
  apply safe_bind. eapply safe_mono; [|apply register_send_cs_safe].
  intros [result|] t ->; [done|]. apply safe_bind. eapply safe_mono; [|apply disconnect_fail]. by intros ? ? ->.
Qed.

(** A buffer that can be queued; [nullptr] is refused. *)
Definition sendable (sb : option SendBuffer) : Prop := match sb with Some sb => request_buffer sb | None => True end.

Lemma neutral_send sb : sendable sb -> cneutral (send sb).
Proof.
  intros Hsb. destruct sb as [sb|]; [|done]. unfold send. destruct (_ <=? 0); [done|].
  apply safe_bind. eapply safe_mono; [|by apply send_cs_safe]. intros [[] []] t ->; try done. apply register_send_safe.
Qed.

Lemma process_send_cs_safe n :
  csafe (atomic (fun _ => process_send_cs n))
    (fun r t => t = match r with SendReturns => [] | SendRegisters => [TSend] | SendDisconnects => [TFail] end) [TDone n].
Proof.
  apply safe_atomic. intros o s fr HI. unfold process_send_cs. open_inv fr s HI. autorewrite with tokens in *.
  cbn [foldr] in *. unfold lim. fields.
  destruct (only_sender (zlen (dones fr)) (zlen (sends fr)) (zlen (fails fr)) out) as (E1 & E2 & E3 & ->); [lia..|]. cbn [flying] in *.
  apply zlen_zero in E1, E2, E3. rewrite E1 in Horder, Hdone. cbn [foldr] in Horder. rewrite Z.add_0_r in Horder.
  rewrite E3 in Horder. destruct Horder as (rest & Eorder & Hrest).
  apply Forall_cons_1 in Hdone as [[Hn Hn'] _].
  destruct conn; fields; cycle 1.
  { eexists _, _. split; [done|]. split; [solve_G|]. intros Hl. exists []. split; [|done].
    rewrite client_clear_new. build_inv; rewrite ?E1, ?E2, ?E3; try done.
    - change (zlen (se_send_Buffers SendEvent_new)) with 0. pose proof (zlen_nonneg (se_send_Buffers ev)). lia.
    - intros _ Hd. destruct (Hfresh eq_refl Hd). lia.
    - intros _. by apply Hdrop.
    - rewrite pending_new, drop_nil. eexists. by split. }
  rewrite (Hrest eq_refl eq_refl) in Eorder. clear Hrest. rewrite E1, E2, E3 in Hflag. cbn in Hflag. subst flag.
  destruct (decide (n = 0)) as [->|Hnz].
  { cbn [client_consume_sent_bytes Z.eqb mbind option_bind negb].
    eexists _, _. split; [done|]. split; [solve_G|]. intros Hl. exists [TFail]. split; [|done].
    rewrite client_clear_new. build_inv; rewrite ?E1, ?E2, ?E3; try done.
    - change (zlen (se_send_Buffers SendEvent_new)) with 0. pose proof (zlen_nonneg (se_send_Buffers ev)). lia.
    - rewrite pending_new, drop_nil. eexists. by split. }
  destruct (client_consume_accepts ev Hev n) as (ev' & -> & Hev' & Hbufs & Hpend); [lia..|].
  cbn [mbind option_bind negb]. rewrite <- Hbufs in Hcount. rewrite <- Hpend in Eorder.
  destruct (SendEvent_has_pending_data ev') eqn:Hp.
  { eexists _, _. split; [done|]. split; [solve_G|]. intros Hl. exists [TSend]. split; [|done].
    build_inv; rewrite ?E1, ?E2, ?E3; try done. exists (payloads q). rewrite drop_0. by split. }
  assert (SendEvent_pending ev' = []) as Hnil.
  { destruct (SendEvent_pending ev') eqn:E; [done|]. rewrite (proj2 (client_has_pending ev' Hev')) in Hp; [done|]. by rewrite E. }
  rewrite Hnil in Eorder. rewrite client_clear_new. pose proof (zlen_nonneg (se_send_Buffers ev')).
  fields. case_bool_decide as Hq0.
  - eexists _, _. split; [done|]. split; [solve_G|]. intros Hl. exists []. split; [|done].
    build_inv; rewrite ?E1, ?E2, ?E3; try done.
    + change (zlen (se_send_Buffers SendEvent_new)) with 0. lia.
    + rewrite pending_new, drop_nil. by exists (payloads q).
  - eexists _, _. split; [done|]. split; [solve_G|]. intros Hl. exists [TSend]. split; [|done].
    build_inv; rewrite ?E1, ?E2, ?E3; try done.
    + change (zlen (se_send_Buffers SendEvent_new)) with 0. lia.
    + rewrite pending_new, drop_nil. by exists (payloads q).
Qed.

Lemma process_send_safe n : csafe (process_send n) (fun _ t => t = []) [TDone n].
Proof.
  apply safe_bind. eapply safe_mono; [|apply process_send_cs_safe]. intros [] t ->; [done| |].
  - apply safe_bind. eapply safe_mono; [|apply register_send_safe]. by intros ? ? ->.
  - apply disconnect_fail.
Qed.

(** ** Requests and handlers *)


(** What [MakeSendBuffer] returns: the packet as the server would frame it, or [nullptr] when
    it is too long. *)
Lemma client_make_exact p :
  packet_sized p ->
  ClientMakeSendBuffer p = if ByteSizeLong p >? 65531 then None else MakeSendBuffer p.
Proof using laws.
  intros Hp. unfold ClientMakeSendBuffer, UINT16_MAX, sizeof_PacketHeader. change (65535 - 4) with 65531.
  pose proof (codec_bound p Hp) as [H0 _]. destruct (ByteSizeLong p >? 65531) eqn:E; bool_lia; [done|].
  destruct (codec_serialize p (ByteSizeLong p) Hp) as (bs & Hs & Hl); [lia..|].
  rewrite (i32_small (ByteSizeLong p)) by lia. rewrite (MakeSendBuffer_serialized p bs) by lia || done.
  rewrite u16_small by lia. rewrite Hs. unfold SendBuffer_close. cbn. do 2 f_equal.
  - unfold overwrite. rewrite drop_drop, drop_ge by (rewrite length_replicate; unfold zlen in Hl; lia).
    by rewrite app_nil_r, Hl.
  - rewrite i32_small by lia. lia.
Qed.

Lemma client_make_sendable p : packet_wf p -> registered (packet_id p) = true -> sendable (ClientMakeSendBuffer p).
Proof using laws.
  intros Hp Hr. rewrite client_make_exact by by apply packet_wf_sized.
  destruct (ByteSizeLong p >? 65531) eqn:E; bool_lia; [done|].
  destruct (MakeSendBuffer p) as [sb|] eqn:Em; [|done]. by exists p.
Qed.

Lemma ascii_string_wf s : Forall (fun c => 0 <= c < 128) s -> zlen s < 2 ^ 31 -> string_wf s.
Proof using string_laws.
  intros Hs Hl. split_and!; [|done|by apply utf8_ascii]. eapply Forall_impl; [exact Hs|]. unfold is_byte. intros; lia.
Qed.

Lemma bot_name_wf name n :
  forallb (fun c => (0 <=? c) && (c <? 128)) name = true -> zlen name < 2 ^ 30 -> 0 <= n < 2 ^ 32 ->
  string_wf (name ++ to_string n).
Proof using string_laws.
  intros Hn Hl Hr. destruct (to_string_cases n Hr) as (c & s & Hc & Hd & Hs & _ & Hlen). apply ascii_string_wf.
  - apply Forall_app_2.
    + apply List.Forall_forall. intros x Hx. rewrite forallb_forall in Hn. apply Hn in Hx. bool_lia. lia.
    + rewrite Hc. apply Forall_cons_2; [unfold is_digit in Hd; lia|]. eapply Forall_impl; [exact Hs|].
      unfold is_digit. intros; lia.
  - rewrite zlen_app. lia.
Qed.

Lemma utf8_text_wf w n : zlen (WStringToUtf8 w) <= n -> n < 2 ^ 31 -> string_wf (WStringToUtf8 w).
Proof using string_laws.
  rewrite WStringToUtf8_spec. case_bool_decide; intros.
  - split_and!; [constructor|done|apply utf8_valid_nil].
  - split_and!; [apply utf8_bytes|lia|apply utf8_valid].
Qed.

Lemma nil_wf : string_wf [].
Proof using string_laws. split_and!; [constructor|done|apply utf8_valid_nil]. Qed.

(** A program of neutral steps. *)
Create HintDb neutral.
#[local] Hint Resolve neutral_ret neutral_load neutral_begin_login neutral_begin_enter neutral_begin_exit
  neutral_disconnect neutral_complete_exit neutral_connect neutral_register_iocp neutral_set_account
  neutral_set_is_login client_make_sendable nil_wf : neutral.

Ltac neutral :=
  repeat first
    [ apply neutral_ret
    | apply neutral_bind; [|intros ?]
    | match goal with |- cneutral (if ?b then _ else _) => destruct b eqn:? end
    | apply neutral_send, client_make_sendable; [|reflexivity]
    | apply neutral_complete_login; lia
    | apply neutral_complete_enter
    | apply neutral_count; done
    | progress auto with neutral ].

Lemma bot_packet_wf index is_create :
  0 <= index < 2 ^ 32 ->
  packet_wf (P_REQ_BOT_LOGIN (mkREQ_BOT_LOGIN is_create (str "bot_" ++ to_string index) (str "1234")
    (str "Bot_" ++ to_string index) [])).
Proof using string_laws.
  intros Hi. refine (conj _ (conj _ (conj _ eq_refl))).
  - by apply (bot_name_wf (str "bot_") index).
  - by apply (ascii_string_wf (str "1234")); [repeat constructor|].
  - by apply (bot_name_wf (str "Bot_") index).
Qed.

Lemma neutral_test_login index has : 0 <= index < 2 ^ 32 -> cneutral (test_login index has).
Proof using laws string_laws.
  intros Hi. unfold test_login. neutral. by apply (bot_packet_wf index).
Qed.

Lemma neutral_login is_create id pw name :
  string_wf id -> string_wf pw -> zlen name < 2 ^ 29 -> cneutral (login is_create id pw name).
Proof using laws string_laws.
  intros Hid Hpw Hname. unfold login. neutral. unfold packet_wf, REQ_LOGIN_wf. split_and!; [done|done| |done].
  by apply WStringToUtf8_wf.
Qed.

Lemma neutral_send_enter_room room_id : 0 <= room_id < 2 ^ 8 -> cneutral (send_enter_room room_id).
Proof using laws. intros Hr. unfold send_enter_room. neutral; [|done]. split; [|done]. cbn. lia. Qed.

Lemma neutral_send_exit_room : cneutral send_exit_room.
Proof using laws. unfold send_exit_room. neutral. done. Qed.

Lemma neutral_send_chat message chat_state room_id :
  -2 ^ 31 <= chat_state < 2 ^ 31 -> -2 ^ 31 <= room_id < 2 ^ 31 -> cneutral (send_chat message chat_state room_id).
Proof using laws string_laws.
  intros Hc Hr. unfold send_chat, count_send_chat. neutral. bool_lia.
  refine (conj _ (conj Hc (conj Hr (conj nil_wf eq_refl)))). by apply (utf8_text_wf message 256).
Qed.

Lemma neutral_send_whisper_chat target message chat_state room_id :
  -2 ^ 31 <= chat_state < 2 ^ 31 -> -2 ^ 31 <= room_id < 2 ^ 31 ->
  cneutral (send_whisper_chat target message chat_state room_id).
Proof using laws string_laws.
  intros Hc Hr. unfold send_whisper_chat, count_send_chat. neutral. bool_lia.
  refine (conj _ (conj Hc (conj (conj _ _) (conj _ eq_refl)))); [|done|done|].
  - by apply (utf8_text_wf message 256).
  - by apply (utf8_text_wf target 32).
Qed.

Lemma neutral_get_room_info : cneutral send_get_room_info.
Proof using laws. unfold send_get_room_info. neutral. done. Qed.

(** A neutral load knows that what it read is of its type. *)
Lemma load_bind {A : Set} {B} (f : TestSession -> A) (P : A -> Prop) (k : A -> cprog B) :
  (forall x, AppInv x -> P (f x)) -> (forall a, P a -> cneutral (k a)) -> cneutral (load_session f ≫= k).
Proof.
  intros Hf Hk. apply safe_bind, safe_atomic. intros o s fr HI. eexists _, _. split; [done|].
  split; [by destruct s; apply G_refl|]. intros _. exists []. split; [by destruct s|]. apply Hk, Hf, HI.
Qed.

Lemma neutral_logout : cneutral logout.
Proof using laws.
  unfold logout, get_account. apply (load_bind _ (fun idx => 0 <= idx < 2 ^ 64)); [by intros x [_ _ (? & _ & _)]|].
  intros idx Hidx. neutral. by split.
Qed.

Lemma neutral_handler pkt : cneutral (client_handler pkt).
Proof using laws string_laws.
  destruct pkt; cbn [client_handler]; try done; unfold Handle_ACK_LOGIN, Handle_ACK_LOGOUT, Handle_ACK_ENTER_ROOM,
    Handle_ACK_EXIT_ROOM, Handle_ACK_CHAT, Handle_ACK_SEND_CHAT, Handle_ACK_SERVER_FULL.
  - neutral. apply neutral_complete_login, u64_range.
  - unfold Handle_ACK_BOT_LOGIN. apply neutral_bind; [apply neutral_complete_login, u64_range|]. intros _. neutral.
    + apply neutral_load.
    + apply (bot_packet_wf (u32 a)), u32_range.
  - neutral.
  - neutral. apply i32_range.
  - neutral.
  - neutral.
  - neutral.
  - unfold Handle_ACK_SEND_CONNECT_PING. neutral. split; [apply u64_range|done].
  - neutral.
Qed.

Lemma neutral_handle_packet buffer len : cneutral (ClientHandlePacket buffer len).
Proof using laws string_laws. unfold ClientHandlePacket. destruct (client_parse buffer len); [apply neutral_handler|done]. Qed.

(** ** Receiving *)

(** Knowledge, and the right to the receive buffer, may be given up at any time. *)
Definition droppable (k : Token) : bool := match k with TRecv _ _ | TOpened | TClosed => true | _ => false end.

Lemma Inv_drop k t s : droppable k = true -> Inv (k :: t) s -> Inv t s.
Proof.
  intros Hk HI. open_inv t s HI. autorewrite with tokens in *.
  destruct k; try discriminate Hk; cbn iota in *; build_inv.
  - rewrite zlen_cons in *. lia.
  - intros Hr. exfalso. destruct (Rstart Hr) as [Hz _]. rewrite zlen_cons in Hz. destruct inc; cbn [flying] in *; lia.
  - by apply Forall_cons_1 in Rknown as [_ ?].
  - by apply Forall_cons_1 in Iopened as [_ ?].
  - by apply Forall_cons_1 in Icloses as [_ ?].
Qed.

Lemma Inv_drops t t0 s : forallb droppable t0 = true -> Inv (t0 ++ t) s -> Inv t s.
Proof.
  induction t0 as [|k t0 IH]; [done|]. cbn [forallb app]. intros H HI. bool_lia. apply IH; [done|]. by eapply Inv_drop.
Qed.

Lemma disconnect_drops t : forallb droppable t = true -> csafe disconnect (fun _ t' => t' = []) t.
Proof.
  intros Ht. apply safe_atomic. intros o s fr HI. destruct (client_disconnect_inv _ _ HI) as (HI' & HG & _ & _).
  eexists _, _. split; [done|]. split; [done|]. intros _. exists []. split; [|done]. by eapply Inv_drops.
Qed.

(** A thread may note what it has seen, as long as it stays true. *)
Lemma Inv_note_opened t s :
  Inv t s -> ts_is_connect (c_session s) || ts_is_disconnect (c_session s) = true -> Inv (TOpened :: t) s.
Proof. intros HI Ho. open_inv t s HI. build_inv. by constructor. Qed.

Lemma Inv_note_closed t s : Inv t s -> closed s -> Inv (TClosed :: t) s.
Proof. intros HI [? ?]. open_inv t s HI. build_inv. by constructor. Qed.

(** Reading [_is_connect]: the owner of the receive buffer knows that a session that is no
    longer connected never will be. *)
Lemma is_connected_opened : csafe is_connected (fun c t => t = if c then [TOpened] else []) [].
Proof.
  apply safe_atomic. intros o s fr HI. eexists _, _. split; [done|]. split; [by destruct s; apply G_refl|]. intros _.
  destruct (ts_is_connect (c_session s)) eqn:E; [exists [TOpened]|exists []]; (split; [|done]).
  - assert (s <| c_session := c_session s |> = s) as -> by by destruct s. apply Inv_note_opened; [done|]. by rewrite E.
  - by destruct s.
Qed.

Lemma recv_opened rb u t s : Inv (TRecv rb u :: t) s -> ts_is_connect (c_session s) || ts_is_disconnect (c_session s) = true.
Proof.
  intros HI. open_inv t s HI. autorewrite with tokens in *. apply Ropened. destruct rst; [done|].
  destruct (Rstart eq_refl) as [Hz _]. destruct inc; cbn [flying] in *; lia.
Qed.

Lemma is_connected_recv rb u :
  csafe is_connected (fun c t => t = if c then [TRecv rb u] else [TRecv rb u; TClosed]) [TRecv rb u].
Proof.
  apply safe_atomic. intros o s fr HI. eexists _, _. split; [done|]. split; [by destruct s; apply G_refl|]. intros _.
  assert (s <| c_session := c_session s |> = s) as -> by by destruct s.
  destruct (ts_is_connect (c_session s)) eqn:E; eexists; (split; [|done]); [done|].
  apply (Inv_weak (TClosed :: TRecv rb u :: fr)); [apply perm_swap|]. apply Inv_note_closed; [done|]. pose proof (recv_opened rb u fr s HI) as Ho. rewrite E in Ho. by split.
Qed.

Lemma is_connected_drop rb u :
  csafe is_connected (fun c t => t = if c then [TRecv rb u] else []) [TRecv rb u].
Proof.
  apply safe_atomic. intros o s fr HI. eexists _, _. split; [done|]. split; [by destruct s; apply G_refl|]. intros _.
  assert (s <| c_session := c_session s |> = s) as -> by by destruct s.
  destruct (ts_is_connect (c_session s)); eexists; (split; [|done]); [done|].
  by apply (Inv_drop (TRecv rb u)).
Qed.

(** *** Starting *)

Lemma start_exchange_safe :
  csafe (on_session (fun x => (x <| ts_recv_started := true |>, ts_recv_started x)))
    (fun started t => if (started : bool) then t = []
       else exists rb, t = [TRecv rb []] /\ RecvBuffer_data rb = [] /\ 65536 <= RecvBuffer_free_size rb) [TOpened].
Proof.
  apply safe_atomic. intros o s fr HI. eexists _, _. split; [done|]. open_inv fr s HI. autorewrite with tokens in *.
  apply Forall_cons_1 in Iopened as [Ho Iopened].
  split; [by split; [intros [? ?]|]|]. intros _. destruct rst.
  - exists []. split; [|done]. build_inv.
  - destruct (Rstart eq_refl) as (Hz & -> & -> & Hd & Hf). exists [TRecv rbuf []]. split; [|by exists rbuf].
    assert (flying inc = 0 /\ zlen (recvs fr) = 0) as [E1 E2] by (destruct inc; cbn [flying] in *; lia).
    apply zlen_zero in E2. build_inv; rewrite ?E2; try done.
    + rewrite zlen_nil. lia.
    + by repeat constructor.
Qed.

(** *** Registering a receive *)

Lemma register_recv_cs_safe rb u t0 :
  (t0 = [TRecv rb u] /\ u = RecvBuffer_data rb /\ 65536 <= RecvBuffer_free_size rb /\ incomplete u) \/ t0 = [TRecv rb u; TClosed] ->
  csafe (atomic register_recv_cs) (fun _ t => t = []) t0.
Proof.
  intros Ht0. apply safe_atomic. intros o s fr HI. unfold register_recv_cs.
  destruct (ts_is_connect (c_session s)) eqn:Ec; cbn [negb]; cycle 1.
  { eexists _, _. split; [done|]. split; [apply G_refl|]. intros _. exists []. split; [|done].
    destruct Ht0 as [(-> & _)| ->]; eapply Inv_drops; [|exact HI| |exact HI]; done. }
  destruct Ht0 as [(-> & -> & Hfree & Hinc)| ->].
  2: { exfalso. open_inv fr s HI. autorewrite with tokens in *. apply Forall_cons_1 in Icloses as [[_ Hc] _]. congruence. }
  open_inv fr s HI. subst conn. autorewrite with tokens in *.
  assert (inc = None /\ zlen (recvs fr) = 0) as [-> E2] by (destruct inc; cbn [flying] in *; split; lia || done).
  apply zlen_zero in E2. apply Forall_cons_1 in Rknown as [[Erb Erec] _]. cbn [fst snd] in *. subst rbuf.
  assert (0 <= pio < 2 ^ 30) as Hpio by (destruct out; cbn [flying] in *; lia).
  destruct ((o 0%nat =? 0) || _)%bool.
  - eexists _, _. split; [done|]. split; [solve_G|]. intros _. exists []. split; [|done]. unfold begin_io.
    build_inv; rewrite ?E2; try done.
    + intros Hr. destruct (Rstart Hr) as [Hz _]. destruct out; cbn [flying] in *; lia.
    + intros len [= <-]. rewrite u32_small; [done|]. pose proof (i32_range (rb_capacity rb - rb_write_pos rb)).
      unfold RecvBuffer_free_size in *. lia.
    + cbn [flying] in *. rewrite i32_small by lia. lia.
  - rewrite finish_begin by (fields; lia). cbn [mbind option_bind].
    eexists _, _. split; [done|]. split; [solve_G|]. intros _. exists []. split; [|done].
    build_inv; rewrite ?E2; try done.
    intros Hr. destruct (Rstart Hr) as [Hz _]. destruct out; cbn [flying] in *; lia.
Qed.

Lemma register_recv_safe rb u t0 :
  (t0 = [TRecv rb u] /\ u = RecvBuffer_data rb /\ 65536 <= RecvBuffer_free_size rb /\ incomplete u) \/ t0 = [TRecv rb u; TClosed] ->
  csafe register_recv (fun _ t => t = []) t0.
Proof.
  intros Ht0. apply safe_bind. eapply safe_mono; [|by eapply register_recv_cs_safe].
  intros [result|] t ->; [done|]. apply neutral_bind; [apply neutral_disconnect|done].
Qed.

Lemma neutral_start : cneutral start.
Proof.
  apply safe_bind. eapply safe_mono; [|apply is_connected_opened]. intros [] t ->; cbn [negb].
  2: { by apply neutral_bind; [apply neutral_disconnect|]. }
  apply safe_bind. eapply safe_mono; [|apply start_exchange_safe]. intros [] t Ht; [by subst|].
  destruct Ht as (rb & -> & Hd & Hf). apply safe_bind. eapply safe_mono; [|eapply register_recv_safe; left; split_and!; [done|done|done|by left]].
  intros [] t ->; cbn [negb]; [done|]. by apply neutral_bind; [apply neutral_disconnect|].
Qed.

(** *** Using the receive buffer *)

(** The owner changes the buffer. *)
Lemma recv_op_safe {B : Set} (h : RecvBuffer -> B * RecvBuffer) rb u t0 :
  RecvBuffer_wf (snd (h rb)) -> rb_Buffer_size (snd (h rb)) = 65536 ->
  csafe (on_session (fun x => let '(b, rb) := h (ts_recv_buffer x) in (x <| ts_recv_buffer := rb |>, b)))
    (fun b t => b = fst (h rb) /\ t = TRecv (snd (h rb)) u :: t0) (TRecv rb u :: t0).
Proof.
  intros Hwf Hsz. apply safe_atomic. intros o s fr HI.
  assert (ts_recv_buffer (c_session s) = rb) as Erb.
  { destruct HI as [_ [_ _ _ _ Hk _ _ _] _ _]. cbn [app] in Hk. rewrite recvs_cons in Hk. by apply Forall_cons_1 in Hk as [[? _] _]. }
  rewrite Erb. destruct (h rb) as [b rb'] eqn:Eh. cbn [fst snd] in *. eexists _, _. split; [done|].
  split; [by destruct s; split|]. intros _. eexists. split; [|done].
  open_inv (t0 ++ fr) s HI. subst rbuf. autorewrite with tokens in *.
  assert (inc = None /\ zlen (recvs (t0 ++ fr)) = 0) as [-> E2] by (destruct inc; cbn [flying] in *; split; lia || done).
  apply zlen_zero in E2. apply Forall_cons_1 in Rknown as [[_ Erec] _]. cbn [fst snd] in *.
  build_inv; rewrite ?E2; try done.
  - intros Hr. destruct (Rstart Hr) as [Hz _]. cbn [flying] in *. lia.
  - by repeat constructor.
Qed.

(** What the owner reads from the session is read from its buffer. *)
Lemma recv_load_safe {B : Set} (f : RecvBuffer -> B) rb u :
  csafe (load_session (fun x => f (ts_recv_buffer x)))
    (fun b t => b = f rb /\ t = [TRecv rb u] /\ byte_stream u) [TRecv rb u].
Proof.
  apply safe_atomic. intros o s fr HI. eexists _, _. split; [done|]. split; [by destruct s; apply G_refl|]. intros _.
  exists [TRecv rb u]. assert (s <| c_session := c_session s |> = s) as -> by by destruct s. split; [done|].
  open_inv fr s HI. autorewrite with tokens in *. apply Forall_cons_1 in Rknown as [[-> ->] _]. cbn [fst snd] in *.
  split_and!; [done|done|]. by apply Forall_app in Rbytes as [_ ?].
Qed.

Lemma record_packet_safe rb p u :
  is_packet p -> csafe (record_packet p) (fun _ t => t = [TRecv rb u]) [TRecv rb (p ++ u)].
Proof.
  intros Hp. apply safe_atomic. intros o s fr HI. eexists _, _. split; [done|].
  split; [by destruct s; split|]. intros _. exists [TRecv rb u]. split; [|done].
  open_inv fr s HI. autorewrite with tokens in *.
  assert (inc = None /\ zlen (recvs fr) = 0) as [-> E2] by (destruct inc; cbn [flying] in *; split; lia || done).
  apply zlen_zero in E2. apply Forall_cons_1 in Rknown as [[Erb Erec] _]. cbn [fst snd] in *. subst rbuf.
  build_inv; rewrite ?E2; try done.
  - intros Hr. destruct (Rstart Hr) as [Hz _]. cbn [flying] in *. lia.
  - constructor; [|constructor]. cbn [fst snd]. by rewrite concat_snoc, <- app_assoc.
  - destruct Rhandled as [Hh _]. split; [by apply Forall_app_2; [|constructor]|].
    rewrite concat_snoc, Erec. exists u. by rewrite <- app_assoc.
Qed.

(** *** The packet loop *)


(** What the loop leaves behind: less than the largest packet, or a session that is
    disconnected. *)
Definition loop_post (rb : RecvBuffer) (u : bytes) (r : option Z) (t : list Token) : Prop :=
  match r with
  | None => t = []
  | Some pl => 0 <= pl <= zlen u /\
      ((t = [TRecv rb (drop (Z.to_nat pl) u)] /\ incomplete (drop (Z.to_nat pl) u)) \/ t = [TRecv rb (drop (Z.to_nat pl) u); TClosed])
  end.

Lemma disconnect_none rb u t : forallb droppable t = true ->
  csafe (disconnect ≫= fun _ => mret None) (loop_post rb u) t.
Proof. intros Ht. apply safe_bind. eapply safe_mono; [|by apply disconnect_drops]. intros ? ? ->. reflexivity. Qed.

Lemma process_loop_safe fuel rb u junk : forall pl,
  byte_stream u -> zlen u < 2 ^ 30 -> 0 <= pl <= zlen u -> zlen u - pl < Z.of_nat fuel ->
  csafe (process_loop fuel (u ++ junk) (zlen u) pl) (loop_post rb u) [TRecv rb (drop (Z.to_nat pl) u)].
Proof using laws string_laws.
  induction fuel as [|fuel IH]; intros pl Hb Hu Hpl Hf; [lia|]. cbn [process_loop]. unfold sizeof_PacketHeader, MAX_PACKET_SIZE.
  rewrite i32_small, u64_small by lia. destruct (zlen u - pl <? 4) eqn:E4; bool_lia.
  { split; [lia|]. left. split; [reflexivity|]. left. rewrite zlen_drop; lia. }
  destruct (packet_at u junk pl) as (Hread & Hh & Hp); [lia..|done|].
  set (h := PacketHeader_read (drop (Z.to_nat pl) (u ++ junk))) in *.
  destruct (hdr_size h <? 4) eqn:E5; bool_lia; [by apply disconnect_none|].
  destruct (hdr_size h >? 65536) eqn:E6; bool_lia; [lia|].
  destruct (zlen u - pl <? hdr_size h) eqn:E7; bool_lia.
  { split; [lia|]. left. split; [reflexivity|]. right. rewrite <- Hread, zlen_drop; lia. }
  destruct (Hp ltac:(lia)) as [Esplit Hpkt]. rewrite <- Esplit.
  apply safe_bind. eapply safe_mono; [|by apply record_packet_safe]. intros _ t ->.
  apply safe_neutral_bind; [exact _|apply neutral_handle_packet|]. intros []; cbn [negb]; [|by apply disconnect_none].
  rewrite i32_small by lia. apply safe_bind. eapply safe_mono; [|apply is_connected_recv]. intros [] t ->; cbn [negb].
  - apply IH; [done|done|lia|lia].
  - split; [lia|]. by right.
Qed.

(** *** Completions *)

Lemma process_recv_safe rb0 chunk :
  RecvBuffer_wf rb0 -> rb_Buffer_size rb0 = 65536 -> zlen chunk <= RecvBuffer_free_size rb0 ->
  csafe (process_recv (zlen chunk)) (fun _ t => t = [])
    [TRecv (RecvBuffer_os_store chunk rb0) (RecvBuffer_data rb0 ++ chunk)].
Proof using laws string_laws.
  intros Hwf Hsz Hc. set (u := RecvBuffer_data rb0 ++ chunk). set (rb1 := RecvBuffer_os_store chunk rb0).
  destruct (on_write_append rb0 Hwf chunk Hc) as (rb2 & Hw & Hwf2 & Hsz2 & Hdata).
  assert (zlen u = zlen (RecvBuffer_data rb2)) as Hlen by by rewrite Hdata.
  assert (zlen u < 2 ^ 30 /\ zlen chunk < 2 ^ 30) as [Hu Hch].
  { rewrite Hlen, (data_len rb2 Hwf2). rewrite (free_size_eq rb0 Hwf) in Hc. destruct Hwf, Hwf2. lia. }
  pose proof (zlen_nonneg chunk). pose proof (zlen_nonneg u).
  apply safe_bind. eapply safe_mono; [|apply is_connected_drop]. intros [] t ->; cbn [negb]; [|done].
  destruct (zlen chunk =? 0); [by apply disconnect_drops|].
  apply safe_bind. rewrite (i32_small (zlen chunk)) by lia.
  eapply safe_mono; [|apply (recv_op_safe (RecvBuffer_on_write (zlen chunk)) rb1 u []); unfold rb1; rewrite Hw; cbn [snd]; congruence].
  unfold rb1. rewrite Hw. intros ? t [-> ->]. cbn [fst snd negb].
  apply safe_bind. eapply safe_mono; [|apply recv_load_safe]. intros ? t (-> & -> & Hb).
  apply safe_bind. eapply safe_mono; [|apply recv_load_safe]. intros ? t (-> & -> & _).
  rewrite (data_size_eq rb2 Hwf2), <- Hlen.
  assert (RecvBuffer_read_pos rb2 = u ++ drop (Z.to_nat (rb_write_pos rb2 - rb_read_pos rb2)) (RecvBuffer_read_pos rb2)) as ->.
  { unfold u. rewrite <- Hdata. unfold RecvBuffer_data, slice, RecvBuffer_read_pos. by rewrite take_drop. }
  apply safe_bind. eapply safe_mono; [|apply (process_loop_safe _ rb2 u); [done|done|lia|lia]].
  intros [pl|] t; [|by intros ->]. intros [Hpl Ht].
  rewrite (proj2 (Z.ltb_ge pl 0)), Z_gtb_false by lia. cbn [orb].
  destruct (on_read_drop rb2 Hwf2 pl) as (rb3 & Hr & Hwf3 & Hsz3 & Hd3); [rewrite data_size_eq by done; lia|].
  destruct (clean_keeps rb3 Hwf3) as (Hwf4 & Hsz4 & Hd4).
  assert (exists t0, t = TRecv rb2 (drop (Z.to_nat pl) u) :: t0 /\ (t0 = [] /\ incomplete (drop (Z.to_nat pl) u) \/ t0 = [TClosed])) as (t0 & -> & Ht0).
  { destruct Ht as [[-> ?]| ->]; eexists; split; eauto. }
  apply safe_bind. eapply safe_mono; [|apply (recv_op_safe (RecvBuffer_on_read pl) rb2); rewrite Hr; cbn [snd]; congruence].
  rewrite Hr. intros ? t [-> ->]. cbn [fst snd negb].
  apply safe_bind. eapply safe_mono; [|apply (recv_op_safe (fun r => (tt, RecvBuffer_clean r)) rb3); cbn [snd]; congruence].
  intros ? t [_ ->]. cbn [snd].
  apply safe_bind. eapply safe_mono; [|eapply (register_recv_safe (RecvBuffer_clean rb3) (drop (Z.to_nat pl) u))].
  { by intros ? ? ->. }
  destruct Ht0 as [[-> Hroom]| ->]; [left|by right]. split_and!; [done|by rewrite Hd4, Hd3, Hdata| |done].
  assert (zlen (drop (Z.to_nat pl) u) < 65536) as Hshort.
  { pose proof (header_bounds _ (Forall_drop _ (Z.to_nat pl) _ Hb)) as [? _]. destruct Hroom as [?|[_ ?]]; lia. }
  pose proof (clean_room rb3 Hwf3) as Hcr. rewrite Hsz3, Hsz2, Hsz in Hcr. apply Hcr.
  rewrite Hd3, Hdata. fold u. lia.
Qed.

(** The end of [dispatch]. *)
Lemma finish_io_safe :
  csafe (atomic (fun _ s => x ← finish_io (c_session s); Some (s <| c_session := x |> <| c_busy := c_busy s - 1 |>, tt)))
    (fun _ t => t = []) [TIo].
Proof.
  apply safe_atomic. intros o s fr HI. unfold finish_io. open_inv fr s HI. autorewrite with tokens in *.
  assert (0 < pio < 2 ^ 30) as Hpio by (destruct out, inc; cbn [flying] in *; lia).
  rewrite Z_gtb_true by lia. cbn [mbind option_bind]. eexists _, _. split; [done|].
  split; [by split; [intros [? ?]|]|]. intros _. exists []. split; [|done]. build_inv; rewrite ?i32_small by lia; lia.
Qed.

Lemma dispatch_send_safe n : 0 <= n < 2 ^ 32 -> csafe (dispatch EVENT_SEND (i32 n)) (fun _ t => t = []) [TDone n; TIo].
Proof.
  intros Hn. unfold dispatch. replace (u32 (i32 n)) with n by by rewrite u32_i32.
  apply safe_bind. eapply safe_mono; [|exact (safe_frame Inv G lim _ _ [TDone n] [TIo] (process_send_safe n))].
  intros _ t (t1 & -> & ->). apply finish_io_safe.
Qed.

Lemma dispatch_recv_safe rb0 chunk :
  RecvBuffer_wf rb0 -> rb_Buffer_size rb0 = 65536 -> zlen chunk <= RecvBuffer_free_size rb0 ->
  csafe (dispatch EVENT_RECV (i32 (zlen chunk))) (fun _ t => t = [])
    [TRecv (RecvBuffer_os_store chunk rb0) (RecvBuffer_data rb0 ++ chunk); TIo].
Proof using laws string_laws.
  intros Hwf Hsz Hc. unfold dispatch. replace (u32 (i32 (zlen chunk))) with (zlen chunk).
  - apply safe_bind. eapply safe_mono; [|exact (safe_frame Inv G lim _ _ [TRecv _ _] [TIo] (process_recv_safe rb0 chunk Hwf Hsz Hc))].
    intros _ t (t1 & -> & ->). apply finish_io_safe.
  - rewrite u32_i32; [done|]. pose proof (zlen_nonneg chunk). unfold RecvBuffer_free_size in Hc.
    pose proof (i32_range (rb_capacity rb0 - rb_write_pos rb0)). lia.
Qed.

Lemma neutral_api call : call_ok call -> cneutral (api_prog call).
Proof using laws string_laws.
  destruct call; cbn [api_prog call_ok]; intros Hok.
  - apply neutral_bind; [apply neutral_connect|done].
  - apply neutral_bind; [apply neutral_register_iocp|done].
  - apply neutral_bind; [apply neutral_start|done].
  - apply neutral_disconnect.
  - apply neutral_bind; [apply neutral_login; tauto|done].
  - apply neutral_bind; [by apply neutral_test_login|done].
  - apply neutral_bind; [apply neutral_load|done].
  - apply neutral_bind; [apply neutral_load|done].
  - apply neutral_logout.
  - apply neutral_get_room_info.
  - apply neutral_bind; [by apply neutral_send_enter_room|done].
  - apply neutral_bind; [apply neutral_send_exit_room|done].
  - destruct Hok. by apply neutral_send_chat.
  - destruct Hok. by apply neutral_send_whisper_chat.
Qed.

(** A completion hands its tokens to the worker that takes it. *)
Lemma completion_ok : env_ok Inv G lim completion.
Proof using laws string_laws.
  intros s s' p t Hst HI Hl. destruct Hst as [s bs n Hio Hb Hbs Hn Hn32|s len chunk Hio Hb Hlen Hc Hbytes].
  - exists [TDone n; TIo]. split; [apply dispatch_send_safe; lia|]. clear Hl.
    apply (Inv_weak (TDone n :: TIo :: t)); [by rewrite (Permutation_app_comm t)|].
    open_inv t s HI. subst out. autorewrite with tokens in *.
    assert (zlen (sends t) = 0 /\ zlen (dones t) = 0 /\ zlen (fails t) = 0) as (E1 & E2 & E3) by (cbn [flying] in *; lia).
    apply zlen_zero in E1, E2, E3. cbn [flying] in *. rewrite E2 in Horder. cbn [foldr] in Horder.
    change (Z.to_nat 0) with 0%nat in Horder. rewrite drop_0 in Horder.
    destruct (Hflight bs eq_refl) as [tl Etl].
    build_inv; rewrite ?E1, ?E2, ?E3; try done; try lia.
    + by rewrite Hflag, E1, E2, E3.
    + constructor; [|constructor]. rewrite Etl, zlen_app. pose proof (zlen_nonneg tl). lia.
    + intros Hc Hd. destruct (Hfresh Hc Hd). lia.
    + destruct Horder as (rest & E & Hr). exists rest. rewrite E3 in Hr. split; [|done]. rewrite E, Etl. cbn [foldr].
      rewrite Z.add_0_r, drop_app_le by (unfold zlen in *; lia).
      rewrite <- (take_drop (Z.to_nat n) bs) at 1. by rewrite <- !app_assoc.
    + cbn [flying]. lia.
  - destruct (inv_recv _ _ HI) as [_ _ _ [Hwf Hsz] _ Hfl _ _]. destruct (Hfl len Hlen) as (-> & _ & Erec & _).
    exists [TRecv (RecvBuffer_os_store chunk (ts_recv_buffer (c_session s))) (RecvBuffer_data (ts_recv_buffer (c_session s)) ++ chunk); TIo].
    split; [by apply dispatch_recv_safe|]. clear Hl.
    apply (Inv_weak (TRecv (RecvBuffer_os_store chunk (ts_recv_buffer (c_session s))) (RecvBuffer_data (ts_recv_buffer (c_session s)) ++ chunk) :: TIo :: t));
      [by rewrite (Permutation_app_comm t)|].
    open_inv t s HI. subst inc. autorewrite with tokens in *. cbn [flying] in *.
    assert (zlen (recvs t) = 0) as E1 by lia. apply zlen_zero in E1.
    pose proof (os_store_len rbuf Hwf chunk Hc) as Hlen'.
    build_inv; rewrite ?E1; try done; try lia.
    + intros Hr. destruct (Rstart Hr) as [Hz _]. lia.
    + split; [|done]. destruct Hwf. constructor; cbn; done.
    + constructor; [|constructor]. cbn [fst snd]. split; [done|]. by rewrite Erec, <- app_assoc.
    + by apply Forall_app_2.
    + destruct Rhandled as [Hh [tl ->]]. split; [done|]. exists (tl ++ chunk). by rewrite <- app_assoc.
    + cbn [flying]. lia.
Qed.

Lemma client_env_ok : env_ok Inv G lim client_env.
Proof using laws string_laws.
  intros s s' p t Hst HI Hl. destruct Hst as [s s' p Hst|s call Hok].
  - by eapply completion_ok.
  - exists []. split; [by apply neutral_api|]. by rewrite app_nil_r.
Qed.

Lemma Inv_new : Inv [] Client_new.
Proof.
  destruct (RecvBuffer_new_wf 65536) as (Hwf & Hd & Hs); [lia..|].
  constructor; [constructor|constructor|constructor|constructor]; try done.
  - by exists [].
  - constructor.
Qed.
End ClientSafety.
