(* ===== verification/ClientTheorems.v ===== *)
(** * What holds in every run of the test client

    A run starts with a fresh session and no threads; calls come in on any number of threads,
    the operating system completes sends and receives, and all threads take their steps in
    any order ([creachable]).  The theorems are about every state such a run can reach, as
    long as fewer than 2^40 packets have been queued.

    The last theorem joins the client and the server: whatever the interleaving on the client
    and however TCP cuts the stream, the server queues the requests of the client, in order. *)

From stdpp Require Import base list numbers option relations.
From Stdlib Require Import ZArith Lia.
From S2P Require Import Prelude Interleaving Buffers SendEvents ClientEvents Framing Wire Protocol Packets Config Sessions SessionSafety Clients ClientSafety.

Section ClientTheorems.
Context {utf8 : Utf8Check} {codec : PacketCodec} {laws : PacketCodecLaws codec}.
Context {api : StringApi} {string_laws : StringApiLaws api}.

Definition client_step (w w' : world Client) : Prop := wstep client_env w w' /\ lim (w_state w').
Definition client_start : world Client := mkWorld Client_new [].
Definition creachable (w : world Client) : Prop := rtc client_step client_start w.

(** ** Lemmas *)

Abbreviation client_ok := (pool_ok Inv G lim).

Lemma creachable_ok w : creachable w -> client_ok w /\ lim (w_state w).
Proof using laws string_laws.
  intros Hr. assert (client_ok client_start /\ lim (w_state client_start)) as Hstart.
  { split; [|done]. exists []. split; [constructor|apply Inv_new]. }
  unfold creachable in Hr. revert Hstart. induction Hr as [w|w w1 w2 [Hst Hl] _ IH]; [done|].
  intros [Hok _]. apply IH. split; [|done]. by apply (wstep_safe Inv G lim client_env w w1 client_env_ok).
Qed.

Lemma creachable_inv w : creachable w -> exists t, Inv t (w_state w).
Proof using laws string_laws. intros [(tss & _ & HI) _]%creachable_ok. eauto. Qed.

(** At rest nobody owns anything. *)
Lemma rest_inv w : client_ok w -> w_threads w = [] -> Inv [] (w_state w).
Proof using. intros (tss & Hts & HI) Hw. rewrite Hw in Hts. by apply Forall2_nil_inv_l in Hts as ->. Qed.

(** *** Draining *)

Definition drained (s : Client) : Prop := closed s /\ lim s /\ c_iocp s = true.
Definition flights (s : Client) : nat := Z.to_nat (flying (c_send s) + flying (c_recv s)).

Lemma G_drained s s' : G s s' -> drained s -> drained s' /\ flights s' = flights s.
Proof.
  intros [Hc Hi] (Hcl & Hl & Ho). destruct (Hc Hcl) as (Hcl' & Hs & Hr & Ha). unfold drained, flights, lim.
  rewrite Hs, Hr, Ha. split; [|done]. split_and!; [done|done|by apply Hi].
Qed.

Lemma completion_drained s s' p : completion s s' p -> drained s -> drained s' /\ (flights s' < flights s)%nat.
Proof.
  intros Hst (Hcl & Hl & Ho).
  destruct Hst as [s bs n Hio Hb Hbs _ _|s len chunk Hio Hb Hlen _ _]; (split; [by destruct s|]); unfold flights; cbn.
  - rewrite Hbs. destruct (c_recv s); cbn; lia.
  - rewrite Hlen. destruct (c_send s); cbn; lia.
Qed.

Lemma drain_runs w w' :
  rtc (wstep completion) w w' -> drained (w_state w) -> client_ok w -> drained (w_state w') /\ client_ok w'.
Proof using laws string_laws.
  intros Hr. induction Hr as [w|w w1 w2 Hst _ IH]; [done|]. intros Hd Hok.
  destruct (drain_step Inv G lim drained flights completion) with (w := w) (w' := w1) as (Hd1 & Hok1 & _);
    eauto using G_drained, completion_ok, completion_drained.
  by intros s (_ & ? & _).
Qed.

(** A completion can happen whenever an operation is in flight and a worker is free. *)
Lemma flight_completes s :
  c_iocp s = true -> c_busy s < WORKER_MAX -> (c_send s <> None \/ (exists len, c_recv s = Some len /\ 0 <= len)) ->
  exists s' p, completion s s' p.
Proof.
  intros Hio Hb [Hs|(len & Hr & Hl)].
  - destruct (c_send s) as [bs|] eqn:E; [|done]. pose proof (zlen_nonneg bs).
    eexists _, _. apply (complete_send s bs 0 Hio Hb E); lia.
  - eexists _, _. apply (complete_recv s len [] Hio Hb Hr); [by rewrite zlen_nil|constructor].
Qed.

(** *** From the client to the server *)

Lemma request_frame sb :
  request_buffer sb ->
  exists p, ClientMakeSendBuffer p = Some sb /\ is_packet (SendBuffer_payload sb) /\
    byte_stream (SendBuffer_payload sb) /\ decode (SendBuffer_payload sb) = Some p.
Proof using laws.
  intros (p & Hp & Hr & Hsz & Hm). destruct (MakeSendBuffer_frame p Hp Hsz) as (sb' & Hm' & _ & Hpk & Hb & Hid & Hparse).
  rewrite Hm in Hm'. injection Hm' as <-. exists p. split_and!; [|done|done|].
  - rewrite client_make_exact by by apply packet_wf_sized. by rewrite Z_gtb_false by lia.
  - unfold decode. rewrite Hid, Hr. unfold slice, sizeof_PacketHeader. change (Z.to_nat 4) with 4%nat.
    rewrite take_ge; [done|]. rewrite length_drop. unfold zlen. lia.
Qed.

(** A prefix of a stream of packets is some of the packets and the beginning of the next. *)
Lemma prefix_packets ps : forall x,
  Forall is_packet ps -> x `prefix_of` concat ps ->
  exists k tail, x = concat (take k ps) ++ tail /\ incomplete tail.
Proof.
  induction ps as [|p ps IH]; intros x Hps Hx.
  { apply prefix_nil_inv in Hx as ->. exists 0%nat, []. split; [done|]. by left. }
  apply Forall_cons_1 in Hps as [[H4 Hh] Hps]. cbn [concat] in Hx.
  destruct (decide (zlen x < zlen p)) as [Hlt|Hge].
  - exists 0%nat, x. split; [done|]. destruct (decide (zlen x < 4)); [by left|right].
    assert (exists y, p = x ++ y) as [y ->].
    { destruct Hx as [y Hx]. apply (f_equal (take (length p))) in Hx. rewrite take_app_length in Hx.
      rewrite take_app_ge in Hx by (unfold zlen in *; lia). by eexists. }
    rewrite header_app in Hh by lia. rewrite Hh. lia.
  - assert (exists x', x = p ++ x') as [x' ->].
    { destruct Hx as [y Hx]. exists (drop (length p) x). apply (f_equal (take (length p))) in Hx.
      rewrite take_app_length, take_app_le in Hx by (unfold zlen in *; lia). rewrite Hx at 1. by rewrite take_drop. }
    apply prefix_app_inv in Hx. destruct (IH x' Hps Hx) as (k & tail & -> & Hinc).
    exists (S k), tail. split; [|done]. cbn [take concat]. by rewrite <- app_assoc.
Qed.

Lemma requests_decode sbs :
  Forall request_buffer sbs ->
  Forall is_packet (SendBuffer_payload <$> sbs) /\ byte_stream (payloads sbs) /\
  exists reqs, Forall2 (fun sb p => ClientMakeSendBuffer p = Some sb) sbs reqs /\
    decoded (SendBuffer_payload <$> sbs) = PacketJob <$> reqs.
Proof using laws.
  induction 1 as [|sb sbs Hsb _ (IH1 & IH2 & reqs & IH3 & IH4)].
  { split_and!; [constructor|constructor|]. exists []. by split; [constructor|]. }
  destruct (request_frame sb Hsb) as (p & Hm & Hpk & Hb & Hd). cbn [fmap list_fmap]. split_and!.
  - by constructor.
  - rewrite payloads_cons. by apply Forall_app_2.
  - exists (p :: reqs). split; [by constructor|]. rewrite decoded_cons, Hd. cbn. by rewrite IH4.
Qed.

(** ** Properties *)


(** C21: the accounting of overlapped operations is exact in every state: [_pending_io] counts
    the workers in [dispatch] and the operations in flight; while a send is in flight its
    buffers are kept in the send event, at the place where the system reads them, and the
    flag that keeps other threads from registering is set; a socket that is used is open;
    and a receive always offers the whole free part of the buffer, at least 65536 bytes. *)
Theorem client_io_exact w :
  creachable w ->
  let s := w_state w in
  ts_pending_io (c_session s) = c_busy s + flying (c_send s) + flying (c_recv s) /\
  (forall bs, c_send s = Some bs -> bs `prefix_of` SendEvent_pending (ts_send_event (c_session s)) /\
     (ts_is_connect (c_session s) = true -> ts_is_send_register (c_session s) = true)) /\
  (forall len, c_recv s = Some len -> 65536 <= len /\ len = RecvBuffer_free_size (ts_recv_buffer (c_session s))) /\
  (ts_is_connect (c_session s) = true <-> ts_socket (c_session s) <> INVALID_SOCKET).
Proof using laws string_laws.
  intros [t HI]%creachable_inv s. fold s in HI. destruct HI as [HS HR HIO _].
  destruct (io_busy _ _ HIO) as [Hb _]. split_and!.
  - rewrite (io_pending _ _ HIO), Hb. done.
  - intros bs Hbs. split; [by apply (si_flight _ _ HS)|]. intros Hc.
    pose proof (si_flag _ _ HS) as Hf. rewrite Hc in Hf. rewrite Hf. apply Z.eqb_eq.
    pose proof (si_one _ _ HS). unfold senders in *. rewrite Hbs in *. cbn [flying] in *.
    pose proof (zlen_nonneg (sends t)). pose proof (zlen_nonneg (dones t)). pose proof (zlen_nonneg (fails t)). lia.
  - intros len Hl. destruct (ri_flight _ _ HR len Hl) as (? & ? & _). done.
  - split; [by apply (io_open _ _ HIO)|]. intros Hs. destruct (ts_is_connect (c_session s)) eqn:E; [done|].
    by rewrite (io_closed _ _ HIO) in Hs.
Qed.

(** C20: what the client sends is what was queued, in the order of the queue and nothing
    twice; and no packet is left behind: when no thread is running and nothing is in
    flight, a session that is still connected has sent every packet that [send] accepted. *)
Theorem client_send_order w :
  creachable w ->
  let s := w_state w in
  c_sent s `prefix_of` payloads (c_accepted s) /\
  (w_threads w = [] -> c_send s = None -> ts_is_connect (c_session s) = true -> c_sent s = payloads (c_accepted s)).
Proof using laws string_laws.
  intros Hr s. split.
  - destruct (creachable_inv w Hr) as [t HI]. destruct (si_order _ _ (inv_send _ _ HI)) as (rest & E & _).
    fold s in E. rewrite E. by eexists.
  - intros Hw Hs Hc. destruct (creachable_ok w Hr) as [Hok _]. pose proof (rest_inv w Hok Hw) as HI. fold s in HI.
    destruct HI as [HS _ _ _]. destruct (si_order _ _ HS) as (rest & E & Hrest). rewrite Hrest in E by done.
    rewrite (si_clear _ _ HS), (si_idle _ _ HS) in E by (unfold senders; rewrite Hs; done).
    rewrite E, pending_new. cbn. by rewrite app_nil_r.
Qed.

(** The packets handed to [HandlePacket] are the packets of the received bytes, in order
    and without gaps; and when the client waits for more bytes, every packet that has
    arrived completely has been handed over. *)
Theorem client_recv_order w :
  creachable w ->
  let s := w_state w in
  Forall is_packet (c_handled s) /\
  exists tail, c_received s = concat (c_handled s) ++ tail /\ (forall len, c_recv s = Some len -> incomplete tail).
Proof using laws string_laws.
  intros [t HI]%creachable_inv s. fold s in HI. destruct HI as [_ HR _ _].
  destruct (ri_handled _ _ HR) as [Hp [tail E]]. split; [done|]. destruct (c_recv s) as [len|] eqn:El.
  - destruct (ri_flight _ _ HR len El) as (_ & _ & E' & Hinc). by exists (RecvBuffer_data (ts_recv_buffer (c_session s))).
  - exists tail. by split.
Qed.

(** C22: the members of a session keep their C++ types and belong together: the account and
    the room fit their integers; a pending room request agrees with the room; a session
    without connection has no account, no room, no pending answer and nothing queued; and
    the statistics count one connection and at most one disconnection. *)
Theorem client_state_types w :
  creachable w ->
  let x := c_session (w_state w) in
  (0 <= ts_account_idx x < 2 ^ 64 /\ -2 ^ 31 <= ts_room_id x < 2 ^ 31) /\
  (ts_room_request x = RR_ENTER -> ts_room_id x < 0) /\ (ts_room_request x = RR_EXIT -> 0 <= ts_room_id x) /\
  (ts_is_connect x = false ->
     ts_is_login x = false /\ ts_account_idx x = 0 /\ ts_room_id x = -1 /\ ts_login_pending x = false /\
     ts_room_request x = RR_NONE /\ ts_send_queue x = [] /\ ts_is_send_register x = false) /\
  st_connect_success (c_stats (w_state w)) = (if ts_is_connect x || ts_is_disconnect x then 1 else 0) /\
  st_disconnect (c_stats (w_state w)) = (if ts_is_disconnect x then 1 else 0).
Proof using laws string_laws.
  intros [t HI]%creachable_inv x. destruct HI as [HS _ HIO [Hi Hr (Ha & Hroom & _)]]. fold x in Hi, Hr, Ha, Hroom.
  split_and!; try lia.
  - intros E. by rewrite E in Hr.
  - intros E. by rewrite E in Hr.
  - intros Hc. destruct (Hi Hc) as (? & ? & ? & ? & ? & _). split_and!; try done; [by apply (si_drop _ _ HS)|].
    pose proof (si_flag _ _ HS) as Hf. fold x in Hf. by rewrite Hc in Hf.
  - apply HIO.
  - apply HIO.
Qed.

(** C18: stopping the client ends.  After a session has been disconnected no order of the
    remaining steps of its threads and completions goes on for ever, and when nothing
    more can happen all threads have returned, no operation is pending (so that the
    destructor's assertion holds), and the send event holds no buffer. *)
Theorem client_drains w :
  creachable w -> closed (w_state w) -> c_iocp (w_state w) = true ->
  Acc (fun w2 w1 => wstep completion w1 w2) w /\
  forall w', rtc (wstep completion) w w' -> (forall w'', ~ wstep completion w' w'') ->
    let s := w_state w' in
    w_threads w' = [] /\ ts_pending_io (c_session s) = 0 /\ c_send s = None /\ c_recv s = None /\
    ts_send_event (c_session s) = SendEvent_new /\ ts_send_queue (c_session s) = [] /\
    ts_socket (c_session s) = INVALID_SOCKET.
Proof using laws string_laws.
  intros [Hok Hl]%creachable_ok Hcl Hio. assert (drained (w_state w)) as Hd by done. split.
  - eapply (drain_acc Inv G lim drained flights completion); eauto using G_drained, completion_ok, completion_drained.
    by intros s (_ & ? & _).
  - intros w' Hr Hrest. destruct (drain_runs w w' Hr Hd Hok) as [((Hdis & Hcon) & _ & Hio') Hok'].
    pose proof (rest_no_threads Inv G lim completion w' Hok' Hrest) as Hw. pose proof (rest_inv w' Hok' Hw) as HI.
    cbn zeta. destruct w' as [s l]. cbn [w_state w_threads] in *. subst l. destruct HI as [HS HR HIO _].
    destruct (io_busy _ _ HIO) as [Hb _]. change (zlen (ios [])) with 0 in Hb.
    assert (c_send s = None /\ c_recv s = None) as [Es Er].
    { destruct (decide (c_send s = None /\ c_recv s = None)) as [?|Hn]; [done|]. exfalso.
      destruct (flight_completes s Hio') as (s' & p & Hc); [unfold WORKER_MAX; lia| |].
      - destruct (c_send s); [by left|]. right. destruct (c_recv s) as [len|] eqn:El; [|by destruct Hn].
        exists len. destruct (ri_flight _ _ HR len El) as (_ & ? & _). split; [done|lia].
      - by apply (Hrest (mkWorld s' ([] ++ [p]))), wstep_env. }
    split_and!; try done.
    + rewrite (io_pending _ _ HIO), Es, Er. done.
    + apply (si_clear _ _ HS). by rewrite Es.
    + by apply (si_drop _ _ HS).
    + by apply (io_closed _ _ HIO).
Qed.

(** C29: a packet that fits is framed by the client exactly as the server frames it, so that
    the server parses the same packet; a packet that does not fit becomes [nullptr], never a
    malformed buffer. *)
Theorem client_packet_exact p :
  packet_wf p ->
  (ByteSizeLong p <= 65531 ->
     exists sb, ClientMakeSendBuffer p = Some sb /\ MakeSendBuffer p = Some sb /\
       is_packet (SendBuffer_payload sb) /\ ParseFromArray (packet_id p) (drop 4 (SendBuffer_payload sb)) = Some p) /\
  (65531 < ByteSizeLong p -> ClientMakeSendBuffer p = None).
Proof using laws.
  intros Hp. rewrite client_make_exact by by apply packet_wf_sized. split; intros Hsz.
  - rewrite Z_gtb_false by lia. destruct (MakeSendBuffer_frame p Hp Hsz) as (sb & Hm & _ & Hpk & _ & _ & Hr).
    exists sb. by rewrite Hm.
  - by rewrite Z_gtb_true by lia.
Qed.

(** C8: from the client to the server.  Take any run of the client, the bytes its system has
    sent, and a session of the server that is connected, is not being shut down, has nothing
    in its receive buffer and room for the jobs in its 32-bit count.  Cut the bytes into
    completions in any way, each of at least one byte and at most what [register_recv] of that
    session offered for it.  Then the server's receive path queues exactly the first requests
    the client's [send] accepted, decoded and in order, behind the jobs that were waiting; it
    closes nothing, and keeps the incomplete rest for the next completion. *)
Theorem client_reaches_server w chunks srv :
  creachable w -> concat chunks = c_sent (w_state w) ->
  completions_fit s_is_connect GameSession_on_recv_packet chunks (s_recv_buffer srv) srv ->
  s_is_connect srv = true -> s_logic_stopped srv = false ->
  0 <= s_pending_jobs srv -> s_pending_jobs srv + zlen (c_accepted (w_state w)) < 2 ^ 32 ->
  RecvBuffer_wf (s_recv_buffer srv) -> rb_Buffer_size (s_recv_buffer srv) = BUFFER_SIZE ->
  BUFFER_SIZE <= RecvBuffer_free_size (s_recv_buffer srv) -> RecvBuffer_data (s_recv_buffer srv) = [] ->
  exists k reqs tail rb,
    Forall2 (fun sb p => ClientMakeSendBuffer p = Some sb) (take k (c_accepted (w_state w))) reqs /\
    c_sent (w_state w) = payloads (take k (c_accepted (w_state w))) ++ tail /\ incomplete tail /\
    receive_chunks s_is_connect GameSession_on_recv_packet chunks (s_recv_buffer srv) srv =
      Some (RecvDone, rb, srv <| s_pending_jobs := s_pending_jobs srv + zlen reqs |>
                              <| s_logic_queue := s_logic_queue srv ++ (PacketJob <$> reqs) |>) /\
    RecvBuffer_data rb = tail.
Proof using laws string_laws.
  intros Hr Hc Hck Hcon Hstop Hj0 Hj Hwf Hsz Hfree Hdata. destruct (creachable_inv w Hr) as [t HI].
  destruct (inv_send _ _ HI) as [_ _ _ _ _ _ _ Hreqs _ _ _ _ (rest & E & _)].
  destruct (requests_decode _ Hreqs) as (Hpk & Hb & _).
  destruct (prefix_packets (SendBuffer_payload <$> c_accepted (w_state w)) (c_sent (w_state w)) Hpk)
    as (k & tail & Esent & Hinc); [unfold payloads in E; rewrite E; by eexists|].
  rewrite <- fmap_take in Esent. fold (payloads (take k (c_accepted (w_state w)))) in Esent.
  destruct (requests_decode (take k (c_accepted (w_state w)))) as (Hpk1 & _ & reqs & Hreq & Hdec); [by apply Forall_take|].
  assert (zlen (take k (c_accepted (w_state w))) <= zlen (c_accepted (w_state w))) as Hlen
    by (unfold zlen; rewrite length_take; lia).
  assert (zlen reqs = zlen (take k (c_accepted (w_state w)))) as Hlr
    by (unfold zlen; by rewrite (Forall2_length _ _ _ Hreq)).
  set (ps := SendBuffer_payload <$> take k (c_accepted (w_state w))) in *.
  pose proof (deliver_connected ps srv Hcon) as Hstay.
  destruct (receive_chunks_spec s_is_connect GameSession_on_recv_packet chunks (s_recv_buffer srv) srv ps tail)
    as (o & rb & s' & Hrc & Hs' & _ & Hall); try done.
  - rewrite Hdata. left. by rewrite zlen_nil.
  - by rewrite Hdata, Hc.
  - fold (payloads (take k (c_accepted (w_state w)))) in *. change (concat ps) with (payloads (take k (c_accepted (w_state w)))).
    rewrite <- Esent. rewrite E in Hb. by apply Forall_app in Hb as [? _].
  - by left.
  - rewrite (handed_all _ _ ps srv Hstay) in *. subst s'.
    destruct (Hall (stays_connected_last _ _ ps srv Hcon Hstay)) as (_ & _ & Hdone).
    destruct (Hdone Hinc) as (-> & _ & _ & Hd & _). exists k, reqs, tail, rb. split_and!; try done.
    rewrite Hrc, deliver_jobs; try done.
    + rewrite Hdec. unfold zlen at 1. by rewrite length_fmap.
    + unfold ps, zlen in *. rewrite length_fmap. lia.
Qed.
End ClientTheorems.
