(* ===== verification/ClientDemo.v ===== *)
(** * A run of the test client

    The methods of the client executed on concrete inputs: a bot connects, starts, logs in,
    gets its answer in two pieces, enters a room and is disconnected.  The threads run one
    after the other, so that the states of the run are reachable by evaluation;
    the witnesses of the theorems of [ClientTheorems] are about them. *)

From stdpp Require Import base list numbers option relations.
From Stdlib Require Import ZArith Lia.
From S2P Require Import Prelude Interleaving Buffers SendEvents ClientEvents Framing Wire Protocol Messages Packets Runtime Config Sessions SessionSafety Clients ClientSafety ClientTheorems.

(** What the environment does. *)
Inductive ClientEnv := ECall (call : ApiCall) | ESent (n : Z) | EReceived (chunk : bytes).

Section ClientRun.
Context {utf8 : Utf8Check} {codec : PacketCodec} {laws : PacketCodecLaws codec}.
Context {api : StringApi} {string_laws : StringApiLaws api}.

(** Calls without text arguments. *)
Definition call_okb (call : ApiCall) : bool :=
  match call with
  | CallLogin _ _ _ _ => false
  | CallTestLogin index _ => (0 <=? index) && (index <? 2 ^ 32)
  | CallEnterRoom room_id => (0 <=? room_id) && (room_id <? 2 ^ 8)
  | CallChat _ chat_state room_id | CallWhisper _ _ chat_state room_id =>
      (-2 ^ 31 <=? chat_state) && (chat_state <? 2 ^ 31) && (-2 ^ 31 <=? room_id) && (room_id <? 2 ^ 31)
  | _ => true
  end.

Definition client_spawn (e : ClientEnv) (s : Client) : option (Client * cprog unit) :=
  match e with
  | ECall call => if call_okb call then Some (s, api_prog call) else None
  | ESent n =>
      match c_send s with
      | Some bs =>
          if c_iocp s && (c_busy s <? WORKER_MAX) && (0 <=? n) && (n <=? zlen bs) && (n <? 2 ^ 32) then
            Some (s <| c_busy := c_busy s + 1 |> <| c_send := None |> <| c_sent := c_sent s ++ take (Z.to_nat n) bs |>,
                  dispatch EVENT_SEND (i32 n))
          else None
      | None => None
      end
  | EReceived chunk =>
      match c_recv s with
      | Some len =>
          if c_iocp s && (c_busy s <? WORKER_MAX) && (zlen chunk <=? len) && forallb (fun b => (0 <=? b) && (b <? 256)) chunk then
            Some (s <| c_busy := c_busy s + 1 |> <| c_recv := None |> <| c_received := c_received s ++ chunk |>
                    <| c_session ::= fun x => x <| ts_recv_buffer ::= RecvBuffer_os_store chunk |> |>,
                  dispatch EVENT_RECV (i32 (zlen chunk)))
          else None
      | None => None
      end
  end.

Lemma call_okb_sound call : call_okb call = true -> call_ok call.
Proof. destruct call; cbn; intros H; bool_lia; try done; lia. Qed.

Lemma client_spawn_sound e s s' p : client_spawn e s = Some (s', p) -> client_env s s' p.
Proof.
  destruct e as [call|n|chunk]; cbn [client_spawn].
  - destruct (call_okb call) eqn:Ec; [|done]. intros [= <- <-]. by apply env_call, call_okb_sound.
  - destruct (c_send s) as [bs|] eqn:Es; [|done]. destruct (_ && _)%bool eqn:Ec; [|done]. intros [= <- <-]. bool_lia.
    by apply env_completion, complete_send.
  - destruct (c_recv s) as [len|] eqn:Es; [|done]. destruct (_ && _)%bool eqn:Ec; [|done]. intros [= <- <-]. bool_lia.
    eapply env_completion, complete_recv; try done.
    apply List.Forall_forall. intros b Hb. match goal with H : forallb _ _ = true |- _ => rewrite forallb_forall in H; apply H in Hb end. bool_lia. done.
Qed.

Definition client_limb (s : Client) : bool := zlen (c_accepted s) <? 2 ^ 40.

Lemma client_limb_sound s : client_limb s = true -> lim s.
Proof. unfold client_limb. intros H. bool_lia. done. Qed.

Definition client_run (scs : list (Sched ClientEnv)) : world Client := wrun client_limb client_spawn scs client_start.

Lemma client_run_reach scs : creachable (client_run scs).
Proof. by apply (wrun_steps client_env lim client_limb client_limb_sound client_spawn client_spawn_sound). Qed.
End ClientRun.

(** ** The run *)

(** A system in which every call succeeds; sockets are number 5. *)
Definition all_ok : Oracle := fun _ => 0.
Definition socket_ok : Oracle := fun i => match i with O => 5 | _ => 0 end.

Definition answer (p : Packet) : bytes := match MakeSendBuffer p with Some sb => SendBuffer_payload sb | None => [] end.
Definition login_answer : bytes := answer (P_ACK_BOT_LOGIN (mkACK_BOT_LOGIN 42 [66] LOGIN_SUCCESS [])).
Definition enter_answer : bytes := answer (P_ACK_ENTER_ROOM (mkACK_ENTER_ROOM 3 ENTER_ROOM_SUCCESS [])).

(** One thread at a time, from its start to its end. *)
Definition alone (e : ClientEnv) (o : Oracle) : list (Sched ClientEnv) := [Spawn e; Advance 0 1000 o].

Definition demo_sched : list (Sched ClientEnv) :=
  alone (ECall CallConnect) socket_ok ++ alone (ECall CallRegisterIocp) all_ok ++ alone (ECall CallStart) all_ok ++
  alone (ECall (CallTestLogin 7 false)) all_ok ++ alone (ESent 5) all_ok ++ alone (ESent 21) all_ok ++
  alone (EReceived (take 5 login_answer)) all_ok ++ alone (EReceived (drop 5 login_answer)) all_ok ++
  alone (ECall (CallEnterRoom 3)) all_ok ++ alone (ESent 6) all_ok ++ alone (EReceived (enter_answer ++ [9])) all_ok.

Definition demo_world : world Client := client_run demo_sched.
Definition demo_client : Client := w_state demo_world.
Definition closed_world : world Client := client_run (demo_sched ++ alone (ECall CallDisconnect) all_ok).
Definition demo_closed : Client := w_state closed_world.

Lemma demo_client_reach : creachable demo_world /\ creachable closed_world.
Proof. split; apply client_run_reach. Qed.

#[local] Opaque demo_world closed_world.

(** ** Witnesses *)


Lemma client_io_exact_witness :
  ts_pending_io (c_session demo_client) = 0 + flying (c_send demo_client) + flying (c_recv demo_client) /\
  c_recv demo_client = Some 655351.
Proof.
  split; [|vm_compute; reflexivity].
  destruct (client_io_exact demo_world (proj1 demo_client_reach)) as [H _].
  unfold demo_client. rewrite H. vm_compute. reflexivity.
Defined.

Lemma client_send_order_witness : c_sent demo_client = payloads (c_accepted demo_client).
Proof.
  apply (proj2 (client_send_order demo_world (proj1 demo_client_reach))); vm_compute; reflexivity.
Defined.

Lemma client_recv_order_witness :
  Forall is_packet (c_handled demo_client) /\ length (c_handled demo_client) = 2%nat.
Proof.
  split; [|vm_compute; reflexivity].
  exact (proj1 (client_recv_order demo_world (proj1 demo_client_reach))).
Defined.

Lemma client_state_types_witness : ts_is_login (c_session demo_closed) = false /\ ts_room_id (c_session demo_closed) = -1.
Proof.
  destruct (client_state_types closed_world (proj2 demo_client_reach)) as (_ & _ & _ & H & _).
  destruct H as (Hl & _ & Hr & _); [vm_compute; reflexivity|]. exact (conj Hl Hr).
Defined.

Lemma client_drains_witness :
  c_recv demo_closed <> None /\ Acc (fun w2 w1 => wstep completion w1 w2) closed_world.
Proof.
  split; [vm_compute; congruence|].
  apply (client_drains closed_world (proj2 demo_client_reach)); [split|]; vm_compute; reflexivity.
Defined.

Lemma client_packet_exact_witness :
  exists sb, ClientMakeSendBuffer demo_login = Some sb /\ MakeSendBuffer demo_login = Some sb.
Proof.
  destruct (proj1 (client_packet_exact demo_login demo_login_wf)) as (sb & H1 & H2 & _); [vm_compute; congruence|].
  exists sb. exact (conj H1 H2).
Defined.

Lemma bytesb_sound bs : forallb (fun b => (0 <=? b) && (b <? 256)) bs = true -> byte_stream bs.
Proof.
  intros H. apply Forall_forall. intros b Hb%list_elem_of_In. rewrite forallb_forall in H. specialize (H b Hb). by bool_lia.
Qed.

(** A connected session of the server with an empty receive buffer. *)
Definition demo_peer : Session := Session_new <| s_is_connect := true |>.

Lemma client_reaches_server_witness :
  exists k reqs tail rb,
    Forall2 (fun sb p => ClientMakeSendBuffer p = Some sb) (take k (c_accepted demo_client)) reqs /\
    incomplete tail /\
    receive_chunks s_is_connect GameSession_on_recv_packet
      [take 10 (c_sent demo_client); drop 10 (c_sent demo_client)] (s_recv_buffer demo_peer) demo_peer =
      Some (RecvDone, rb, demo_peer <| s_pending_jobs := zlen reqs |> <| s_logic_queue := PacketJob <$> reqs |>).
Proof.
  destruct (client_reaches_server demo_world
    [take 10 (c_sent demo_client); drop 10 (c_sent demo_client)] demo_peer (proj1 demo_client_reach))
    as (k & reqs & tail & rb & H1 & _ & H3 & H4 & _).
  - cbn [concat]. rewrite app_nil_r. apply take_drop.
  - apply small_completions_fit.
    + exact (proj1 (RecvBuffer_new_wf 65536 eq_refl eq_refl)).
    + reflexivity.
    + vm_compute. congruence.
    + left. vm_compute. reflexivity.
    + reflexivity.
    + apply bytesb_sound. vm_compute. reflexivity.
    + repeat constructor; vm_compute; congruence.
  - reflexivity.
  - reflexivity.
  - vm_compute. congruence.
  - vm_compute. reflexivity.
  - exact (proj1 (RecvBuffer_new_wf 65536 eq_refl eq_refl)).
  - reflexivity.
  - vm_compute. congruence.
  - vm_compute. reflexivity.
  - exists k, reqs, tail, rb. exact (conj H1 (conj H3 H4)).
Defined.
