(* ===== verification/ClientMain.v ===== *)
(** * The worker pool and the main program of the test client

    [ClientServer] (TestClient/NetWork/ClientServer.{h,cpp}) owns the completion port, the
    worker threads and the sessions.  Its operations are functions on its members that also
    give the calls they make, in order: on sessions, on the port and on the threads.

    The main program (TestClient/Main/main.cpp) decides what the bots do ([bot_action], on
    the indices a bot thread visits, [bot_indices]) and what a line of input means
    ([manual_command]); both produce the calls of the file Clients. *)

From stdpp Require Import base list numbers option sets.
From Stdlib Require Import ZArith Lia.
From Stdlib Require String.
From S2P Require Import Prelude Buffers SendEvents Framing Wire Protocol Packets Runtime Config Clients.

Import String.StringSyntax.

(** ** ClientServer *)

(** Sessions are known by their identity. *)
Record ClientServer := mkClientServer {
  cs_iocp_handle : bool;
  cs_stopped : bool;
  cs_worker_threads : Z;
  cs_sessions : list nat
}.

#[export] Instance ClientServer_settable : Settable ClientServer :=
  fun v => mkClientServer (cs_iocp_handle v) (cs_stopped v) (cs_worker_threads v) (cs_sessions v).

Definition ClientServer_new : ClientServer := mkClientServer false false 0 [].

(** What the operations do outside of the members: [Drain] is the loop of [has_pending_io] and
    [dispatch_once] on the calling thread, [Release] the end of the shared ownership. *)
Inductive ServerCall :=
| RegisterIocp (session : nat) | Disconnect (session : nat)
| WaitForIo (session : nat) | Drain (session : nat)
| StartWorker | PostQuit | JoinWorker | Release (session : nat) | CloseHandle.

(** [created]: whether [CreateIoCompletionPort] succeeds. *)
Definition CreateIocpHandle (created : bool) (v : ClientServer) : bool * list ServerCall * ClientServer :=
  if cs_stopped v then (false, [], v)
  else if cs_iocp_handle v then (true, [], v)
  else (created, [], v <| cs_iocp_handle := created |>).

(** [registered]: the result of [register_iocp]; [None] is a null pointer. *)
Definition register_socket (session : option nat) (registered : bool) (v : ClientServer)
    : bool * list ServerCall * ClientServer :=
  match session with
  | None => (false, [], v)
  | Some session =>
      if cs_stopped v || negb (cs_iocp_handle v) then (false, [Disconnect session], v)
      else if existsb (Nat.eqb session) (cs_sessions v) then (true, [], v)
      else if negb registered then (false, [RegisterIocp session; Disconnect session], v)
      else (true, [RegisterIocp session], v <| cs_sessions := cs_sessions v ++ [session] |>)
  end.

Definition start_worker_thread (thread_count : Z) (v : ClientServer) : bool * list ServerCall * ClientServer :=
  if cs_stopped v || negb (cs_iocp_handle v) || (thread_count <? 1) || (thread_count >? 256) then (false, [], v)
  else (true, replicate (Z.to_nat thread_count) StartWorker,
        v <| cs_worker_threads := cs_worker_threads v + thread_count |>).

(** The local copy of the sessions holds its references until [stop] returns. *)
Definition stop (v : ClientServer) : bool * list ServerCall * ClientServer :=
  if cs_stopped v then (true, [], v)
  else
    let sessions := cs_sessions v in
    let workers := Z.to_nat (cs_worker_threads v) in
    (true,
     (Disconnect <$> sessions) ++
     (if cs_worker_threads v =? 0 then Drain <$> sessions else WaitForIo <$> sessions) ++
     replicate workers PostQuit ++ replicate workers JoinWorker ++
     (if cs_iocp_handle v then [CloseHandle] else []) ++
     (Release <$> sessions),
     mkClientServer false true 0 []).

(** [start_server]: the address is accepted when the port is not zero and the text is an IPv4
    address ([parsed] is the result of [InetPtonW]); the port is stored in network order. *)
Definition htons (port : Z) : Z := 256 * (port mod 256) + port / 256 mod 256.

Definition start_server (parsed : option Z) (port : Z) : option (Z * Z) :=
  match parsed with
  | Some sin_addr => if port =? 0 then None else Some (sin_addr, htons port)
  | None => None
  end.

(** What [dispatch_once] does with the answer of [GetQueuedCompletionStatus]: the result, the
    key, whether there is an event, the error and the byte count.  [Some (session, n)] is the
    call of [dispatch]. *)
Definition WAIT_TIMEOUT : Z := 258.

Definition dispatch_once (result : bool) (key : option nat) (has_event : bool) (last_error num_bytes : Z)
    : bool * option (nat * Z) :=
  if negb has_event then (negb result && (last_error =? WAIT_TIMEOUT), None)
  else match key with
       | None => (true, None)
       | Some session => (true, Some (session, if result then num_bytes else 0))
       end.

Inductive ClientServerOp :=
| OpCreate (created : bool) | OpRegister (session : option nat) (registered : bool)
| OpWorkers (thread_count : Z) | OpStop.

Definition client_server_op (op : ClientServerOp) : ClientServer -> bool * list ServerCall * ClientServer :=
  match op with
  | OpCreate created => CreateIocpHandle created
  | OpRegister session registered => register_socket session registered
  | OpWorkers thread_count => start_worker_thread thread_count
  | OpStop => stop
  end.

(** The calls of a sequence of operations, and the members after it. *)
Fixpoint client_server_ops (ops : list ClientServerOp) (v : ClientServer) : list ServerCall * ClientServer :=
  match ops with
  | [] => ([], v)
  | op :: rest =>
      let '(_, calls, v1) := client_server_op op v in
      let '(calls', v2) := client_server_ops rest v1 in
      (calls ++ calls', v2)
  end.

(** ** The main program *)

Inductive ClientMode := MANUAL | LOAD_TEST.

(** The start of [main]: [Some mode] runs the mode, the numbers are exit codes. *)
Definition select_mode (loaded : bool) (mode : option wstring) (wsa_error : Z) : Z + ClientMode :=
  if negb loaded then inl 1
  else match mode with
       | None => inl 0
       | Some mode =>
           if negb (bool_decide (mode = str "1")) && negb (bool_decide (mode = str "2")) then inl 1
           else if negb (wsa_error =? 0) then inl 1
           else inr (if bool_decide (mode = str "1") then MANUAL else LOAD_TEST)
       end.

(** *** Load test *)

(** The bots whose session connected, was registered and started; [ok i] is that outcome. *)
Definition load_sessions (session_count : Z) (ok : Z -> bool) : list Z :=
  filter (fun i => ok i = true) (seqZ 0 session_count).

(** The indices the loop of bot thread [i] visits; the fuel is the number of sessions. *)
Fixpoint bot_indices (fuel : nat) (index bot_thread_count size : Z) : list Z :=
  match fuel with
  | O => []
  | S fuel' => if index <? size then index :: bot_indices fuel' (u64 (index + bot_thread_count)) bot_thread_count size
               else []
  end.

(** [%]: a division by zero ends the program. *)
Definition rem_checked (a b : Z) : option Z := if b =? 0 then None else Some (Z.rem a b).

(** One round of a bot: [bots] are the bot numbers of the sessions. *)
Definition bot_action (settings : ClientConfig) (bots : list Z) (index : Z) (is_login : bool) (room_id : Z)
    : option (option ApiCall) :=
  bot_index ← bots !! Z.to_nat index;
  if negb is_login then Some None
  else if room_id <? 0 then
    room ← rem_checked bot_index (cc_bot_room_count settings);
    Some (Some (CallEnterRoom (u8 room)))
  else
    all ← rem_checked bot_index (cc_all_chat_interval settings);
    if all =? 0 then Some (Some (CallChat (str "bot all chat test") CHAT_ALL room_id))
    else
      whisper ← (if zlen bots >? 1 then rem_checked bot_index (cc_whisper_interval settings) else Some 1);
      if whisper =? 0 then
        target ← bots !! Z.to_nat ((index + 1) mod zlen bots);
        Some (Some (CallWhisper (str "Bot_" ++ to_string target) (str "bot whisper test") CHAT_WHISPER room_id))
      else Some (Some (CallChat (str "bot room chat test") CHAT_NORMAL room_id)).

(** The backlog the statistics print. *)
Definition backlog (expected received : Z) : Z := if expected >? received then u64 (expected - received) else 0.

(** *** Manual test *)

(** [line.rfind(prefix, 0) == 0]. *)
Definition starts_with (prefix line : wstring) : bool := bool_decide (take (length prefix) line = prefix).

Inductive Command :=
| Quit | Request (call : ApiCall) | BadRoom | Usage | Ignored.

(** A line of input; [room_id] is the room of the session.  The blanks that [stoi] skips before
    the number are those of ASCII. *)
Definition manual_command (line : wstring) (room_id : Z) : Command :=
  if bool_decide (line = str "/q") then Quit
  else if bool_decide (line = str "/rooms") then Request CallGetRoomInfo
  else if starts_with (str "/enter ") line then
    match substr 7 npos line with
    | None => BadRoom
    | Some value =>
        match stoi value with
        | None => BadRoom
        | Some (room, last) =>
            if negb (last =? zlen value) || (room <? 0) || (room >? 255) then BadRoom
            else Request (CallEnterRoom (u8 room))
        end
    end
  else if bool_decide (line = str "/exit") then Request CallExitRoom
  else if starts_with (str "/all ") line then Request (CallChat (drop 5 line) CHAT_ALL room_id)
  else if starts_with (str "/chat ") line then Request (CallChat (drop 6 line) CHAT_NORMAL room_id)
  else if starts_with (str "/whisper ") line then
    let body := drop 9 line in
    let split := find 32 body in
    if split =? npos then Usage
    else Request (CallWhisper (take (Z.to_nat split) body) (drop (Z.to_nat (split + 1)) body) CHAT_WHISPER room_id)
  else Ignored.

(** The login menu: what to do with a choice, before the credentials are read. *)
Inductive MenuChoice := MenuLeave | MenuAgain | MenuLogin (is_create : bool).

Definition login_menu (choice : option wstring) : MenuChoice :=
  match choice with
  | None => MenuLeave
  | Some choice =>
      if bool_decide (choice = str "3") || bool_decide (choice = str "/q") then MenuLeave
      else if negb (bool_decide (choice = str "1")) && negb (bool_decide (choice = str "2")) then MenuAgain
      else MenuLogin (bool_decide (choice = str "2"))
  end.

(** ** Lemmas *)

(** *** The life of the worker pool *)

Definition count_calls (k : ServerCall -> bool) (calls : list ServerCall) : Z := zlen (filter (fun c => k c = true) calls).

Definition is_release (c : ServerCall) : bool := match c with Release _ => true | _ => false end.
Definition is_start (c : ServerCall) : bool := match c with StartWorker => true | _ => false end.
Definition is_join (c : ServerCall) : bool := match c with JoinWorker => true | _ => false end.

(** What must have happened before a session is released. *)
Definition released_last (calls : list ServerCall) : Prop :=
  forall session before after, calls = before ++ Release session :: after ->
    RegisterIocp session ∈ before /\ Disconnect session ∈ before /\
    (WaitForIo session ∈ before \/ Drain session ∈ before) /\
    count_calls is_join before = count_calls is_start before.

Lemma count_app k a b : count_calls k (a ++ b) = count_calls k a + count_calls k b.
Proof. unfold count_calls. by rewrite list.filter_app, zlen_app. Qed.

Lemma count_zero k a : Forall (fun c => k c = false) a -> count_calls k a = 0.
Proof.
  unfold count_calls. induction 1 as [|c a Hc _ IH]; [done|]. by rewrite filter_cons_False by by rewrite Hc.
Qed.

Lemma count_replicate k n c : k c = true -> count_calls k (replicate n c) = Z.of_nat n.
Proof.
  intros Hc. unfold count_calls. induction n as [|n IH]; [done|]. cbn [replicate]. rewrite filter_cons_True by done.
  rewrite zlen_cons, IH. lia.
Qed.

Lemma count_fmap {A} k (f : A -> ServerCall) l : (forall a, k (f a) = false) -> count_calls k (f <$> l) = 0.
Proof. intros Hf. apply count_zero, Forall_fmap, Forall_true. intros a. apply Hf. Qed.

(** A release in the middle of a list that ends with calls that are none. *)
Lemma release_split a b session before after :
  a ++ b = before ++ Release session :: after -> Forall (fun c => is_release c = false) b ->
  exists after', a = before ++ Release session :: after'.
Proof.
  intros E Hb. destruct (app_eq_inv _ _ _ _ E) as [(k & E1 & E2)|(k & E1 & E2)].
  - destruct k as [|c k]; cbn in E2.
    + subst b. by apply Forall_cons_1 in Hb as [? _].
    + injection E2 as <- _. by exists k.
  - subst b. apply Forall_app in Hb as [_ Hb]. by apply Forall_cons_1 in Hb as [? _].
Qed.

Lemma released_app a b :
  released_last a -> Forall (fun c => is_release c = false) b -> released_last (a ++ b).
Proof.
  intros Ha Hb session before after E. destruct (release_split _ _ _ _ _ E Hb) as [after' E']. by eapply Ha.
Qed.

(** The calls so far and the members belong together. *)
Definition calls_ok (calls : list ServerCall) (v : ClientServer) : Prop :=
  if cs_stopped v then v = mkClientServer false true 0 [] /\ released_last calls
  else NoDup (cs_sessions v) /\ Forall (fun c => is_release c = false /\ is_join c = false) calls /\
       Forall (fun session => RegisterIocp session ∈ calls) (cs_sessions v) /\
       0 <= cs_worker_threads v /\ count_calls is_start calls = cs_worker_threads v.

Lemma no_release_last calls : Forall (fun c => is_release c = false) calls -> released_last calls.
Proof. intros H session before after ->. apply Forall_app in H as [_ H]. by apply Forall_cons_1 in H as [? _]. Qed.

(** The calls of [stop] up to the releases, and a release among the sessions. *)
Lemma fmap_split {A} (f : A -> ServerCall) l before c after :
  f <$> l = before ++ c :: after -> exists a x b, l = a ++ x :: b /\ before = f <$> a /\ c = f x.
Proof.
  intros E. apply fmap_app_inv in E as (a & l2 & -> & E2 & ->). symmetry in E2.
  apply fmap_cons_inv in E2 as (x & b & -> & _ & ->). by exists a, x, b.
Qed.

Lemma stop_ok calls v :
  calls_ok calls v -> cs_stopped v = false -> released_last (calls ++ snd (fst (stop v))).
Proof.
  unfold calls_ok, stop. intros Hok Hs. rewrite Hs in *. destruct Hok as (_ & Hno & Hreg & Hw & Hcount). cbn [fst snd].
  set (quits := replicate (Z.to_nat (cs_worker_threads v)) PostQuit). set (joins := replicate (Z.to_nat (cs_worker_threads v)) JoinWorker).
  set (waits := if cs_worker_threads v =? 0 then Drain <$> cs_sessions v else WaitForIo <$> cs_sessions v).
  set (close := if cs_iocp_handle v then [CloseHandle] else []).
  set (head := calls ++ (Disconnect <$> cs_sessions v) ++ waits ++ quits ++ joins ++ close).
  assert (Forall (fun c => is_release c = false) head) as Hhead.
  { unfold head, waits, quits, joins, close. repeat apply Forall_app_2.
    - eapply list.Forall_impl; [exact Hno|]. by intros ? [? _].
    - by apply Forall_fmap, Forall_true.
    - destruct (_ =? 0); by apply Forall_fmap, Forall_true.
    - by apply Forall_replicate.
    - by apply Forall_replicate.
    - destruct (cs_iocp_handle v); by repeat constructor. }
  assert (count_calls is_join head = cs_worker_threads v /\ count_calls is_start head = cs_worker_threads v) as [Hj Hst].
  { unfold head, quits, joins. rewrite !count_app, Hcount.
    rewrite (count_zero is_join calls) by (eapply list.Forall_impl; [exact Hno|]; by intros ? [_ ?]).
    rewrite (count_fmap is_join Disconnect), (count_fmap is_start Disconnect), (count_replicate is_join _ JoinWorker) by done.
    rewrite (count_zero is_join (replicate _ PostQuit)), (count_zero is_start (replicate _ PostQuit)),
      (count_zero is_start (replicate _ JoinWorker)) by by apply Forall_replicate.
    assert (count_calls is_join waits = 0 /\ count_calls is_start waits = 0) as [-> ->].
    { unfold waits. destruct (_ =? 0); split; by apply count_fmap. }
    assert (count_calls is_join close = 0 /\ count_calls is_start close = 0) as [-> ->].
    { unfold close. by destruct (cs_iocp_handle v). }
    lia. }
  assert (calls ++ (Disconnect <$> cs_sessions v) ++ waits ++ quits ++ joins ++ close ++ (Release <$> cs_sessions v)
    = head ++ (Release <$> cs_sessions v)) as ->.
  { unfold head. by rewrite <- !app_assoc. }
  intros session before after E.
  assert (exists rest, before = head ++ rest /\ session ∈ cs_sessions v /\ Forall (fun c => is_join c = false /\ is_start c = false) rest)
    as (rest & -> & Hin & Hrest).
  { destruct (app_eq_inv _ _ _ _ E) as [(k & E1 & E2)|(k & E1 & E2)].
    - destruct k as [|c k].
      + cbn in E2. exists []. rewrite app_nil_r in E1. split; [by rewrite app_nil_r|].
        symmetry in E2. destruct (fmap_split Release (cs_sessions v) [] (Release session) after E2) as (a & x & b & -> & _ & [= ->]).
        split; [apply elem_of_app; right; constructor|constructor].
      + injection E2 as <- E2. exfalso. rewrite E1 in Hhead. apply Forall_app in Hhead as [_ Hhead].
        by apply Forall_cons_1 in Hhead as [? _].
    - destruct (fmap_split Release _ _ _ _ E2) as (a & x & b & El & -> & [= ->]). exists (Release <$> a).
      split; [done|]. split; [rewrite El; apply elem_of_app; right; constructor|]. by apply Forall_fmap, Forall_true. }
  rewrite List.Forall_forall in Hreg. specialize (Hreg session (proj1 (list_elem_of_In _ _) Hin)).
  rewrite !count_app, Hj, Hst, (count_zero is_join rest), (count_zero is_start rest)
    by (eapply list.Forall_impl; [exact Hrest|]; by intros ? [? ?]).
  split_and!; [unfold head; set_solver|unfold head; set_solver| |done].
  unfold head, waits. destruct (_ =? 0); [right|left]; set_solver.
Qed.

Lemma client_server_op_ok op calls v :
  calls_ok calls v -> let '(_, new, v') := client_server_op op v in calls_ok (calls ++ new) v'.
Proof.
  intros Hok. destruct op as [created|session registered|thread_count|]; cbn [client_server_op].
  - unfold CreateIocpHandle. destruct (cs_stopped v) eqn:Es; [by rewrite app_nil_r|].
    destruct (cs_iocp_handle v); rewrite app_nil_r; [done|]. unfold calls_ok in *. cbn. by rewrite Es in *.
  - unfold register_socket. destruct session as [session|]; [|by rewrite app_nil_r].
    destruct (cs_stopped v || _)%bool eqn:E0.
    { unfold calls_ok in *. destruct (cs_stopped v).
      - destruct Hok as [? Hr]. split; [done|]. by apply released_app; [|repeat constructor].
      - destruct Hok as (? & ? & Hreg & ? & ?). split_and!; try done.
        + by apply Forall_app_2; [|repeat constructor].
        + eapply list.Forall_impl; [exact Hreg|]. set_solver.
        + rewrite count_app, (count_zero is_start (_ :: _)) by (by repeat constructor). lia. }
    bool_lia. destruct (existsb _ _) eqn:E1; [by rewrite app_nil_r|].
    unfold calls_ok in *. rewrite H in *. destruct Hok as (? & ? & Hreg & ? & ?).
    destruct registered; cbn [negb]; cbn [cs_stopped cs_sessions cs_worker_threads upd]; rewrite ?H; split_and!; try done.
    + apply NoDup_app. split_and!; [done| |apply NoDup_singleton]. intros x Hx ->%list_elem_of_singleton.
      apply not_true_iff_false in E1. apply E1, existsb_exists. exists session. rewrite <- list_elem_of_In. by rewrite Nat.eqb_refl.
    + by apply Forall_app_2; [|repeat constructor].
    + apply Forall_app_2; [eapply list.Forall_impl; [exact Hreg|]; set_solver|]. constructor; [|constructor]. set_solver.
    + rewrite count_app, (count_zero is_start (_ :: _)) by (by repeat constructor). lia.
    + by apply Forall_app_2; [|repeat constructor].
    + eapply list.Forall_impl; [exact Hreg|]. set_solver.
    + rewrite count_app, (count_zero is_start (_ :: _)) by (by repeat constructor). lia.
  - unfold start_worker_thread. destruct (_ || _)%bool eqn:E0; [by rewrite app_nil_r|]. bool_lia.
    unfold calls_ok in *. cbn [cs_stopped cs_sessions cs_worker_threads upd]. rewrite H in *.
    destruct Hok as (? & ? & Hreg & ? & ?). split_and!; try done.
    + by apply Forall_app_2; [|apply Forall_replicate].
    + eapply list.Forall_impl; [exact Hreg|]. set_solver.
    + lia.
    + rewrite count_app, count_replicate by done. lia.
  - pose proof (stop_ok calls v Hok) as Hst. unfold stop in *. destruct (cs_stopped v) eqn:Es; [by rewrite app_nil_r|].
    cbn [fst snd] in Hst. split; [done|by apply Hst].
Qed.

Lemma client_server_ops_ok ops : forall calls v,
  calls_ok calls v -> let '(new, v') := client_server_ops ops v in calls_ok (calls ++ new) v'.
Proof.
  induction ops as [|op ops IH]; intros calls v Hok; cbn [client_server_ops]; [by rewrite app_nil_r|].
  pose proof (client_server_op_ok op calls v Hok) as H1. destruct (client_server_op op v) as [[b new] v1].
  specialize (IH _ _ H1). destruct (client_server_ops ops v1) as [new' v2]. by rewrite app_assoc.
Qed.

(** C38: whatever sequence of operations a [ClientServer] gets, a session is given up only after
    it was registered, disconnected and all its operations had completed, and after every
    worker thread that was started had been joined; a session is registered once; and after
    [stop] nothing is left, and nothing is taken on any more. *)
Theorem client_server_lifecycle ops :
  let '(calls, v) := client_server_ops ops ClientServer_new in
  released_last calls /\ NoDup (cs_sessions v) /\ (cs_stopped v = true -> v = mkClientServer false true 0 []).
Proof.
  assert (calls_ok [] ClientServer_new) as Hnew by by repeat constructor.
  pose proof (client_server_ops_ok ops [] ClientServer_new Hnew) as Hok.
  destruct (client_server_ops ops ClientServer_new) as [calls v]. cbn [app] in Hok. unfold calls_ok in Hok.
  destruct (cs_stopped v) eqn:Es.
  - destruct Hok as [-> Hr]. split_and!; [done|constructor|done].
  - destruct Hok as (Hnd & Hno & _). split_and!; [|done|done]. apply no_release_last.
    eapply list.Forall_impl; [exact Hno|]. by intros ? [? _].
Qed.

(** *** Bots *)

(** The indices from [index] on in steps of the number of threads. *)
Lemma bot_indices_spec fuel : forall index n size,
  0 <= index -> 0 < n -> index + n < 2 ^ 63 -> size < 2 ^ 62 -> size - index <= Z.of_nat fuel ->
  NoDup (bot_indices fuel index n size) /\
  forall x, x ∈ bot_indices fuel index n size <-> index <= x < size /\ (x - index) mod n = 0.
Proof.
  induction fuel as [|fuel IH]; intros index n size Hi Hn Hb Hs Hf; cbn [bot_indices].
  { split; [constructor|]. intros x. rewrite elem_of_nil. lia. }
  destruct (index <? size) eqn:E; bool_lia.
  2: { split; [constructor|]. intros x. rewrite elem_of_nil. lia. }
  rewrite u64_small by lia.
  assert (forall x, x ∈ bot_indices fuel (index + n) n size <-> index + n <= x < size /\ (x - (index + n)) mod n = 0) as Hin.
  { destruct (decide (index + n < size)).
    - apply IH; lia.
    - intros x. destruct fuel as [|fuel']; cbn [bot_indices]; [|rewrite Z_ltb_false by lia]; rewrite elem_of_nil; lia. }
  assert (NoDup (bot_indices fuel (index + n) n size)) as Hnd.
  { destruct (decide (index + n < size)); [apply IH; lia|].
    destruct fuel as [|fuel']; cbn [bot_indices]; [|rewrite Z_ltb_false by lia]; constructor. }
  assert (forall x, (x - (index + n)) mod n = (x - index) mod n) as Hmod.
  { intros x. replace (x - index) with ((x - (index + n)) + 1 * n) by lia. by rewrite Z.mod_add by lia. }
  split.
  - constructor; [|done]. rewrite Hin. lia.
  - intros x. rewrite elem_of_cons, Hin, Hmod. split.
    + intros [->|[? ?]]; [|split; [lia|done]]. rewrite Z.sub_diag, Z.mod_0_l by lia. lia.
    + intros [Hx Hm]. destruct (decide (x = index)) as [->|Hne]; [by left|right]. split; [|done].
      destruct (decide (x - index < n)); [|lia]. rewrite Z.mod_small in Hm by lia. lia.
Qed.

(** The bot threads divide the sessions among them: every session is visited in a round by
    exactly one bot thread, and only once. *)
Theorem bot_threads_partition bot_thread_count size :
  in_range bot_thread_count 1 256 -> 0 <= size < 2 ^ 62 ->
  forall x, 0 <= x < size ->
    exists i, 0 <= i < bot_thread_count /\ x ∈ bot_indices (Z.to_nat size) i bot_thread_count size /\
      NoDup (bot_indices (Z.to_nat size) i bot_thread_count size) /\
      forall j, 0 <= j < bot_thread_count -> x ∈ bot_indices (Z.to_nat size) j bot_thread_count size -> j = i.
Proof.
  unfold in_range. intros Hn Hs x Hx. exists (x mod bot_thread_count).
  pose proof (Z.mod_pos_bound x bot_thread_count ltac:(lia)) as Hi. pose proof (Z_div_mod_eq_full x bot_thread_count) as Hd.
  assert (0 <= x / bot_thread_count) by (apply Z.div_pos; lia).
  assert (forall j, 0 <= j < bot_thread_count -> NoDup (bot_indices (Z.to_nat size) j bot_thread_count size) /\
    forall y, y ∈ bot_indices (Z.to_nat size) j bot_thread_count size <-> j <= y < size /\ (y - j) mod bot_thread_count = 0) as Hspec.
  { intros j Hj. apply bot_indices_spec; lia. }
  split; [done|]. destruct (Hspec _ Hi) as [Hnd Hin]. split_and!; [|done|].
  - apply Hin. split; [nia|]. replace (x - x mod bot_thread_count) with (x / bot_thread_count * bot_thread_count) by lia.
    apply Z.mod_mul. lia.
  - intros j Hj [_ Hm]%(Hspec j Hj). apply Z.mod_divide in Hm as [q Hq]; [|lia].
    apply (Z.mod_unique x bot_thread_count q j); [by left|lia].
Qed.

Section Calls.
Context {utf8 : Utf8Check}.

Lemma rem_checked_some a b : 0 <= a -> 0 < b -> exists r, rem_checked a b = Some r /\ 0 <= r < b.
Proof.
  intros Ha Hb. unfold rem_checked. rewrite (proj2 (Z.eqb_neq b 0)) by lia. eexists. split; [done|].
  apply Z.rem_bound_pos; lia.
Qed.

(** With the settings the client accepts a bot never divides by zero and never indexes a
    session out of range; what it asks for is a call with arguments of their types, and the
    room it enters is its number modulo the number of rooms. *)
Theorem bot_action_ok settings bots index is_login room_id :
  client_limits settings -> Forall (fun b => 0 <= b < 2 ^ 31) bots -> 0 <= index < zlen bots ->
  -2 ^ 31 <= room_id < 2 ^ 31 ->
  exists r, bot_action settings bots index is_login room_id = Some r /\
    forall call, r = Some call -> is_login = true /\ call_ok call /\
      (room_id < 0 -> exists b, bots !! Z.to_nat index = Some b /\ call = CallEnterRoom (b mod cc_bot_room_count settings)).
Proof.
  unfold client_limits, in_range. intros (_ & _ & _ & _ & Hrooms & Hall & Hwh) Hbots Hi Hroom. unfold bot_action.
  destruct (lookup_lt_is_Some_2 bots (Z.to_nat index)) as [b Hb]; [unfold zlen in Hi; lia|]. rewrite Hb. cbn [mbind option_bind].
  rewrite Forall_lookup in Hbots. specialize (Hbots _ _ Hb) as Hbr.
  destruct is_login; cbn [negb]; [|by eexists].
  destruct (room_id <? 0) eqn:Er; bool_lia.
  { destruct (rem_checked_some b (cc_bot_room_count settings)) as (r & Hr & Hrr); [lia..|]. rewrite Hr. cbn [mbind option_bind].
    eexists. split; [done|]. intros call [= <-]. split_and!; [done|cbn; rewrite u8_small; lia|]. intros _. exists b.
    split; [done|]. f_equal. rewrite u8_small by lia. unfold rem_checked in Hr. rewrite (proj2 (Z.eqb_neq _ 0)) in Hr by lia.
    injection Hr as <-. apply Z.rem_mod_nonneg; lia. }
  destruct (rem_checked_some b (cc_all_chat_interval settings)) as (a & -> & Ha); [lia..|]. cbn [mbind option_bind].
  destruct (a =? 0); [eexists; split; [done|]; intros call [= <-]; split_and!; [done|cbn; unfold CHAT_ALL, CHAT_NORMAL, CHAT_WHISPER; lia|lia]|].
  assert (exists w, (if zlen bots >? 1 then rem_checked b (cc_whisper_interval settings) else Some 1) = Some w) as [w ->].
  { destruct (zlen bots >? 1); [|by eexists]. destruct (rem_checked_some b (cc_whisper_interval settings)) as (w & -> & _); [lia..|by eexists]. }
  cbn [mbind option_bind]. destruct (w =? 0).
  - destruct (lookup_lt_is_Some_2 bots (Z.to_nat ((index + 1) mod zlen bots))) as [tgt ->].
    { pose proof (Z.mod_pos_bound (index + 1) (zlen bots)). unfold zlen in *. lia. }
    cbn [mbind option_bind]. eexists. split; [done|]. intros call [= <-]. split_and!; [done|cbn; unfold CHAT_ALL, CHAT_NORMAL, CHAT_WHISPER; lia|lia].
  - eexists. split; [done|]. intros call [= <-]. split_and!; [done|cbn; unfold CHAT_ALL, CHAT_NORMAL, CHAT_WHISPER; lia|lia].
Qed.

(** *** Commands *)

Lemma starts_with_app p s : starts_with p (p ++ s) = true.
Proof. unfold starts_with. apply bool_decide_eq_true. apply take_app_length. Qed.

Lemma find_space t m : 32 ∉ t -> find 32 (t ++ 32 :: m) = zlen t.
Proof.
  intros Ht. unfold find. rewrite find_if_app; [lia| |done].
  apply List.Forall_forall. intros x Hx. apply Z.eqb_neq. intros <-. by apply Ht, list_elem_of_In.
Qed.

(** Decides the comparisons of a line whose beginning is literal text. *)
Ltac literal_tests :=
  repeat (first
    [ rewrite starts_with_app
    | match goal with |- context [if bool_decide (?a = ?b) then _ else _] =>
        replace (bool_decide (a = b)) with false by (vm_compute; reflexivity) end
    | match goal with |- context [if starts_with ?a ?b then _ else _] =>
        replace (starts_with a b) with false by (vm_compute; reflexivity) end ]; cbv iota).

(** The commands of the manual test mean what the help text says: the room number is read
    as a decimal number and must be from 0 to 255, the chat commands take the whole rest of
    the line, a whisper goes to the first word; and whatever is typed, a request has arguments
    of their types. *)
Theorem manual_command_exact room_id :
  -2 ^ 31 <= room_id < 2 ^ 31 ->
  (forall n, 0 <= n < 2 ^ 31 ->
     manual_command (str "/enter " ++ to_string n) room_id = if n <=? 255 then Request (CallEnterRoom n) else BadRoom) /\
  (forall m, manual_command (str "/all " ++ m) room_id = Request (CallChat m CHAT_ALL room_id)) /\
  (forall m, manual_command (str "/chat " ++ m) room_id = Request (CallChat m CHAT_NORMAL room_id)) /\
  (forall t m, 32 ∉ t -> zlen t < 2 ^ 32 ->
     manual_command (str "/whisper " ++ t ++ 32 :: m) room_id = Request (CallWhisper t m CHAT_WHISPER room_id)) /\
  (forall line call, manual_command line room_id = Request call -> call_ok call).
Proof.
  intros Hroom. split_and!.
  - intros n Hn. unfold manual_command. literal_tests.
    assert (substr 7 npos (str "/enter " ++ to_string n) = Some (to_string n)) as ->.
    { unfold substr. destruct (to_string_cases n) as (c & s & Hc & _ & _ & _ & Hl); [lia|]. pose proof (zlen_nonneg (to_string n)).
      rewrite zlen_app. change (zlen (str "/enter ")) with 7. rewrite Z_gtb_false by lia. f_equal. unfold slice.
      change (drop (Z.to_nat 7) (str "/enter " ++ to_string n)) with (to_string n). apply take_ge. unfold npos, zlen in *. lia. }
    rewrite stoi_to_string by done. rewrite Z.eqb_refl, Z_ltb_false by lia. cbn [negb orb].
    rewrite Z.gtb_ltb, Z.ltb_antisym. destruct (n <=? 255) eqn:E; bool_lia; cbn [negb]; [|done]. by rewrite u8_small by lia.
  - intros m. unfold manual_command. literal_tests. done.
  - intros m. unfold manual_command. literal_tests. done.
  - intros t m Ht Hl. unfold manual_command. literal_tests.
    change (drop 9 (str "/whisper " ++ t ++ 32 :: m)) with (t ++ 32 :: m). pose proof (zlen_nonneg t).
    rewrite find_space by done. rewrite (proj2 (Z.eqb_neq (zlen t) npos)) by (unfold npos; lia).
    unfold zlen. rewrite Nat2Z.id. replace (Z.to_nat (Z.of_nat (length t) + 1)) with (S (length t)) by lia.
    rewrite take_app_length. replace (drop (S (length t)) (t ++ 32 :: m)) with m; [done|].
    replace (S (length t)) with (length t + 1)%nat by lia. by rewrite <- drop_drop, drop_app_length.
  - intros line call. unfold manual_command. repeat split_match; intros [= <-]; cbn; try done;
      unfold CHAT_ALL, CHAT_NORMAL, CHAT_WHISPER; try lia. apply u8_range.
Qed.
End Calls.

(** *** Witnesses *)

Lemma bot_threads_partition_witness :
  exists i, 0 <= i < 3 /\ 7 ∈ bot_indices 10 i 3 10 /\ NoDup (bot_indices 10 i 3 10) /\
    forall j, 0 <= j < 3 -> 7 ∈ bot_indices 10 j 3 10 -> j = i.
Proof.
  apply (bot_threads_partition 3 10); [unfold in_range; lia|lia|lia].
Defined.

Lemma bot_action_ok_witness :
  exists r, bot_action demo_client_config [3; 25] 1 true (-1) = Some r /\
    forall call, r = Some call -> true = true /\ call_ok (utf8 := ref_utf8) call /\
      (-1 < 0 -> exists b, [3; 25] !! Z.to_nat 1 = Some b /\ call = CallEnterRoom (b mod 10)).
Proof.
  apply (bot_action_ok demo_client_config [3; 25] 1 true (-1)).
  - unfold client_limits, in_range, INT32_MAX. simpl. lia.
  - repeat constructor; lia.
  - vm_compute. intuition congruence.
  - lia.
Defined.

Lemma manual_command_exact_witness :
  manual_command (str "/whisper " ++ str "Bot_1" ++ 32 :: str "hi") 3 =
  Request (CallWhisper (str "Bot_1") (str "hi") CHAT_WHISPER 3).
Proof.
  apply (manual_command_exact (utf8 := ref_utf8) 3); [lia| |vm_compute; reflexivity].
  apply (bool_decide_unpack _). vm_compute. exact I.
Defined.
