(* ===== verification/Connections.v ===== *)
(** * Server sessions under concurrency

    [Session] (ServerCore/NetWork/Session.{h,cpp}) again, this time with the threads that run
    its methods at once: workers that process completions and jobs, handlers of other sessions
    and the heartbeat that call [send] and [disconnect], the listener that opens or rejects
    the connection, and the thread that shuts the server down.  The file Sessions runs a method
    in one step; here a method is a program of the file Interleaving, with one action for each
    access to an atomic member and for each critical section.

    A critical section under [_io_lock] reads [_is_connect], which other threads change without
    that lock: the read is an action of its own in front of the section.  The parts of a section
    that run after a failed system call are actions of their own too, because [send] sees
    [_is_send_register] without [_io_lock].  That no other thread uses the send event or the
    receive buffer between two actions of a method is not assumed: it is what the file
    ConnectionSafety proves.

    A session is shown together with the part of the operating system it talks to (the
    overlapped operations in flight), with the worker that may be running a job of its queue,
    and with the history: the buffers [send] queued, the bytes sent and received, the packets
    handed to [on_recv_packet], the jobs taken from the queue and the jobs run. *)

From stdpp Require Import base list numbers option.
From Stdlib Require Import ZArith Lia.
From S2P Require Import Prelude Interleaving Buffers SendEvents Framing JobQueues Wire Protocol Packets Sessions.

(** ** State *)

(** The life of a session in the hands of the listener: it waits in an [AcceptEx]; the
    listener runs [process_connect] or [reject_connection] and has not set [_is_connect]
    yet; it serves a client; it turns one away. *)
Inductive Phase := Waiting | Opening | Serving | Rejecting.

(** [n_closing] is set when [begin_shutdown] is called.  [n_broken] records that the rest of a
    send was given up after an error. *)
Record Conn := mkConn {
  n_session : Session;
  n_stats : ServerStats;
  n_recv : option Z;
  n_send : option bytes;
  n_disconnect : bool;
  n_busy : Z;
  n_running : bool;
  n_phase : Phase;
  n_closing : bool;
  n_accepted : list SendBuffer;
  n_sent : bytes;
  n_broken : bool;
  n_received : bytes;
  n_framed : list bytes;
  n_popped : list SessionJob;
  n_ran : list SessionJob
}.

#[export] Instance Conn_settable : Settable Conn :=
  fun s => mkConn (n_session s) (n_stats s) (n_recv s) (n_send s) (n_disconnect s) (n_busy s)
    (n_running s) (n_phase s) (n_closing s) (n_accepted s) (n_sent s) (n_broken s) (n_received s)
    (n_framed s) (n_popped s) (n_ran s).

Definition Conn_new : Conn :=
  mkConn Session_new ServerStats_zero None None false 0 false Waiting false [] [] false [] [] [] [].

(** ** Actions *)

Abbreviation nprog := (prog Conn).

Definition on_conn {B : Set} (f : Session -> Session * B) : nprog B :=
  atomic (fun _ s => let '(x, b) := f (n_session s) in Some (s <| n_session := x |>, b)).

Definition load_conn {B : Set} (f : Session -> B) : nprog B := on_conn (fun x => (x, f x)).

Definition store_conn (f : Session -> Session) : nprog unit := on_conn (fun x => (f x, tt)).

Definition conn_count (f : ServerStats -> ServerStats) : nprog unit :=
  atomic (fun _ s => Some (s <| n_stats ::= f |>, tt)).

Definition Conn_is_connected : nprog bool := load_conn s_is_connect.

(** [IocpObject::begin_io] and [finish_io]; [None] is a failed [ASSERT_CRASH]. *)
Definition begin_io_conn (x : Session) : Session := x <| s_pending_io ::= fun n => u32 (n + 1) |>.

Definition finish_io_conn (x : Session) : option Session :=
  if s_pending_io x >? 0 then Some (x <| s_pending_io ::= fun n => u32 (n - 1) |>) else None.

(** The end of a critical section whose system call failed. *)
Definition abandon_io (f : Session -> Session) : nprog unit :=
  atomic (fun _ s => x ← finish_io_conn (f (n_session s)); Some (s <| n_session := x |>, tt)).

(** What became of an overlapped call: not made, refused, or in flight. *)
Inductive Submitted := NotMade | Refused | InFlight.

(** [o 0] is the error code of an overlapped call, [0] when it succeeds. *)
Definition call_accepted (o : Oracle) : bool := (o 0%nat =? 0) || (o 0%nat =? WSA_IO_PENDING).

(** *** Disconnecting *)

Definition Conn_process_disconnect : nprog unit :=
  was ← on_conn (fun x => (x <| s_is_disconnect := true |>, s_is_disconnect x));
  if (was : bool) then mret ()
  else
    store_conn (fun x => x <| s_is_connect := false |>) ≫= fun _ =>
    store_conn (fun x => x <| s_is_send_register := false |>) ≫= fun _ =>
    store_conn (Session_queue_logic CleanupJob true).

(** [None]: the [OVERLAPPED] of the event is still in use. *)
Definition register_disconnect_conn (o : Oracle) (s : Conn) : option (Conn * Submitted) :=
  if s_shutdown_started (n_session s) then Some (s, NotMade)
  else if n_disconnect s then None
  else
    let x := begin_io_conn (n_session s <| s_disconnect_owner := true |>) in
    if call_accepted o then Some (s <| n_session := x |> <| n_disconnect := true |>, InFlight)
    else Some (s <| n_session := x |>, Refused).

Definition Conn_register_disconnect : nprog bool :=
  r ← atomic register_disconnect_conn;
  match r with
  | NotMade => mret false
  | InFlight => mret true
  | Refused => abandon_io (fun x => x <| s_disconnect_owner := false |>) ≫= fun _ => mret false
  end.

Definition Conn_disconnect : nprog unit :=
  was ← on_conn (fun x => (x <| s_is_connect := false |>, s_is_connect x));
  if negb was then mret ()
  else
    ok ← Conn_register_disconnect;
    if negb ok then Conn_process_disconnect else mret ().

(** *** Sending *)

Inductive SendSubmitted := SendNotMade | SendEmpty | SendRefused | SendInFlight.

(** The critical section of [register_send] up to the result of [WSASend]; [connected] is what
    it read of [_is_connect]. *)
Definition register_send_conn (connected : bool) (o : Oracle) (s : Conn) : option (Conn * SendSubmitted) :=
  if s_shutdown_started (n_session s) then Some (s, SendNotMade)
  else if negb connected then Some (s, SendNotMade)
  else if n_send s then None
  else
    let x := Session_fill_send_event (n_session s <| s_send_owner := true |>) in
    let wsaBufs := SendEvent_build_wsabufs (s_send_event x) in
    match wsaBufs with
    | [] => Some (s <| n_session := x |>, SendEmpty)
    | _ =>
        let x := begin_io_conn x in
        if call_accepted o then
          Some (s <| n_session := x |>
                  <| n_send := Some (wsabufs_bytes (take (Z.to_nat (u32 (zlen wsaBufs))) wsaBufs)) |>, SendInFlight)
        else Some (s <| n_session := x |>, SendRefused)
    end.

(** Giving up the rest of a send. *)
Definition abandon_send : nprog unit :=
  atomic (fun _ s => x ← finish_io_conn (Session_reset_send (n_session s));
                     Some (s <| n_session := x |> <| n_broken := true |>, tt)).

Definition Conn_register_send : nprog unit :=
  connected ← Conn_is_connected;
  r ← atomic (register_send_conn connected);
  match r with
  | SendNotMade | SendInFlight => mret ()
  | SendEmpty =>
      store_conn Session_reset_send ≫= fun _ =>
      close ← load_conn s_close_after_send;
      if (close : bool) then Conn_disconnect else mret ()
  | SendRefused => abandon_send ≫= fun _ => Conn_disconnect
  end.

Inductive SendOutcome := SendIgnored | SendOverflow | SendQueued (register : bool).

(** The section of [send] under [WRITE_LOCK]. *)
Definition send_conn (connected : bool) (sendBuffer : SendBuffer) (s : Conn) : Conn * SendOutcome :=
  let x := n_session s in
  if negb connected then (s, SendIgnored)
  else if zlen (s_send_queue x) >=? MAX_SEND_QUEUE_SIZE then (s, SendOverflow)
  else
    (s <| n_session := x <| s_send_queue ::= fun q => q ++ [sendBuffer] |> <| s_is_send_register := true |> |>
       <| n_accepted ::= fun l => l ++ [sendBuffer] |>, SendQueued (negb (s_is_send_register x))).

Definition Conn_send (sendBuffer : SendBuffer) : nprog unit :=
  connected ← Conn_is_connected;
  if negb connected then mret ()
  else
    connected ← Conn_is_connected;
    r ← atomic (fun _ s => Some (send_conn connected sendBuffer s));
    match r with
    | SendIgnored => mret ()
    | SendOverflow => Conn_disconnect
    | SendQueued registerSend => if (registerSend : bool) then Conn_register_send else mret ()
    end.

Definition consume_conn (numOfBytes : Z) (s : Conn) : option (Conn * bool) :=
  r ← SendEvent_consume_sent_bytes numOfBytes (s_send_event (n_session s));
  Some (s <| n_session ::= fun x => x <| s_send_event := snd r |> |>, fst r).

Definition refuse_completion : nprog unit :=
  atomic (fun _ s => Some (s <| n_session ::= fun x => x <| s_send_event ::= SendEvent_clear |> <| s_is_send_register := false |> |>
                             <| n_broken := true |>, tt)).

(** The section under [WRITE_LOCK] at the end of [process_send]. *)
Definition need_register_conn (x : Session) : Session * bool :=
  match s_send_queue x with
  | [] => (x <| s_is_send_register := false |>, false)
  | _ => (x, true)
  end.

Definition Conn_process_send (numOfBytes : Z) : nprog unit :=
  store_conn (fun x => x <| s_send_owner := false |>) ≫= fun _ =>
  connected ← Conn_is_connected;
  if negb connected then store_conn (fun x => x <| s_send_event ::= SendEvent_clear |>)
  else
    ok ← atomic (fun _ => consume_conn numOfBytes);
    if negb ok then refuse_completion ≫= fun _ => Conn_disconnect
    else
      conn_count (fun st => st <| st_send_complete ::= bump 1 |> <| st_send_complete_bytes ::= bump numOfBytes |>) ≫= fun _ =>
      pending ← load_conn (fun x => SendEvent_has_pending_data (s_send_event x));
      if (pending : bool) then Conn_register_send
      else
        store_conn (fun x => x <| s_send_event ::= SendEvent_clear |>) ≫= fun _ =>
        close ← load_conn s_close_after_send;
        if (close : bool) then
          store_conn (fun x => x <| s_is_send_register := false |>) ≫= fun _ => Conn_disconnect
        else
          need_register ← on_conn need_register_conn;
          if (need_register : bool) then Conn_register_send else mret ().

(** *** Receiving *)

Definition register_recv_conn (connected : bool) (o : Oracle) (s : Conn) : option (Conn * Submitted) :=
  if s_shutdown_started (n_session s) || negb connected then Some (s, NotMade)
  else if n_recv s then None
  else
    let len := RecvBuffer_free_size (s_recv_buffer (n_session s)) in
    let x := begin_io_conn (n_session s <| s_recv_owner := true |>) in
    if call_accepted o then Some (s <| n_session := x |> <| n_recv := Some (u32 len) |>, InFlight)
    else Some (s <| n_session := x |>, Refused).

Definition Conn_register_recv : nprog unit :=
  connected ← Conn_is_connected;
  r ← atomic (register_recv_conn connected);
  match r with
  | NotMade | InFlight => mret ()
  | Refused => abandon_io (fun x => x <| s_recv_owner := false |>) ≫= fun _ => Conn_disconnect
  end.

(** *** Opening *)

Definition open_conn (phase : Phase) : nprog bool :=
  atomic (fun _ s => Some (s <| n_session ::= fun x => x <| s_is_connect := true |> |> <| n_phase := phase |>,
                           s_is_connect (n_session s))).

Definition Conn_process_connect : nprog unit :=
  store_conn (fun x => x <| s_was_connected := true |>) ≫= fun _ =>
  open_conn Serving ≫= fun _ =>
  conn_count (fun st => st <| st_connect ::= bump 1 |>) ≫= fun _ =>
  Conn_register_recv.

Section Packets.
Context {codec : PacketCodec}.

Definition Conn_reject_connection (max_session_count : Z) : nprog unit :=
  was ← open_conn Rejecting;
  if (was : bool) then mret ()
  else
    store_conn (fun x => x <| s_was_connected := true |>) ≫= fun _ =>
    store_conn (fun x => x <| s_close_after_send := true |>) ≫= fun _ =>
    conn_count (fun st => st <| st_connect ::= bump 1 |>) ≫= fun _ =>
    match GameSession_make_server_full_notice max_session_count with
    | None => Crash
    | Some notice => Conn_send notice
    end.

(** [GameSession::send_ping]. *)
Definition Conn_send_ping (now : Z) : nprog unit :=
  store_conn (fun x => x <| s_last_ping_tick := now |>) ≫= fun _ =>
  store_conn (fun x => x <| s_waiting_pong := true |>) ≫= fun _ =>
  match MakeSendBuffer (P_ACK_SEND_CONNECT_PING (ACK_SEND_CONNECT_PING_default <| ACK_SEND_CONNECT_PING_server_tick := now |>)) with
  | None => Crash
  | Some sendBuffer => Conn_send sendBuffer
  end.

(** *** Packets *)

(** A packet is recorded when it is handed to [on_recv_packet], which queues its job. *)
Definition Conn_on_recv_packet (packet : bytes) : nprog unit :=
  atomic (fun _ s => Some (s <| n_session ::= GameSession_on_recv_packet packet |> <| n_framed ::= fun l => l ++ [packet] |>, tt)).

Fixpoint Conn_on_recv_loop (fuel : nat) (get_buffer : bytes) (len processLen : Z) : nprog Z :=
  match fuel with
  | O => Crash
  | S fuel' =>
      let dataSize := i32 (len - processLen) in
      if u64 dataSize <? sizeof_PacketHeader then mret processLen
      else
        let header := PacketHeader_read (drop (Z.to_nat processLen) get_buffer) in
        if hdr_size header <? sizeof_PacketHeader then mret (-1)
        else if hdr_size header >? BUFFER_SIZE then mret (-1)
        else if dataSize <? hdr_size header then mret processLen
        else
          Conn_on_recv_packet (slice processLen (hdr_size header) get_buffer) ≫= fun _ =>
          let processLen := i32 (processLen + hdr_size header) in
          connected ← Conn_is_connected;
          if negb connected then mret processLen
          else Conn_on_recv_loop fuel' get_buffer len processLen
  end.

(** Every round of the loop consumes at least a header. *)
Definition Conn_on_recv (get_buffer : bytes) (len : Z) : nprog Z :=
  Conn_on_recv_loop (Z.to_nat len + 1) get_buffer len 0.

Definition on_recv_buffer (f : RecvBuffer -> bool * RecvBuffer) : nprog bool :=
  on_conn (fun x => let '(ok, rb) := f (s_recv_buffer x) in (x <| s_recv_buffer := rb |>, ok)).

Definition Conn_process_recv (numOfBytes : Z) : nprog unit :=
  store_conn (fun x => x <| s_recv_owner := false |>) ≫= fun _ =>
  connected ← Conn_is_connected;
  if negb connected then mret ()
  else if numOfBytes =? 0 then Conn_disconnect
  else
    written ← on_recv_buffer (RecvBuffer_on_write numOfBytes);
    if negb written then Conn_disconnect
    else
      dataSize ← load_conn (fun x => RecvBuffer_data_size (s_recv_buffer x));
      get_buffer ← load_conn (fun x => RecvBuffer_read_pos (s_recv_buffer x));
      processLen ← Conn_on_recv get_buffer dataSize;
      if (processLen <? 0) || (dataSize <? processLen) then Conn_disconnect
      else
        read ← on_recv_buffer (RecvBuffer_on_read processLen);
        if negb read then Conn_disconnect
        else
          on_recv_buffer (fun rb => (true, RecvBuffer_clean rb)) ≫= fun _ =>
          Conn_register_recv.

(** *** Shutting down *)

(** The section under [_io_lock]: [_shutdown_started] is only read under that lock, so that it
    changes together with [_logic_stopped]; [_is_connect] is read without it. *)
Definition Conn_begin_shutdown : nprog unit :=
  was ← on_conn (fun x => if s_shutdown_started x then (x, true)
                           else (x <| s_shutdown_started := true |> <| s_logic_stopped := true |>, false));
  if (was : bool) then mret ()
  else
    store_conn (fun x => x <| s_is_connect := false |> <| s_socket_open := false |>) ≫= fun _ =>
    Conn_process_disconnect.

(** The last section of [wait_for_shutdown]. *)
Definition wait_for_shutdown_conn (x : Session) : Session :=
  x <| s_send_queue := [] |> <| s_send_event ::= SendEvent_clear |>.

(** *** Completions *)

Definition Conn_dispatch (type : EventType) (numOfBytes : Z) : nprog unit :=
  match type with
  | EventType_connect => Conn_process_connect
  | EventType_disconnect =>
      store_conn (fun x => x <| s_disconnect_owner := false |>) ≫= fun _ => Conn_process_disconnect
  | EventType_Recv => Conn_process_recv numOfBytes
  | EventType_send => Conn_process_send numOfBytes
  | EventType_Accept => mret ()
  end.

(** [IocpCore::dispatch] after a completion was dequeued; [owner] is whether the event had an
    owner then.  Without one the completion is not counted. *)
Definition Conn_iocp_dispatch (owner : bool) (type : EventType) (numOfBytes : Z) : nprog unit :=
  if negb owner then mret ()
  else
    Conn_dispatch type numOfBytes ≫= fun _ =>
    atomic (fun _ s => x ← finish_io_conn (n_session s);
                       Some (s <| n_session := x |> <| n_busy ::= fun n => n - 1 |>, tt)).

(** *** Jobs *)

(** What the code outside of a session does to its connection. *)
Inductive ConnCall := CallSend (sendBuffer : SendBuffer) | CallDisconnect.

Definition conn_call (call : ConnCall) : nprog unit :=
  match call with
  | CallSend sendBuffer => Conn_send sendBuffer
  | CallDisconnect => Conn_disconnect
  end.

Fixpoint conn_calls (calls : list ConnCall) : nprog unit :=
  match calls with
  | [] => mret ()
  | call :: rest => conn_call call ≫= fun _ => conn_calls rest
  end.

(** The check of [is_connected] in front of a handler; a handler that starts is recorded. *)
Definition start_handler (pkt : Packet) : nprog bool :=
  atomic (fun _ s => let connected := s_is_connect (n_session s) in
                     Some (if connected then s <| n_ran ::= fun l => l ++ [PacketJob pkt] |> else s, connected)).

Definition record_cleanup : nprog unit :=
  atomic (fun _ s => Some (s <| n_ran ::= fun l => l ++ [CleanupJob] |>, tt)).

(** The callback of a packet.  Its handler is given by the calls it makes on this session. *)
Definition packet_callback (pkt : Packet) (calls : list ConnCall) : nprog unit :=
  connected ← start_handler pkt;
  if negb connected then mret () else conn_calls calls.

(** The callback of [process_disconnect].  What it does to users, rooms and the session manager is
    [cleanup_job] of the server model; here it happens where it is recorded. *)
Definition cleanup_callback : nprog unit :=
  record_cleanup ≫= fun _ =>
  store_conn (fun x => x <| s_account_idx := 0 |> <| s_user_name := [] |>) ≫= fun _ =>
  store_conn (fun x => x <| s_enter_room_id := -1 |>) ≫= fun _ =>
  store_conn (fun x => x <| s_cleanup_done := true |>).

Definition job_callback (job : SessionJob) (calls : list ConnCall) : nprog unit :=
  match job with
  | PacketJob pkt => packet_callback pkt calls
  | CleanupJob => cleanup_callback
  end.

(** The lambda of [queue_logic]. *)
Definition Conn_run_job (job : SessionJob) (calls : list ConnCall) : nprog unit :=
  job_callback job calls ≫= fun _ =>
  atomic (fun _ s => if s_pending_jobs (n_session s) >? 0
                     then Some (s <| n_session ::= fun x => x <| s_pending_jobs ::= fun n => u32 (n - 1) |> |>
                                  <| n_running := false |>, tt)
                     else None).

(** ** Runs *)

(** A buffer as [MakeSendBuffer] builds it. *)
Definition packet_buffer (b : SendBuffer) : Prop := SendBuffer_wf b /\ sb_write_size b < 2 ^ 16.

Definition conn_call_ok (call : ConnCall) : Prop :=
  match call with CallSend b => packet_buffer b | CallDisconnect => True end.

(** The threads that end by themselves: a worker takes a completion (the system has sent a
    prefix of the bytes, or has stored bytes behind [write_pos()]; no bytes is also how a failed
    operation is reported), or takes the next job, when none is running. *)
Inductive conn_io : Conn -> Conn -> nprog unit -> Prop :=
| io_send s bs n :
    n_busy s < THREAD_MAX -> n_send s = Some bs -> 0 <= n <= zlen bs ->
    conn_io s (s <| n_busy ::= fun k => k + 1 |> <| n_send := None |> <| n_sent ::= fun l => l ++ take (Z.to_nat n) bs |>)
      (Conn_iocp_dispatch (s_send_owner (n_session s)) EventType_send (i32 n))
| io_recv s len chunk :
    n_busy s < THREAD_MAX -> n_recv s = Some len -> zlen chunk <= len -> byte_stream chunk ->
    conn_io s
      (s <| n_busy ::= fun k => k + 1 |> <| n_recv := None |> <| n_received ::= fun l => l ++ chunk |>
         <| n_session ::= fun x => x <| s_recv_buffer ::= RecvBuffer_os_store chunk |> |>)
      (Conn_iocp_dispatch (s_recv_owner (n_session s)) EventType_Recv (i32 (zlen chunk)))
| io_disconnect s :
    n_busy s < THREAD_MAX -> n_disconnect s = true ->
    conn_io s (s <| n_busy ::= fun k => k + 1 |> <| n_disconnect := false |>)
      (Conn_iocp_dispatch (s_disconnect_owner (n_session s)) EventType_disconnect 0)
| io_job s job rest calls :
    n_running s = false -> s_logic_queue (n_session s) = job :: rest -> Forall conn_call_ok calls ->
    conn_io s (s <| n_running := true |> <| n_popped ::= fun l => l ++ [job] |>
                 <| n_session ::= fun x => x <| s_logic_queue := rest |> |>)
      (Conn_run_job job calls).

(** The listener opens a session once, and is stopped before the sessions are shut down. *)
Inductive conn_env : Conn -> Conn -> nprog unit -> Prop :=
| conn_completes s s' p : conn_io s s' p -> conn_env s s' p
| conn_connects s :
    n_phase s = Waiting -> n_closing s = false ->
    conn_env s (s <| n_phase := Opening |>) Conn_process_connect
| conn_rejects s max_session_count :
    n_phase s = Waiting -> n_closing s = false ->
    conn_env s (s <| n_phase := Opening |>) (Conn_reject_connection max_session_count)
| conn_called s call : conn_call_ok call -> conn_env s s (conn_call call)
| conn_shuts s : n_phase s <> Opening -> conn_env s (s <| n_closing := true |>) Conn_begin_shutdown
| conn_waits s :
    s_shutdown_started (n_session s) = true -> Session_shutdown_complete (n_session s) = true ->
    conn_env s (s <| n_session ::= wait_for_shutdown_conn |>) (mret ()).
End Packets.
