(* ===== verification/UserPrograms.v ===== *)
(** * The handlers of different sessions, interleaving

    A worker runs the jobs of one session at a time, but the jobs of different sessions run on
    different workers at once.  The file Handlers runs a whole job in one step; here the same
    handlers (GameServer/Packet/ServerPacketHandler.cpp), the cleanup job of
    [Session::process_disconnect] with [GameSession::on_disconnect], and [SessionManager::add_session]
    are programs of the file Interleaving, with one action for each section under a lock of [Login],
    [Room] or [SessionManager] and for each access to a member of a session.  Between two actions of
    a handler the handlers of all other sessions can do anything: this is where the owner that
    [release_logout_session] and [release_name_session] expect, and the order in which a handler
    leaves the room, logs out and gives up its entries, matter.

    What a handler does to a connection, its own or another one, is a call of [send] or
    [disconnect]; the calls are recorded, and the file Connections shows what becomes of them
    whatever they are.  Whether a session is connected can change at any time, so [is_connected]
    is answered by the oracle.  The pure functions of Accounts, Rooms and Managers are the sections
    under the locks. *)

From stdpp Require Import base list numbers option gmap.
From Stdlib Require Import ZArith Lia.
From S2P Require Import Prelude Interleaving Buffers SendEvents Framing JobQueues Wire Protocol Packets Accounts Rooms Sessions Managers Handlers Connections.

(** ** State *)

(** The part of a session the handlers use.  [us_is_disconnect] tells whether a worker
    has taken the cleanup job, [us_busy] whether a worker runs a job of the session. *)
Record User := mkUser {
  us_account_idx : Z;
  us_user_name : wstring;
  us_enter_room_id : Z;
  us_is_login : bool;
  us_phase : Phase;
  us_is_disconnect : bool;
  us_cleanup_done : bool;
  us_busy : bool
}.

#[export] Instance User_settable : Settable User :=
  fun u => mkUser (us_account_idx u) (us_user_name u) (us_enter_room_id u) (us_is_login u) (us_phase u)
             (us_is_disconnect u) (us_cleanup_done u) (us_busy u).

Definition User_new : User := mkUser 0 [] (-1) false Waiting false false false.

Record Users := mkUsers {
  u_sessions : gmap nat User;
  u_login : Login;
  u_rooms : RoomManager;
  u_mgr : SessionManager;
  u_stats : ServerStats;
  u_calls : list (nat * ConnCall)
}.

#[export] Instance Users_settable : Settable Users :=
  fun s => mkUsers (u_sessions s) (u_login s) (u_rooms s) (u_mgr s) (u_stats s) (u_calls s).

Definition Users_new (session_max_count : Z) : Users :=
  mkUsers ∅ Login_new RoomManager_create_room (SessionManager_new session_max_count) ServerStats_zero [].

(** ** Actions *)

Abbreviation uprog := (prog Users).

(** A member of the session the job belongs to. *)
Definition on_user {B : Set} (sid : nat) (f : User -> User * B) : uprog B :=
  atomic (fun _ s => u ← u_sessions s !! sid;
                     let '(u', b) := f u in Some (s <| u_sessions ::= insert sid u' |>, b)).

Definition load_user {B : Set} (sid : nat) (f : User -> B) : uprog B := on_user sid (fun u => (u, f u)).
Definition store_user (sid : nat) (f : User -> User) : uprog unit := on_user sid (fun u => (f u, tt)).

(** A section under the lock of [GLogin], of a room, or of the session manager. *)
Definition on_login {B : Set} (f : Login -> B * Login) : uprog B :=
  atomic (fun _ s => let '(b, lg) := f (u_login s) in Some (s <| u_login := lg |>, b)).

Definition on_rooms {B : Set} (f : RoomManager -> B * RoomManager) : uprog B :=
  atomic (fun _ s => let '(b, rl) := f (u_rooms s) in Some (s <| u_rooms := rl |>, b)).

Definition on_manager {B : Set} (f : SessionManager -> B * SessionManager) : uprog B :=
  atomic (fun _ s => let '(b, m) := f (u_mgr s) in Some (s <| u_mgr := m |>, b)).

Definition count_users (f : ServerStats -> ServerStats) : uprog unit :=
  atomic (fun _ s => Some (s <| u_stats ::= f |>, tt)).

(** [is_connected] of a session. *)
Definition connected_now (sid : nat) : uprog bool := atomic (fun o s => Some (s, o 0%nat =? 0)).

(** A call on the connection of a session. *)
Definition call_session (sid : nat) (call : ConnCall) : uprog unit :=
  atomic (fun _ s => Some (s <| u_calls ::= fun l => l ++ [(sid, call)] |>, tt)).

(** [get_room_id] of any session.  A reference always leads to an object, so that the default is
    not used. *)
Definition room_of (sid : nat) : uprog Z :=
  atomic (fun _ s => Some (s, us_enter_room_id (default User_new (u_sessions s !! sid)))).

Section Handlers.
Context {codec : PacketCodec} {api : StringApi}.

(** [SEND_PACKET]; [Crash] is the write out of range of [MakeSendBuffer]. *)
Definition send_answer (sid : nat) (pkt : Packet) : uprog unit :=
  match MakeSendBuffer pkt with
  | None => Crash
  | Some sendBuffer => call_session sid (CallSend sendBuffer)
  end.

(** ** Logging in and out *)

Definition login_section (is_create : bool) (id pw name : bytes) (lg : Login) : (Z * wstring * Z) * Login :=
  if is_create then
    let user_name := Utf8ToWString name in
    let '(result, idx, lg') := Login_create_account id pw user_name 0 lg in
    ((result, user_name, idx), lg')
  else
    let '(result, user_name, idx, lg') := Login_login id pw [] 0 lg in
    ((result, user_name, idx), lg').

(** The body of [Handle_REQ_LOGIN] and [Handle_REQ_BOT_LOGIN] after a successful call of [GLogin]. *)
Definition enter_user_tables (sid : nat) (idx : Z) (user_name : wstring) : uprog unit :=
  store_user sid (fun u => u <| us_is_login := true |>) ≫= fun _ =>
  store_user sid (fun u => u <| us_account_idx := idx |>) ≫= fun _ =>
  store_user sid (fun u => u <| us_user_name := user_name |>) ≫= fun _ =>
  on_manager (fun m => (tt, SessionManager_add_account_session idx sid m)) ≫= fun _ =>
  on_manager (fun m => (tt, SessionManager_add_name_session user_name sid m)) ≫= fun _ =>
  count_users (fun st => st <| st_login ::= bump 1 |>).

Definition User_login_request (sid : nat) (is_create : bool) (id pw name : bytes)
    (ack : Z -> bytes -> Z -> Packet) : uprog bool :=
  if bool_decide (id = []) || (zlen id >? 32) then mret false
  else if bool_decide (pw = []) || (zlen pw >? 32) then mret false
  else if is_create && (bool_decide (name = []) || (zlen name >? 32)) then mret false
  else
    is_login ← load_user sid us_is_login;
    if (is_login : bool) then call_session sid CallDisconnect ≫= fun _ => mret false
    else
      r ← on_login (login_section is_create id pw name);
      let '(result, user_name, idx) := r in
      (if result =? LOGIN_SUCCESS then enter_user_tables sid idx user_name else mret ()) ≫= fun _ =>
      send_answer sid (ack idx (WStringToUtf8 user_name) result) ≫= fun _ =>
      mret true.

Definition user_must_login (sid : nat) (body : uprog bool) : uprog bool :=
  is_login ← load_user sid us_is_login;
  if negb is_login then call_session sid CallDisconnect ≫= fun _ => mret false else body.

Definition User_logout (sid : nat) : uprog bool :=
  user_must_login sid (
    room_id ← load_user sid us_enter_room_id;
    (if 0 <=? room_id then
       exit_room_id ← load_user sid us_enter_room_id;
       account_id ← load_user sid us_account_idx;
       on_rooms (RoomManager_exit_room exit_room_id account_id) ≫= fun _ =>
       store_user sid (fun u => u <| us_enter_room_id := -1 |>)
     else mret ()) ≫= fun _ =>
    account_id ← load_user sid us_account_idx;
    ok ← on_login (Login_logout account_id);
    if negb ok then
      send_answer sid (P_ACK_LOGOUT (mkACK_LOGOUT LOGOUT_FAILE [])) ≫= fun _ => mret true
    else
      account_idx ← load_user sid us_account_idx;
      on_manager (fun m => (tt, SessionManager_release_logout_session account_idx sid m)) ≫= fun _ =>
      user_name ← load_user sid us_user_name;
      on_manager (fun m => (tt, SessionManager_release_name_session user_name sid m)) ≫= fun _ =>
      store_user sid (fun u => u <| us_account_idx := 0 |>) ≫= fun _ =>
      store_user sid (fun u => u <| us_user_name := [] |>) ≫= fun _ =>
      store_user sid (fun u => u <| us_is_login := false |>) ≫= fun _ =>
      send_answer sid (P_ACK_LOGOUT (mkACK_LOGOUT LOGOUT_SUCCESS [])) ≫= fun _ =>
      mret true).

(** ** Rooms *)

(** The loop over the rooms; the map of rooms does not change, the counts do. *)
Fixpoint collect_rooms (keys : list Z) (acc : list RoomInfo) : uprog (list RoomInfo) :=
  match keys with
  | [] => mret acc
  | k :: rest =>
      infos ← atomic (fun _ s => Some (s, match u_rooms s !! k with
        | Some rm => [(rm_room_id rm, rm_room_cur_count rm, rm_room_max_count rm)]
        | None => []
        end));
      collect_rooms rest (acc ++ ((fun i => mkRoomInfo i.1.1 i.1.2 i.2 []) <$> infos))
  end.

Definition User_get_room_info (sid : nat) : uprog bool :=
  user_must_login sid (
    keys ← atomic (fun _ s => Some (s, map_order (u_rooms s)));
    room_info_list ← collect_rooms keys [];
    send_answer sid (P_ACK_GET_ROOM_INFO (mkACK_GET_ROOM_INFO room_info_list [])) ≫= fun _ => mret true).

Definition User_enter_room (sid : nat) (enter_room_id : Z) : uprog bool :=
  user_must_login sid (
    room_id ← load_user sid us_enter_room_id;
    if 0 <=? room_id then
      send_answer sid (P_ACK_ENTER_ROOM (mkACK_ENTER_ROOM 0 ENTER_ROOM_FAIL [])) ≫= fun _ => mret true
    else
      account_id ← load_user sid us_account_idx;
      ok ← on_rooms (RoomManager_enter_room enter_room_id account_id sid);
      if negb ok then
        send_answer sid (P_ACK_ENTER_ROOM (mkACK_ENTER_ROOM 0 ENTER_ROOM_FAIL [])) ≫= fun _ => mret true
      else
        store_user sid (fun u => u <| us_enter_room_id := enter_room_id |>) ≫= fun _ =>
        send_answer sid (P_ACK_ENTER_ROOM (mkACK_ENTER_ROOM enter_room_id ENTER_ROOM_SUCCESS [])) ≫= fun _ =>
        mret true).

Definition User_exit_room (sid : nat) : uprog bool :=
  user_must_login sid (
    exit_room_id ← load_user sid us_enter_room_id;
    left ← (if exit_room_id <? 0 then mret false
            else account_id ← load_user sid us_account_idx; on_rooms (RoomManager_exit_room exit_room_id account_id));
    if negb left then
      send_answer sid (P_ACK_EXIT_ROOM (mkACK_EXIT_ROOM EXIT_ROOM_FAIL [])) ≫= fun _ => mret true
    else
      store_user sid (fun u => u <| us_enter_room_id := -1 |>) ≫= fun _ =>
      send_answer sid (P_ACK_EXIT_ROOM (mkACK_EXIT_ROOM EXIT_ROOM_SUCCESS [])) ≫= fun _ =>
      mret true).

(** ** Chat *)

(** The loop of [all_chat]: the sessions were copied under the lock, each is looked at later. *)
Fixpoint send_in_rooms (sessions : list nat) (sendBuffer : SendBuffer) (count : Z) : uprog Z :=
  match sessions with
  | [] => mret count
  | sid :: rest =>
      connected ← connected_now sid;
      skip ← (if (connected : bool) then room_id ← room_of sid; mret (room_id <? 0) else mret true);
      if (skip : bool) then send_in_rooms rest sendBuffer count
      else call_session sid (CallSend sendBuffer) ≫= fun _ => send_in_rooms rest sendBuffer (i32 (count + 1))
  end.

(** The two loops of [normal_chat].  The first holds the lock; here handlers may change the map
    while it looks at the sessions one by one, which allows more than the code does. *)
Fixpoint pick_room (room_id : Z) (sessions : list nat) : uprog (list nat) :=
  match sessions with
  | [] => mret []
  | sid :: rest =>
      connected ← connected_now sid;
      here ← (if (connected : bool) then room ← room_of sid; mret (room =? room_id) else mret false);
      l ← pick_room room_id rest;
      mret (if (here : bool) then sid :: l else l)
  end.

Fixpoint send_all (sessions : list nat) (sendBuffer : SendBuffer) (count : Z) : uprog Z :=
  match sessions with
  | [] => mret count
  | sid :: rest => call_session sid (CallSend sendBuffer) ≫= fun _ => send_all rest sendBuffer (i32 (count + 1))
  end.

Definition User_all_chat (sendBuffer : SendBuffer) : uprog Z :=
  sessions ← on_manager (fun m => (set_order (sm_sessions m), m));
  send_in_rooms sessions sendBuffer 0.

Definition User_normal_chat (room_id : Z) (sendBuffer : SendBuffer) : uprog Z :=
  sessions ← on_manager (B := list nat) (fun m => (omap (fun a => sm_account_sessions m !! a) (map_order (sm_account_sessions m)), m));
  targets ← pick_room room_id sessions;
  send_all targets sendBuffer 0.

Definition User_whisper_chat (target_name : wstring) (sendBuffer : SendBuffer) : uprog Z :=
  target ← on_manager (fun m => (sm_name_sessions m !! target_name, m));
  match target with
  | None => mret 0
  | Some sid =>
      connected ← connected_now sid;
      if negb connected then mret 0
      else call_session sid (CallSend sendBuffer) ≫= fun _ => mret 1
  end.

Definition user_chat_fail (sid : nat) (result : Z) : uprog bool :=
  send_answer sid (P_ACK_CHAT (mkACK_CHAT result 0 [])) ≫= fun _ => mret true.

Definition user_chat_deliver (sid : nat) (message : bytes) (deliver : SendBuffer -> uprog Z) : uprog bool :=
  user_name ← load_user sid us_user_name;
  match MakeSendBuffer (P_ACK_SEND_CHAT (mkACK_SEND_CHAT (WStringToUtf8 user_name) message [])) with
  | None => Crash
  | Some sendBuffer =>
      targetCount ← deliver sendBuffer;
      count_users (fun st => st <| st_broadcast_packet ::= bump 1 |>) ≫= fun _ =>
      count_users (fun st => st <| st_broadcast_target ::= bump targetCount |>) ≫= fun _ =>
      count_users (fun st => st <| st_recv_chat ::= bump 1 |>) ≫= fun _ =>
      send_answer sid (P_ACK_CHAT (mkACK_CHAT CHAT_ERROR_SUCCESS (u32 targetCount) [])) ≫= fun _ =>
      mret true
  end.

Definition User_chat (sid : nat) (pkt : REQ_CHAT) : uprog bool :=
  user_must_login sid (
    let message := REQ_CHAT_message pkt in
    if bool_decide (message = []) || (zlen message >? 256) then user_chat_fail sid CHAT_ERROR_FAIL
    else if REQ_CHAT_chat_state pkt =? CHAT_NORMAL then
      room_id ← load_user sid us_enter_room_id;
      if room_id <? 0 then user_chat_fail sid CHAT_ERROR_FAIL
      else
      cur_room_id ← load_user sid us_enter_room_id;
      if negb (cur_room_id =? REQ_CHAT_room_id pkt) then user_chat_fail sid CHAT_ERROR_FAIL
      else user_chat_deliver sid message (User_normal_chat (REQ_CHAT_room_id pkt))
    else if REQ_CHAT_chat_state pkt =? CHAT_ALL then user_chat_deliver sid message User_all_chat
    else if REQ_CHAT_chat_state pkt =? CHAT_WHISPER then
      let target := REQ_CHAT_target_name pkt in
      if bool_decide (target = []) || (zlen target >? 32) then user_chat_fail sid CHAT_ERROR_FAIL
      else
        found ← on_manager (fun m => (SessionManager_is_whisper_target_find (Utf8ToWString target) m, m));
        if negb found then user_chat_fail sid CHAT_ERROR_NOT_TARGET
        else user_chat_deliver sid message (User_whisper_chat (Utf8ToWString target))
    else user_chat_fail sid CHAT_ERROR_FAIL).

(** ** Jobs *)

(** The answer to a ping sets two members that belong to the connection. *)
Definition user_packet_handler (sid : nat) (pkt : Packet) : uprog bool :=
  match pkt with
  | P_REQ_LOGIN m =>
      User_login_request sid (REQ_LOGIN_is_create m) (REQ_LOGIN_id m) (REQ_LOGIN_pw m) (REQ_LOGIN_name m)
        (fun idx user_name result => P_ACK_LOGIN (mkACK_LOGIN idx user_name result []))
  | P_REQ_BOT_LOGIN m =>
      User_login_request sid (REQ_BOT_LOGIN_is_create m) (REQ_BOT_LOGIN_id m) (REQ_BOT_LOGIN_pw m) (REQ_BOT_LOGIN_name m)
        (fun idx user_name result => P_ACK_BOT_LOGIN (mkACK_BOT_LOGIN idx user_name result []))
  | P_REQ_LOGOUT _ => User_logout sid
  | P_REQ_GET_ROOM_INFO _ => User_get_room_info sid
  | P_REQ_ENTER_ROOM m => User_enter_room sid (REQ_ENTER_ROOM_room_id m)
  | P_REQ_EXIT_ROOM _ => User_exit_room sid
  | P_REQ_CHAT m => User_chat sid m
  | P_REQ_CONNECT_PONG _ => mret true
  | _ => mret false
  end.

(** The end of the wrapper of [queue_logic]. *)
Definition job_ends (sid : nat) : uprog unit := store_user sid (fun u => u <| us_busy := false |>).

Definition User_packet_job (sid : nat) (pkt : Packet) : uprog unit :=
  connected ← connected_now sid;
  (if (connected : bool) then user_packet_handler sid pkt ≫= fun _ => mret () else mret ()) ≫= fun _ =>
  job_ends sid.

(** [_was_connected]: [reject_connection] stores it after the connection is open, so that the
    cleanup of a session that is turned away can read it either way. *)
Definition was_connected_now (sid : nat) : uprog bool :=
  atomic (fun o s => u ← u_sessions s !! sid;
                     Some (s, match us_phase u with Serving => true | Rejecting => o 0%nat =? 0 | _ => false end)).

Definition User_on_disconnect (sid : nat) : uprog unit :=
  count_users (fun st => st <| st_disconnect ::= bump 1 |>) ≫= fun _ =>
  account_id ← load_user sid us_account_idx;
  room_id ← load_user sid us_enter_room_id;
  (if 0 <=? room_id then
     on_rooms (RoomManager_exit_room room_id account_id) ≫= fun _ =>
     store_user sid (fun u => u <| us_enter_room_id := -1 |>)
   else mret ()) ≫= fun _ =>
  was ← on_user sid (fun u => (u <| us_is_login := false |>, us_is_login u));
  if (was : bool) then on_login (Login_logout account_id) ≫= fun _ => mret () else mret ().

Definition User_release_session (sid : nat) : uprog unit :=
  account_id ← load_user sid us_account_idx;
  on_manager (fun m => (tt, SessionManager_release_logout_session account_id sid m)) ≫= fun _ =>
  user_name ← load_user sid us_user_name;
  on_manager (fun m => (tt, SessionManager_release_name_session user_name sid m)) ≫= fun _ =>
  on_manager (fun m => (tt, SessionManager_erase_session sid m)).

Definition User_cleanup_job (sid : nat) : uprog unit :=
  was ← was_connected_now sid;
  (if (was : bool) then User_on_disconnect sid else mret ()) ≫= fun _ =>
  User_release_session sid ≫= fun _ =>
  store_user sid (fun u => u <| us_account_idx := 0 |>) ≫= fun _ =>
  store_user sid (fun u => u <| us_user_name := [] |>) ≫= fun _ =>
  store_user sid (fun u => u <| us_enter_room_id := -1 |>) ≫= fun _ =>
  store_user sid (fun u => u <| us_cleanup_done := true |>) ≫= fun _ =>
  job_ends sid.

(** ** Accepting *)

(** The section of [add_session] under the lock. *)
Definition add_section (sid : nat) (m : SessionManager) : bool * SessionManager :=
  if bool_decide (sid ∈ sm_sessions m) then (true, m)
  else if sm_session_count m >=? sm_max_session_count m then (false, m)
  else (true, m <| sm_sessions ::= fun ss => {[sid]} ∪ ss |> <| sm_session_count ::= fun n => i32 (n + 1) |>).

(** The tail of [Listener::process_accept]; what opening a connection does is in Connections. *)
Definition User_accept (sid : nat) : uprog unit :=
  ok ← on_manager (add_section sid);
  store_user sid (fun u => u <| us_phase := if (ok : bool) then Serving else Rejecting |>).

(** ** Runs *)

(** A worker takes the next job of a session when none of that session is running; packets are
    handled while the session serves a client and before its cleanup, which is queued once and
    runs last (what Connections proves); the listener opens a session once, and a session that is
    being opened is not shut down. *)
Inductive user_env : Users -> Users -> uprog unit -> Prop :=
| user_created_env s sid :
    u_sessions s !! sid = None -> user_env s (s <| u_sessions ::= insert sid User_new |>) (mret ())
| user_accepted s sid u :
    u_sessions s !! sid = Some u -> us_phase u = Waiting -> us_is_disconnect u = false -> us_busy u = false ->
    user_env s (s <| u_sessions ::= insert sid (u <| us_phase := Opening |>) |>) (User_accept sid)
| user_packet s sid u pkt :
    u_sessions s !! sid = Some u -> us_phase u = Serving -> us_is_disconnect u = false -> us_busy u = false ->
    user_env s (s <| u_sessions ::= insert sid (u <| us_busy := true |>) |>) (User_packet_job sid pkt)
| user_cleanup s sid u :
    u_sessions s !! sid = Some u -> us_phase u <> Opening -> us_is_disconnect u = false -> us_busy u = false ->
    user_env s (s <| u_sessions ::= insert sid (u <| us_is_disconnect := true |> <| us_busy := true |>) |>)
      (User_cleanup_job sid).

(** The 64-bit counter of accounts does not run out. *)
Definition user_lim (s : Users) : Prop := lg_account_id (u_login s) + 1 < 2 ^ 64.

Definition users_step (w w' : world Users) : Prop := wstep user_env w w' /\ user_lim (w_state w').

Definition users_reachable (session_max_count : Z) (w : world Users) : Prop :=
  rtc users_step (mkWorld (Users_new session_max_count) []) w.
End Handlers.
