(* ===== verification/UserSafety.v ===== *)
(** * The handlers of different sessions: invariant and safety

    The facts of a user are spread over the session, the login list, the maps of the session
    manager and the rooms, and a handler changes them one after the other while handlers of other
    sessions run.  What a session may currently be found under is its [Claim].  Between its jobs the
    claim of a session is read off its members ([claim_of]); while a job runs, the thread holds a
    token with the members and the claim of its session, which no other thread changes.  The
    invariant [UInv] relates the shared tables to the claims of all sessions; each action of a
    handler moves the claim of its own session ([Transitions]). *)

From stdpp Require Import base list numbers option gmap relations.
From Stdlib Require Import ZArith Lia.
From S2P Require Import Prelude Interleaving Buffers SendEvents Framing JobQueues Wire Protocol Packets Accounts Rooms Sessions SessionSafety Managers Handlers Users SessionTheorems ServerSafety Connections UserPrograms.

#[export] Instance Phase_eq_dec : EqDecision Phase.
Proof. solve_decision. Defined.

(** ** Claims *)

(** The account a session has in the login list, with the name of its user; the account and the name under which the
    manager's maps may lead to it; the room it is in, with the account; whether the manager counts
    it. *)
Record Claim := mkClaim {
  cl_listed : option Z;
  cl_user : wstring;
  cl_account : option Z;
  cl_name : option wstring;
  cl_room : option (Z * Z);
  cl_member : bool
}.

#[export] Instance Claim_settable : Settable Claim :=
  fun c => mkClaim (cl_listed c) (cl_user c) (cl_account c) (cl_name c) (cl_room c) (cl_member c).

Definition no_claim : Claim := mkClaim None [] None None None false.

Definition name_claim (w : wstring) : option wstring := if bool_decide (w = []) then None else Some w.
Definition room_claim (room account : Z) : option (Z * Z) := if 0 <=? room then Some (room, account) else None.

Definition claim_of (u : User) : Claim :=
  let member := bool_decide (us_phase u = Serving) && negb (us_cleanup_done u) in
  if us_is_login u
  then mkClaim (Some (us_account_idx u)) (us_user_name u) (Some (us_account_idx u)) (name_claim (us_user_name u))
         (room_claim (us_enter_room_id u) (us_account_idx u)) member
  else mkClaim None [] None None None member.

(** The tables and the claims.  A session that is in the login list and has entered itself in a
    map is found there; one that has logged out may have been replaced already. *)
Record claims_ok (C : nat -> Claim) (lg : Login) (rl : RoomManager) (m : SessionManager) : Prop := {
  co_list : forall a, a ∈ lg_login_list lg <-> exists j, cl_listed (C j) = Some a;
  co_one : forall i j a, cl_listed (C i) = Some a -> cl_listed (C j) = Some a -> i = j;
  co_account : forall a j, sm_account_sessions m !! a = Some j -> cl_account (C j) = Some a;
  co_found : forall a j, cl_listed (C j) = Some a -> cl_account (C j) = Some a -> sm_account_sessions m !! a = Some j;
  co_name : forall w j, sm_name_sessions m !! w = Some j -> cl_name (C j) = Some w;
  co_named : forall a w j, cl_listed (C j) = Some a -> cl_name (C j) = Some w -> sm_name_sessions m !! w = Some j;
  co_owner : forall a j, cl_listed (C j) = Some a -> exists info, account_of a lg info /\ ai_user_name info = cl_user (C j);
  co_title : forall a w j, cl_listed (C j) = Some a -> cl_name (C j) = Some w -> w = cl_user (C j);
  co_room : forall k a j, room_members rl k !! a = Some j <-> cl_room (C j) = Some (k, a);
  co_inside : forall k a j, cl_room (C j) = Some (k, a) -> cl_listed (C j) = Some a /\ 0 <= k;
  co_member : forall j, j ∈ sm_sessions m <-> cl_member (C j) = true;
  co_count : sm_session_count m = Z.of_nat (size (sm_sessions m)) /\
             sm_session_count m <= sm_max_session_count m < 2 ^ 31
}.

(** [fupd C j cl] is the claims with that of session [j] changed. *)
Lemma claims_ext C D lg rl m : (forall j, D j = C j) -> claims_ok C lg rl m -> claims_ok D lg rl m.
Proof.
  intros HE []. constructor; try done; intros *; rewrite ?HE; eauto.
  rewrite co_list0. split; intros [j Hj]; exists j; [by rewrite HE|by rewrite <- HE].
Qed.

Lemma claims_same C j lg rl m : claims_ok C lg rl m -> claims_ok (fupd C j (C j)) lg rl m.
Proof. apply claims_ext. intros i. unfold fupd. by case_decide; subst. Qed.

(** Splits the sessions a statement is about into the changed one and the others. *)
Ltac by_session :=
  unfold fupd in *; intros; repeat case_decide; simplify_eq;
  cbn [cl_listed cl_user cl_account cl_name cl_room cl_member upd
       sm_sessions sm_account_sessions sm_name_sessions sm_session_count sm_max_session_count] in *; simplify_eq.

Ltac mgr_fields :=
  cbn [upd sm_sessions sm_account_sessions sm_name_sessions sm_session_count sm_max_session_count lg_login_list].

Section Transitions.
Context (C : nat -> Claim) (lg : Login) (rl : RoomManager) (m : SessionManager) (j : nat) (Hok : claims_ok C lg rl m).

(** Another session in the login list has another account. *)
Lemma other_listed i a b : cl_listed (C j) = Some a -> cl_listed (C i) = Some b -> i <> j -> b <> a.
Proof using Hok. intros Hj Hi Hne ->. apply Hne. by eapply (co_one _ _ _ _ Hok). Qed.

(** The sessions in the login list, when the list did not change. *)
Lemma same_listed cl a : cl_listed cl = cl_listed (C j) ->
  (exists i, cl_listed (fupd C j cl i) = Some a) <-> exists i, cl_listed (C i) = Some a.
Proof using. intros E. split; intros [i Hi]; exists i; revert Hi; by_session; congruence. Qed.

(** What does not change when one session's claim does. *)
Lemma kept_one cl : cl_listed cl = cl_listed (C j) ->
  forall i i' a, cl_listed (fupd C j cl i) = Some a -> cl_listed (fupd C j cl i') = Some a -> i = i'.
Proof using Hok.
  intros E i i' a. pose proof (co_one _ _ _ _ Hok). by_session; [done| | |]; rewrite ?E in *; eauto; symmetry; eauto.
Qed.

Lemma claim_grant a w lg' :
  cl_listed (C j) = None -> cl_account (C j) = None -> cl_name (C j) = None -> cl_room (C j) = None ->
  login_grants lg a w lg' -> claims_ok (fupd C j (C j <| cl_listed := Some a |> <| cl_user := w |>)) lg' rl m.
Proof using Hok.
  intros Hl Ha Hn Hr [Hfresh Hlist Hacc Hkeep _]. destruct Hok as [H1 H2 H3 H4 H5 H6 H7 H7n H8 H9 H10 H11].
  assert (forall i, cl_listed (C i) = Some a -> False) as Hno by (intros i Hi; apply Hfresh, H1; eauto).
  constructor; try done.
  - intros b. rewrite Hlist, elem_of_union, elem_of_singleton, H1. split.
    + intros [->|[i Hi]]; [exists j; by rewrite fupd_eq|]. exists i. rewrite fupd_ne; [done|]. intros ->. congruence.
    + intros [i Hi]. by_session; eauto.
  - by_session; eauto; exfalso; eauto.
  - intros b i Hi. specialize (H3 b i Hi). by_session; done.
  - by_session; eauto.
  - intros x i Hi. specialize (H5 x i Hi). by_session; done.
  - by_session; eauto.
  - by_session; [done|]. destruct (H7 a0 j0) as (info & ? & ?); eauto.
  - by_session; eauto.
  - intros k b i. rewrite H8. by_session; done.
  - by_session; eauto.
  - intros i. rewrite H10. by_session; done.
Qed.

Lemma claim_account a :
  a <> 0 -> cl_listed (C j) = Some a -> cl_account (C j) = None ->
  claims_ok (fupd C j (C j <| cl_account := Some a |>)) lg rl (SessionManager_add_account_session a j m).
Proof using Hok.
  intros Ha Hl Hn. pose proof (fun i b Hi => other_listed i a b Hl Hi) as Hoth. pose proof kept_one as Hone.
  unfold SessionManager_add_account_session. rewrite (proj2 (Z.eqb_neq a 0)) by done.
  destruct Hok as [H1 H2 H3 H4 H5 H6 H7 H7n H8 H9 H10 H11]. constructor; mgr_fields; try done.
  - intros b. by rewrite H1, same_listed.
  - by apply Hone.
  - intros b i [[<- <-]|[Hne Hi]]%lookup_insert_Some; [by rewrite fupd_eq|].
    pose proof (H3 b i Hi) as Hc. by_session; done.
  - by_session; [by rewrite lookup_insert_eq|]. rewrite lookup_insert_ne; [eauto|]. symmetry. eauto.
  - intros x i Hi. specialize (H5 x i Hi). by_session; done.
  - by_session; eauto.
  - by_session; eauto.
  - by_session; eauto.
  - intros k b i. rewrite H8. by_session; done.
  - by_session; eauto.
  - intros i. rewrite H10. by_session; done.
Qed.

Lemma claim_named a w :
  cl_listed (C j) = Some a -> cl_name (C j) = None -> cl_user (C j) = w -> Login_wf lg ->
  claims_ok (fupd C j (C j <| cl_name := name_claim w |>)) lg rl (SessionManager_add_name_session w j m).
Proof using Hok.
  intros Hl Hn Hw Hwf. destruct (co_owner _ _ _ _ Hok a j Hl) as (info & Hacc & Hwi). pose proof (fun i b Hi => other_listed i a b Hl Hi) as Hoth. pose proof kept_one as Hone.
  unfold SessionManager_add_name_session, name_claim. case_bool_decide as E.
  { replace (C j <| cl_name := None |>) with (C j); [by apply claims_same|]. destruct (C j). cbn in *. congruence. }
  destruct Hok as [H1 H2 H3 H4 H5 H6 H7 H7n H8 H9 H10 H11]. constructor; mgr_fields; try done.
  - intros b. by rewrite H1, same_listed.
  - by apply Hone.
  - intros b i Hi. specialize (H3 b i Hi). by_session; done.
  - by_session; eauto.
  - intros x i [[<- <-]|[Hne Hi]]%lookup_insert_Some; [by rewrite fupd_eq|].
    pose proof (H5 x i Hi) as Hc. by_session; done.
  - by_session; [by rewrite lookup_insert_eq|]. rewrite lookup_insert_ne; [eauto|]. intros <-.
    destruct (H7 _ _ H) as (info' & Hacc' & Hw'). pose proof (H7n _ _ _ H H0). eapply Hoth; [exact H|done|].
    eapply (account_name_inj lg); [done|exact Hacc'|exact Hacc|]. congruence.
  - by_session; eauto.
  - by_session; eauto.
  - intros k b i. rewrite H8. by_session; done.
  - by_session; eauto.
  - intros i. rewrite H10. by_session; done.
Qed.

Lemma claim_enter k a rl' :
  0 <= k -> cl_listed (C j) = Some a -> cl_room (C j) = None ->
  (forall i, room_members rl' i = if decide (i = k) then <[a := j]> (room_members rl k) else room_members rl i) ->
  claims_ok (fupd C j (C j <| cl_room := Some (k, a) |>)) lg rl' m.
Proof using Hok.
  intros Hk Hl Hr Hm. pose proof (fun i b Hi => other_listed i a b Hl Hi) as Hoth. pose proof kept_one as Hone.
  destruct Hok as [H1 H2 H3 H4 H5 H6 H7 H7n H8 H9 H10 H11]. constructor; mgr_fields; try done.
  - intros b. by rewrite H1, same_listed.
  - by apply Hone.
  - intros b i Hi. specialize (H3 b i Hi). by_session; done.
  - by_session; eauto.
  - intros x i Hi. specialize (H5 x i Hi). by_session; done.
  - by_session; eauto.
  - by_session; eauto.
  - by_session; eauto.
  - intros r b i. rewrite Hm. destruct (decide (r = k)) as [->|Hrk].
    + rewrite lookup_insert_Some, H8. destruct (decide (i = j)) as [->|Hij].
      * rewrite fupd_eq, Hr. cbn. split; [by intros [[-> _]|[_ ?]]|]. intros [= ->]. by left.
      * rewrite fupd_ne by done. split; [by intros [[_ ->]|[_ ?]]|]. intros Hc. right. split; [|done].
        intros <-. destruct (H9 _ _ _ Hc) as [Hc' _]. by eapply Hoth.
    + rewrite H8. destruct (decide (i = j)) as [->|Hij]; [|by rewrite fupd_ne].
      rewrite fupd_eq, Hr. cbn. split; [done|]. by intros [= ->].
  - by_session; [done|]. eauto.
  - intros i. rewrite H10. by_session; done.
Qed.

Lemma claim_exit k a rl' :
  cl_room (C j) = Some (k, a) ->
  (forall i, room_members rl' i = if decide (i = k) then delete a (room_members rl k) else room_members rl i) ->
  claims_ok (fupd C j (C j <| cl_room := None |>)) lg rl' m.
Proof using Hok.
  intros Hr Hm. pose proof kept_one as Hone. destruct (co_inside _ _ _ _ Hok _ _ _ Hr) as [Hl _].
  pose proof (fun i b Hi => other_listed i a b Hl Hi) as Hoth.
  destruct Hok as [H1 H2 H3 H4 H5 H6 H7 H7n H8 H9 H10 H11]. constructor; mgr_fields; try done.
  - intros b. by rewrite H1, same_listed.
  - by apply Hone.
  - intros b i Hi. specialize (H3 b i Hi). by_session; done.
  - by_session; eauto.
  - intros x i Hi. specialize (H5 x i Hi). by_session; done.
  - by_session; eauto.
  - by_session; eauto.
  - by_session; eauto.
  - intros r b i. rewrite Hm. destruct (decide (r = k)) as [->|Hrk].
    + rewrite lookup_delete_Some, H8. destruct (decide (i = j)) as [->|Hij].
      * rewrite fupd_eq, Hr. cbn. split; [|done]. by intros [? [= ->]].
      * rewrite fupd_ne by done. split; [by intros [_ ?]|]. intros Hc. split; [|done].
        intros <-. destruct (H9 _ _ _ Hc) as [Hc' _]. by eapply Hoth.
    + rewrite H8. destruct (decide (i = j)) as [->|Hij]; [|by rewrite fupd_ne].
      rewrite fupd_eq, Hr. cbn. split; [|done]. by intros [= ->].
  - by_session. eauto.
  - intros i. rewrite H10. by_session; done.
Qed.

Lemma claim_logout a :
  cl_listed (C j) = Some a -> cl_room (C j) = None ->
  claims_ok (fupd C j (C j <| cl_listed := None |> <| cl_user := [] |>)) (lg <| lg_login_list := lg_login_list lg ∖ {[a]} |>) rl m.
Proof using Hok.
  intros Hl Hr. pose proof (fun i b Hi => other_listed i a b Hl Hi) as Hoth.
  destruct Hok as [H1 H2 H3 H4 H5 H6 H7 H7n H8 H9 H10 H11]. constructor; mgr_fields; try done.
  - intros b. rewrite elem_of_difference, elem_of_singleton, H1. split.
    + intros [[i Hi] Hb]. exists i. rewrite fupd_ne; [done|]. intros ->. congruence.
    + intros [i Hi]. by_session. split; eauto.
  - by_session. eauto.
  - intros b i Hi. specialize (H3 b i Hi). by_session; done.
  - by_session; eauto.
  - intros x i Hi. specialize (H5 x i Hi). by_session; done.
  - by_session; eauto.
  - by_session; eauto.
  - by_session; eauto.
  - intros k b i. rewrite H8. by_session; done.
  - by_session; eauto.
  - intros i. rewrite H10. by_session; done.
Qed.

(** Giving up the entry of an account: only an entry that leads to this session is removed. *)
Lemma claim_release_account a :
  cl_account (C j) = None \/ (cl_account (C j) = Some a /\ a <> 0) ->
  claims_ok (fupd C j (C j <| cl_account := None |>)) lg rl (SessionManager_release_logout_session a j m).
Proof using Hok.
  intros Hc. pose proof kept_one as Hone.
  assert (forall b, sm_account_sessions m !! b = Some j -> b = a /\ a <> 0) as Hmine.
  { intros b Hb%(co_account _ _ _ _ Hok). destruct Hc as [?|[? ?]]; [congruence|]. split; [congruence|done]. }
  set (m' := SessionManager_release_logout_session a j m).
  assert (forall b i, sm_account_sessions m' !! b = Some i <-> i <> j /\ sm_account_sessions m !! b = Some i) as Hm'.
  { intros b i. unfold m', SessionManager_release_logout_session. destruct (a =? 0) eqn:E0; bool_lia.
    { split; [|by intros [_ ?]]. intros Hb. split; [|done]. intros ->. by destruct (Hmine b Hb). }
    destruct (sm_account_sessions m !! a) as [owner|] eqn:Eo; [case_bool_decide as E|].
    - subst owner. mgr_fields. rewrite lookup_delete_Some. split.
      + intros [Hne Hb]. split; [|done]. intros ->. by destruct (Hmine b Hb).
      + intros [Hne Hb]. split; [|done]. intros ->. congruence.
    - split; [|by intros [_ ?]]. intros Hb. split; [|done]. intros ->. destruct (Hmine b Hb) as [-> _]. congruence.
    - split; [|by intros [_ ?]]. intros Hb. split; [|done]. intros ->. destruct (Hmine b Hb) as [-> _]. congruence. }
  assert (sm_name_sessions m' = sm_name_sessions m /\ sm_sessions m' = sm_sessions m /\
          sm_session_count m' = sm_session_count m /\ sm_max_session_count m' = sm_max_session_count m) as (E1 & E2 & E3 & E4).
  { unfold m', SessionManager_release_logout_session. by repeat case_match. }
  destruct Hok as [H1 H2 H3 H4 H5 H6 H7 H7n H8 H9 H10 H11]. constructor; rewrite ?E1, ?E2, ?E3, ?E4; try done.
  - intros b. by rewrite H1, same_listed.
  - by apply Hone.
  - intros b i [Hne Hi]%Hm'. specialize (H3 b i Hi). by_session; done.
  - by_session. apply Hm'. eauto.
  - intros x i Hi. specialize (H5 x i Hi). by_session; done.
  - by_session; eauto.
  - by_session; eauto.
  - by_session; eauto.
  - intros k b i. rewrite H8. by_session; done.
  - by_session; eauto.
  - intros i. rewrite H10. by_session; done.
Qed.

Lemma claim_release_name w :
  cl_name (C j) = None \/ cl_name (C j) = name_claim w ->
  claims_ok (fupd C j (C j <| cl_name := None |>)) lg rl (SessionManager_release_name_session w j m).
Proof using Hok.
  intros Hc. pose proof kept_one as Hone.
  assert (forall x, sm_name_sessions m !! x = Some j -> x = w /\ w <> []) as Hmine.
  { intros x Hx%(co_name _ _ _ _ Hok). unfold name_claim in Hc. case_bool_decide; destruct Hc; split; congruence. }
  set (m' := SessionManager_release_name_session w j m).
  assert (forall x i, sm_name_sessions m' !! x = Some i <-> i <> j /\ sm_name_sessions m !! x = Some i) as Hm'.
  { intros x i. unfold m', SessionManager_release_name_session. case_bool_decide as E0.
    { split; [|by intros [_ ?]]. intros Hb. split; [|done]. intros ->. by destruct (Hmine x Hb). }
    destruct (sm_name_sessions m !! w) as [owner|] eqn:Eo; [case_bool_decide as E|].
    - subst owner. mgr_fields. rewrite lookup_delete_Some. split.
      + intros [Hne Hb]. split; [|done]. intros ->. by destruct (Hmine x Hb).
      + intros [Hne Hb]. split; [|done]. intros ->. congruence.
    - split; [|by intros [_ ?]]. intros Hb. split; [|done]. intros ->. destruct (Hmine x Hb) as [-> _]. congruence.
    - split; [|by intros [_ ?]]. intros Hb. split; [|done]. intros ->. destruct (Hmine x Hb) as [-> _]. congruence. }
  assert (sm_account_sessions m' = sm_account_sessions m /\ sm_sessions m' = sm_sessions m /\
          sm_session_count m' = sm_session_count m /\ sm_max_session_count m' = sm_max_session_count m) as (E1 & E2 & E3 & E4).
  { unfold m', SessionManager_release_name_session. by repeat case_match. }
  destruct Hok as [H1 H2 H3 H4 H5 H6 H7 H7n H8 H9 H10 H11]. constructor; rewrite ?E1, ?E2, ?E3, ?E4; try done.
  - intros b. by rewrite H1, same_listed.
  - by apply Hone.
  - intros b i Hi. specialize (H3 b i Hi). by_session; done.
  - by_session; eauto.
  - intros x i [Hne Hi]%Hm'. specialize (H5 x i Hi). by_session; done.
  - by_session. apply Hm'. eauto.
  - by_session; eauto.
  - by_session; eauto.
  - intros k b i. rewrite H8. by_session; done.
  - by_session; eauto.
  - intros i. rewrite H10. by_session; done.
Qed.

(** A change of the manager's set only. *)
Lemma claim_members b m' :
  sm_account_sessions m' = sm_account_sessions m -> sm_name_sessions m' = sm_name_sessions m ->
  (forall i, i ∈ sm_sessions m' <-> (i = j /\ b = true) \/ (i <> j /\ i ∈ sm_sessions m)) ->
  sm_session_count m' = Z.of_nat (size (sm_sessions m')) ->
  sm_session_count m' <= sm_max_session_count m' < 2 ^ 31 ->
  claims_ok (fupd C j (C j <| cl_member := b |>)) lg rl m'.
Proof using Hok.
  intros E1 E2 Hm Hc Hx. pose proof kept_one as Hone.
  destruct Hok as [H1 H2 H3 H4 H5 H6 H7 H7n H8 H9 H10 H11]. constructor; rewrite ?E1, ?E2; try done.
  - intros a. by rewrite H1, same_listed.
  - by apply Hone.
  - intros a i Hi. specialize (H3 a i Hi). by_session; done.
  - by_session; eauto.
  - intros x i Hi. specialize (H5 x i Hi). by_session; done.
  - by_session; eauto.
  - by_session; eauto.
  - by_session; eauto.
  - intros k a i. rewrite H8. by_session; done.
  - by_session; eauto.
  - intros i. rewrite Hm, H10. destruct (decide (i = j)) as [->|Hne]; [rewrite fupd_eq|rewrite fupd_ne by done]; cbn; naive_solver.
Qed.

Lemma claim_erase : claims_ok (fupd C j (C j <| cl_member := false |>)) lg rl (SessionManager_erase_session j m).
Proof using Hok.
  destruct (co_count _ _ _ _ Hok) as [Hc Hx]. unfold SessionManager_erase_session. case_bool_decide as Hin.
  - assert (size (sm_sessions m ∖ {[j]}) = (size (sm_sessions m) - 1)%nat /\ (0 < size (sm_sessions m))%nat) as [Hs1 Hs2].
    { rewrite size_difference by set_solver. rewrite size_singleton. split; [done|].
      destruct (decide (size (sm_sessions m) = 0%nat)) as [E%size_empty_inv|]; [set_solver|lia]. }
    apply claim_members; mgr_fields; try done; [set_solver| |]; rewrite i32_small by lia; lia.
  - apply claim_members; try done. intros i. split; [|by intros [[_ ?]|[_ ?]]]. intros Hi. right. split; [|done]. by intros ->.
Qed.

(** The section of [add_session] on both branches. *)
Lemma claim_add :
  cl_member (C j) = false -> exists ok m', add_section j m = (ok, m') /\
    claims_ok (fupd C j (C j <| cl_member := ok |>)) lg rl m'.
Proof using Hok.
  intros Hn. destruct (co_count _ _ _ _ Hok) as [Hc Hx]. unfold add_section.
  assert (j ∉ sm_sessions m) as Hin by (intros Hj%(co_member _ _ _ _ Hok); congruence).
  rewrite bool_decide_eq_false_2 by done. destruct (_ >=? _) eqn:E; bool_lia; eexists _, _; (split; [done|]).
  - replace (C j <| cl_member := false |>) with (C j); [by apply claims_same|]. destruct (C j). cbn in *. congruence.
  - apply claim_members; mgr_fields; try done; [set_solver| |]; rewrite i32_small by lia; [|lia].
    rewrite size_union, size_singleton by set_solver. lia.
Qed.
End Transitions.

(** ** The invariant *)

(** A thread works on the session: a job, or the listener that opens it. *)
Definition owned (u : User) : bool := us_busy u || bool_decide (us_phase u = Opening).

(** The members of a session between its jobs. *)
Definition user_ok (u : User) : Prop :=
  (us_is_login u = false -> us_account_idx u = 0 /\ us_user_name u = [] /\ us_enter_room_id u = -1) /\
  (us_is_login u = true -> us_phase u = Serving /\ us_cleanup_done u = false /\ 0 < us_account_idx u < 2 ^ 64 /\
     zlen (us_user_name u) <= 32 /\ (us_enter_room_id u = -1 \/ 0 <= us_enter_room_id u)) /\
  (us_cleanup_done u = true -> us_is_disconnect u = true).

(** What a thread knows of the session it works on. *)
Record Hold := mkHold { h_id : nat; h_user : User; h_claim : Claim }.

Record UInv (C : nat -> Claim) (ts : list Hold) (s : Users) : Prop := {
  ub_holds : Forall (fun h => u_sessions s !! h_id h = Some (h_user h) /\ C (h_id h) = h_claim h /\ owned (h_user h) = true) ts;
  ub_once : NoDup (h_id <$> ts);
  ub_owned : forall j u, u_sessions s !! j = Some u -> owned u = true -> j ∈ h_id <$> ts;
  ub_idle : forall j u, u_sessions s !! j = Some u -> owned u = false -> C j = claim_of u /\ user_ok u;
  ub_none : forall j, u_sessions s !! j = None -> C j = no_claim;
  ub_claims : claims_ok C (u_login s) (u_rooms s) (u_mgr s);
  ub_tables : tables_inv (u_login s) (u_rooms s);
  ub_calls : Forall (fun c => conn_call_ok c.2) (u_calls s);
  ub_lim : user_lim s
}.

Definition UsersInv (ts : list Hold) (s : Users) : Prop := exists C, UInv C ts s.

#[export] Instance UsersInv_proper : Proper ((≡ₚ) ==> (=) ==> iff) UsersInv.
Proof.
  assert (forall ts ts' s, ts ≡ₚ ts' -> UsersInv ts s -> UsersInv ts' s) as H.
  { intros ts ts' s Hp [C [H1 H2 H3 H4 H5 H6 H7 H8 H9]]. exists C. constructor; try done.
    - by rewrite <- Hp.
    - by rewrite <- Hp.
    - intros j u. rewrite <- Hp. apply H3. }
  intros ts ts' Hp s s' <-. split; apply H; done.
Qed.

Abbreviation usafe := (safe UsersInv (fun _ _ => True) user_lim).

Section Safe.
Context {B : Set} (f : Oracle -> Users -> option (Users * B)) (Φ : B -> list Hold -> Prop) (j : nat) (u : User) (cl : Claim).

(** What a thread that holds [j] can rely on. *)
Definition sees (C : nat -> Claim) (s : Users) : Prop :=
  u_sessions s !! j = Some u /\ C j = cl /\ claims_ok C (u_login s) (u_rooms s) (u_mgr s) /\
  tables_inv (u_login s) (u_rooms s) /\ user_lim s.

(** What an action leaves behind. *)
Definition leaves (C : nat -> Claim) (s s' : Users) (u' : User) (cl' : Claim) : Prop :=
  u_sessions s' = <[j := u']> (u_sessions s) /\
  (exists calls, u_calls s' = u_calls s ++ calls /\ Forall (fun c => conn_call_ok c.2) calls) /\
  (user_lim s' -> claims_ok (fupd C j cl') (u_login s') (u_rooms s') (u_mgr s') /\ tables_inv (u_login s') (u_rooms s')).

Lemma held_apart fr C s :
  UInv C (mkHold j u cl :: fr) s -> j ∉ h_id <$> fr /\ sees C s.
Proof using.
  intros [H1 H2 H3 H4 H5 H6 H7 H8 H9]. apply Forall_cons_1 in H1 as [(? & ? & ?) _]. cbn in *.
  apply NoDup_cons in H2 as [? _]. done.
Qed.

(** The rest of the invariant, when a thread changes its own session only. *)
Lemma apart_kept fr C s s' u' cl' :
  UInv C (mkHold j u cl :: fr) s -> leaves C s s' u' cl' -> user_lim s' ->
  Forall (fun h => u_sessions s' !! h_id h = Some (h_user h) /\ fupd C j cl' (h_id h) = h_claim h /\ owned (h_user h) = true) fr /\
  NoDup (h_id <$> fr) /\
  (forall i x, i <> j -> u_sessions s' !! i = Some x -> owned x = true -> i ∈ h_id <$> fr) /\
  (forall i x, i <> j -> u_sessions s' !! i = Some x -> owned x = false -> fupd C j cl' i = claim_of x /\ user_ok x) /\
  (forall i, u_sessions s' !! i = None -> fupd C j cl' i = no_claim) /\
  Forall (fun c => conn_call_ok c.2) (u_calls s').
Proof using.
  intros HI (Hs' & (calls & Hcs & Hcok) & _) Hl. destruct (held_apart fr C s HI) as [Hj _].
  destruct HI as [H1 H2 H3 H4 H5 H6 H7 H8 H9]. apply Forall_cons_1 in H1 as [_ H1]. apply NoDup_cons in H2 as [_ H2].
  split_and!; try done.
  - rewrite Forall_forall in H1 |- *. intros h Hh. destruct (H1 h Hh) as (? & ? & ?).
    assert (h_id h <> j) as Hne by (intros <-; by apply Hj, list_elem_of_fmap_2).
    rewrite Hs', lookup_insert_ne, fupd_ne by done. done.
  - intros i x Hne. rewrite Hs', lookup_insert_ne by done. intros Hx Ho. specialize (H3 i x Hx Ho). cbn in H3. set_solver.
  - intros i x Hne. rewrite Hs', lookup_insert_ne, fupd_ne by done. apply H4.
  - intros i. rewrite Hs'. intros [Hx Hne]%lookup_insert_None. rewrite fupd_ne by done. by apply H5.
  - rewrite Hcs. by apply Forall_app_2.
Qed.

(** An action of a thread that keeps its session. *)
Lemma safe_hold :
  (forall o s C, sees C s -> exists s' b u' cl', f o s = Some (s', b) /\ leaves C s s' u' cl' /\
     owned u' = true /\ (user_lim s' -> Φ b [mkHold j u' cl'])) ->
  usafe (atomic f) Φ [mkHold j u cl].
Proof using.
  intros H. apply safe_atomic. intros o s fr [C HI]. cbn [app] in HI. destruct (held_apart fr C s HI) as [Hj Hs].
  destruct (H o s C Hs) as (s' & b & u' & cl' & Hf & Hlv & Ho & HΦ). exists s', b. split; [done|]. split; [done|].
  intros Hl. exists [mkHold j u' cl']. split; [|by apply HΦ]. exists (fupd C j cl').
  destruct (apart_kept fr C s s' u' cl' HI Hlv Hl) as (K1 & K2 & K3 & K4 & K5 & K6).
  destruct Hlv as (Hs' & _ & Hok). destruct (Hok Hl) as [Hcl Ht]. constructor; try done; cbn [app].
  - constructor; [|done]. cbn. rewrite Hs', lookup_insert_eq, fupd_eq. done.
  - by constructor.
  - intros i x Hx Hox. cbn. destruct (decide (i = j)) as [->|Hne]; [by left|right; by eapply K3].
  - intros i x Hx Hox. destruct (decide (i = j)) as [->|Hne]; [|by eapply K4].
    rewrite Hs', lookup_insert_eq in Hx. congruence.
Qed.

(** The last action of a thread on its session. *)
Lemma safe_release :
  (forall o s C, sees C s -> exists s' b u', f o s = Some (s', b) /\ leaves C s s' u' (claim_of u') /\
     owned u' = false /\ user_ok u' /\ Φ b []) ->
  usafe (atomic f) Φ [mkHold j u cl].
Proof using.
  intros H. apply safe_atomic. intros o s fr [C HI]. cbn [app] in HI. destruct (held_apart fr C s HI) as [Hj Hs].
  destruct (H o s C Hs) as (s' & b & u' & Hf & Hlv & Ho & Hu & HΦ). exists s', b. split; [done|]. split; [done|].
  intros Hl. exists []. split; [|done]. exists (fupd C j (claim_of u')).
  destruct (apart_kept fr C s s' u' _ HI Hlv Hl) as (K1 & K2 & K3 & K4 & K5 & K6).
  destruct Hlv as (Hs' & _ & Hok). destruct (Hok Hl) as [Hcl Ht]. constructor; try done; cbn [app].
  - intros i x Hx Hox. destruct (decide (i = j)) as [->|Hne]; [|by eapply K3].
    rewrite Hs', lookup_insert_eq in Hx. congruence.
  - intros i x Hx Hox. destruct (decide (i = j)) as [->|Hne]; [|by eapply K4].
    rewrite Hs', lookup_insert_eq in Hx. injection Hx as <-. by rewrite fupd_eq.
Qed.
End Safe.

(** *** Actions *)

Section Actions.
Context (j : nat) (u : User) (cl : Claim).

Abbreviation held := ([mkHold j u cl]).

(** An action that leaves sessions and tables alone. *)
Lemma safe_quiet {B : Set} (f : Oracle -> Users -> option (Users * B)) (Φ : B -> list Hold -> Prop) :
  owned u = true ->
  (forall o s, tables_inv (u_login s) (u_rooms s) -> exists s' b calls, f o s = Some (s', b) /\
     u_sessions s' = u_sessions s /\ u_login s' = u_login s /\ u_rooms s' = u_rooms s /\ u_mgr s' = u_mgr s /\
     u_calls s' = u_calls s ++ calls /\ Forall (fun c => conn_call_ok c.2) calls /\ Φ b held) ->
  usafe (atomic f) Φ held.
Proof using.
  intros Ho H. apply safe_hold. intros o s C (Hu & Hc & Hok & Ht & Hl).
  destruct (H o s Ht) as (s' & b & calls & Hf & E1 & E2 & E3 & E4 & E5 & Hcalls & HΦ). exists s', b, u, cl. split; [done|].
  split; [|done]. split; [by rewrite E1, insert_id|]. split; [eauto|]. rewrite E2, E3, E4. intros _. split; [|done].
  rewrite <- Hc. by apply claims_same.
Qed.

Lemma safe_on_user {B : Set} (g : User -> User * B) (Φ : B -> list Hold -> Prop) :
  owned (g u).1 = true -> Φ (g u).2 [mkHold j (g u).1 cl] -> usafe (on_user j g) Φ held.
Proof using.
  intros Ho HΦ. apply safe_hold. intros o s C (Hu & Hc & Hok & Ht & Hl). rewrite Hu. cbn [mbind option_bind].
  destruct (g u) as [u' b] eqn:E. cbn [fst snd] in *. eexists _, b, u', cl. split; [done|]. split; [|done].
  split; [done|]. split; [exists []; by rewrite app_nil_r|]. intros _. split; [|done].
  rewrite <- Hc. by apply claims_same.
Qed.

Lemma safe_load {B : Set} (g : User -> B) (Φ : B -> list Hold -> Prop) :
  owned u = true -> Φ (g u) held -> usafe (load_user j g) Φ held.
Proof using. intros Ho HΦ. by apply safe_on_user. Qed.

Lemma safe_store (g : User -> User) (Φ : unit -> list Hold -> Prop) :
  owned (g u) = true -> Φ tt [mkHold j (g u) cl] -> usafe (store_user j g) Φ held.
Proof using. intros Ho HΦ. by apply safe_on_user. Qed.

(** A section under one of the locks. *)
Lemma safe_login {B : Set} (g : Login -> B * Login) (Φ : B -> list Hold -> Prop) :
  owned u = true ->
  (forall C lg rl m, C j = cl -> claims_ok C lg rl m -> tables_inv lg rl -> lg_account_id lg + 1 < 2 ^ 64 ->
     exists cl', claims_ok (fupd C j cl') (g lg).2 rl m /\ tables_inv (g lg).2 rl /\ Φ (g lg).1 [mkHold j u cl']) ->
  usafe (on_login g) Φ held.
Proof using.
  intros Ho H. apply safe_hold. intros o s C (Hu & Hc & Hok & Ht & Hl).
  destruct (H C (u_login s) (u_rooms s) (u_mgr s) Hc Hok Ht Hl) as (cl' & Hok' & Ht' & HΦ).
  destruct (g (u_login s)) as [b lg'] eqn:E. cbn [fst snd] in *. eexists _, b, u, cl'. split; [done|]. split; [|done].
  split; [by cbn; rewrite insert_id|]. split; [exists []; by rewrite app_nil_r|done].
Qed.

Lemma safe_rooms {B : Set} (g : RoomManager -> B * RoomManager) (Φ : B -> list Hold -> Prop) :
  owned u = true ->
  (forall C lg rl m, C j = cl -> claims_ok C lg rl m -> tables_inv lg rl ->
     exists cl', claims_ok (fupd C j cl') lg (g rl).2 m /\ tables_inv lg (g rl).2 /\ Φ (g rl).1 [mkHold j u cl']) ->
  usafe (on_rooms g) Φ held.
Proof using.
  intros Ho H. apply safe_hold. intros o s C (Hu & Hc & Hok & Ht & Hl).
  destruct (H C (u_login s) (u_rooms s) (u_mgr s) Hc Hok Ht) as (cl' & Hok' & Ht' & HΦ).
  destruct (g (u_rooms s)) as [b rl'] eqn:E. cbn [fst snd] in *. eexists _, b, u, cl'. split; [done|]. split; [|done].
  split; [by cbn; rewrite insert_id|]. split; [exists []; by rewrite app_nil_r|done].
Qed.

Lemma safe_manager {B : Set} (g : SessionManager -> B * SessionManager) (Φ : B -> list Hold -> Prop) :
  owned u = true ->
  (forall C lg rl m, C j = cl -> claims_ok C lg rl m -> tables_inv lg rl ->
     exists cl', claims_ok (fupd C j cl') lg rl (g m).2 /\ Φ (g m).1 [mkHold j u cl']) ->
  usafe (on_manager g) Φ held.
Proof using.
  intros Ho H. apply safe_hold. intros o s C (Hu & Hc & Hok & Ht & Hl).
  destruct (H C (u_login s) (u_rooms s) (u_mgr s) Hc Hok Ht) as (cl' & Hok' & HΦ).
  destruct (g (u_mgr s)) as [b m'] eqn:E. cbn [fst snd] in *. eexists _, b, u, cl'. split; [done|]. split; [|done].
  split; [by cbn; rewrite insert_id|]. split; [exists []; by rewrite app_nil_r|done].
Qed.

(** A section that only reads. *)
Lemma safe_manager_read {B : Set} (g : SessionManager -> B) (Φ : B -> list Hold -> Prop) :
  owned u = true -> (forall b, Φ b held) -> usafe (on_manager (fun m => (g m, m))) Φ held.
Proof using.
  intros Ho HΦ. apply safe_manager; [done|]. intros C lg rl m Hc Hok _. exists cl. split; [|done].
  rewrite <- Hc. by apply claims_same.
Qed.

Lemma safe_count (g : ServerStats -> ServerStats) (Φ : unit -> list Hold -> Prop) :
  owned u = true -> Φ tt held -> usafe (count_users g) Φ held.
Proof using.
  intros Ho HΦ. apply safe_quiet; [done|]. intros o s _. eexists _, tt, []. rewrite app_nil_r. by split_and!.
Qed.

Lemma safe_connected i (Φ : bool -> list Hold -> Prop) :
  owned u = true -> (forall b, Φ b held) -> usafe (connected_now i) Φ held.
Proof using.
  intros Ho HΦ. apply safe_quiet; [done|]. intros o s _. eexists s, _, []. rewrite app_nil_r. by split_and!.
Qed.

Lemma safe_room_of i (Φ : Z -> list Hold -> Prop) :
  owned u = true -> (forall b, Φ b held) -> usafe (room_of i) Φ held.
Proof using.
  intros Ho HΦ. apply safe_quiet; [done|]. intros o s _. eexists s, _, []. rewrite app_nil_r. by split_and!.
Qed.

Lemma safe_call i call (Φ : unit -> list Hold -> Prop) :
  owned u = true -> conn_call_ok call -> Φ tt held -> usafe (call_session i call) Φ held.
Proof using.
  intros Ho Hc HΦ. apply safe_quiet; [done|]. intros o s _. eexists _, tt, [(i, call)]. split_and!; try done.
  by apply Forall_singleton.
Qed.
End Actions.
