(* ===== verification/UserTheorems.v ===== *)
(** * The handlers of different sessions: every interleaving is safe

    Each handler, the cleanup job and the accepting of a session, one after the other, against the
    invariant of the file UserSafety; then what holds in every state that any interleaving of
    them can reach, and a run in which one session logs out while another logs in with the same
    account. *)

From stdpp Require Import base list numbers option gmap relations.
From Stdlib Require Import ZArith Lia.
From S2P Require Import Prelude Interleaving Buffers SendEvents Framing JobQueues Wire Protocol Messages Packets Runtime Accounts Rooms Sessions SessionSafety Managers Handlers Users SessionTheorems ServerSafety ServerTheorems Connections UserPrograms UserSafety.

Section UserTheorems.
Context {utf8 : Utf8Check} {codec : PacketCodec} {laws : PacketCodecLaws codec}.
Context {api : StringApi} {api_laws : StringApiLaws api}.

(** A session whose packet is being handled, between the steps of its user. *)
Record at_work (u : User) : Prop := {
  aw_busy : us_busy u = true;
  aw_phase : us_phase u = Serving;
  aw_disc : us_is_disconnect u = false;
  aw_done : us_cleanup_done u = false;
  aw_user : user_ok u
}.

Lemma at_work_owned u : at_work u -> owned u = true.
Proof. intros [Hb _ _ _ _]. unfold owned. by rewrite Hb. Qed.

(** A handler ends with its session in order. *)
Definition handler_safe (j : nat) (p : uprog bool) : Prop :=
  forall u, at_work u -> usafe p (fun _ t => exists u', t = [mkHold j u' (claim_of u')] /\ at_work u') [mkHold j u (claim_of u)].

(** The user of a session, spelled out. *)
Definition anonymous : User := mkUser 0 [] (-1) false Serving false false true.
Definition logged_in (a : Z) (w : wstring) (r : Z) : User := mkUser a w r true Serving false false true.

Lemma at_work_cases u :
  at_work u -> u = anonymous \/
  exists a w r, u = logged_in a w r /\ 0 < a < 2 ^ 64 /\ zlen w <= 32 /\ (r = -1 \/ 0 <= r).
Proof.
  destruct u as [a w r l p d c b]. intros [Hb Hp Hd Hc (H1 & H2 & _)]. cbn in *. subst. destruct l.
  - right. destruct (H2 eq_refl) as (_ & _ & ? & ? & ?). by exists a, w, r.
  - left. by destruct (H1 eq_refl) as (-> & -> & ->).
Qed.

Lemma anonymous_at_work : at_work anonymous.
Proof. constructor; try done. Qed.

Lemma logged_in_at_work a w r : 0 < a < 2 ^ 64 -> zlen w <= 32 -> (r = -1 \/ 0 <= r) -> at_work (logged_in a w r).
Proof. intros Ha Hw Hr. constructor; try done. Qed.

Hint Resolve at_work_owned anonymous_at_work logged_in_at_work : server.

(** The postcondition of a handler that is done. *)
Lemma work_done j u : at_work u -> exists u', [mkHold j u (claim_of u)] = [mkHold j u' (claim_of u')] /\ at_work u'.
Proof. eauto. Qed.

Hint Resolve work_done : server.

Lemma send_answer_safe j u cl pkt (Φ : unit -> list Hold -> Prop) :
  owned u = true -> packet_sized pkt -> packet_bound pkt <= 65531 -> Φ tt [mkHold j u cl] ->
  usafe (send_answer j pkt) Φ [mkHold j u cl].
Proof using laws api_laws.
  intros Ho Hp Hb HΦ. unfold send_answer. destruct (made_buffer_ok pkt Hp Hb) as (b & -> & Hok). by apply safe_call.
Qed.

(** An answer, and the end of the handler. *)
Lemma answer_done j u pkt (b : bool) :
  at_work u -> packet_sized pkt -> packet_bound pkt <= 65531 ->
  usafe (send_answer j pkt ≫= fun _ => mret b) (fun _ t => exists u', t = [mkHold j u' (claim_of u')] /\ at_work u')
    [mkHold j u (claim_of u)].
Proof using laws api_laws. intros Hu Hp Hb. apply safe_bind, send_answer_safe; eauto with server. by apply work_done. Qed.

Lemma must_login_safe j body :
  (forall a w r, 0 < a < 2 ^ 64 -> zlen w <= 32 -> (r = -1 \/ 0 <= r) ->
     usafe body (fun _ t => exists u', t = [mkHold j u' (claim_of u')] /\ at_work u') [mkHold j (logged_in a w r) (claim_of (logged_in a w r))]) ->
  handler_safe j (user_must_login j body).
Proof.
  intros Hb u Hu. unfold user_must_login. apply safe_bind, safe_load; [by apply at_work_owned|].
  destruct (at_work_cases u Hu) as [-> |(a & w & r & -> & Ha & Hw & Hr)]; cbn [us_is_login anonymous logged_in negb].
  - apply safe_bind, safe_call; [done|done|]. by apply work_done.
  - by apply Hb.
Qed.

(** ** Logging in *)

Lemma login_section_call is_create id pw name lg :
  login_section is_create id pw name lg =
  (let '(result, w, idx, lg') := login_call is_create id pw name lg in ((result, w, idx), lg')).
Proof. unfold login_section, login_call. destruct is_create; by repeat case_match; simplify_eq. Qed.

Lemma enter_tables_safe j idx w (Φ : unit -> list Hold -> Prop) :
  0 < idx < 2 ^ 64 -> zlen w <= 32 ->
  Φ tt [mkHold j (logged_in idx w (-1)) (claim_of (logged_in idx w (-1)))] ->
  usafe (enter_user_tables j idx w) Φ [mkHold j anonymous (mkClaim (Some idx) w None None None true)].
Proof.
  intros Hi Hw HΦ. unfold enter_user_tables.
  do 3 (apply safe_bind, safe_store; [done|]).
  apply safe_bind, safe_manager; [done|]. intros C lg rl m Hc Hok Ht. cbn [fst snd].
  exists (mkClaim (Some idx) w (Some idx) None None true). split.
  { pose proof (claim_account C lg rl m j Hok idx) as H. rewrite Hc in H. apply H; [lia|done..]. }
  apply safe_bind, safe_manager; [done|]. intros C' lg' rl' m' Hc' Hok' Ht'. cbn [fst snd].
  exists (mkClaim (Some idx) w (Some idx) (name_claim w) None true). split.
  { pose proof (claim_named C' lg' rl' m' j Hok' idx w) as H. rewrite Hc' in H. apply H; [done..|apply Ht']. }
  by apply safe_count.
Qed.

Lemma login_safe j is_create id pw name ack :
  (forall a x r, 0 <= a < 2 ^ 64 -> string_wf x -> zlen x <= 96 -> 0 <= r < 256 ->
     packet_sized (ack a x r) /\ packet_bound (ack a x r) <= 65531) ->
  handler_safe j (User_login_request j is_create id pw name ack).
Proof using laws api_laws.
  intros Hack u Hu. unfold User_login_request.
  destruct (_ || _) in |- *; [by apply work_done|]. destruct (_ || _) in |- *; [by apply work_done|].
  destruct (is_create && _) eqn:Ename; [by apply work_done|].
  assert (is_create = true -> zlen name <= 32) as Hlen by (intros ->; simpl in Ename; bool_lia; lia).
  apply safe_bind, safe_load; [by apply at_work_owned|].
  destruct (at_work_cases u Hu) as [-> |(a & w & r & -> & Ha & Hw & Hr)]; cbn [us_is_login anonymous logged_in].
  2: { apply safe_bind, safe_call; [done|done|]. by apply work_done. }
  apply safe_bind, safe_login; [done|]. intros C lg rl m Hc Hok Ht Hl. rewrite login_section_call.
  destruct (login_call is_create id pw name lg) as [[[result w] idx] lg'] eqn:E.
  destruct (login_call_outcome _ _ _ _ _ _ _ _ _ _ Ht Hl Hlen E) as (Ht' & Hw & Hidx & Hres).
  destruct (WStringToUtf8_wf w) as [Hu8 Hu8l]; [lia|]. cbn [fst snd].
  destruct Hres as [[-> Hg]|[Hr ->]].
  - exists (mkClaim (Some idx) w None None None true). pose proof (gr_range _ _ _ _ Hg) as Hpos. split_and!; [|done|].
    { pose proof (claim_grant C lg rl m j Hok idx w lg') as H. rewrite Hc in H. by apply H. }
    change (LOGIN_SUCCESS =? LOGIN_SUCCESS) with true. cbv iota. apply safe_bind, enter_tables_safe; [lia|lia|].
    destruct (Hack idx (WStringToUtf8 w) LOGIN_SUCCESS) as [Hp Hb]; [done|done|lia|done|].
    apply answer_done; [by apply logged_in_at_work; [lia|lia|left]|done|done].
  - exists (claim_of anonymous). split_and!; [by rewrite <- Hc; apply claims_same|done|].
    rewrite (proj2 (Z.eqb_neq result LOGIN_SUCCESS)) by (unfold LOGIN_SUCCESS; lia).
    destruct (Hack idx (WStringToUtf8 w) result) as [Hp Hb]; [done|done|lia|lia|].
    by apply (answer_done j anonymous).
Qed.

(** ** Leaving a room, which three programs do *)

Definition no_room (a : Z) (w : wstring) (l : option Z) : Claim := mkClaim l w (Some a) (name_claim w) None true.

Lemma claim_logged_in a w r : claim_of (logged_in a w r) = mkClaim (Some a) w (Some a) (name_claim w) (room_claim r a) true.
Proof. done. Qed.

Lemma room_claim_neg a : room_claim (-1) a = None.
Proof. done. Qed.

Lemma exit_room_safe j u a w r (Φ : bool -> list Hold -> Prop) :
  owned u = true -> 0 <= r ->
  Φ true [mkHold j u (no_room a w (Some a))] ->
  usafe (on_rooms (RoomManager_exit_room r a)) Φ
    [mkHold j u (mkClaim (Some a) w (Some a) (name_claim w) (room_claim r a) true)].
Proof.
  intros Ho Hr HΦ. apply safe_rooms; [done|]. intros C lg rl m Hc Hok Ht.
  assert (room_claim r a = Some (r, a)) as Erc by (unfold room_claim; by rewrite (proj2 (Z.leb_le 0 r))).
  assert (cl_room (C j) = Some (r, a)) as Hroom by by rewrite Hc.
  destruct (exit_room_cases rl r a) as [(rl' & _ & _ & _ & Hnone)|(rl' & Heq & _ & Hw & Hmem & Hsame)]; [apply Ht| |].
  - exfalso. apply (co_room _ _ _ _ Hok) in Hroom. congruence.
  - rewrite Heq. cbn [fst snd]. exists (no_room a w (Some a)). split_and!; [|by eapply tables_rooms|done].
    pose proof (claim_exit C lg rl m j Hok r a rl' Hroom Hmem) as H. by rewrite Hc in H.
Qed.

Lemma logout_list_safe j u a w (Φ : bool -> list Hold -> Prop) :
  owned u = true -> Φ true [mkHold j u (mkClaim None [] (Some a) (name_claim w) None true)] ->
  usafe (on_login (Login_logout a)) Φ [mkHold j u (no_room a w (Some a))].
Proof.
  intros Ho HΦ. apply safe_login; [done|]. intros C lg rl m Hc Hok Ht _.
  assert (cl_listed (C j) = Some a) as Hl by by rewrite Hc.
  assert (a ∈ lg_login_list lg) as Hin by (apply (co_list _ _ _ _ Hok); eauto).
  destruct (logout_table lg a) as (-> & _ & _); [apply Ht..|done|]. cbn [fst snd].
  exists (mkClaim None [] (Some a) (name_claim w) None true). split_and!; [|by apply tables_logout|done].
  pose proof (claim_logout C lg rl m j Hok a Hl) as H. rewrite Hc in H. by apply H.
Qed.

Lemma release_account_safe j u a l x nm b (Φ : unit -> list Hold -> Prop) :
  owned u = true -> a <> 0 -> Φ tt [mkHold j u (mkClaim l x None nm None b)] ->
  usafe (on_manager (fun m => (tt, SessionManager_release_logout_session a j m))) Φ [mkHold j u (mkClaim l x (Some a) nm None b)].
Proof.
  intros Ho Ha HΦ. apply safe_manager; [done|]. intros C lg rl m Hc Hok _. cbn [fst snd].
  exists (mkClaim l x None nm None b). split; [|done].
  pose proof (claim_release_account C lg rl m j Hok a) as H. rewrite Hc in H. apply H. by right.
Qed.

Lemma release_name_safe j u w l x ac b (Φ : unit -> list Hold -> Prop) :
  owned u = true -> Φ tt [mkHold j u (mkClaim l x ac None None b)] ->
  usafe (on_manager (fun m => (tt, SessionManager_release_name_session w j m))) Φ [mkHold j u (mkClaim l x ac (name_claim w) None b)].
Proof.
  intros Ho HΦ. apply safe_manager; [done|]. intros C lg rl m Hc Hok _. cbn [fst snd].
  exists (mkClaim l x ac None None b). split; [|done].
  pose proof (claim_release_name C lg rl m j Hok w) as H. rewrite Hc in H. apply H. by right.
Qed.

Lemma logout_safe j : handler_safe j (User_logout j).
Proof using laws api_laws.
  apply must_login_safe. intros a w r Ha Hw Hr. rewrite claim_logged_in.
  apply safe_bind, safe_load; [done|]. cbn [us_enter_room_id logged_in].
  apply safe_bind. apply (safe_mono _ _ _ _ (fun _ t => t = [mkHold j (logged_in a w (-1)) (no_room a w (Some a))])).
  2: { destruct (0 <=? r) eqn:Er; bool_lia.
       - do 2 (apply safe_bind, safe_load; [done|]). cbn [us_enter_room_id us_account_idx logged_in].
         apply safe_bind, exit_room_safe; [done|done|]. by apply safe_store.
       - destruct Hr as [-> |?]; [|lia]. done. }
  intros _ t ->. apply safe_bind, safe_load; [done|]. cbn [us_account_idx logged_in].
  apply safe_bind, logout_list_safe; [done|]. cbn [negb]. apply safe_bind, safe_load; [done|]. cbn [us_account_idx logged_in].
  apply safe_bind, release_account_safe; [done|lia|]. apply safe_bind, safe_load; [done|]. cbn [us_user_name logged_in].
  apply safe_bind, release_name_safe; [done|]. do 3 (apply safe_bind, safe_store; [done|]).
  by apply (answer_done j anonymous).
Qed.

(** ** Rooms *)

Lemma collect_rooms_safe j u cl keys : forall acc (Φ : list RoomInfo -> list Hold -> Prop),
  owned u = true -> Forall RoomInfo_wf acc ->
  (forall l, Forall RoomInfo_wf l -> zlen l <= zlen acc + zlen keys -> Φ l [mkHold j u cl]) ->
  usafe (collect_rooms keys acc) Φ [mkHold j u cl].
Proof.
  induction keys as [|k keys IH]; intros acc Φ Ho Hacc HΦ; cbn [collect_rooms].
  { apply HΦ; [done|]. rewrite zlen_nil. lia. }
  apply safe_bind, safe_quiet; [done|]. intros o s Ht. eexists s, _, []. rewrite app_nil_r. split_and!; try done.
  apply IH; [done| |].
  - apply Forall_app_2; [done|]. destruct (u_rooms s !! k) as [rm|] eqn:E; [|constructor].
    destruct (ti_rooms _ _ Ht k rm E) as [Hc Hb Hm]. pose proof (ti_room _ _ Ht k rm E).
    apply Forall_singleton. unfold RoomInfo_wf. split_and!; simpl; lia || done.
  - intros l Hl Hlen. apply HΦ; [done|]. rewrite zlen_app in Hlen. rewrite zlen_cons.
    destruct (u_rooms s !! k); cbn in Hlen; unfold zlen at 3 in Hlen; cbn in Hlen; lia.
Qed.

Lemma room_keys_bound lg rl : tables_inv lg rl -> zlen (map_order rl) <= 10.
Proof.
  intros Ht. unfold zlen. assert (length (map_order rl) = size (dom rl)) as ->.
  { unfold map_order. by rewrite sorting.merge_sort_Permutation. }
  assert (size (dom rl) <= size (list_to_set (Z.of_nat <$> seq 0 10) : gset Z))%nat as Hs.
  { apply subseteq_size. intros k Hk%elem_of_dom. apply (ti_ids _ _ Ht) in Hk. unfold max_room_count in Hk.
    rewrite elem_of_list_to_set, list_elem_of_fmap. exists (Z.to_nat k). rewrite elem_of_seq. lia. }
  change (size (list_to_set (Z.of_nat <$> seq 0 10) : gset Z)) with 10%nat in Hs. lia.
Qed.

Lemma get_room_info_safe j : handler_safe j (User_get_room_info j).
Proof using laws api_laws.
  apply must_login_safe. intros a w r Ha Hw Hr.
  apply safe_bind, safe_quiet; [done|]. intros o s Ht. eexists s, _, []. rewrite app_nil_r. split_and!; try done.
  pose proof (room_keys_bound _ _ Ht) as Hk. apply safe_bind, collect_rooms_safe; [done|constructor|].
  intros l Hl Hlen. rewrite zlen_nil in Hlen. apply answer_done; [by apply logged_in_at_work| |simpl; lia].
  split; [done|]. split; [simpl; lia|done].
Qed.

Lemma enter_room_safe j k : handler_safe j (User_enter_room j k).
Proof using laws api_laws.
  apply must_login_safe. intros a w r Ha Hw Hr. apply safe_bind, safe_load; [done|]. cbn [us_enter_room_id logged_in].
  assert (at_work (logged_in a w r)) as Hu by by apply logged_in_at_work.
  assert (usafe (send_answer j (P_ACK_ENTER_ROOM (mkACK_ENTER_ROOM 0 ENTER_ROOM_FAIL [])) ≫= (fun _ => mret true))
    (fun _ t => exists u', t = [mkHold j u' (claim_of u')] /\ at_work u') [mkHold j (logged_in a w r) (claim_of (logged_in a w r))]) as Hfail.
  { apply answer_done; [done|done|simpl; lia]. }
  destruct (0 <=? r) eqn:Er; bool_lia; [done|]. destruct Hr as [-> |?]; [|lia].
  apply safe_bind, safe_load; [done|]. cbn [us_account_idx logged_in].
  apply safe_bind, safe_rooms; [done|]. intros C lg rl m Hc Hok Ht.
  destruct (enter_room_cases rl k a j) as
    [(rl' & Heq & Hwf & Hsame)|(rm & rl' & Hk & _ & _ & Heq & Hwf & Hmem & Hsame)]; [apply Ht|lia| |];
    rewrite Heq; cbn [fst snd negb].
  - assert (rl' = rl) as -> by by apply map_eq. exists (claim_of (logged_in a w (-1))).
    split_and!; [by rewrite <- Hc; apply claims_same|done|exact Hfail].
  - assert (0 <= k < max_room_count) as Hk10 by (apply (ti_ids _ _ Ht); eauto).
    exists (claim_of (logged_in a w k)). split_and!; [|by eapply tables_rooms|].
    { rewrite claim_logged_in. unfold room_claim. rewrite (proj2 (Z.leb_le 0 k)) by lia.
      pose proof (claim_enter C lg rl m j Hok k a rl') as H. rewrite Hc in H. by apply H; [lia|..]. }
    apply safe_bind, safe_store; [done|]. apply (answer_done j (logged_in a w k)).
    + apply logged_in_at_work; [lia|lia|by right; lia].
    + unfold max_room_count in Hk10. split; [simpl; lia|done].
    + simpl. lia.
Qed.

Lemma exit_room_handler_safe j : handler_safe j (User_exit_room j).
Proof using laws api_laws.
  apply must_login_safe. intros a w r Ha Hw Hr. apply safe_bind, safe_load; [done|]. cbn [us_enter_room_id logged_in].
  destruct (r <? 0) eqn:Er; bool_lia.
  - apply safe_bind. cbn [negb]. apply answer_done; [by apply logged_in_at_work|done|simpl; lia].
  - apply safe_bind. apply safe_bind, safe_load; [done|]. cbn [us_account_idx logged_in]. rewrite claim_logged_in.
    apply exit_room_safe; [done|done|]. cbn [negb]. apply safe_bind, safe_store; [done|].
    apply (answer_done j (logged_in a w (-1))); [by apply logged_in_at_work; [..|left]|done|simpl; lia].
Qed.

(** ** Chat *)

Section Chat.
Context (j : nat) (u : User) (cl : Claim) (Ho : owned u = true) (b : SendBuffer) (Hb : conn_call_ok (CallSend b)).

(** What is asked of another session. *)
Lemma room_test_safe i (c e : bool) (test : Z -> bool) (Φ : bool -> list Hold -> Prop) :
  (forall x, Φ x [mkHold j u cl]) ->
  usafe (if c then room ← room_of i; mret (test room) else mret e) Φ [mkHold j u cl].
Proof using Ho. intros HΦ. destruct c; [|apply HΦ]. apply safe_bind, safe_room_of; [done|]. intros r. apply HΦ. Qed.

Lemma send_in_rooms_safe l : forall count (Φ : Z -> list Hold -> Prop),
  (forall c, Φ c [mkHold j u cl]) -> usafe (send_in_rooms l b count) Φ [mkHold j u cl].
Proof using Ho Hb.
  induction l as [|i l IH]; intros count Φ HΦ; cbn [send_in_rooms]; [apply HΦ|].
  apply safe_bind, safe_connected; [done|]. intros con.
  apply safe_bind, room_test_safe. intros []; [by apply IH|]. apply safe_bind, safe_call; [done|done|]. by apply IH.
Qed.

Lemma pick_room_safe r l : forall (Φ : list nat -> list Hold -> Prop),
  (forall x, Φ x [mkHold j u cl]) -> usafe (pick_room r l) Φ [mkHold j u cl].
Proof using Ho.
  induction l as [|i l IH]; intros Φ HΦ; cbn [pick_room]; [apply HΦ|].
  apply safe_bind, safe_connected; [done|]. intros con.
  apply safe_bind, room_test_safe. intros x. apply safe_bind, IH. intros y. apply HΦ.
Qed.

Lemma send_all_safe l : forall count (Φ : Z -> list Hold -> Prop),
  (forall c, Φ c [mkHold j u cl]) -> usafe (send_all l b count) Φ [mkHold j u cl].
Proof using Ho Hb.
  induction l as [|i l IH]; intros count Φ HΦ; cbn [send_all]; [apply HΦ|].
  apply safe_bind, safe_call; [done|done|]. by apply IH.
Qed.

Lemma normal_chat_safe r (Φ : Z -> list Hold -> Prop) :
  (forall c, Φ c [mkHold j u cl]) -> usafe (User_normal_chat r b) Φ [mkHold j u cl].
Proof using Ho Hb.
  intros HΦ. apply safe_bind, safe_manager_read; [done|]. intros l. apply safe_bind, pick_room_safe. intros x. by apply send_all_safe.
Qed.

Lemma all_chat_safe (Φ : Z -> list Hold -> Prop) :
  (forall c, Φ c [mkHold j u cl]) -> usafe (User_all_chat b) Φ [mkHold j u cl].
Proof using Ho Hb. intros HΦ. apply safe_bind, safe_manager_read; [done|]. intros l. by apply send_in_rooms_safe. Qed.

Lemma whisper_chat_safe w (Φ : Z -> list Hold -> Prop) :
  (forall c, Φ c [mkHold j u cl]) -> usafe (User_whisper_chat w b) Φ [mkHold j u cl].
Proof using Ho Hb.
  intros HΦ. apply safe_bind, safe_manager_read; [done|]. intros [i|]; [|apply HΦ].
  apply safe_bind, safe_connected; [done|]. intros []; cbn [negb]; [|apply HΦ]. apply safe_bind, safe_call; [done|done|apply HΦ].
Qed.
End Chat.

Lemma chat_fail_safe j u r :
  at_work u -> 0 <= r < 256 ->
  usafe (user_chat_fail j r) (fun _ t => exists u', t = [mkHold j u' (claim_of u')] /\ at_work u') [mkHold j u (claim_of u)].
Proof using laws api_laws. intros Hu Hr. apply answer_done; [done| |simpl; lia]. split_and!; simpl; done || lia. Qed.

Lemma chat_deliver_safe j a w r msg dlv :
  at_work (logged_in a w r) -> zlen w <= 32 -> zlen msg <= 256 ->
  (forall b (Φ : Z -> list Hold -> Prop), conn_call_ok (CallSend b) ->
     (forall c, Φ c [mkHold j (logged_in a w r) (claim_of (logged_in a w r))]) ->
     usafe (dlv b) Φ [mkHold j (logged_in a w r) (claim_of (logged_in a w r))]) ->
  usafe (user_chat_deliver j msg dlv) (fun _ t => exists u', t = [mkHold j u' (claim_of u')] /\ at_work u')
    [mkHold j (logged_in a w r) (claim_of (logged_in a w r))].
Proof using laws api_laws.
  intros Hu Hw Hm Hd. unfold user_chat_deliver. apply safe_bind, safe_load; [done|]. cbn [us_user_name logged_in].
  destruct (WStringToUtf8_wf w) as [Hu8 Hul]; [lia|].
  destruct (made_buffer_ok (P_ACK_SEND_CHAT (mkACK_SEND_CHAT (WStringToUtf8 w) msg []))) as (b & -> & Hb).
  { split; simpl; [lia|]. split; [lia|done]. }
  { simpl. lia. }
  apply safe_bind, Hd; [exact Hb|]. intros c. do 3 (apply safe_bind, safe_count; [done|]).
  apply answer_done; [done| |simpl; lia].
  split; [simpl; unfold CHAT_ERROR_SUCCESS; lia|]. split; [apply u32_range|done].
Qed.

Lemma chat_safe j pkt : handler_safe j (User_chat j pkt).
Proof using laws api_laws.
  apply must_login_safe. intros a w r Ha Hw Hr. cbv zeta.
  assert (at_work (logged_in a w r)) as Hu by by apply logged_in_at_work.
  pose proof (fun x Hx => chat_fail_safe j (logged_in a w r) x Hu Hx) as Hfail.
  destruct (bool_decide _ || _) eqn:Em; [by apply Hfail|]. bool_lia.
  assert (zlen (REQ_CHAT_message pkt) <= 256) as Hm by lia.
  pose proof (fun dlv => chat_deliver_safe j a w r (REQ_CHAT_message pkt) dlv Hu Hw Hm) as Hdlv.
  destruct (REQ_CHAT_chat_state pkt =? CHAT_NORMAL).
  { apply safe_bind, safe_load; [done|]. cbn [us_enter_room_id logged_in].
    destruct (r <? 0); [by apply Hfail|]. apply safe_bind, safe_load; [done|]. cbn [us_enter_room_id logged_in]. destruct (r =? _); cbn [negb]; [|by apply Hfail].
    apply Hdlv. intros b Φ Hb HΦ. by apply normal_chat_safe. }
  destruct (REQ_CHAT_chat_state pkt =? CHAT_ALL).
  { apply Hdlv. intros b Φ Hb HΦ. by apply all_chat_safe. }
  destruct (REQ_CHAT_chat_state pkt =? CHAT_WHISPER); [|by apply Hfail].
  destruct (bool_decide _ || _); [by apply Hfail|].
  apply safe_bind, safe_manager_read; [done|]. intros []; cbn [negb]; [|by apply Hfail].
  apply Hdlv. intros b Φ Hb HΦ. by apply whisper_chat_safe.
Qed.

(** ** Jobs *)

Lemma packet_handler_safe j pkt : handler_safe j (user_packet_handler j pkt).
Proof using laws api_laws.
  destruct pkt; cbn [user_packet_handler]; try (intros u Hu; by apply work_done).
  - apply login_safe. intros a x r Ha Hx Hxl Hr. split; [|simpl; lia]. split_and!; simpl; done || lia.
  - apply login_safe. intros a x r Ha Hx Hxl Hr. split; [|simpl; lia]. split_and!; simpl; done || lia.
  - apply logout_safe.
  - apply get_room_info_safe.
  - apply enter_room_safe.
  - apply exit_room_handler_safe.
  - apply chat_safe.
Qed.

(** The end of a job. *)
Lemma job_ends_safe j u :
  us_phase u <> Opening -> user_ok u ->
  usafe (job_ends j) (fun _ t => t = []) [mkHold j u (claim_of u)].
Proof.
  intros Hp Hu. apply safe_release. intros o s C (Hs & Hc & Hok & Ht & Hl). rewrite Hs. cbn [mbind option_bind].
  eexists _, tt, (u <| us_busy := false |>). split; [done|]. split; [|split; [|done]].
  - split; [done|]. split; [exists []; by rewrite app_nil_r|]. intros _. split; [|done].
    change (claim_of (u <| us_busy := false |>)) with (claim_of u). rewrite <- Hc. by apply claims_same.
  - unfold owned. cbn. by rewrite bool_decide_eq_false_2.
Qed.

Lemma packet_job_safe j u pkt :
  at_work u -> usafe (User_packet_job j pkt) (fun _ t => t = []) [mkHold j u (claim_of u)].
Proof using laws api_laws.
  intros Hu. unfold User_packet_job. apply safe_bind, safe_connected; [by apply at_work_owned|]. intros con.
  apply safe_bind. apply (safe_mono _ _ _ _ (fun _ t => exists u', t = [mkHold j u' (claim_of u')] /\ at_work u')).
  - intros _ t (u' & -> & [? Hp _ _ Hok]). apply job_ends_safe; [congruence|done].
  - destruct con; [|by apply work_done]. apply safe_bind.
    eapply safe_mono; [|by apply packet_handler_safe]. by intros ? t ?.
Qed.

(** *** Cleanup *)

(** The last part of the cleanup, when the session has no account any more. *)
Lemma erase_safe j u l x ac nm (Φ : unit -> list Hold -> Prop) b :
  owned u = true -> Φ tt [mkHold j u (mkClaim l x ac nm None false)] ->
  usafe (on_manager (fun m => (tt, SessionManager_erase_session j m))) Φ [mkHold j u (mkClaim l x ac nm None b)].
Proof.
  intros Ho HΦ. apply safe_manager; [done|]. intros C lg rl m Hc Hok _. cbn [fst snd].
  exists (mkClaim l x ac nm None false). split; [|done].
  pose proof (claim_erase C lg rl m j Hok) as H. by rewrite Hc in H.
Qed.

Lemma was_connected_safe j u cl (Φ : bool -> list Hold -> Prop) :
  owned u = true -> (forall b, (us_phase u = Serving -> b = true) -> Φ b [mkHold j u cl]) ->
  usafe (was_connected_now j) Φ [mkHold j u cl].
Proof.
  intros Ho HΦ. apply safe_hold. intros o s C (Hs & Hc & Hok & Ht & Hl). rewrite Hs. cbn [mbind option_bind].
  eexists s, _, u, cl. split; [done|]. split; [|split; [done|intros _; apply HΦ; by intros ->]].
  split; [by rewrite insert_id|]. split; [exists []; by rewrite app_nil_r|]. intros _. split; [|done].
  rewrite <- Hc. by apply claims_same.
Qed.

Definition leaving (a : Z) (w : wstring) (r : Z) (l : bool) (p : Phase) : User := mkUser a w r l p true false true.

(** The members are reset and the job ends. *)
Lemma cleanup_end_safe j a w p :
  p <> Opening ->
  usafe (store_user j (fun u => u <| us_account_idx := 0 |>) ≫= fun _ =>
         store_user j (fun u => u <| us_user_name := [] |>) ≫= fun _ =>
         store_user j (fun u => u <| us_enter_room_id := -1 |>) ≫= fun _ =>
         store_user j (fun u => u <| us_cleanup_done := true |>) ≫= fun _ => job_ends j) (fun _ t => t = [])
    [mkHold j (leaving a w (-1) false p) (mkClaim None [] None None None false)].
Proof.
  intros Hp. do 4 (apply safe_bind, safe_store; [done|]).
  set (u := mkUser 0 [] (-1) false p true true true).
  replace (mkClaim None [] None None None false) with (claim_of u) by (unfold claim_of, u; cbn; by rewrite andb_false_r).
  by apply job_ends_safe.
Qed.

Lemma cleanup_user_safe j a w r :
  0 < a < 2 ^ 64 -> r = -1 \/ 0 <= r ->
  usafe (User_cleanup_job j) (fun _ t => t = [])
    [mkHold j (leaving a w r true Serving) (mkClaim (Some a) w (Some a) (name_claim w) (room_claim r a) true)].
Proof.
  intros Ha Hr. unfold User_cleanup_job. apply safe_bind, was_connected_safe; [done|]. intros was ->; [|done].
  apply safe_bind. unfold User_on_disconnect. apply safe_bind, safe_count; [done|].
  do 2 (apply safe_bind, safe_load; [done|]). cbn [us_account_idx us_enter_room_id leaving].
  apply safe_bind. apply (safe_mono _ _ _ _ (fun _ t => t = [mkHold j (leaving a w (-1) true Serving) (no_room a w (Some a))])).
  2: { destruct (0 <=? r) eqn:Er; bool_lia.
       - apply safe_bind, exit_room_safe; [done|done|]. by apply safe_store.
       - destruct Hr as [-> |?]; [|lia]. done. }
  intros _ t ->. apply safe_bind, safe_on_user; [done|]. cbn [fst snd us_is_login leaving].
  apply safe_bind, logout_list_safe; [done|]. cbn [upd]. unfold User_release_session.
  apply safe_bind, safe_bind, safe_load; [done|]. cbn [us_account_idx leaving].
  apply safe_bind, release_account_safe; [done|lia|]. apply safe_bind, safe_load; [done|]. cbn [us_user_name leaving].
  apply safe_bind, release_name_safe; [done|]. apply erase_safe; [done|]. by apply (cleanup_end_safe j a w).
Qed.

Lemma cleanup_anonymous_safe j p b :
  p <> Opening ->
  usafe (User_cleanup_job j) (fun _ t => t = [])
    [mkHold j (leaving 0 [] (-1) false p) (mkClaim None [] None None None b)].
Proof.
  intros Hp. unfold User_cleanup_job. apply safe_bind, was_connected_safe; [done|]. intros was _. apply safe_bind.
  apply (safe_mono _ _ _ _ (fun _ t => t = [mkHold j (leaving 0 [] (-1) false p) (mkClaim None [] None None None b)])).
  2: { destruct was; [|done]. unfold User_on_disconnect. apply safe_bind, safe_count; [done|].
       do 2 (apply safe_bind, safe_load; [done|]). cbn [us_account_idx us_enter_room_id leaving].
       change (0 <=? -1) with false. cbv iota. apply safe_bind. apply (safe_bind _ _ _ (on_user j _)). by apply safe_on_user. }
  intros _ t ->. unfold User_release_session. apply safe_bind, safe_bind, safe_load; [done|]. cbn [us_account_idx leaving].
  apply safe_bind, safe_manager; [done|]. intros C' lg rl m Hc' Hok' _. exists (mkClaim None [] None None None b).
  split; [rewrite <- Hc'; by apply claims_same|]. apply safe_bind, safe_load; [done|]. cbn [us_user_name leaving].
  apply safe_bind, safe_manager; [done|]. intros C'' lg' rl' m' Hc'' Hok'' _. exists (mkClaim None [] None None None b).
  split; [rewrite <- Hc''; by apply claims_same|]. apply erase_safe; [done|]. by apply cleanup_end_safe.
Qed.

(** *** Accepting *)

Lemma accept_safe j :
  usafe (User_accept j) (fun _ t => t = [])
    [mkHold j (mkUser 0 [] (-1) false Opening false false false) no_claim].
Proof.
  unfold User_accept. apply safe_bind, safe_manager; [done|]. intros C lg rl m Hc Hok Ht.
  destruct (claim_add C lg rl m j Hok) as (ok & m' & -> & Hok'); [by rewrite Hc|]. rewrite Hc in Hok'. cbn [fst snd].
  exists (mkClaim None [] None None None ok). split; [done|].
  apply safe_release. intros o s D (Hs & Hd & Hok2 & Ht2 & Hl). rewrite Hs. cbn [mbind option_bind].
  set (u := mkUser 0 [] (-1) false (if ok then Serving else Rejecting) false false false).
  eexists _, tt, u. split; [done|]. split.
  - split; [done|]. split; [exists []; by rewrite app_nil_r|]. intros _. split; [|done].
    replace (claim_of u) with (D j); [by apply claims_same|]. rewrite Hd. by destruct ok.
  - split; [by destruct ok|]. split; [by destruct ok|done].
Qed.

(** ** All threads *)

(** A thread takes a session on which none is working. *)
Lemma take_session ts s j u u' :
  UsersInv ts s -> u_sessions s !! j = Some u -> owned u = false -> owned u' = true ->
  user_ok u /\ UsersInv (ts ++ [mkHold j u' (claim_of u)]) (s <| u_sessions ::= insert j u' |>).
Proof.
  intros [C [H1 H2 H3 H4 H5 H6 H7 H8 H9]] Hj Ho Ho'. destruct (H4 j u Hj Ho) as [HC Hu]. split; [done|].
  assert (j ∉ h_id <$> ts) as Hnin.
  { intros (h & -> & Hh)%list_elem_of_fmap. rewrite Forall_forall in H1. destruct (H1 h Hh) as (E & _ & ?). congruence. }
  exists C. constructor; try done; cbn [u_sessions upd].
  - apply Forall_app_2; [|apply Forall_singleton; by rewrite lookup_insert_eq].
    rewrite Forall_forall in H1 |- *. intros h Hh. destruct (H1 h Hh) as (? & ? & ?).
    rewrite lookup_insert_ne; [done|]. intros ->. by apply Hnin, list_elem_of_fmap_2.
  - rewrite fmap_app. apply NoDup_app. split_and!; [done| |apply NoDup_singleton]. intros x Hx ->%list_elem_of_singleton. done.
  - intros i x. rewrite fmap_app, elem_of_app. intros [[<- <-]|[Hne Hx]]%lookup_insert_Some Hox; [right; by left|left; by eapply H3].
  - intros i x [[<- <-]|[Hne Hx]]%lookup_insert_Some Hox; [congruence|by eapply H4].
  - intros i [Hx Hne]%lookup_insert_None. by apply H5.
Qed.

Lemma user_env_ok : env_ok UsersInv (fun _ _ => True) user_lim user_env.
Proof using laws api_laws.
  intros s s' p ts Henv HI Hl. destruct Henv as [s j Hn|s j u Hj Hp Hd Hb|s j u pkt Hj Hp Hd Hb|s j u Hj Hp Hd Hb].
  - exists []. split; [done|]. rewrite app_nil_r. destruct HI as [C [H1 H2 H3 H4 H5 H6 H7 H8 H9]]. exists C.
    constructor; try done; cbn [u_sessions upd].
    + rewrite Forall_forall in H1 |- *. intros h Hh. destruct (H1 h Hh) as (? & ? & ?).
      rewrite lookup_insert_ne; [done|]. intros ->. congruence.
    + intros i x [[<- <-]|[Hne Hx]]%lookup_insert_Some Hox; [done|by eapply H3].
    + intros i x [[<- <-]|[Hne Hx]]%lookup_insert_Some Hox; [|by eapply H4]. split; [by apply H5|done].
    + intros i [Hx Hne]%lookup_insert_None. by apply H5.
  - destruct u as [a w r l ph d c b]. cbn in Hp, Hd, Hb. subst ph d b.
    destruct (take_session ts s j _ (mkUser a w r l Opening false c false) HI Hj) as [(H1 & H2 & H3) HI']; [done..|].
    cbn in H1, H2, H3. destruct l; [by destruct (H2 eq_refl) as [? _]|]. destruct c; [by specialize (H3 eq_refl)|].
    destruct (H1 eq_refl) as (-> & -> & ->). eexists. split; [|exact HI']. apply accept_safe.
  - destruct u as [a w r l ph d c b]. cbn in Hp, Hd, Hb. subst ph d b.
    destruct (take_session ts s j _ (mkUser a w r l Serving false c true) HI Hj) as [Hu HI']; [done..|].
    assert (c = false) as -> by (destruct c; [by pose proof (proj2 (proj2 Hu) eq_refl)|done]).
    eexists. split; [|exact HI']. apply (packet_job_safe j (mkUser a w r l Serving false false true)). by constructor.
  - destruct u as [a w r l ph d c b]. cbn in Hp, Hd, Hb. subst d b.
    destruct (take_session ts s j _ (mkUser a w r l ph true c true) HI Hj) as [(H1 & H2 & H3) HI']; [|done|].
    { unfold owned. cbn. by rewrite bool_decide_eq_false_2. }
    cbn in H1, H2, H3. destruct c; [by specialize (H3 eq_refl)|]. eexists. split; [|exact HI']. destruct l.
    + destruct (H2 eq_refl) as (-> & _ & Ha & _ & Hr). by apply cleanup_user_safe.
    + destruct (H1 eq_refl) as (-> & -> & ->). by apply cleanup_anonymous_safe.
Qed.

Lemma UsersInv_new n : 0 <= n < 2 ^ 31 -> UsersInv [] (Users_new n).
Proof.
  intros Hn. exists (fun _ => no_claim). destruct rooms_initial as (Hw & Hk & Hm).
  constructor; cbn [Users_new u_sessions u_login u_rooms u_mgr u_calls]; try (by intros *; rewrite lookup_empty).
  - constructor.
  - constructor.
  - constructor; cbn; try done; try (by intros *; rewrite lookup_empty).
    + intros a. split; [set_solver|]. by intros [j ?].
    + intros k a j. by rewrite Hm, lookup_empty.
  - destruct (server_new_inv n Hn) as [_ [_ Ht _ _]]. exact Ht.
  - constructor.
  - done.
Qed.

Abbreviation users_pool_ok := (pool_ok UsersInv (fun _ _ => True) user_lim).

Lemma users_reachable_ok n w : 0 <= n < 2 ^ 31 -> users_reachable n w -> users_pool_ok w.
Proof using laws api_laws.
  intros Hn Hr. assert (users_pool_ok (mkWorld (Users_new n) [])) as Hstart.
  { exists []. split; [constructor|by apply UsersInv_new]. }
  unfold users_reachable in Hr. revert Hstart. induction Hr as [w|w w1 w2 [Hst Hl] _ IH]; [done|].
  intros Hok. apply IH. by apply (wstep_safe UsersInv (fun _ _ => True) user_lim user_env w w1 user_env_ok).
Qed.

(** The claims behind a reachable state; when no thread is left every session is between jobs. *)
Lemma users_reachable_claims n w :
  0 <= n < 2 ^ 31 -> users_reachable n w ->
  Crash ∉ w_threads w /\ exists C ts, UInv C ts (w_state w) /\ (w_threads w = [] -> ts = []).
Proof using laws api_laws.
  intros Hn Hr. pose proof (users_reachable_ok n w Hn Hr) as Hok. split; [exact (pool_no_crash _ _ _ w Hok)|].
  destruct Hok as (tss & Hts & [C HI]). exists C, (concat tss). split; [done|]. intros Hw. rewrite Hw in Hts.
  by apply Forall2_nil_inv_l in Hts as ->.
Qed.

Section Idle.
Context (C : nat -> Claim) (ts : list Hold) (s : Users) (HI : UInv C ts s).
Context (j : nat) (u : User) (Hj : u_sessions s !! j = Some u) (Hb : us_busy u = false) (Hp : us_phase u <> Opening).

Lemma idle_user : C j = claim_of u /\ user_ok u.
Proof using HI Hj Hb Hp.
  apply (ub_idle _ _ _ HI j u Hj). unfold owned. by rewrite Hb, bool_decide_eq_false_2.
Qed.

(** A user who is logged in is found everywhere, and nobody else under this account or name. *)
Lemma idle_logged_in :
  us_is_login u = true ->
  us_account_idx u ∈ lg_login_list (u_login s) /\
  sm_account_sessions (u_mgr s) !! us_account_idx u = Some j /\
  (us_user_name u <> [] -> sm_name_sessions (u_mgr s) !! us_user_name u = Some j) /\
  (forall k i, room_members (u_rooms s) k !! us_account_idx u = Some i <-> i = j /\ k = us_enter_room_id u /\ 0 <= k).
Proof using HI Hj Hb Hp.
  intros Hl. destruct idle_user as [HC _]. unfold claim_of in HC. rewrite Hl in HC. pose proof (ub_claims _ _ _ HI) as Hok.
  assert (cl_listed (C j) = Some (us_account_idx u)) as Hlist by by rewrite HC. split_and!.
  - apply (co_list _ _ _ _ Hok). eauto.
  - apply (co_found _ _ _ _ Hok); by rewrite HC.
  - intros Hne. eapply (co_named _ _ _ _ Hok); [exact Hlist|]. rewrite HC. cbn. unfold name_claim. by rewrite bool_decide_eq_false_2.
  - intros k i. rewrite (co_room _ _ _ _ Hok). split.
    + intros Hr. destruct (co_inside _ _ _ _ Hok _ _ _ Hr) as [Hi Hk].
      pose proof (co_one _ _ _ _ Hok _ _ _ Hi Hlist) as ->. rewrite HC in Hr. cbn in Hr. unfold room_claim in Hr.
      destruct (0 <=? _); [|done]. by injection Hr as <-.
    + intros (-> & -> & Hk). rewrite HC. cbn. unfold room_claim. by rewrite (proj2 (Z.leb_le _ _)).
Qed.

(** One who is not is found nowhere. *)
Lemma idle_anonymous :
  us_is_login u = false ->
  (forall a, sm_account_sessions (u_mgr s) !! a <> Some j) /\ (forall w, sm_name_sessions (u_mgr s) !! w <> Some j) /\
  (forall k a, room_members (u_rooms s) k !! a <> Some j).
Proof using HI Hj Hb Hp.
  intros Hl. destruct idle_user as [HC _]. unfold claim_of in HC. rewrite Hl in HC. pose proof (ub_claims _ _ _ HI) as Hok. split_and!.
  - intros a H%(co_account _ _ _ _ Hok). by rewrite HC in H.
  - intros w H%(co_name _ _ _ _ Hok). by rewrite HC in H.
  - intros k a H%(co_room _ _ _ _ Hok). by rewrite HC in H.
Qed.

Lemma idle_member : j ∈ sm_sessions (u_mgr s) <-> us_phase u = Serving /\ us_cleanup_done u = false.
Proof using HI Hj Hb Hp.
  rewrite (co_member _ _ _ _ (ub_claims _ _ _ HI)). destruct idle_user as [HC _].
  assert (cl_member (C j) = bool_decide (us_phase u = Serving) && negb (us_cleanup_done u)) as ->.
  { rewrite HC. unfold claim_of. by destruct (us_is_login u). }
  rewrite andb_true_iff, bool_decide_eq_true, negb_true_iff. done.
Qed.
End Idle.

(** ** Properties *)

(** C17: the handlers of different sessions can interleave in any way.  Workers run the jobs of
    different sessions at once, with any order of their sections under the locks of the login
    list, the rooms and the session manager and of their accesses to the sessions; whether a
    session is connected can change at any time.  The limit of sessions is a 32-bit number that is
    not negative, and the 64-bit counter of accounts does not run out.  In every state such a run
    reaches no assertion has failed, and every call made on a connection is one
    the sessions can take.  Whatever the handlers of other sessions are doing, a session that has
    no job running is in order: if it is logged in, its account is in the login list, the account
    and the name lead to it and to no other session, and its account is in the room it carries and in
    no other; if it is not, no account, name or room leads to it; the session manager counts it
    exactly while it serves a client and has not been cleaned up.  No two such sessions have the
    same account.  The counts of rooms and sessions are exact and within their limits.  When no
    job is running, the login list holds exactly the accounts of the sessions that are logged in. *)
Theorem handlers_interleave n w :
  0 <= n < 2 ^ 31 -> users_reachable n w ->
  let s := w_state w in
  (Crash ∉ w_threads w /\ Forall (fun c => conn_call_ok c.2) (u_calls s)) /\
  (forall j u, u_sessions s !! j = Some u -> us_busy u = false -> us_phase u <> Opening ->
     (us_is_login u = true ->
        us_account_idx u ∈ lg_login_list (u_login s) /\
        sm_account_sessions (u_mgr s) !! us_account_idx u = Some j /\
        (us_user_name u <> [] -> sm_name_sessions (u_mgr s) !! us_user_name u = Some j) /\
        (forall k i, room_members (u_rooms s) k !! us_account_idx u = Some i <-> i = j /\ k = us_enter_room_id u /\ 0 <= k)) /\
     (us_is_login u = false ->
        (forall a, sm_account_sessions (u_mgr s) !! a <> Some j) /\ (forall x, sm_name_sessions (u_mgr s) !! x <> Some j) /\
        (forall k a, room_members (u_rooms s) k !! a <> Some j)) /\
     (j ∈ sm_sessions (u_mgr s) <-> us_phase u = Serving /\ us_cleanup_done u = false)) /\
  (forall i j u v, u_sessions s !! i = Some u -> us_busy u = false -> us_is_login u = true ->
     u_sessions s !! j = Some v -> us_busy v = false -> us_is_login v = true ->
     us_phase u <> Opening -> us_phase v <> Opening -> us_account_idx u = us_account_idx v -> i = j) /\
  ((forall k rm, u_rooms s !! k = Some rm ->
      rm_room_cur_count rm = Z.of_nat (size (rm_room_session_list rm)) /\ rm_room_cur_count rm <= rm_room_max_count rm) /\
   sm_session_count (u_mgr s) = Z.of_nat (size (sm_sessions (u_mgr s))) /\
   sm_session_count (u_mgr s) <= sm_max_session_count (u_mgr s)) /\
  (w_threads w = [] -> forall a, a ∈ lg_login_list (u_login s) <->
     exists j u, u_sessions s !! j = Some u /\ us_is_login u = true /\ us_account_idx u = a).
Proof using laws api_laws.
  intros Hn Hr s. destruct (users_reachable_claims n w Hn Hr) as (Hcr & C & ts & HI & Hrest). fold s in HI.
  pose proof (ub_claims _ _ _ HI) as Hok. split; [split; [done|apply HI]|]. split_and!.
  - intros j u Hj Hb Hp. split; [by eapply idle_logged_in|]. split; [by eapply idle_anonymous|by eapply idle_member].
  - intros i j u v Hi Hbi Hli Hj Hbj Hlj Hpi Hpj E.
    destruct (idle_logged_in C ts s HI i u Hi Hbi Hpi Hli) as (_ & Hu & _).
    destruct (idle_logged_in C ts s HI j v Hj Hbj Hpj Hlj) as (_ & Hv & _). congruence.
  - intros k rm Hk. by destruct (ti_rooms _ _ (ub_tables _ _ _ HI) k rm Hk).
  - apply (co_count _ _ _ _ Hok).
  - apply (co_count _ _ _ _ Hok).
  - intros Hw a. rewrite (co_list _ _ _ _ Hok). specialize (Hrest Hw). subst ts.
    assert (forall j u, u_sessions s !! j = Some u -> owned u = false) as Hidle.
    { intros j u Hj. destruct (owned u) eqn:E; [|done]. by apply (ub_owned _ _ _ HI j u Hj), not_elem_of_nil in E. }
    split.
    + intros [j Hj]. destruct (u_sessions s !! j) as [u|] eqn:Eu.
      * destruct (ub_idle _ _ _ HI j u Eu (Hidle j u Eu)) as [HC _]. rewrite HC in Hj. unfold claim_of in Hj.
        destruct (us_is_login u) eqn:El; [|done]. injection Hj as <-. eauto.
      * by rewrite (ub_none _ _ _ HI j Eu) in Hj.
    + intros (j & u & Hj & Hl & <-). exists j. destruct (ub_idle _ _ _ HI j u Hj (Hidle j u Hj)) as [-> _].
      unfold claim_of. by rewrite Hl.
Qed.

(** ** Runs *)

(** What the environment does. *)
Inductive UserEvent := UCreate (sid : nat) | UAccept (sid : nat) | UPacket (sid : nat) (pkt : Packet) | UCleanup (sid : nat).

Definition user_spawn (e : UserEvent) (s : Users) : option (Users * uprog unit) :=
  match e with
  | UCreate sid =>
      match u_sessions s !! sid with
      | None => Some (s <| u_sessions ::= insert sid User_new |>, mret ())
      | Some _ => None
      end
  | UAccept sid =>
      u ← u_sessions s !! sid;
      if bool_decide (us_phase u = Waiting) && negb (us_is_disconnect u) && negb (us_busy u)
      then Some (s <| u_sessions ::= insert sid (u <| us_phase := Opening |>) |>, User_accept sid) else None
  | UPacket sid pkt =>
      u ← u_sessions s !! sid;
      if bool_decide (us_phase u = Serving) && negb (us_is_disconnect u) && negb (us_busy u)
      then Some (s <| u_sessions ::= insert sid (u <| us_busy := true |>) |>, User_packet_job sid pkt) else None
  | UCleanup sid =>
      u ← u_sessions s !! sid;
      if negb (bool_decide (us_phase u = Opening)) && negb (us_is_disconnect u) && negb (us_busy u)
      then Some (s <| u_sessions ::= insert sid (u <| us_is_disconnect := true |> <| us_busy := true |>) |>, User_cleanup_job sid)
      else None
  end.

Lemma user_spawn_sound e s s' p : user_spawn e s = Some (s', p) -> user_env s s' p.
Proof.
  destruct e as [j|j|j pkt|j]; cbn [user_spawn]; destruct (u_sessions s !! j) as [u|] eqn:Eu; cbn [mbind option_bind];
    try done;
    try (destruct (_ && _) eqn:E; [|done];
         apply andb_true_iff in E as [[Ep Ed%negb_true_iff]%andb_true_iff Eb%negb_true_iff]); intros [= <- <-].
  - by apply user_created_env.
  - apply bool_decide_eq_true in Ep. by apply user_accepted.
  - apply bool_decide_eq_true in Ep. by apply user_packet.
  - apply negb_true_iff, bool_decide_eq_false in Ep. by apply user_cleanup.
Qed.

Definition user_limb (s : Users) : bool := lg_account_id (u_login s) + 1 <? 2 ^ 64.

Lemma user_limb_sound s : user_limb s = true -> user_lim s.
Proof. unfold user_limb. intros H. by bool_lia. Qed.

Definition user_run (n : Z) (scs : list (Sched UserEvent)) : world Users :=
  wrun user_limb user_spawn scs (mkWorld (Users_new n) []).

Lemma user_run_reach n scs : users_reachable n (user_run n scs).
Proof. apply (wrun_steps user_env user_lim user_limb user_limb_sound user_spawn user_spawn_sound). done. Qed.
End UserTheorems.

(** Every session is connected. *)
Definition all_connected : Oracle := fun _ => 0.
Definition to_end (i : nat) : Sched UserEvent := Advance i 1000 all_connected.

Definition open_sched (j : nat) : list (Sched UserEvent) := [Spawn (UCreate j); to_end 0; Spawn (UAccept j); to_end 0].

(** The first session creates an account, enters a room and starts to log out.  When its account
    has left the login list, and before the session has given up its entries, the second session
    logs in with that account; then the first one goes on. *)
Definition takeover_sched : list (Sched UserEvent) :=
  open_sched 0 ++ open_sched 1 ++
  [Spawn (UPacket 0 (P_REQ_LOGIN (mkREQ_LOGIN true [97] [112] [65] []))); to_end 0;
   Spawn (UPacket 0 (P_REQ_ENTER_ROOM (mkREQ_ENTER_ROOM 3 []))); to_end 0;
   Spawn (UPacket 0 (P_REQ_LOGOUT (mkREQ_LOGOUT 0 []))); Advance 0 9 all_connected;
   Spawn (UPacket 1 (P_REQ_LOGIN (mkREQ_LOGIN false [97] [112] [] []))); to_end 1; to_end 0].

Definition takeover : world Users := user_run 2 takeover_sched.

Definition user_at (j : nat) (w : world Users) (f : User -> bool) : bool :=
  match u_sessions (w_state w) !! j with Some u => f u | None => false end.

Definition idle_login (u : User) : bool :=
  us_is_login u && (us_account_idx u =? 1) && negb (us_busy u) && bool_decide (us_phase u = Serving).

Lemma takeover_reach : users_reachable 2 takeover.
Proof. apply user_run_reach. Qed.

#[local] Opaque takeover.

Lemma handlers_interleave_witness :
  sm_account_sessions (u_mgr (w_state takeover)) !! 1 = Some 1%nat /\ 1 ∈ lg_login_list (u_login (w_state takeover)).
Proof.
  assert (user_at 1 takeover idle_login = true) as E by (vm_compute; reflexivity).
  unfold user_at in E. destruct (u_sessions (w_state takeover) !! 1%nat) as [u|] eqn:Eu; [|discriminate E].
  unfold idle_login in E. apply andb_true_iff in E as [[[El Ea%Z.eqb_eq]%andb_true_iff Eb%negb_true_iff]%andb_true_iff Ep%bool_decide_eq_true].
  destruct (handlers_interleave 2 takeover ltac:(lia) takeover_reach) as (_ & H & _).
  destruct (H 1%nat u Eu Eb) as [Hin _]; [rewrite Ep; discriminate|].
  destruct (Hin El) as (Hlist & Hmap & _). rewrite Ea in Hlist, Hmap. exact (conj Hmap Hlist).
Defined.
