(* ===== verification/ConnectionSafety.v ===== *)
(** * The invariant of a concurrent server session

    What holds between any two actions of any threads of a session ([ConnInv]), and that every
    method keeps it ([conn_env_ok]).  A thread owns tokens:

    - [TSender at]: it is the one thread that may use the send event and is responsible for
      [_is_send_register];
    - [TReceiver at]: it is the one thread that may use the receive buffer;
    - [TCloser at]: it is the one thread whose [disconnect] found the session connected;
    - [TJob at]: it runs the current job of the logic queue;
    - [TIo]: it is a worker in [IocpCore::dispatch] that has not called [finish_io] yet;
    - [TNew]: it is the listener's thread and has not set [_is_connect] yet;
    - [TCleanup]: it has set [_is_disconnect] and will queue the cleanup;
    - [TShut]: it has set [_shutdown_started] and will call [process_disconnect];
    - [TStop]: it has called [begin_shutdown];
    - [TDisc]: it will call [disconnect];
    - [TOff], [TOpen], [TDead]: it knows that [_shutdown_started] is set, that the session was
      opened, that its connection is over. *)

From stdpp Require Import base list numbers option relations.
From Stdlib Require Import ZArith Lia.
From S2P Require Import Prelude Interleaving Buffers SendEvents Framing JobQueues Wire Protocol Packets Sessions SessionSafety Connections.

(** A send: to be registered; completed with [n] bytes; the bytes taken off the event; nothing
    left in the event; the event cleared; refused by [WSASend]. *)
Inductive SenderAt := Ready | Completed (n : Z) | Consumed | Drained | Cleared | SendFailed.

(** A receive: the buffer is [rb], and [unread] was received and not yet handed on; or refused
    by [WSARecv]. *)
Inductive ReceiverAt := Holding (rb : RecvBuffer) (unread : bytes) | RecvFailed.

Inductive CloserAt := Won | CloseFailed.

(** A job: a packet whose handler may still be skipped; the cleanup before and after it is
    recorded; any other. *)
Inductive JobAt := JPacket (pkt : Packet) | JCleanup | JCleaned | JDone.

Inductive Token :=
| TSender (st : SenderAt) | TReceiver (st : ReceiverAt) | TCloser (st : CloserAt) | TJob (st : JobAt)
| TIo | TNew | TCleanup | TShut | TDisc | TStop | TOff | TOpen | TDead.

Definition sendings : list Token -> list SenderAt := omap (fun k => match k with TSender st => Some st | _ => None end).
Definition receivings : list Token -> list ReceiverAt := omap (fun k => match k with TReceiver st => Some st | _ => None end).
Definition closers : list Token -> list CloserAt := omap (fun k => match k with TCloser st => Some st | _ => None end).
Definition jobs : list Token -> list JobAt := omap (fun k => match k with TJob st => Some st | _ => None end).
Definition ios : list Token -> list unit := omap (fun k => match k with
  | TIo | TSender (Completed _ | SendFailed) | TReceiver RecvFailed | TCloser CloseFailed => Some tt | _ => None end).
Definition workers : list Token -> list unit := omap (fun k => match k with
  | TIo | TSender (Completed _) => Some tt | _ => None end).
Definition news : list Token -> list unit := omap (fun k => match k with TNew => Some tt | _ => None end).
Definition cleans : list Token -> list unit := omap (fun k => match k with TCleanup => Some tt | _ => None end).
Definition shuts : list Token -> list unit := omap (fun k => match k with TShut => Some tt | _ => None end).
Definition discs : list Token -> list unit := omap (fun k => match k with TDisc => Some tt | _ => None end).
Definition stops : list Token -> list unit := omap (fun k => match k with TStop => Some tt | _ => None end).
Definition offs : list Token -> list unit := omap (fun k => match k with TOff => Some tt | _ => None end).
Definition opens : list Token -> list unit := omap (fun k => match k with TOpen => Some tt | _ => None end).
Definition deads : list Token -> list unit := omap (fun k => match k with TDead => Some tt | _ => None end).

(** ** The invariant *)

Definition opened (p : Phase) : bool := match p with Serving | Rejecting => true | _ => false end.

(** The connection is over, or will never be made. *)
Definition gone (s : Conn) : bool :=
  negb (s_is_connect (n_session s)) &&
  match n_phase s with Serving | Rejecting => true | Waiting => n_closing s | Opening => false end.

(** Connected, and not being shut down. *)
Definition live (s : Conn) : bool := s_is_connect (n_session s) && negb (s_shutdown_started (n_session s)).

Definition packets : list SessionJob -> list Packet := omap (fun j => match j with PacketJob p => Some p | _ => None end).

Definition sender_ok (s : Conn) (st : SenderAt) : Prop :=
  let ev := s_send_event (n_session s) in
  match st with
  | Ready => s_shutdown_started (n_session s) = false ->
      SendEvent_has_pending_data ev = true \/ (ev = SendEvent_new /\ s_send_queue (n_session s) <> [])
  | Completed n => 0 <= n <= zlen (SendEvent_pending ev)
  | Drained => SendEvent_pending ev = []
  | Cleared => ev = SendEvent_new
  | Consumed | SendFailed => True
  end.

Definition receiver_ok (s : Conn) (st : ReceiverAt) : Prop :=
  match st with
  | Holding rb u => s_recv_buffer (n_session s) = rb /\ n_received s = concat (n_framed s) ++ u
  | RecvFailed => True
  end.

(** The completed bytes of the send event that its thread has not consumed yet. *)
Definition taken (l : list SenderAt) : Z := sumZ (fun st => match st with Completed n => n | _ => 0 end) l.

Definition cleaning (l : list JobAt) : Z := sumZ (fun j => match j with JCleanup | JCleaned => 1 | _ => 0 end) l.
Definition unrecorded (l : list JobAt) : Z := sumZ (fun j => match j with JCleanup => 1 | _ => 0 end) l.
Definition undecided : list JobAt -> list Packet := omap (fun j => match j with JPacket p => Some p | _ => None end).

Definition posted (s : Conn) : list SessionJob := n_popped s ++ s_logic_queue (n_session s).

(** The sends that are registered or will be. *)
Definition senders (t : list Token) (s : Conn) : Z := zlen (sendings t) + flying (n_send s).
Definition receivers (t : list Token) (s : Conn) : Z := zlen (receivings t) + flying (n_recv s).
Definition closings (t : list Token) (s : Conn) : Z := zlen (closers t) + b2z (n_disconnect s).

Record LifeInv (t : list Token) (s : Conn) : Prop := {
  li_new : zlen (news t) = match n_phase s with Opening => 1 | _ => 0 end;
  li_open : s_is_connect (n_session s) = true -> opened (n_phase s) = true;
  li_opening : n_phase s = Opening -> n_closing s = false;
  li_stop : s_logic_stopped (n_session s) = s_shutdown_started (n_session s);
  li_shut : s_shutdown_started (n_session s) = true -> s_is_disconnect (n_session s) = true \/ 1 <= zlen (shuts t);
  li_closers : closings t s <= 1;
  li_closing : 0 < closings t s -> gone s = true;
  li_gone : gone s = true -> s_is_disconnect (n_session s) = true \/ closings t s = 1 \/ 1 <= zlen (shuts t) + zlen (stops t);
  li_disconnected : s_is_disconnect (n_session s) = true -> gone s = true;
  li_owner : n_disconnect s = true -> s_disconnect_owner (n_session s) = true;
  li_shuts : Forall (fun _ => s_shutdown_started (n_session s) = true /\ n_closing s = true) (shuts t);
  li_stops : Forall (fun _ => n_closing s = true) (stops t);
  li_offs : Forall (fun _ => s_shutdown_started (n_session s) = true) (offs t);
  li_opens : Forall (fun _ => opened (n_phase s) = true) (opens t);
  li_deads : Forall (fun _ => gone s = true) (deads t)
}.

Section ConnectionSafety.
Context {codec : PacketCodec}.

Record JobInv (t : list Token) (s : Conn) : Prop := {
  ji_pending : s_pending_jobs (n_session s) = zlen (s_logic_queue (n_session s)) + b2z (n_running s);
  ji_running : zlen (jobs t) = b2z (n_running s);
  ji_clean : cleanups (s_logic_queue (n_session s)) + cleaning (jobs t) + b2z (s_cleanup_done (n_session s)) + zlen (cleans t)
               = b2z (s_is_disconnect (n_session s));
  ji_once : cleanups (posted s) + zlen (cleans t) = b2z (s_is_disconnect (n_session s));
  ji_packets : packets (posted s) `prefix_of` omap decode (n_framed s);
  ji_all : s_logic_stopped (n_session s) = false -> packets (posted s) = omap decode (n_framed s);
  ji_ran : exists ps skipped cl,
    n_ran s = (PacketJob <$> ps) ++ cl /\
    packets (n_popped s) = ps ++ skipped ++ undecided (jobs t) /\ (skipped = [] \/ gone s = true) /\
    cleanups (n_popped s) = zlen cl + unrecorded (jobs t) /\ (cl = [] \/ (cl = [CleanupJob] /\ gone s = true))
}.

Record SendInv (t : list Token) (s : Conn) : Prop := {
  si_one : senders t s <= 1;
  si_fresh : opened (n_phase s) = false ->
    senders t s = 0 /\ s_is_send_register (n_session s) = false /\ s_send_event (n_session s) = SendEvent_new /\
    s_send_queue (n_session s) = [] /\ n_accepted s = [] /\ n_sent s = [] /\ n_broken s = false;
  si_flag : live s = true -> s_is_send_register (n_session s) = (senders t s =? 1);
  si_event : SendEvent_wf (s_send_event (n_session s));
  si_clear : live s = true -> senders t s = 0 -> s_send_event (n_session s) = SendEvent_new;
  si_flight bs : n_send s = Some bs ->
    bs `prefix_of` SendEvent_pending (s_send_event (n_session s)) /\ s_send_owner (n_session s) = true;
  si_at : Forall (sender_ok s) (sendings t);
  si_queue : Forall buffer_ok (s_send_queue (n_session s)) /\ zlen (s_send_queue (n_session s)) <= MAX_SEND_QUEUE_SIZE;
  si_idle : live s = true -> senders t s = 0 -> s_send_queue (n_session s) = [] \/ 1 <= zlen (discs t);
  si_broken : n_broken s = true -> live s = true -> 1 <= zlen (discs t);
  si_order : n_broken s = false -> exists rest,
    payloads (n_accepted s) =
      n_sent s ++ drop (Z.to_nat (taken (sendings t))) (SendEvent_pending (s_send_event (n_session s))) ++ rest /\
    (s_shutdown_started (n_session s) = false -> s_is_connect (n_session s) = true \/ senders t s = 1 ->
       rest = payloads (s_send_queue (n_session s)))
}.

Record RecvInv (t : list Token) (s : Conn) : Prop := {
  ri_one : receivers t s <= 1;
  ri_open : 0 < receivers t s -> n_phase s = Serving;
  ri_fresh : opened (n_phase s) = false ->
    n_received s = [] /\ n_framed s = [] /\ RecvBuffer_data (s_recv_buffer (n_session s)) = [] /\
    BUFFER_SIZE <= RecvBuffer_free_size (s_recv_buffer (n_session s));
  ri_buffer : RecvBuffer_wf (s_recv_buffer (n_session s)) /\ rb_Buffer_size (s_recv_buffer (n_session s)) = BUFFER_SIZE;
  ri_at : Forall (receiver_ok s) (receivings t);
  ri_flight len : n_recv s = Some len ->
    len = RecvBuffer_free_size (s_recv_buffer (n_session s)) /\ BUFFER_SIZE <= len /\
    n_received s = concat (n_framed s) ++ RecvBuffer_data (s_recv_buffer (n_session s)) /\
    incomplete (RecvBuffer_data (s_recv_buffer (n_session s))) /\ s_recv_owner (n_session s) = true;
  ri_bytes : byte_stream (n_received s);
  ri_framed : Forall is_packet (n_framed s) /\ concat (n_framed s) `prefix_of` n_received s;
  ri_alive : live s = true -> n_phase s = Serving -> 1 <= receivers t s + zlen (discs t)
}.

Record IoInv (t : list Token) (s : Conn) : Prop := {
  io_pending : s_pending_io (n_session s) = zlen (ios t) + flying (n_send s) + flying (n_recv s) + b2z (n_disconnect s);
  io_busy : n_busy s = zlen (workers t) /\ n_busy s <= THREAD_MAX
}.

Record ConnInv (t : list Token) (s : Conn) : Prop := {
  ci_life : LifeInv t s;
  ci_jobs : JobInv t s;
  ci_send : SendInv t s;
  ci_recv : RecvInv t s;
  ci_io : IoInv t s
}.

(** The jobs in the queue, and the cleanup if it is still to come. *)
Definition job_backlog (s : Conn) : Z := zlen (s_logic_queue (n_session s)) + b2z (cleanups (posted s) =? 0).

(** Fewer than 2^31 jobs have been queued. *)
Definition conn_lim (s : Conn) : Prop := zlen (n_popped s) + job_backlog s < 2 ^ 31.

(** What every action guarantees: once the session is being shut down nothing is submitted to
    the system any more, and no job but the cleanup is queued. *)
Definition ConnG (s s' : Conn) : Prop :=
  s_logic_stopped (n_session s) = true ->
  s_logic_stopped (n_session s') = true /\ n_send s' = n_send s /\ n_recv s' = n_recv s /\
  n_disconnect s' = n_disconnect s /\ n_popped s' = n_popped s /\ job_backlog s' = job_backlog s.

(** ** The invariant does not depend on the order of the threads *)

Lemma short_perm {A} (l k : list A) : l ≡ₚ k -> zlen l <= 1 -> k = l.
Proof.
  intros H Hl. destruct l as [|a [|b l]].
  - by apply Permutation_nil_l in H as ->.
  - by apply Permutation_singleton_l in H as ->.
  - rewrite !zlen_cons in Hl. pose proof (zlen_nonneg l). lia.
Qed.

Lemma flying_nonneg {A} (k : option A) : 0 <= flying k.
Proof. destruct k; cbn; lia. Qed.

Lemma b2z_bounds b : 0 <= b2z b <= 1.
Proof. destruct b; cbn; lia. Qed.

Lemma ConnInv_weak t t' s : t ≡ₚ t' -> ConnInv t s -> ConnInv t' s.
Proof.
  intros H [[] [] [] [] []].
  assert (sendings t' = sendings t) as E1.
  { apply short_perm; [by apply omap_Permutation|]. pose proof (flying_nonneg (n_send s)). unfold senders in *. lia. }
  assert (receivings t' = receivings t) as E2.
  { apply short_perm; [by apply omap_Permutation|]. pose proof (flying_nonneg (n_recv s)). unfold receivers in *. lia. }
  assert (closers t' = closers t) as E3.
  { apply short_perm; [by apply omap_Permutation|]. pose proof (b2z_bounds (n_disconnect s)). unfold closings in *. lia. }
  assert (jobs t' = jobs t) as E4.
  { apply short_perm; [by apply omap_Permutation|]. pose proof (b2z_bounds (n_running s)). lia. }
  assert (ios t ≡ₚ ios t') as E5 by by apply omap_Permutation.
  assert (workers t ≡ₚ workers t') as E6 by by apply omap_Permutation.
  assert (news t ≡ₚ news t') as E7 by by apply omap_Permutation.
  assert (cleans t ≡ₚ cleans t') as E8 by by apply omap_Permutation.
  assert (shuts t ≡ₚ shuts t') as E9 by by apply omap_Permutation.
  assert (discs t ≡ₚ discs t') as E10 by by apply omap_Permutation.
  assert (stops t ≡ₚ stops t') as E11 by by apply omap_Permutation.
  assert (offs t ≡ₚ offs t') as E12 by by apply omap_Permutation.
  assert (opens t ≡ₚ opens t') as E13 by by apply omap_Permutation.
  assert (deads t ≡ₚ deads t') as E14 by by apply omap_Permutation.
  constructor; constructor; unfold senders, receivers, closings in *; rewrite ?E1, ?E2, ?E3, ?E4; try done;
    rewrite <- ?E5, <- ?E6, <- ?E7, <- ?E8, <- ?E9, <- ?E10, <- ?E11, <- ?E12, <- ?E13, <- ?E14; done.
Qed.

#[global] Instance ConnInv_proper : Proper ((≡ₚ) ==> (=) ==> iff) ConnInv.
Proof. intros t t' H s s' <-. split; apply ConnInv_weak; [done|by symmetry]. Qed.

End ConnectionSafety.

(** ** Actions on tokens *)

Lemma sendings_cons k t : sendings (k :: t) = match k with TSender st => st :: sendings t | _ => sendings t end.
Proof. by destruct k. Qed.
Lemma receivings_cons k t : receivings (k :: t) = match k with TReceiver st => st :: receivings t | _ => receivings t end.
Proof. by destruct k. Qed.
Lemma closers_cons k t : closers (k :: t) = match k with TCloser st => st :: closers t | _ => closers t end.
Proof. by destruct k. Qed.
Lemma jobs_cons k t : jobs (k :: t) = match k with TJob st => st :: jobs t | _ => jobs t end.
Proof. by destruct k. Qed.
Lemma conn_ios_cons k t : ios (k :: t) = match k with TIo | TSender (Completed _ | SendFailed) | TReceiver RecvFailed | TCloser CloseFailed => tt :: ios t | _ => ios t end.
Proof. by destruct k as [[]|[]|[]| | | | | | | | | | ]. Qed.
Lemma workers_cons k t : workers (k :: t) = match k with TIo | TSender (Completed _) => tt :: workers t | _ => workers t end.
Proof. by destruct k as [[]|[]|[]| | | | | | | | | | ]. Qed.
Lemma news_cons k t : news (k :: t) = match k with TNew => tt :: news t | _ => news t end.
Proof. by destruct k. Qed.
Lemma cleans_cons k t : cleans (k :: t) = match k with TCleanup => tt :: cleans t | _ => cleans t end.
Proof. by destruct k. Qed.
Lemma shuts_cons k t : shuts (k :: t) = match k with TShut => tt :: shuts t | _ => shuts t end.
Proof. by destruct k. Qed.
Lemma discs_cons k t : discs (k :: t) = match k with TDisc => tt :: discs t | _ => discs t end.
Proof. by destruct k. Qed.
Lemma stops_cons k t : stops (k :: t) = match k with TStop => tt :: stops t | _ => stops t end.
Proof. by destruct k. Qed.
Lemma offs_cons k t : offs (k :: t) = match k with TOff => tt :: offs t | _ => offs t end.
Proof. by destruct k. Qed.
Lemma conn_opens_cons k t : opens (k :: t) = match k with TOpen => tt :: opens t | _ => opens t end.
Proof. by destruct k. Qed.
Lemma deads_cons k t : deads (k :: t) = match k with TDead => tt :: deads t | _ => deads t end.
Proof. by destruct k. Qed.

Create HintDb conn_tokens.
#[export] Hint Rewrite sendings_cons receivings_cons closers_cons jobs_cons conn_ios_cons workers_cons news_cons cleans_cons shuts_cons discs_cons stops_cons offs_cons conn_opens_cons deads_cons @zlen_cons : conn_tokens.

(** Computes the members of an updated state. *)
Tactic Notation "fields" "in" "*" :=
  cbn [upd andb orb negb opened b2z flying
       n_session n_stats n_recv n_send n_disconnect n_busy n_running n_phase n_closing n_accepted
       n_sent n_broken n_received n_framed n_popped n_ran s_socket_open s_pending_io
       s_shutdown_started s_was_connected s_pending_jobs s_logic_stopped s_cleanup_done
       s_logic_queue s_is_connect s_is_disconnect s_close_after_send s_account_idx s_enter_room_id
       s_user_name s_is_login s_recv_buffer s_send_queue s_is_send_register s_send_event
       s_recv_owner s_send_owner s_disconnect_owner s_last_pong_tick s_last_ping_tick s_waiting_pong] in *.
Tactic Notation "fields" :=
  cbn [upd andb orb negb opened b2z flying
       n_session n_stats n_recv n_send n_disconnect n_busy n_running n_phase n_closing n_accepted
       n_sent n_broken n_received n_framed n_popped n_ran s_socket_open s_pending_io
       s_shutdown_started s_was_connected s_pending_jobs s_logic_stopped s_cleanup_done
       s_logic_queue s_is_connect s_is_disconnect s_close_after_send s_account_idx s_enter_room_id
       s_user_name s_is_login s_recv_buffer s_send_queue s_is_send_register s_send_event
       s_recv_owner s_send_owner s_disconnect_owner s_last_pong_tick s_last_ping_tick s_waiting_pong].

(** Lengths of token lists are not negative. *)
Ltac token_bounds t :=
  pose proof (zlen_nonneg (sendings t)); pose proof (zlen_nonneg (receivings t)); pose proof (zlen_nonneg (closers t));
  pose proof (zlen_nonneg (jobs t)); pose proof (zlen_nonneg (ios t)); pose proof (zlen_nonneg (workers t));
  pose proof (zlen_nonneg (news t)); pose proof (zlen_nonneg (cleans t)); pose proof (zlen_nonneg (shuts t));
  pose proof (zlen_nonneg (discs t)); pose proof (zlen_nonneg (stops t)).

Ltac unfold_inv := unfold senders, receivers, closings, gone, live, posted, job_backlog, sender_ok, receiver_ok in *.

(** Takes a state and its invariant apart. *)
Ltac open_inv t s HI :=
  destruct s as [[sock pio shut wasc pj stopped cdone lq conn disc close acct room name login rbuf q flag ev ro so dow pong ping wait]
                 st inc out dfl busy run ph closing acc sent broken rec framed popped ran];
  destruct HI as [[Lnew Lopen Lopening Lstop Lshut Lclosers Lclosing Lgone Ldisc Lowner Lshuts Lstops Loffs Lopens Ldeads]
                  [Jpend Jrun Jclean Jonce Jpk Jall Jran]
                  [Sone Sfresh Sflag Sev Sclear Sflight Sat Sq Sidle Sbroken Sorder]
                  [Rone Ropen Rfresh Rbuf Rat Rflight Rbytes Rframed Ralive]
                  [Ipend Ibusy]];
  cbn [app] in *; unfold_inv; fields in *; autorewrite with conn_tokens in *; token_bounds t;
  repeat match goal with H : Forall _ (_ :: _) |- _ => apply Forall_cons_1 in H as [? H] end;
  pose proof (flying_nonneg out); pose proof (flying_nonneg inc); pose proof (b2z_bounds dfl); pose proof (b2z_bounds run).

(** Builds the invariant. *)
Ltac build_inv :=
  constructor; constructor; unfold_inv; cbn [app]; autorewrite with conn_tokens; fields; try done.

(** What follows from counting. *)
Ltac count :=
  rewrite ?@zlen_nil; cbn [b2z flying] in *; try done; try lia; try (intros; lia); try (by intros; left); try (intros; right; lia); try (by constructor); eauto;
  try (intros; match goal with H : 0 < _ -> ?g |- ?g => apply H; lia end).

Abbreviation nsafe := (safe ConnInv ConnG conn_lim).
Abbreviation nneutral := (neutral ConnInv ConnG conn_lim).

Section Actions.
Context {codec : PacketCodec}.

Lemma ConnG_refl s : ConnG s s.
Proof. by intros ?. Qed.

Lemma set_same_session (s : Conn) : s <| n_session := n_session s |> = s.
Proof. by destruct s. Qed.

(** An action on the members of the session. *)
Lemma on_conn_safe {B : Set} (f : Session -> Session * B) Φ t :
  (forall s fr, ConnInv (t ++ fr) s -> let s' := s <| n_session := fst (f (n_session s)) |> in
     ConnG s s' /\ (conn_lim s' -> exists t', ConnInv (t' ++ fr) s' /\ Φ (snd (f (n_session s))) t')) ->
  nsafe (on_conn f) Φ t.
Proof.
  intros H. apply safe_atomic. intros o s fr HI. destruct (H s fr HI) as [HG H'].
  destruct (f (n_session s)) as [x b]. cbn [fst snd] in *. eauto.
Qed.

(** Reading members. *)
Lemma load_safe {B : Set} (f : Session -> B) Φ t :
  (forall s fr, ConnInv (t ++ fr) s -> exists t', ConnInv (t' ++ fr) s /\ Φ (f (n_session s)) t') ->
  nsafe (load_conn f) Φ t.
Proof.
  intros H. apply on_conn_safe. intros s fr HI. cbn [fst snd]. rewrite set_same_session. split; [apply ConnG_refl|]. eauto.
Qed.

Lemma load_neutral {B : Set} (f : Session -> B) : nneutral (load_conn f).
Proof. apply load_safe. intros s fr HI. by exists []. Qed.

(** Members the invariant does not mention. *)
Definition same_net (x x' : Session) : Prop :=
  s_pending_io x' = s_pending_io x /\ s_shutdown_started x' = s_shutdown_started x /\
  s_pending_jobs x' = s_pending_jobs x /\ s_logic_stopped x' = s_logic_stopped x /\ s_cleanup_done x' = s_cleanup_done x /\
  s_logic_queue x' = s_logic_queue x /\ s_is_connect x' = s_is_connect x /\ s_is_disconnect x' = s_is_disconnect x /\
  s_recv_buffer x' = s_recv_buffer x /\ s_send_queue x' = s_send_queue x /\ s_is_send_register x' = s_is_send_register x /\
  s_send_event x' = s_send_event x /\ s_recv_owner x' = s_recv_owner x /\ s_send_owner x' = s_send_owner x /\
  s_disconnect_owner x' = s_disconnect_owner x.

Lemma same_net_inv t s x' : same_net (n_session s) x' -> ConnInv t s -> ConnInv t (s <| n_session := x' |>) /\ ConnG s (s <| n_session := x' |>).
Proof.
  intros Hx HI. destruct s as [x]. destruct x, x'. unfold same_net in Hx. fields in *. destruct_and!. simplify_eq. split; [|by intros ?].
  destruct HI as [[] [] [] [] []]. constructor; constructor; done.
Qed.

Lemma store_neutral f : (forall x, same_net x (f x)) -> nneutral (store_conn f).
Proof.
  intros Hf. apply on_conn_safe. intros s fr HI. cbn [fst snd].
  destruct (same_net_inv _ s _ (Hf (n_session s)) HI) as [HI' HG]. split; [done|]. intros _. by exists [].
Qed.

Lemma count_neutral f : nneutral (conn_count f).
Proof.
  apply safe_atomic. intros o s fr HI. eexists _, _. split; [done|]. split; [by intros ?|]. intros _. exists []. split; [|done].
  destruct s, HI as [[] [] [] [] []]. constructor; constructor; done.
Qed.

(** Knowledge about the connection. *)
Lemma know_open t s : ConnInv t s -> opened (n_phase s) = true -> ConnInv (TOpen :: t) s.
Proof. intros HI H. open_inv t s HI. build_inv. by constructor. Qed.

Lemma know_dead t s : ConnInv t s -> gone s = true -> ConnInv (TDead :: t) s.
Proof. intros HI H. open_inv t s HI. build_inv. by constructor. Qed.

Lemma know_off t s : ConnInv t s -> s_shutdown_started (n_session s) = true -> ConnInv (TOff :: t) s.
Proof. intros HI H. open_inv t s HI. build_inv. by constructor. Qed.

Lemma dead_gone t s : ConnInv (TDead :: t) s -> gone s = true.
Proof. intros HI. pose proof (li_deads _ _ (ci_life _ _ HI)) as H. rewrite deads_cons in H. by apply Forall_cons_1 in H as [? _]. Qed.

Lemma off_shut t s : ConnInv (TOff :: t) s -> s_shutdown_started (n_session s) = true.
Proof. intros HI. pose proof (li_offs _ _ (ci_life _ _ HI)) as H. rewrite offs_cons in H. by apply Forall_cons_1 in H as [? _]. Qed.

Lemma open_opened t s : ConnInv (TOpen :: t) s -> opened (n_phase s) = true.
Proof. intros HI. pose proof (li_opens _ _ (ci_life _ _ HI)) as H. rewrite conn_opens_cons in H. by apply Forall_cons_1 in H as [? _]. Qed.

Lemma gone_opened s : opened (n_phase s) = true -> s_is_connect (n_session s) = false -> gone s = true.
Proof. intros H Hc. unfold gone. rewrite Hc. by destruct (n_phase s). Qed.

Lemma gone_closed s : gone s = true -> s_is_connect (n_session s) = false.
Proof. unfold gone. by destruct (s_is_connect (n_session s)). Qed.

(** Knowledge may be forgotten. *)
Definition known (k : Token) : bool := match k with TOff | TOpen | TDead => true | _ => false end.

Lemma forget k t s : known k = true -> ConnInv (k :: t) s -> ConnInv t s.
Proof.
  intros Hk HI. open_inv t s HI. destruct k; try done; build_inv; by eapply Forall_cons_1.
Qed.

Lemma conn_cleanups_nonneg l : 0 <= cleanups l.
Proof. apply sumZ_nonneg. intros []; cbn; lia. Qed.
Lemma cleaning_nonneg l : 0 <= cleaning l.
Proof. apply sumZ_nonneg. intros []; cbn; lia. Qed.
Lemma packets_app l k : packets (l ++ k) = packets l ++ packets k.
Proof. apply omap_app. Qed.

(** *** Disconnecting *)

(** What a thread must own to call [process_disconnect]. *)
Definition may_clean (t : list Token) : Prop := t = [TCloser Won] \/ t = [TShut; TDead].

Lemma claim_disconnect_safe t :
  may_clean t ->
  nsafe (on_conn (fun x => (x <| s_is_disconnect := true |>, s_is_disconnect x)))
    (fun was t' => t' = if was then [] else [TDead; TCleanup]) t.
Proof.
  intros Ht. apply on_conn_safe. intros s fr HI. cbn [fst snd].
  assert (gone s = true) as Hg.
  { destruct Ht as [-> | ->].
    - apply (li_closing _ _ (ci_life _ _ HI)). unfold closings. cbn [app]. rewrite closers_cons, zlen_cons.
      pose proof (zlen_nonneg (closers fr)). pose proof (b2z_bounds (n_disconnect s)). lia.
    - cbn [app] in HI. apply (dead_gone (TShut :: fr)). by rewrite Permutation_swap in HI. }
  split; [by intros ?|]. intros _. eexists. split; [|done].
  destruct Ht as [-> | ->]; open_inv fr s HI; destruct disc; build_inv; count.
Qed.

Lemma queue_cleanup_safe : nsafe (store_conn (Session_queue_logic CleanupJob true)) (fun _ t => t = []) [TDead; TCleanup].
Proof.
  apply on_conn_safe. intros s fr HI. cbn [fst snd].
  open_inv fr s HI. unfold Session_queue_logic, LockQueue_push, ConnG, conn_lim, job_backlog, posted. fields. rewrite andb_false_r. fields.
  pose proof (conn_cleanups_nonneg (popped ++ lq)). pose proof (b2z_bounds disc).
  assert (cleanups (popped ++ lq) = 0) as Hz by lia.
  assert (zlen (lq ++ [CleanupJob]) = zlen lq + 1) as Hl by (rewrite zlen_app, zlen_cons, zlen_nil; lia).
  assert (cleanups (popped ++ lq ++ [CleanupJob]) = 1) as Hc by (rewrite app_assoc, cleanups_app, Hz; done).
  assert (packets (popped ++ lq ++ [CleanupJob]) = packets (popped ++ lq)) as Hp.
  { rewrite app_assoc, (packets_app (popped ++ lq)). cbn. by rewrite app_nil_r. }
  rewrite Hc, Hz, Hl. change (1 =? 0) with false. change (0 =? 0) with true. fields. split.
  { intros ?. split_and!; try done. lia. }
  intros Hlim. exists []. split; [|done]. pose proof (zlen_nonneg popped). pose proof (zlen_nonneg lq). pose proof (b2z_bounds run).
  build_inv; rewrite ?Hl, ?Hc, ?Hp; count.
  - rewrite u32_small by lia. lia.
  - rewrite cleanups_app. change (cleanups [CleanupJob]) with 1. lia.
Qed.

(** Once the connection is over, [_is_connect] and [_is_send_register] do not matter. *)
Lemma dead_store_safe f t :
  (forall x, same_net (x <| s_is_connect := false |> <| s_is_send_register := false |>)
                      ((f x) <| s_is_connect := false |> <| s_is_send_register := false |>)) ->
  (forall x, s_is_connect x = false -> s_is_connect (f x) = false) ->
  (forall x, s_is_send_register x = false -> s_is_send_register (f x) = false) ->
  nsafe (store_conn f) (fun _ t' => t' = TDead :: t) (TDead :: t).
Proof.
  intros Hf Hc Hr. apply on_conn_safe. intros s fr HI. cbn [fst snd].
  pose proof (dead_gone _ _ HI) as Hg. pose proof (gone_closed s Hg) as Hn.
  specialize (Hf (n_session s)). specialize (Hc (n_session s) Hn). specialize (Hr (n_session s)).
  destruct (f (n_session s)) as [] eqn:E. clear E. open_inv (t ++ fr) s HI. unfold same_net in Hf. fields in *. destruct_and!. simplify_eq.
  split; [by intros ?|]. intros _. eexists. split; [|done]. build_inv; count.
  intros Ho. destruct (Sfresh Ho) as (? & ? & ?). split_and!; tauto.
Qed.

Lemma process_disconnect_safe t : may_clean t -> nsafe Conn_process_disconnect (fun _ t => t = []) t.
Proof.
  intros Ht. apply safe_bind. eapply safe_mono; [|by apply claim_disconnect_safe]. intros [] t' ->; [done|].
  apply safe_bind. eapply safe_mono; [|by apply (dead_store_safe _ [TCleanup])]. intros _ t' ->.
  apply safe_bind. eapply safe_mono; [|by apply (dead_store_safe _ [TCleanup])]. intros _ t' ->.
  apply queue_cleanup_safe.
Qed.

(** The operations of a session are few. *)
Lemma ios_bound t : zlen (ios t) <= zlen (workers t) + zlen (sendings t) + zlen (receivings t) + zlen (closers t).
Proof.
  induction t as [|k t IH]; [done|]. destruct k as [[]|[]|[]| | | | | | | | | | ]; autorewrite with conn_tokens; lia.
Qed.

Lemma pending_small t s : ConnInv t s -> 0 <= s_pending_io (n_session s) < 2 ^ 31.
Proof.
  intros HI. pose proof (ios_bound t). open_inv t s HI. unfold THREAD_MAX in *.
  lia.
Qed.

Lemma register_disconnect_safe :
  nsafe Conn_register_disconnect (fun ok t => t = if ok then [] else [TCloser Won]) [TCloser Won].
Proof.
  apply safe_bind, safe_atomic. intros o s fr HI. unfold register_disconnect_conn.
  destruct (s_shutdown_started (n_session s)) eqn:Eshut.
  { eexists _, _. split; [done|]. split; [apply ConnG_refl|]. intros _. exists [TCloser Won]. by split. }
  pose proof (pending_small _ _ HI) as Hp. cbn [app] in Hp.
  open_inv fr s HI. subst shut. destruct dfl; cbn [b2z] in *; [lia|].
  unfold begin_io_conn. fields. destruct (call_accepted o).
  - eexists _, _. split; [done|]. split; [by intros ?; fields in *; congruence|]. intros _. exists []. split; [|done].
    build_inv; rewrite ?u32_small by lia; count.
  - eexists _, _. split; [done|]. split; [by intros ?; fields in *; congruence|]. intros _. exists [TCloser CloseFailed]. split.
    { build_inv; rewrite ?u32_small by lia; count. }
    clear. apply safe_bind, safe_atomic. intros o s fr HI. unfold finish_io_conn.
    pose proof (pending_small _ _ HI) as Hp. cbn [app] in Hp. open_inv fr s HI.
    rewrite Z_gtb_true by lia.
    cbn [mbind option_bind]. eexists _, _. split; [done|]. split; [by intros ?|]. intros _. exists [TCloser Won]. split; [|done].
    destruct dfl; cbn [b2z] in *; [lia|]. build_inv; rewrite ?u32_small by lia; count.
Qed.

(** The thread that finds the session connected closes it. *)
Lemma drop_disc t s : ConnInv (TDisc :: t) s -> s_is_connect (n_session s) = false -> ConnInv t s.
Proof. intros HI Hc. open_inv t s HI. subst conn. build_inv; count. Qed.

(** A connected session that is closed is over. *)
Lemma conn_close_inv t s :
  ConnInv t s -> s_is_connect (n_session s) = true ->
  ConnInv (TCloser Won :: t) (s <| n_session ::= fun x => x <| s_is_connect := false |> |>).
Proof.
  intros HI Ec. open_inv t s HI. subst conn. cbn [andb negb] in *.
  assert (zlen (closers t) + b2z dfl = 0) as Hz.
  { destruct (decide (0 < zlen (closers t) + b2z dfl)) as [Hd|]; [|lia]. by apply Lclosing in Hd. }
  pose proof (Lopen eq_refl) as Ho.
  assert (match ph with Waiting => closing | Opening => false | _ => true end = true) as Hph by by destruct ph.
  build_inv; rewrite ?Hph; count; try (by apply Forall_true).
  - destruct Jran as (ps & skipped & cl & ? & ? & ? & ? & Hcl). exists ps, skipped, cl. split_and!; try done; [by right|]. destruct Hcl as [?|[? _]]; auto.
  - intros Hb. destruct (Sorder Hb) as (rest & ? & Hr). exists rest. split; [done|]. intros Hs _. apply Hr; [done|by left].
Qed.

Lemma disconnect_exchange_safe t :
  t = [] \/ t = [TDisc] ->
  nsafe (on_conn (fun x => (x <| s_is_connect := false |>, s_is_connect x)))
    (fun was t' => t' = if was then [TCloser Won] else []) t.
Proof.
  intros Ht. apply on_conn_safe. intros s fr HI. cbn [fst snd]. split; [by intros ?|]. intros _. eexists. split; [|done].
  assert (forall t' : list Token, ConnInv (t' ++ t ++ fr) (s <| n_session := n_session s <| s_is_connect := false |> |>) ->
    ConnInv (t' ++ fr) (s <| n_session := n_session s <| s_is_connect := false |> |>)) as Hdrop.
  { intros t' HI'. destruct Ht as [-> | ->]; [done|]. apply drop_disc; [|done].
    eapply ConnInv_weak; [|exact HI']. symmetry. apply Permutation_middle. }
  apply Hdrop. destruct (s_is_connect (n_session s)) eqn:Ec.
  - by apply conn_close_inv.
  - destruct s as [[]]. fields in *. by subst.
Qed.

Lemma disconnect_safe t : t = [] \/ t = [TDisc] -> nsafe Conn_disconnect (fun _ t => t = []) t.
Proof.
  intros Ht. apply safe_bind. eapply safe_mono; [|by apply disconnect_exchange_safe]. intros [] t' ->; cbn [negb]; [|done].
  apply safe_bind. eapply safe_mono; [|apply register_disconnect_safe]. intros [] t' ->; cbn [negb]; [done|].
  apply process_disconnect_safe. by left.
Qed.

(** *** Sending *)

Lemma sender_opened st t s : ConnInv (TSender st :: t) s -> opened (n_phase s) = true.
Proof.
  intros HI. destruct (opened (n_phase s)) eqn:E; [done|]. destruct (si_fresh _ _ (ci_send _ _ HI) E) as [Hz _].
  unfold senders in Hz. rewrite sendings_cons, zlen_cons in Hz. pose proof (zlen_nonneg (sendings t)).
  pose proof (flying_nonneg (n_send s)). lia.
Qed.

(** With the token of the sender nobody else has a part in sending. *)
Lemma conn_only_sender st t s : ConnInv (TSender st :: t) s -> sendings t = [] /\ n_send s = None.
Proof.
  intros HI. pose proof (si_one _ _ (ci_send _ _ HI)) as H. unfold senders in H. rewrite sendings_cons, zlen_cons in H.
  pose proof (zlen_nonneg (sendings t)). destruct (n_send s); cbn in H; [lia|]. split; [apply zlen_zero; lia|done].
Qed.

(** A send that will not be registered any more. *)
Lemma drop_sender t s :
  ConnInv (TSender Ready :: t) s -> gone s = true \/ s_shutdown_started (n_session s) = true -> ConnInv t s.
Proof.
  intros HI Hs. pose proof (sender_opened _ _ _ HI) as Hop. destruct (conn_only_sender _ _ _ HI) as [E1 E2].
  assert (live s = false) as Hl. { unfold live. destruct Hs as [Hg| ->]; [by rewrite (gone_closed _ Hg)|apply andb_false_r]. }
  assert (s_shutdown_started (n_session s) = false -> s_is_connect (n_session s) = false) as Hn.
  { destruct Hs as [Hg|Hs]; [|congruence]. intros _. by apply gone_closed. }
  open_inv t s HI. subst out. rewrite E1 in *. cbn [zlen] in *. rewrite Hop, Hl in *.
  build_inv; rewrite ?E1, ?Hop, ?Hl; count.
  - intros Hb. destruct (Sorder Hb) as (rest & ? & _). exists rest. split; [done|].
    intros Hs' [Hc|Hc]; [by rewrite Hn in Hc|done].
Qed.

Lemma register_send_late k : k = TOff \/ k = TDead -> nsafe Conn_register_send (fun _ t => t = []) [k].
Proof.
  intros Hk. assert (known k = true) as Hkn by (by destruct Hk; subst).
  apply safe_bind, load_safe. intros s fr HI. exists [k]. split; [done|].
  assert (k = TDead -> s_is_connect (n_session s) = false) as Hc.
  { intros ->. by apply gone_closed, (dead_gone fr). }
  destruct Hk as [-> | ->].
  - generalize (s_is_connect (n_session s)). clear. intros connected.
    apply safe_bind, safe_atomic. intros o s fr HI. unfold register_send_conn. rewrite (off_shut fr) by done.
    eexists _, _. split; [done|]. split; [apply ConnG_refl|]. intros _. exists []. split; [by apply (forget TOff)|done].
  - rewrite Hc by done. clear. apply safe_bind, safe_atomic. intros o s fr HI. unfold register_send_conn. 
    exists s, SendNotMade. split; [by destruct (s_shutdown_started _)|]. split; [apply ConnG_refl|]. intros _. exists []. split; [by apply (forget TDead)|done].
Qed.

Lemma has_pending_rest ev : 0 <= se_buffer_index ev -> SendEvent_has_pending_data ev = true -> SendEvent_rest ev <> [].
Proof.
  intros Hi Hp Hr. unfold SendEvent_has_pending_data in Hp. bool_lia. apply (f_equal length) in Hr.
  unfold SendEvent_rest, zlen in *. rewrite length_drop in Hr. cbn in Hr. lia.
Qed.

(** The event and the queue with which [register_send] goes on. *)
Lemma fill_send_event x :
  SendEvent_wf (s_send_event x) -> Forall buffer_ok (s_send_queue x) -> zlen (s_send_queue x) <= MAX_SEND_QUEUE_SIZE ->
  SendEvent_has_pending_data (s_send_event x) = true \/ (s_send_event x = SendEvent_new /\ s_send_queue x <> []) ->
  exists ev q,
    Session_fill_send_event (x <| s_send_owner := true |>) =
      x <| s_send_owner := true |> <| s_send_event := ev |> <| s_send_queue := q |> /\
    SendEvent_wf ev /\ Forall buffer_ok q /\ zlen q <= MAX_SEND_QUEUE_SIZE /\
    SendEvent_pending ev ++ payloads q = SendEvent_pending (s_send_event x) ++ payloads (s_send_queue x) /\
    SendEvent_build_wsabufs ev <> [].
Proof.
  intros Hev Hq Hn H. destruct x. fields in *. unfold Session_fill_send_event. fields. destruct (SendEvent_has_pending_data s_send_event) eqn:Hp; cbn [negb].
  - eexists _, _. split_and!; try done. intros Hb%build_nil. revert Hb. apply has_pending_rest; [|done]. apply Hev.
  - destruct H as [?|[-> Hne]]; [done|]. rewrite push_all. cbn. eexists (mkSendEvent _ 0 0), [].
    split_and!; [done|by apply drained_wf|constructor|done| |].
    + unfold SendEvent_pending. cbn. by rewrite app_nil_r.
    + intros Hb%build_nil. by apply Hne.
Qed.

(** After [WSASend] refused a send the thread disconnects. *)
Lemma abandon_send_safe : nsafe (abandon_send ≫= fun _ => Conn_disconnect) (fun _ t => t = []) [TSender SendFailed].
Proof.
  apply safe_bind, safe_atomic. intros o s fr HI. unfold finish_io_conn, Session_reset_send.
  pose proof (pending_small _ _ HI) as Hp. cbn [app] in Hp. destruct (conn_only_sender _ _ _ HI) as [E1 E2].
  pose proof (sender_opened _ _ _ HI) as Hop. open_inv fr s HI. subst out.
  rewrite Z_gtb_true by lia. cbn [mbind option_bind]. eexists _, _. split; [done|]. split; [by intros ?|]. intros _.
  exists [TDisc]. split; [|apply disconnect_safe; by right].
  build_inv; rewrite ?E1, ?u32_small, ?SendEvent_clear_new by lia; count; try (intros; congruence).

Qed.

Lemma is_connected_sender st :
  nsafe Conn_is_connected (fun c t => t = if c then [TSender st] else [TDead; TSender st]) [TSender st].
Proof.
  apply load_safe. intros s fr HI. eexists. split; [|done]. destruct (s_is_connect (n_session s)) eqn:Ec; [done|].
  apply know_dead; [done|]. apply gone_opened; [by eapply sender_opened|done].
Qed.

Lemma register_send_ready : nsafe Conn_register_send (fun _ t => t = []) [TSender Ready].
Proof.
  apply safe_bind. eapply safe_mono; [|apply is_connected_sender]. intros [] t ->.
  2: { apply safe_bind, safe_atomic. intros o s fr HI. unfold register_send_conn.
    exists s, SendNotMade. split; [by destruct (s_shutdown_started _)|]. split; [apply ConnG_refl|]. intros _. exists []. split; [|done].
    apply drop_sender; [by apply (forget TDead)|]. left. by eapply dead_gone. }
  apply safe_bind, safe_atomic. intros o s fr HI. unfold register_send_conn.
  destruct (s_shutdown_started (n_session s)) eqn:Eshut.
  { eexists _, _. split; [done|]. split; [apply ConnG_refl|]. intros _. exists []. split; [|done]. apply drop_sender; auto. }
  destruct (conn_only_sender _ _ _ HI) as [E1 E2]. rewrite E2. cbn [negb].
  pose proof (pending_small _ _ HI) as Hp. cbn [app] in Hp.
  destruct (fill_send_event (n_session s)) as (ev1 & q1 & -> & Hev & Hq & Hq1000 & Hpend & Hws).
  { apply HI. } { apply HI. } { apply HI. }
  { pose proof (si_at _ _ (ci_send _ _ HI)) as Hat. cbn [app] in Hat. rewrite sendings_cons in Hat. by apply Forall_cons_1 in Hat as [Hat _]; apply Hat. }
  open_inv fr s HI. subst shut out.
  destruct (SendEvent_build_wsabufs ev1) as [|w ws] eqn:Ew; [done|]. rewrite <- Ew. clear Hws.
  rewrite E1 in *. change (zlen []) with 0 in *. cbn [taken sumZ foldr] in *. change (Z.to_nat (0 + 0)) with 0%nat in *.
  assert (opened ph = true) as Hop. { destruct (opened ph); [done|]. destruct (Sfresh eq_refl) as [? _]; lia. }
  clear Sfresh. rewrite drop_0 in Sorder.
  assert (broken = false -> payloads acc = sent ++ SendEvent_pending ev1 ++ payloads q1) as Hord.
  { intros Hb. destruct (Sorder Hb) as (rest & E & Hr). rewrite Hr in E by first [done|right; lia]. by rewrite Hpend. }
  clear Sorder Hpend.
  destruct (call_accepted o).
  - eexists _, _. split; [done|]. split; [by intros ?; fields in *; congruence|]. intros _. exists []. split; [|done].
    unfold begin_io_conn. fields. build_inv; rewrite ?E1, ?u32_small by lia; count; try (intros; congruence).
    intros bs [= <-]. split; [|done]. rewrite <- (build_wsabufs_describes_pending ev1 Hev). apply wsabufs_prefix.
  - eexists _, _. split; [done|]. split; [by intros ?; fields in *; congruence|]. intros _. exists [TSender SendFailed].
    split; [|apply abandon_send_safe].
    unfold begin_io_conn. fields. build_inv; rewrite ?E1, ?u32_small by lia; count; try (intros; congruence).
Qed.

(** *** The call of [send] *)

(** The state after a buffer was queued. *)
Definition pushed (sb : SendBuffer) (s : Conn) : Conn :=
  s <| n_session ::= fun x => x <| s_send_queue ::= fun q => q ++ [sb] |> <| s_is_send_register := true |> |>
    <| n_accepted ::= fun l => l ++ [sb] |>.

Lemma pushed_inv sb t s :
  ConnInv t s -> opened (n_phase s) = true -> buffer_ok sb -> zlen (s_send_queue (n_session s)) < MAX_SEND_QUEUE_SIZE ->
  ConnInv (if live s && negb (s_is_send_register (n_session s)) then TSender Ready :: t else t) (pushed sb s).
Proof.
  intros HI Hop Hsb Hq. unfold pushed.
  assert (live s && negb (s_is_send_register (n_session s)) = true -> senders t s = 0) as Hz.
  { intros [Hl Hf]%andb_true_iff. pose proof (si_one _ _ (ci_send _ _ HI)) as H1. rewrite (si_flag _ _ (ci_send _ _ HI) Hl) in Hf.
    unfold senders in *. pose proof (zlen_nonneg (sendings t)). pose proof (flying_nonneg (n_send s)). bool_lia. lia. }
  assert (live s && negb (s_is_send_register (n_session s)) = false -> live s = true -> senders t s = 1) as Hz1.
  { intros Hf Hl. rewrite Hl, (si_flag _ _ (ci_send _ _ HI) Hl) in Hf. cbn [andb] in Hf. bool_lia. done. }
  destruct (live s && negb (s_is_send_register (n_session s))) eqn:El.
  - specialize (Hz eq_refl). clear Hz1. open_inv t s HI. bool_lia. destruct Sq as [Sq _].
    assert (zlen (sendings t) = 0 /\ out = None) as [E1 ->] by (destruct out; cbn in *; split; lia || done). apply zlen_zero in E1.
    build_inv; rewrite ?E1, ?zlen_app; count; try (intros; congruence).
    + constructor; [|constructor]. intros _. right. split; [by apply Sclear; [by apply andb_true_iff; split; [|apply negb_true_iff]|]|]. by destruct q.
    + split; [by apply Forall_app_2; [|constructor]|]. change (zlen [sb]) with 1. lia.
    + intros Hb. destruct (Sorder Hb) as (rest & E & Hr). exists (rest ++ SendBuffer_payload sb).
      rewrite !payloads_snoc, E, E1, <- !app_assoc. split; [done|]. intros ? _. by rewrite Hr by auto.
  - specialize (Hz1 eq_refl). clear Hz. open_inv t s HI. destruct Sq as [Sq _].
    build_inv; rewrite ?zlen_app; count; try (intros; congruence).
    + intros Hl. by rewrite Hz1.
    + eapply Forall_impl; [exact Sat|]. intros [] Hst; try done. intros Hs. destruct (Hst Hs) as [?|[? _]]; [by left|]. right. split; [done|]. by destruct q.
    + split; [by apply Forall_app_2; [|constructor]|]. change (zlen [sb]) with 1. lia.
    + intros Hl Hs. rewrite Hz1 in Hs by done. lia.
    + intros Hb. destruct (Sorder Hb) as (rest & E & Hr). exists (rest ++ SendBuffer_payload sb).
      rewrite !payloads_snoc, E, <- !app_assoc. split; [done|]. intros ? ?. by rewrite Hr by auto.
Qed.

Lemma conn_send_cs_safe connected sb :
  buffer_ok sb ->
  nsafe (atomic (fun _ s => Some (send_conn connected sb s)))
    (fun r t => match r with
                | SendQueued true => t = [TSender Ready] \/ t = [TOff] \/ t = [TDead]
                | _ => t = []
                end) (if connected then [TOpen] else []).
Proof.
  intros Hsb. apply safe_atomic. intros o s fr HI. unfold send_conn. destruct connected; cbn [negb].
  2: { eexists _, _. split; [done|]. split; [apply ConnG_refl|]. intros _. by exists []. }
  pose proof (open_opened _ _ HI) as Hop. apply (forget TOpen) in HI; [|done].
  destruct (zlen (s_send_queue (n_session s)) >=? MAX_SEND_QUEUE_SIZE) eqn:Eq; rewrite Z.geb_leb in Eq; bool_lia.
  { eexists _, _. split; [done|]. split; [apply ConnG_refl|]. intros _. by exists []. }
  eexists _, _. split; [done|]. split; [by intros ?|]. intros _.
  pose proof (pushed_inv sb fr s HI Hop Hsb Eq) as HI'. change (s <| n_session := _ |> <| n_accepted ::= _ |>) with (pushed sb s).
  destruct (s_is_send_register (n_session s)); cbn [negb] in *; rewrite ?andb_false_r, ?andb_true_r in HI'; [by exists []|].
  unfold live in HI'. destruct (s_shutdown_started (n_session s)) eqn:Es.
  { exists [TOff]. split; [|by auto]. rewrite andb_false_r in HI'. apply know_off; [exact HI'|]. by destruct s as [[]]. }
  destruct (s_is_connect (n_session s)) eqn:Ec; cbn [andb negb] in HI'; [by exists [TSender Ready]; auto|].
  exists [TDead]. split; [|by auto]. apply know_dead; [exact HI'|]. apply gone_opened; by destruct s as [[]].
Qed.

Lemma is_connected_open t :
  nsafe Conn_is_connected (fun c t' => t' = if c then TOpen :: t else t) t.
Proof.
  apply load_safe. intros s fr HI. eexists. split; [|done]. destruct (s_is_connect (n_session s)) eqn:Ec; [|done].
  apply know_open; [done|]. by apply (li_open _ _ (ci_life _ _ HI)).
Qed.

Lemma send_neutral sb : buffer_ok sb -> nneutral (Conn_send sb).
Proof.
  intros Hsb. apply safe_neutral_bind; [exact _|apply load_neutral|]. intros []; cbn [negb]; [|done].
  apply safe_bind. eapply safe_mono; [|apply (is_connected_open [])]. intros c t ->.
  apply safe_bind. eapply safe_mono; [|by apply (conn_send_cs_safe c)].
  intros [| |[]] t; try (intros ->). { done. } { apply disconnect_safe; auto. } 2: { done. }
  intros [-> |[-> | ->]]; [apply register_send_ready|apply register_send_late; auto..].
Qed.



(** *** The completion of a send *)

(** What the sender does to the event and to the flag: [k] is what becomes of its token. *)
Lemma clear_owner_safe n :
  nsafe (store_conn (fun x => x <| s_send_owner := false |>)) (fun _ t => t = [TSender (Completed n)]) [TSender (Completed n)].
Proof.
  apply on_conn_safe. intros s fr HI. cbn [fst snd]. split; [by intros ?|]. intros _. eexists. split; [|done].
  destruct (conn_only_sender _ _ _ HI) as [E1 E2]. open_inv fr s HI. subst out. build_inv; rewrite ?E1; count.
Qed.

Lemma clear_dead_safe n :
  nsafe (store_conn (fun x => x <| s_send_event ::= SendEvent_clear |>)) (fun _ t => t = [TIo]) [TDead; TSender (Completed n)].
Proof.
  apply on_conn_safe. intros s fr HI. cbn [fst snd]. split; [by intros ?|]. intros _. eexists. split; [|done].
  pose proof (gone_closed _ (dead_gone _ _ HI)) as Hn. apply (forget TDead) in HI; [|done].
  pose proof (sender_opened _ _ _ HI) as Hop.
  destruct (conn_only_sender _ _ _ HI) as [E1 E2]. open_inv fr s HI. subst out conn. build_inv; rewrite ?E1, ?SendEvent_clear_new; count; try (intros; congruence).
  intros Hb. destruct (Sorder Hb) as (rest & E & _). eexists. cbn. split; [exact E|]. by intros ? [?|?].
Qed.

(** The completed bytes are taken off the event. *)
Lemma consume_safe n :
  nsafe (atomic (fun _ => consume_conn n))
    (fun ok t => t = if ok then [TSender Consumed; TIo] else [TSender (Completed n)]) [TSender (Completed n)].
Proof.
  apply safe_atomic. intros o s fr HI. unfold consume_conn. destruct (conn_only_sender _ _ _ HI) as [E1 E2].
  pose proof (si_event _ _ (ci_send _ _ HI)) as Hev. pose proof (si_at _ _ (ci_send _ _ HI)) as Hn.
  cbn [app] in Hn. rewrite sendings_cons in Hn. apply Forall_cons_1 in Hn as [Hn _]. cbn in Hn.
  destruct (decide (n = 0)) as [->|Hnz].
  { rewrite consume_rejects by (done || lia). cbn [mbind option_bind fst snd]. eexists _, _. split; [done|]. 
    assert (s <| n_session ::= fun x => x <| s_send_event := s_send_event (n_session s) |> |> = s) as -> by by destruct s as [[]].
    split; [apply ConnG_refl|]. intros _. by eexists. }
  destruct (consume_accepts _ Hev n) as (ev' & -> & Hev' & Hbufs & Hpend); [lia|]. cbn [mbind option_bind fst snd].
  eexists _, _. split; [done|]. split; [by intros ?|]. intros _. eexists. split; [|done].
  pose proof (sender_opened _ _ _ HI) as Hop. open_inv fr s HI. subst out. rewrite E1 in *.
  build_inv; rewrite ?E1; count; try (intros; congruence).
  - intros Hb. destruct (Sorder Hb) as (rest & E & Hr). exists rest. split; [|done].
    unfold taken in *. cbn [sumZ foldr] in *. rewrite Z.add_0_r in E. by rewrite Hpend.
Qed.

Lemma refuse_completion_safe n :
  nsafe refuse_completion (fun _ t => t = [TDisc; TIo]) [TSender (Completed n)].
Proof.
  apply safe_atomic. intros o s fr HI. eexists _, _. split; [done|]. split; [by intros ?|]. intros _. eexists. split; [|done].
  pose proof (sender_opened _ _ _ HI) as Hop. destruct (conn_only_sender _ _ _ HI) as [E1 E2]. open_inv fr s HI. subst out.
  build_inv; rewrite ?E1, ?SendEvent_clear_new; count; try (intros; congruence).
Qed.

Lemma no_pending ev : SendEvent_has_pending_data ev = false -> SendEvent_pending ev = [].
Proof.
  intros Hp. unfold SendEvent_has_pending_data in Hp. bool_lia. unfold SendEvent_pending, SendEvent_rest.
  rewrite (drop_ge (se_send_Buffers ev)) by (unfold zlen in *; lia). apply drop_nil.
Qed.

Lemma load_pending_safe :
  nsafe (load_conn (fun x => SendEvent_has_pending_data (s_send_event x)))
    (fun b t => t = [TSender (if b then Ready else Drained)]) [TSender Consumed].
Proof.
  apply load_safe. intros s fr HI. eexists. split; [|done].
  destruct (conn_only_sender _ _ _ HI) as [E1 E2]. pose proof (sender_opened _ _ _ HI) as Hop. open_inv fr s HI. subst out. rewrite E1 in *.
  destruct (SendEvent_has_pending_data ev) eqn:Ep; build_inv; rewrite ?E1; count.
  constructor; [|constructor]. by apply no_pending.
Qed.

Lemma clear_drained_safe :
  nsafe (store_conn (fun x => x <| s_send_event ::= SendEvent_clear |>)) (fun _ t => t = [TSender Cleared]) [TSender Drained].
Proof.
  apply on_conn_safe. intros s fr HI. cbn [fst snd]. split; [by intros ?|]. intros _. eexists. split; [|done].
  pose proof (sender_opened _ _ _ HI) as Hop. destruct (conn_only_sender _ _ _ HI) as [E1 E2]. open_inv fr s HI. subst out. rewrite E1 in *.
  build_inv; rewrite ?E1, ?SendEvent_clear_new; count; try (intros; congruence).
  intros Hb. destruct (Sorder Hb) as (rest & E & Hr). exists rest. split; [|done].
  match goal with H : SendEvent_pending ev = [] |- _ => rewrite H in E end. by rewrite drop_nil in E.
Qed.

Lemma close_flag_safe :
  nsafe (store_conn (fun x => x <| s_is_send_register := false |>)) (fun _ t => t = [TDisc]) [TSender Cleared].
Proof.
  apply on_conn_safe. intros s fr HI. cbn [fst snd]. split; [by intros ?|]. intros _. eexists. split; [|done].
  pose proof (sender_opened _ _ _ HI) as Hop. destruct (conn_only_sender _ _ _ HI) as [E1 E2]. open_inv fr s HI. subst out ev. rewrite E1 in *.
  build_inv; rewrite ?E1; count; try (intros; congruence).
  intros Hb. destruct (Sorder Hb) as (rest & E & Hr). exists rest. split; [done|]. intros ? [?|?]; [|done]. apply Hr; auto.
Qed.

Lemma need_register_safe :
  nsafe (on_conn need_register_conn) (fun b t => t = if b then [TSender Ready] else []) [TSender Cleared].
Proof.
  apply on_conn_safe. intros s fr HI. unfold need_register_conn.
  pose proof (sender_opened _ _ _ HI) as Hop. destruct (conn_only_sender _ _ _ HI) as [E1 E2]. open_inv fr s HI. subst out ev. rewrite E1 in *.
  destruct q as [|b q]; cbn [fst snd]; (split; [by intros ?|]); intros _; eexists; (split; [|done]);
    build_inv; rewrite ?E1; count; try (intros; congruence).
  intros Hb. destruct (Sorder Hb) as (rest & E & Hr). exists rest. split; [done|]. intros ? [?|?]; [|done]. apply Hr; auto.
Qed.

(** A step of one token while the thread keeps others. *)
Lemma step_frame {A B} (p : nprog A) (k : A -> nprog B) (Φ : A -> list Token) Ψ t fr :
  nsafe p (fun a t' => t' = Φ a) t -> (forall a, nsafe (k a) Ψ (Φ a ++ fr)) -> nsafe (p ≫= k) Ψ (t ++ fr).
Proof.
  intros Hp Hk. apply safe_bind. eapply safe_mono; [|exact (safe_frame ConnInv ConnG conn_lim p _ t fr Hp)].
  intros a t' (t1 & -> & ->). apply Hk.
Qed.

Lemma frame_nil {A} (p : nprog A) t fr :
  nsafe p (fun _ t' => t' = []) t -> nsafe p (fun _ t' => t' = fr) (t ++ fr).
Proof.
  intros Hp. eapply safe_mono; [|exact (safe_frame ConnInv ConnG conn_lim p _ t fr Hp)]. by intros a t' (t1 & -> & ->).
Qed.

Lemma conn_process_send_safe n : nsafe (Conn_process_send n) (fun _ t => t = [TIo]) [TSender (Completed n)].
Proof.
  apply safe_bind. eapply safe_mono; [|apply clear_owner_safe]. intros _ t ->.
  apply safe_bind. eapply safe_mono; [|apply is_connected_sender]. intros [] t ->; cbn [negb]; [|apply clear_dead_safe].
  apply safe_bind. eapply safe_mono; [|apply consume_safe]. intros [] t ->; cbn [negb].
  2: { apply safe_bind. eapply safe_mono; [|apply refuse_completion_safe]. intros _ t ->.
       apply (frame_nil _ [TDisc] [TIo]), disconnect_safe. auto. }
  apply safe_neutral_bind; [exact _|apply count_neutral|]. intros _.
  apply (step_frame _ _ _ _ [TSender Consumed] [TIo] load_pending_safe). intros []; [apply (frame_nil _ [_] [TIo]), register_send_ready|].
  apply (step_frame _ _ _ _ [TSender Drained] [TIo] clear_drained_safe). intros _.
  apply safe_neutral_bind; [exact _|apply load_neutral|]. intros [].
  - apply (step_frame _ _ _ _ [TSender Cleared] [TIo] close_flag_safe). intros _.
    apply (frame_nil _ [TDisc] [TIo]), disconnect_safe. auto.
  - apply (step_frame _ _ _ _ [TSender Cleared] [TIo] need_register_safe). intros [].
    + apply (frame_nil _ [_] [TIo]), register_send_ready.
    + reflexivity.
Qed.

(** *** Receiving *)

Lemma receiver_serving st t s : ConnInv (TReceiver st :: t) s -> n_phase s = Serving.
Proof.
  intros HI. apply (ri_open _ _ (ci_recv _ _ HI)). unfold receivers. rewrite receivings_cons, zlen_cons.
  pose proof (zlen_nonneg (receivings t)). pose proof (flying_nonneg (n_recv s)). lia.
Qed.

Lemma only_receiver st t s : ConnInv (TReceiver st :: t) s -> receivings t = [] /\ n_recv s = None.
Proof.
  intros HI. pose proof (ri_one _ _ (ci_recv _ _ HI)) as H. unfold receivers in H. rewrite receivings_cons, zlen_cons in H.
  pose proof (zlen_nonneg (receivings t)). destruct (n_recv s); cbn in H; [lia|]. split; [apply zlen_zero; lia|done].
Qed.

Lemma receiver_knows rb u t s :
  ConnInv (TReceiver (Holding rb u) :: t) s ->
  s_recv_buffer (n_session s) = rb /\ n_received s = concat (n_framed s) ++ u /\ byte_stream u.
Proof.
  intros HI. pose proof (ri_at _ _ (ci_recv _ _ HI)) as H. rewrite receivings_cons in H. apply Forall_cons_1 in H as [[H1 H2] _].
  split_and!; [done..|]. pose proof (ri_bytes _ _ (ci_recv _ _ HI)) as Hb. rewrite H2 in Hb. by apply Forall_app in Hb as [_ ?].
Qed.

Lemma is_connected_receiver st :
  nsafe Conn_is_connected (fun c t => t = if c then [TReceiver st] else [TDead; TReceiver st]) [TReceiver st].
Proof.
  apply load_safe. intros s fr HI. eexists. split; [|done]. destruct (s_is_connect (n_session s)) eqn:Ec; [done|].
  apply know_dead; [done|]. apply gone_opened; [|done]. by rewrite (receiver_serving _ _ _ HI).
Qed.

(** A receive that will not be registered any more: the connection is over, or the thread
    will disconnect. *)
Lemma drop_receiver rb u t s : ConnInv (TReceiver (Holding rb u) :: t) s -> live s = false -> ConnInv t s.
Proof.
  intros HI Hl. destruct (only_receiver _ _ _ HI) as [E1 E2]. pose proof (receiver_serving _ _ _ HI) as Hs.
  open_inv t s HI. subst inc. build_inv; rewrite ?E1, ?Hl; count.
Qed.

Lemma give_up_receiver rb u t s : ConnInv (TReceiver (Holding rb u) :: t) s -> ConnInv (TDisc :: t) s.
Proof.
  intros HI. destruct (only_receiver _ _ _ HI) as [E1 E2]. pose proof (receiver_serving _ _ _ HI) as Hs.
  open_inv t s HI. subst inc. build_inv; rewrite ?E1; count.
Qed.

Lemma gone_live s : gone s = true -> live s = false.
Proof. intros Hg. unfold live. by rewrite (gone_closed _ Hg). Qed.

(** A thread may exchange its tokens before its next action. *)
Lemma safe_convert {A} (p : nprog A) Φ t1 t2 :
  match p with Act _ _ => True | _ => False end ->
  (forall s fr, ConnInv (t1 ++ fr) s -> ConnInv (t2 ++ fr) s) -> nsafe p Φ t2 -> nsafe p Φ t1.
Proof. intros Hp Ht. destruct p as [|B f k|]; [done| |done]. intros Hs o s fr HI. apply Hs. by apply Ht. Qed.

Lemma disconnect_receiver rb u : nsafe Conn_disconnect (fun _ t => t = []) [TReceiver (Holding rb u)].
Proof.
  apply (safe_convert _ _ _ [TDisc]); [done|intros s fr; apply give_up_receiver|]. apply disconnect_safe. auto.
Qed.

Lemma recv_refused_safe :
  nsafe (abandon_io (fun x => x <| s_recv_owner := false |>) ≫= fun _ => Conn_disconnect) (fun _ t => t = []) [TReceiver RecvFailed].
Proof.
  apply safe_bind, safe_atomic. intros o s fr HI. unfold finish_io_conn.
  pose proof (pending_small _ _ HI) as Hp. cbn [app] in Hp. destruct (only_receiver _ _ _ HI) as [E1 E2].
  open_inv fr s HI. subst inc. rewrite Z_gtb_true by lia. cbn [mbind option_bind]. eexists _, _. split; [done|].
  split; [by intros ?|]. intros _. exists [TDisc]. split; [|apply disconnect_safe; auto].
  build_inv; rewrite ?E1, ?u32_small by lia; count.
Qed.

Lemma register_recv_dead rb u : nsafe Conn_register_recv (fun _ t => t = []) [TDead; TReceiver (Holding rb u)].
Proof.
  apply safe_bind, load_safe. intros s fr HI. rewrite (gone_closed s) by by eapply dead_gone.
  eexists. split; [done|]. clear. apply safe_bind, safe_atomic. intros o s fr HI. unfold register_recv_conn. rewrite orb_true_r.
  eexists _, _. split; [done|]. split; [apply ConnG_refl|]. intros _. exists []. split; [|done].
  apply (drop_receiver rb u); [by apply (forget TDead)|]. by eapply gone_live, dead_gone.
Qed.

Lemma conn_register_recv_safe rb u :
  RecvBuffer_data rb = u -> incomplete u -> BUFFER_SIZE <= RecvBuffer_free_size rb ->
  nsafe Conn_register_recv (fun _ t => t = []) [TReceiver (Holding rb u)].
Proof.
  intros Hdata Hinc Hfree. apply safe_bind. eapply safe_mono; [|apply is_connected_receiver]. intros [] t ->.
  2: { apply safe_bind, safe_atomic. intros o s fr HI. unfold register_recv_conn. rewrite orb_true_r.
       eexists _, _. split; [done|]. split; [apply ConnG_refl|]. intros _. exists []. split; [|done].
       apply (drop_receiver rb u); [by apply (forget TDead)|]. by eapply gone_live, dead_gone. }
  apply safe_bind, safe_atomic. intros o s fr HI. unfold register_recv_conn. cbn [negb]. rewrite orb_false_r.
  destruct (s_shutdown_started (n_session s)) eqn:Es.
  { eexists _, _. split; [done|]. split; [apply ConnG_refl|]. intros _. exists []. split; [|done].
    apply (drop_receiver rb u); [done|]. unfold live. by rewrite Es, andb_false_r. }
  destruct (only_receiver _ _ _ HI) as [E1 E2]. rewrite E2. pose proof (pending_small _ _ HI) as Hp. cbn [app] in Hp.
  destruct (receiver_knows _ _ _ _ HI) as (Erb & Erec & _). pose proof (receiver_serving _ _ _ HI) as Hs.
  assert (RecvBuffer_free_size rb < 2 ^ 31) as Hmax by (unfold RecvBuffer_free_size; apply i32_range).
  unfold BUFFER_SIZE in *. unfold begin_io_conn. open_inv fr s HI. subst inc rbuf. destruct (call_accepted o).
  - eexists _, _. split; [done|]. split; [by intros ?; fields in *; congruence|]. intros _. exists []. split; [|done].
    build_inv; rewrite ?E1, ?u32_small by lia; count.
    intros len [= <-]. rewrite Hdata. by split_and!.
  - eexists _, _. split; [done|]. split; [by intros ?; fields in *; congruence|]. intros _. exists [TReceiver RecvFailed].
    split; [|apply recv_refused_safe]. build_inv; rewrite ?E1, ?u32_small by lia; count.
Qed.

(** The owner of the receive buffer. *)
Lemma clear_recv_owner_safe rb u :
  nsafe (store_conn (fun x => x <| s_recv_owner := false |>)) (fun _ t => t = [TReceiver (Holding rb u)]) [TReceiver (Holding rb u)].
Proof.
  apply on_conn_safe. intros s fr HI. cbn [fst snd]. split; [by intros ?|]. intros _. eexists. split; [|done].
  destruct (only_receiver _ _ _ HI) as [E1 E2]. open_inv fr s HI. subst inc. build_inv; rewrite ?E1; count.
Qed.

Lemma conn_recv_op_safe (h : RecvBuffer -> bool * RecvBuffer) rb u :
  RecvBuffer_wf (snd (h rb)) -> rb_Buffer_size (snd (h rb)) = BUFFER_SIZE ->
  nsafe (on_recv_buffer h) (fun b t => b = fst (h rb) /\ t = [TReceiver (Holding (snd (h rb)) u)]) [TReceiver (Holding rb u)].
Proof.
  intros Hwf Hsz. apply on_conn_safe. intros s fr HI. destruct (receiver_knows _ _ _ _ HI) as (Erb & Erec & _).
  destruct (only_receiver _ _ _ HI) as [E1 E2]. pose proof (receiver_serving _ _ _ HI) as Hs. rewrite Erb.
  destruct (h rb) as [b rb']. cbn [fst snd] in *. split; [by intros ?|]. intros _. eexists. split; [|done].
  open_inv fr s HI. subst inc rbuf. build_inv; rewrite ?E1; count.
  - intros Ho. by rewrite Hs in Ho.
Qed.

Lemma conn_recv_load_safe {B : Set} (f : RecvBuffer -> B) rb u :
  nsafe (load_conn (fun x => f (s_recv_buffer x)))
    (fun b t => b = f rb /\ t = [TReceiver (Holding rb u)] /\ byte_stream u) [TReceiver (Holding rb u)].
Proof.
  apply load_safe. intros s fr HI. destruct (receiver_knows _ _ _ _ HI) as (-> & _ & Hb). by eexists.
Qed.

(** Handing a packet to [on_recv_packet] queues its job, unless the session is being shut down. *)
Lemma on_recv_packet_safe rb p u :
  is_packet p -> nsafe (Conn_on_recv_packet p) (fun _ t => t = [TReceiver (Holding rb u)]) [TReceiver (Holding rb (p ++ u))].
Proof.
  intros Hp. apply safe_atomic. intros o s fr HI. eexists _, _. split; [done|].
  destruct (receiver_knows _ _ _ _ HI) as (Erb & Erec & _). destruct (only_receiver _ _ _ HI) as [E1 E2].
  pose proof (receiver_serving _ _ _ HI) as Hs. 
  assert (forall x, s_logic_stopped x = true -> GameSession_on_recv_packet p x = x) as Hstop.
  { intros x Hx. rewrite on_recv_packet_decode by done. destruct (decode p); [|done]. unfold Session_post_logic, Session_queue_logic. by rewrite Hx. }
  split. { intros Hx. destruct s as [x]. fields in *. by rewrite Hstop. }
  intros Hlim. eexists. split; [|done].
  open_inv fr s HI. subst inc rbuf ph. unfold conn_lim, job_backlog, posted in Hlim. fields in *.
  rewrite on_recv_packet_decode in Hlim |- * by done.
  assert (omap decode (framed ++ [p]) = omap decode framed ++ match decode p with Some k => [k] | None => [] end) as Ed.
  { by rewrite omap_app. }
  assert (rec = (concat framed ++ p) ++ u) as Erec' by by rewrite <- app_assoc.
  assert (Forall is_packet (framed ++ [p]) /\ concat framed ++ p `prefix_of` rec) as Hfr.
  { split; [by apply Forall_app_2; [apply Rframed|constructor]|]. by exists u. }
  destruct (decode p) as [pkt|]; [unfold Session_post_logic, Session_queue_logic, LockQueue_push in *; fields in *; destruct stopped|]; fields in *.
  - build_inv; rewrite ?E1, ?Ed, ?concat_snoc; count. by apply prefix_app_r.
  - pose proof (conn_cleanups_nonneg (popped ++ lq ++ [PacketJob pkt])). pose proof (zlen_nonneg popped). pose proof (zlen_nonneg lq).
    pose proof (b2z_bounds (cleanups (popped ++ lq ++ [PacketJob pkt]) =? 0)).
    assert (zlen (lq ++ [PacketJob pkt]) = zlen lq + 1) as El by by rewrite zlen_app.
    assert (cleanups (lq ++ [PacketJob pkt]) = cleanups lq) as Ec by (rewrite cleanups_app; cbn; lia).
    assert (packets (popped ++ lq ++ [PacketJob pkt]) = omap decode framed ++ [pkt]) as Ep.
    { by rewrite app_assoc, (packets_app (popped ++ lq)), Jall. }
    build_inv; rewrite ?E1, ?Ed, ?concat_snoc, ?El, ?Ep, ?Ec, ?u32_small by lia; count.
    rewrite app_assoc, (cleanups_app (popped ++ lq)). cbn. lia.
  - build_inv; rewrite ?E1, ?Ed, ?concat_snoc, ?app_nil_r; count.
Qed.



(** What the loop leaves behind: less than the largest packet, a malformed header, or a
    session that is not connected any more. *)
Definition loop_post (rb : RecvBuffer) (u : bytes) (pl : Z) (t : list Token) : Prop :=
  (pl = -1 /\ exists rest, t = [TReceiver (Holding rb rest)]) \/
  (0 <= pl <= zlen u /\
    ((t = [TReceiver (Holding rb (drop (Z.to_nat pl) u))] /\ incomplete (drop (Z.to_nat pl) u)) \/
     t = [TDead; TReceiver (Holding rb (drop (Z.to_nat pl) u))])).

Lemma on_recv_loop_safe fuel rb u junk : forall pl,
  byte_stream u -> zlen u < 2 ^ 30 -> 0 <= pl <= zlen u -> zlen u - pl < Z.of_nat fuel ->
  nsafe (Conn_on_recv_loop fuel (u ++ junk) (zlen u) pl) (loop_post rb u) [TReceiver (Holding rb (drop (Z.to_nat pl) u))].
Proof.
  induction fuel as [|fuel IH]; intros pl Hb Hu Hpl Hf; [lia|]. cbn [Conn_on_recv_loop]. unfold sizeof_PacketHeader, BUFFER_SIZE.
  rewrite i32_small, u64_small by lia. destruct (zlen u - pl <? 4) eqn:E4; bool_lia.
  { right. split; [lia|]. left. split; [reflexivity|]. left. rewrite zlen_drop; lia. }
  destruct (packet_at u junk pl) as (Hread & Hh & Hp); [lia..|done|].
  set (h := PacketHeader_read (drop (Z.to_nat pl) (u ++ junk))) in *.
  destruct (hdr_size h <? 4) eqn:E5; bool_lia; [left; by eauto|].
  destruct (hdr_size h >? 65536) eqn:E6; bool_lia; [lia|].
  destruct (zlen u - pl <? hdr_size h) eqn:E7; bool_lia.
  { right. split; [lia|]. left. split; [reflexivity|]. right. rewrite <- Hread, zlen_drop; lia. }
  destruct (Hp ltac:(lia)) as [Esplit Hpkt]. rewrite <- Esplit.
  apply safe_bind. eapply safe_mono; [|by apply on_recv_packet_safe]. intros _ t ->.
  rewrite i32_small by lia. apply safe_bind. eapply safe_mono; [|apply is_connected_receiver]. intros [] t ->; cbn [negb].
  - apply IH; [done|done|lia|lia].
  - right. split; [lia|]. by right.
Qed.

(** *** The completion of a receive *)

Lemma conn_is_connected_drop rb u :
  nsafe Conn_is_connected (fun c t => t = if c then [TReceiver (Holding rb u)] else []) [TReceiver (Holding rb u)].
Proof.
  apply load_safe. intros s fr HI. eexists. split; [|done]. destruct (s_is_connect (n_session s)) eqn:Ec; [done|].
  apply (drop_receiver rb u); [done|]. unfold live. by rewrite Ec.
Qed.

(** The end of [process_recv]: the packets handed on are taken off the buffer, and the next
    receive is registered. *)
Lemma finish_recv_safe rb u pl t :
  RecvBuffer_wf rb -> rb_Buffer_size rb = BUFFER_SIZE -> RecvBuffer_data rb = u -> byte_stream u -> 0 <= pl <= zlen u ->
  (t = [TReceiver (Holding rb (drop (Z.to_nat pl) u))] /\ incomplete (drop (Z.to_nat pl) u)) \/
  t = [TDead; TReceiver (Holding rb (drop (Z.to_nat pl) u))] ->
  nsafe (read ← on_recv_buffer (RecvBuffer_on_read pl);
         if negb read then Conn_disconnect
         else on_recv_buffer (fun rb => (true, RecvBuffer_clean rb)) ≫= fun _ => Conn_register_recv) (fun _ t => t = []) t.
Proof.
  intros Hwf Hsz Hd Hb Hpl Ht.
  destruct (on_read_drop rb Hwf pl) as (rb3 & Hr & Hwf3 & Hsz3 & Hd3); [rewrite data_size_eq, Hd by done; lia|].
  destruct (clean_keeps rb3 Hwf3) as (Hwf4 & Hsz4 & Hd4). set (u3 := drop (Z.to_nat pl) u) in *.
  pose proof (conn_recv_op_safe (RecvBuffer_on_read pl) rb u3) as Hop1. rewrite Hr in Hop1.
  pose proof (conn_recv_op_safe (fun r => (true, RecvBuffer_clean r)) rb3 u3) as Hop2. cbn [fst snd] in *.
  specialize (Hop1 Hwf3 ltac:(congruence)). specialize (Hop2 Hwf4 ltac:(congruence)).
  destruct Ht as [[-> Hinc]| ->].
  - apply safe_bind. eapply safe_mono; [|exact Hop1]. intros ? t [-> ->]. cbn [negb].
    apply safe_bind. eapply safe_mono; [|exact Hop2]. intros ? t [_ ->].
    apply conn_register_recv_safe; [by rewrite Hd4, Hd3, Hd|done|].
    pose proof (clean_room rb3 Hwf3) as Hcr. rewrite Hsz3, Hsz in Hcr. apply Hcr. rewrite Hd3, Hd.
    pose proof (incomplete_short u3 (Forall_drop _ _ _ Hb) Hinc) as Hs3. unfold u3, BUFFER_SIZE in *. lia.
  - apply (safe_convert _ _ _ [TReceiver (Holding rb u3); TDead]); [done|intros s fr; apply ConnInv_weak, Permutation_swap|].
    apply safe_bind. eapply safe_mono; [|exact (safe_frame ConnInv ConnG conn_lim _ _ _ [TDead] Hop1)]. intros ? t (t1 & -> & -> & ->). cbn [negb].
    apply safe_bind. eapply safe_mono; [|exact (safe_frame ConnInv ConnG conn_lim _ _ _ [TDead] Hop2)]. intros ? t (t1 & -> & _ & ->).
    apply (safe_convert _ _ _ [TDead; TReceiver (Holding (RecvBuffer_clean rb3) u3)]); [done|intros s fr; apply ConnInv_weak, Permutation_swap|].
    apply register_recv_dead.
Qed.

Lemma conn_process_recv_safe rb0 chunk :
  RecvBuffer_wf rb0 -> rb_Buffer_size rb0 = BUFFER_SIZE -> zlen chunk <= RecvBuffer_free_size rb0 ->
  nsafe (Conn_process_recv (zlen chunk)) (fun _ t => t = [])
    [TReceiver (Holding (RecvBuffer_os_store chunk rb0) (RecvBuffer_data rb0 ++ chunk))].
Proof.
  intros Hwf Hsz Hc. set (u := RecvBuffer_data rb0 ++ chunk). set (rb1 := RecvBuffer_os_store chunk rb0).
  destruct (on_write_append rb0 Hwf chunk Hc) as (rb2 & Hw & Hwf2 & Hsz2 & Hdata).
  assert (zlen u = zlen (RecvBuffer_data rb2)) as Hlen by by rewrite Hdata.
  assert (zlen u < 2 ^ 30) as Hu.
  { rewrite Hlen, (data_len rb2 Hwf2). rewrite (free_size_eq rb0 Hwf) in Hc. destruct Hwf, Hwf2. unfold BUFFER_SIZE in *. lia. }
  pose proof (zlen_nonneg u).
  apply safe_bind. eapply safe_mono; [|apply clear_recv_owner_safe]. intros _ t ->.
  apply safe_bind. eapply safe_mono; [|apply conn_is_connected_drop]. intros [] t ->; cbn [negb]; [|done].
  destruct (zlen chunk =? 0); [apply disconnect_receiver|].
  apply safe_bind. eapply safe_mono; [|apply (conn_recv_op_safe (RecvBuffer_on_write (zlen chunk)) rb1 u); unfold rb1; rewrite Hw; cbn [snd]; congruence].
  unfold rb1. rewrite Hw. intros ? t [-> ->]. cbn [fst snd negb].
  apply safe_bind. eapply safe_mono; [|apply conn_recv_load_safe]. intros ? t (-> & -> & Hb).
  apply safe_bind. eapply safe_mono; [|apply conn_recv_load_safe]. intros ? t (-> & -> & _).
  rewrite (data_size_eq rb2 Hwf2), <- Hlen.
  assert (RecvBuffer_read_pos rb2 = u ++ drop (Z.to_nat (rb_write_pos rb2 - rb_read_pos rb2)) (RecvBuffer_read_pos rb2)) as ->.
  { unfold u. rewrite <- Hdata. unfold RecvBuffer_data, slice, RecvBuffer_read_pos. by rewrite take_drop. }
  apply safe_bind. eapply safe_mono; [|apply (on_recv_loop_safe _ rb2 u); [done|done|lia|lia]].
  intros pl t [[-> [rest ->]]|[Hpl Ht]]; [apply disconnect_receiver|].
  rewrite (proj2 (Z.ltb_ge pl 0)), (proj2 (Z.ltb_ge (zlen u) pl)) by lia. cbn [orb].
  apply (finish_recv_safe rb2 u pl t); try done; congruence.
Qed.

(** *** Opening *)

(** Before [_is_connect] is set nothing has happened to a session. *)
Lemma opening_fresh t s :
  ConnInv (TNew :: t) s ->
  n_phase s = Opening /\ zlen (news t) = 0 /\ s_is_connect (n_session s) = false /\ s_is_disconnect (n_session s) = false /\
  s_shutdown_started (n_session s) = false /\ closings t s = 0 /\ receivers t s = 0 /\ shuts t = [] /\ deads t = [].
Proof.
  intros HI. open_inv t s HI. assert (ph = Opening) as -> by (destruct ph; done || lia).
  assert (closing = false) as -> by auto. rewrite andb_false_r in *.
  assert (shuts t = []) as Esh by (destruct (shuts t); [done|]; by apply Forall_cons_1 in Lshuts as [[_ ?] _]).
  assert (deads t = []) as Ede by (destruct (deads t); [done|]; by apply Forall_cons_1 in Ldeads as [? _]).
  rewrite Esh in *. change (zlen []) with 0 in *. split_and!; try done; try lia.
  - destruct conn; [|done]. by specialize (Lopen eq_refl).
  - destruct disc; [|done]. by specialize (Ldisc eq_refl).
  - destruct shut; [|done]. destruct (Lshut eq_refl) as [Hd|]; [by apply Ldisc in Hd|lia].
  - destruct (decide (0 < zlen (receivings t) + flying inc)) as [Hd|]; [|lia]. by apply Ropen in Hd.
Qed.

Lemma open_safe phase :
  phase = Serving \/ phase = Rejecting ->
  nsafe (open_conn phase)
    (fun was t => was = false /\
       match phase with
       | Serving => exists rb, t = [TReceiver (Holding rb [])] /\ RecvBuffer_data rb = [] /\ BUFFER_SIZE <= RecvBuffer_free_size rb
       | _ => t = []
       end) [TNew].
Proof.
  intros Hph. apply safe_atomic. intros o s fr HI. eexists _, _. split; [done|]. split; [by intros ?|]. intros _.
  destruct (opening_fresh _ _ HI) as (Ep & En & Ec & Ed & Es & Ecl & Er & Esh & Ede).
  destruct (si_fresh _ _ (ci_send _ _ HI)) as (Fs & Ff & Fe & Fq & Fa & Ft & Fb); [by rewrite Ep|].
  destruct (ri_fresh _ _ (ci_recv _ _ HI)) as (Gr & Gf & Gd & Gs); [by rewrite Ep|].
  exists (if phase is Serving then [TReceiver (Holding (s_recv_buffer (n_session s)) [])] else []).
  split; [|split; [done|]; destruct Hph as [-> | ->]; [by eexists|done]].
  open_inv fr s HI. subst ph conn disc shut flag ev q acc sent broken rec framed.
  destruct Hph as [-> | ->]; build_inv; rewrite ?Esh, ?Ede; count.
  all: first [by apply Forall_true|intros _; exists []; change (SendEvent_pending SendEvent_new) with ([] : bytes); by rewrite drop_nil].
Qed.

Lemma process_connect_safe : nsafe Conn_process_connect (fun _ t => t = []) [TNew].
Proof.
  apply safe_neutral_bind; [exact _|by apply store_neutral|]. intros _.
  apply safe_bind. eapply safe_mono; [|apply open_safe; by left]. intros was t (_ & rb & -> & Hd & Hf).
  apply safe_neutral_bind; [exact _|apply count_neutral|]. intros _. apply conn_register_recv_safe; [done| |done]. by left.
Qed.

Lemma reject_connection_safe {utf8 : Utf8Check} {laws : PacketCodecLaws codec} n :
  nsafe (Conn_reject_connection n) (fun _ t => t = []) [TNew].
Proof.
  apply safe_bind. eapply safe_mono; [|apply open_safe; by right]. intros was t (-> & ->).
  apply safe_neutral_bind; [exact _|by apply store_neutral|]. intros _.
  apply safe_neutral_bind; [exact _|by apply store_neutral|]. intros _.
  apply safe_neutral_bind; [exact _|apply count_neutral|]. intros _.
  destruct (made_buffer_ok (P_ACK_SERVER_FULL (ACK_SERVER_FULL_default <| ACK_SERVER_FULL_max_session_count := u32 n |>))) as (b & Hm & Hb).
  { split; simpl; [apply u32_range|done]. }
  { simpl. lia. }
  unfold GameSession_make_server_full_notice. rewrite Hm. by apply send_neutral.
Qed.

(** *** Shutting down *)

Lemma begin_shutdown_flag_safe :
  nsafe (on_conn (fun x => if s_shutdown_started x then (x, true)
                           else (x <| s_shutdown_started := true |> <| s_logic_stopped := true |>, false)))
    (fun was t => t = if was then [] else [TShut]) [TStop].
Proof.
  apply on_conn_safe. intros s fr HI. destruct (s_shutdown_started (n_session s)) eqn:Es; cbn [fst snd].
  { rewrite set_same_session. split; [apply ConnG_refl|]. intros _. eexists. split; [|done]. open_inv fr s HI. subst shut. build_inv; count.
    intros Hg. destruct (Lshut Es); [by left|]. right. right. lia. }
  pose proof (li_stop _ _ (ci_life _ _ HI)) as Hst. rewrite Es in Hst. split; [by intros ?; congruence|]. intros _.
  eexists. split; [|done]. open_inv fr s HI. subst shut stopped. rewrite andb_true_r in *.
  build_inv; rewrite ?andb_false_r; count.
  - constructor; [done|]. eapply Forall_impl; [exact Lshuts|]. by intros _ [? _].
  - by apply Forall_true.
  - eapply Forall_impl; [exact Sat|]. by intros [].
  - intros Hb. destruct (Sorder Hb) as (rest & E & _). by exists rest.
Qed.

Lemma close_socket_safe :
  nsafe (store_conn (fun x => x <| s_is_connect := false |> <| s_socket_open := false |>)) (fun _ t => t = [TShut; TDead]) [TShut].
Proof.
  apply on_conn_safe. intros s fr HI. cbn [fst snd]. split; [by intros ?|]. intros _. eexists. split; [|done].
  assert (match n_phase s with Waiting => n_closing s | Opening => false | _ => true end = true) as Hph.
  { pose proof (li_shuts _ _ (ci_life _ _ HI)) as Hs. cbn [app] in Hs. rewrite shuts_cons in Hs. apply Forall_cons_1 in Hs as [[_ Hs] _].
    pose proof (li_opening _ _ (ci_life _ _ HI)) as Ho. destruct (n_phase s); try done. by rewrite Ho in Hs. }
  open_inv fr s HI. 
  build_inv; rewrite ?Hph; count.
  - by apply Forall_true.
  - destruct Jran as (ps & skipped & cl & ? & ? & _ & ? & Hcl). exists ps, skipped, cl. split_and!; try done; [by right|].
    destruct Hcl as [?|[? _]]; auto.
  - intros Hb. destruct (Sorder Hb) as (rest & E & Hr). exists rest. split; [done|]. intros ? [?|?]; [done|]. apply Hr; auto.
Qed.

Lemma begin_shutdown_safe : nsafe Conn_begin_shutdown (fun _ t => t = []) [TStop].
Proof.
  apply safe_bind. eapply safe_mono; [|apply begin_shutdown_flag_safe]. intros [] t ->; [done|].
  apply safe_bind. eapply safe_mono; [|apply close_socket_safe]. intros _ t ->. apply process_disconnect_safe. by right.
Qed.

(** *** Completions *)

Lemma conn_finish_io_safe :
  nsafe (atomic (fun _ s => x ← finish_io_conn (n_session s); Some (s <| n_session := x |> <| n_busy ::= fun n => n - 1 |>, tt)))
    (fun _ t => t = []) [TIo].
Proof.
  apply safe_atomic. intros o s fr HI. unfold finish_io_conn. pose proof (pending_small _ _ HI) as Hp. cbn [app] in Hp. open_inv fr s HI.
  rewrite Z_gtb_true by lia. cbn [mbind option_bind]. eexists _, _. split; [done|]. split; [by intros ?|]. intros _. exists [].
  split; [|done]. build_inv; rewrite ?u32_small by lia; count.
Qed.

Lemma dispatch_safe type n t :
  nsafe (Conn_dispatch type n) (fun _ t' => t' = [TIo]) t -> nsafe (Conn_iocp_dispatch true type n) (fun _ t => t = []) t.
Proof. intros H. apply safe_bind. eapply safe_mono; [|exact H]. intros _ t' ->. apply conn_finish_io_safe. Qed.

Lemma dispatch_disconnect_safe : nsafe (Conn_dispatch EventType_disconnect 0) (fun _ t => t = [TIo]) [TCloser Won; TIo].
Proof.
  apply (frame_nil _ [TCloser Won] [TIo]). apply safe_bind, on_conn_safe. intros s fr HI. cbn [fst snd]. split; [by intros ?|].
  intros _. exists [TCloser Won]. split; [|apply process_disconnect_safe; by left].
  open_inv fr s HI. destruct dfl; cbn [b2z] in *; [lia|]. build_inv; count.
Qed.

(** *** Jobs *)

Lemma calls_neutral calls : Forall conn_call_ok calls -> nneutral (conn_calls calls).
Proof.
  induction 1 as [|call calls Hc _ IH]; [done|]. apply neutral_bind; [|done].
  destruct call; [by apply send_neutral|]. apply disconnect_safe. auto.
Qed.

Lemma only_job j t s : ConnInv (TJob j :: t) s -> jobs t = [] /\ n_running s = true.
Proof.
  intros HI. pose proof (ji_running _ _ (ci_jobs _ _ HI)) as H. rewrite jobs_cons, zlen_cons in H.
  pose proof (zlen_nonneg (jobs t)). destruct (n_running s); cbn in H; [|lia]. split; [apply zlen_zero; lia|done].
Qed.

(** The handler of a packet runs only while the session is connected. *)
Lemma start_handler_safe pkt : nsafe (start_handler pkt) (fun _ t => t = [TJob JDone]) [TJob (JPacket pkt)].
Proof.
  apply safe_atomic. intros o s fr HI. eexists _, _. split; [done|].
  split; [destruct (s_is_connect (n_session s)); [by intros ?|apply ConnG_refl]|]. intros _. eexists. split; [|done].
  destruct (only_job _ _ _ HI) as [E1 E2].
  assert (s_is_connect (n_session s) = false -> gone s = true) as Hg.
  { apply gone_opened. destruct (opened (n_phase s)) eqn:Eo; [done|].
    pose proof (ri_fresh _ _ (ci_recv _ _ HI) Eo) as (_ & Ef & _). pose proof (ji_packets _ _ (ci_jobs _ _ HI)) as Hp.
    rewrite Ef in Hp. apply prefix_nil_inv in Hp. unfold posted in Hp. rewrite packets_app in Hp. apply app_nil in Hp as [Hp _].
    destruct (ji_ran _ _ (ci_jobs _ _ HI)) as (ps & sk & cl & _ & Er & _). rewrite Hp in Er. cbn [app] in Er. rewrite jobs_cons in Er.
    cbn in Er. by destruct ps, sk. }
  unfold gone in Hg. open_inv fr s HI. rewrite E1 in *. destruct Jran as (ps & sk & cl & Er & Ep & Hsk & Hcl & Hcl').
  cbn [undecided unrecorded omap sumZ foldr] in *.
  destruct conn; fields in *; build_inv; rewrite ?E1; count.
  - destruct Hsk as [-> |?], Hcl' as [-> |[_ ?]]; try done. exists (ps ++ [pkt]), [], []. rewrite fmap_app, Er, Ep, !app_nil_r. by split_and!; auto.
  - exists ps, (sk ++ [pkt]), cl. rewrite Ep, <- app_assoc. split_and!; try done. by right; apply Hg.
Qed.

Lemma record_cleanup_safe : nsafe record_cleanup (fun _ t => t = [TJob JCleaned]) [TJob JCleanup].
Proof.
  apply safe_atomic. intros o s fr HI. eexists _, _. split; [done|]. split; [by intros ?|]. intros _. eexists. split; [|done].
  destruct (only_job _ _ _ HI) as [E1 E2]. open_inv fr s HI. rewrite E1 in *. destruct Jran as (ps & sk & cl & Er & Ep & Hsk & Hcl & Hcl').
  unfold cleaning in Jclean. cbn [undecided unrecorded omap sumZ foldr] in *. pose proof (conn_cleanups_nonneg lq).
  assert (disc = true) as Hd by (destruct disc, cdone; cbn [b2z] in *; done || lia).
  build_inv; rewrite ?E1; count.
  rewrite cleanups_app in Jonce. pose proof (zlen_nonneg cl). pose proof (b2z_bounds disc).
  assert (cl = []) as -> by (apply zlen_zero; lia). exists ps, sk, [CleanupJob]. rewrite Er, app_nil_r. split_and!; try done. right. split; [done|by apply Ldisc].
Qed.

Lemma cleanup_done_safe : nsafe (store_conn (fun x => x <| s_cleanup_done := true |>)) (fun _ t => t = [TJob JDone]) [TJob JCleaned].
Proof.
  apply on_conn_safe. intros s fr HI. cbn [fst snd]. split; [by intros ?|]. intros _. eexists. split; [|done].
  destruct (only_job _ _ _ HI) as [E1 E2]. open_inv fr s HI. rewrite E1 in *. unfold cleaning in Jclean. cbn [sumZ foldr] in *.
  pose proof (conn_cleanups_nonneg lq). pose proof (b2z_bounds disc). assert (cdone = false) as -> by (destruct cdone; cbn [b2z] in *; done || lia).
  build_inv; rewrite ?E1; count.
  unfold cleaning. cbn [sumZ foldr]. lia.
Qed.

Lemma job_end_safe :
  nsafe (atomic (fun _ s => if s_pending_jobs (n_session s) >? 0
                     then Some (s <| n_session ::= fun x => x <| s_pending_jobs ::= fun n => u32 (n - 1) |> |>
                                  <| n_running := false |>, tt)
                     else None)) (fun _ t => t = []) [TJob JDone].
Proof.
  apply safe_atomic. intros o s fr HI. destruct (only_job _ _ _ HI) as [E1 E2]. open_inv fr s HI. rewrite E1 in *. subst run. cbn [b2z] in *.
  pose proof (zlen_nonneg lq). rewrite Z_gtb_true by lia. eexists _, _. split; [done|]. split; [by intros ?|]. intros Hl. exists [].
  split; [|done]. unfold conn_lim, job_backlog, posted in Hl. fields in *. pose proof (b2z_bounds (cleanups (popped ++ lq) =? 0)). pose proof (zlen_nonneg popped).
  build_inv; rewrite ?E1, ?u32_small by lia; count.
Qed.

Lemma run_job_safe job calls :
  Forall conn_call_ok calls ->
  nsafe (Conn_run_job job calls) (fun _ t => t = []) [TJob (match job with PacketJob pkt => JPacket pkt | CleanupJob => JCleanup end)].
Proof.
  intros Hc. apply safe_bind. apply (safe_mono _ _ _ _ (fun _ t => t = [TJob JDone])); [intros _ t ->; apply job_end_safe|].
  destruct job as [pkt|].
  - apply safe_bind. eapply safe_mono; [|apply start_handler_safe]. intros [] t ->; cbn [negb]; [|done].
    by apply (frame_nil _ [] [TJob JDone]), calls_neutral.
  - apply safe_bind. eapply safe_mono; [|apply record_cleanup_safe]. intros _ t ->.
    apply safe_neutral_bind; [exact _|by apply store_neutral|]. intros _.
    apply safe_neutral_bind; [exact _|by apply store_neutral|]. intros _. apply cleanup_done_safe.
Qed.

(** *** The environment *)

Lemma io_send_ok s bs n t :
  n_busy s < THREAD_MAX -> n_send s = Some bs -> 0 <= n <= zlen bs -> ConnInv t s ->
  ConnInv (TSender (Completed n) :: t)
    (s <| n_busy ::= fun k => k + 1 |> <| n_send := None |> <| n_sent ::= fun l => l ++ take (Z.to_nat n) bs |>).
Proof.
  intros Hb Hbs Hn HI. destruct (si_flight _ _ (ci_send _ _ HI) bs Hbs) as [[tl Etl] _].
  pose proof (si_one _ _ (ci_send _ _ HI)) as H1. unfold senders in H1. rewrite Hbs in H1. cbn [flying] in H1.
  assert (sendings t = []) as E1 by (apply zlen_zero; pose proof (zlen_nonneg (sendings t)); lia).
  open_inv t s HI. subst out. rewrite E1 in *.
  build_inv; rewrite ?E1; count.
  - intros Ho. destruct (Sfresh Ho) as [? _]. lia.
  - constructor; [|constructor]. rewrite Etl, zlen_app. pose proof (zlen_nonneg tl). lia.
  - intros Hk. destruct (Sorder Hk) as (rest & E & Hr). exists rest. split; [|intros ? _; apply Hr; auto].
    unfold taken in *. cbn [sumZ foldr] in *. change (Z.to_nat 0) with 0%nat in E. rewrite drop_0 in E.
    rewrite E, Etl, Z.add_0_r, drop_app_le by (unfold zlen in *; lia).
    rewrite <- (take_drop (Z.to_nat n) bs) at 1. by rewrite <- !app_assoc.
Qed.

Lemma io_recv_ok s len chunk t :
  n_busy s < THREAD_MAX -> n_recv s = Some len -> zlen chunk <= len -> byte_stream chunk -> ConnInv t s ->
  ConnInv (TReceiver (Holding (RecvBuffer_os_store chunk (s_recv_buffer (n_session s))) (RecvBuffer_data (s_recv_buffer (n_session s)) ++ chunk)) :: TIo :: t)
    (s <| n_busy ::= fun k => k + 1 |> <| n_recv := None |> <| n_received ::= fun l => l ++ chunk |>
       <| n_session ::= fun x => x <| s_recv_buffer ::= RecvBuffer_os_store chunk |> |>).
Proof.
  intros Hb Hlen Hc Hbytes HI. destruct (ri_flight _ _ (ci_recv _ _ HI) len Hlen) as (-> & _ & Erec & _).
  pose proof (ri_one _ _ (ci_recv _ _ HI)) as H1. unfold receivers in H1. rewrite Hlen in H1. cbn [flying] in H1.
  assert (receivings t = []) as E1 by (apply zlen_zero; pose proof (zlen_nonneg (receivings t)); lia).
  destruct (ri_buffer _ _ (ci_recv _ _ HI)) as [Hwf Hsz]. pose proof (os_store_len _ Hwf chunk Hc) as Hlen'.
  assert (n_phase s = Serving) as Hs. { apply (ri_open _ _ (ci_recv _ _ HI)). unfold receivers. rewrite Hlen, E1. done. }
  open_inv t s HI. subst inc ph. rewrite E1 in *.
  build_inv; rewrite ?E1; count.
  - split; [|done]. destruct Hwf. constructor; cbn; done.
  - constructor; [|constructor]. split; [done|]. by rewrite Erec, <- app_assoc.
  - by apply Forall_app_2.
  - destruct Rframed as [Hh [tl ->]]. split; [done|]. exists (tl ++ chunk). by rewrite <- app_assoc.
Qed.

Lemma io_disconnect_ok s t :
  n_busy s < THREAD_MAX -> n_disconnect s = true -> ConnInv t s ->
  ConnInv (TCloser Won :: TIo :: t) (s <| n_busy ::= fun k => k + 1 |> <| n_disconnect := false |>).
Proof. intros Hb Hd HI. open_inv t s HI. subst dfl. build_inv; count.
Qed.

Lemma io_job_ok s job rest t :
  n_running s = false -> s_logic_queue (n_session s) = job :: rest -> ConnInv t s ->
  ConnInv (TJob (match job with PacketJob pkt => JPacket pkt | CleanupJob => JCleanup end) :: t)
    (s <| n_running := true |> <| n_popped ::= fun l => l ++ [job] |> <| n_session ::= fun x => x <| s_logic_queue := rest |> |>).
Proof.
  intros Hr Hq HI. pose proof (ji_running _ _ (ci_jobs _ _ HI)) as Hj. rewrite Hr in Hj. apply zlen_zero in Hj.
  open_inv t s HI. subst run lq. rewrite Hj in *. rewrite zlen_cons in Jpend.
  destruct Jran as (ps & sk & cl & Er & Ep & Hsk & Hcl & Hcl'). cbn [undecided unrecorded omap list_omap sumZ foldr] in *. rewrite app_nil_r in Ep.
  destruct job as [pkt|]; build_inv; rewrite ?Hj, <- ?app_assoc; count.
  - exists ps, sk, cl. rewrite packets_app, cleanups_app, Ep, Hcl. cbn. rewrite <- app_assoc. by split_and!; try lia.
  - change (cleanups (CleanupJob :: rest)) with (1 + cleanups rest) in *. unfold cleaning in *. cbn [sumZ foldr] in *. lia.
  - exists ps, sk, cl. rewrite packets_app, cleanups_app, Ep, Hcl. cbn. rewrite !app_nil_r. by split_and!; try lia.
Qed.

Lemma pending_bound ev : SendEvent_wf ev -> zlen (SendEvent_pending ev) < 2 ^ 31.
Proof.
  intros Hwf. pose proof (pending_len ev Hwf) as Hp. pose proof (offset_le ev Hwf). pose proof (payloads_bound _ (rest_ok ev Hwf)).
  pose proof (rest_len ev Hwf). lia.
Qed.

Lemma conn_io_ok : env_ok ConnInv ConnG conn_lim conn_io.
Proof.
  intros s s' p t Hst HI _. destruct Hst as [s bs n Hb Hbs Hn|s len chunk Hb Hlen Hc Hbytes|s Hb Hd|s job rest calls Hr Hq Hc].
  - exists [TSender (Completed n)]. destruct (si_flight _ _ (ci_send _ _ HI) bs Hbs) as [[tl Etl] ->]. split.
    + apply dispatch_safe. cbn [Conn_dispatch]. rewrite i32_small; [apply conn_process_send_safe|].
      pose proof (pending_bound _ (si_event _ _ (ci_send _ _ HI))) as Hp. rewrite Etl, zlen_app in Hp. pose proof (zlen_nonneg tl). lia.
    + rewrite (Permutation_app_comm t). by apply io_send_ok.
  - destruct (ri_flight _ _ (ci_recv _ _ HI) len Hlen) as (El & _ & _ & _ & ->). subst len.
    destruct (ri_buffer _ _ (ci_recv _ _ HI)) as [Hwf Hsz]. eexists [TReceiver (Holding _ _); TIo]. split.
    + apply dispatch_safe. cbn [Conn_dispatch]. rewrite i32_small.
      * apply (frame_nil _ [_] [TIo]). by apply conn_process_recv_safe.
      * pose proof (zlen_nonneg chunk). unfold RecvBuffer_free_size in Hc.
        pose proof (i32_range (rb_capacity (s_recv_buffer (n_session s)) - rb_write_pos (s_recv_buffer (n_session s)))). lia.
    + rewrite (Permutation_app_comm t). by eapply io_recv_ok.
  - exists [TCloser Won; TIo]. rewrite (li_owner _ _ (ci_life _ _ HI) Hd). split.
    + apply dispatch_safe, dispatch_disconnect_safe.
    + rewrite (Permutation_app_comm t). by apply io_disconnect_ok.
  - eexists [TJob _]. split; [by apply run_job_safe|]. rewrite (Permutation_app_comm t). by apply io_job_ok.
Qed.

(** Phases and shutting down. *)
Lemma opening_inv s t :
  n_phase s = Waiting -> n_closing s = false -> ConnInv t s -> ConnInv (TNew :: t) (s <| n_phase := Opening |>).
Proof.
  intros Hp Hc HI. open_inv t s HI. subst ph closing. build_inv; count.
  intros Hr. by apply Ropen in Hr.
Qed.

Lemma conn_closing_inv s t : n_phase s <> Opening -> ConnInv t s -> ConnInv (TStop :: t) (s <| n_closing := true |>).
Proof.
  intros Hp HI. assert (n_phase s = Waiting -> s_is_connect (n_session s) = false) as Hw.
  { intros E. destruct (s_is_connect (n_session s)) eqn:Ec; [|done]. pose proof (li_open _ _ (ci_life _ _ HI) Ec) as Ho. by rewrite E in Ho. }
  open_inv t s HI. destruct ph; [rewrite (Hw eq_refl) in *|done|..]; build_inv; count.
  all: try (by apply Forall_true); try (by constructor; [|apply Forall_true]).
  all: try (eapply Forall_impl; [exact Lshuts|]; by intros _ [? _]).
  destruct Jran as (ps & sk & cl & ? & ? & _ & ? & Hcl). exists ps, sk, cl. split_and!; try done; [by right|]. destruct Hcl as [?|[? _]]; auto.
Qed.

(** At the end of a shutdown no thread uses the send event. *)
Lemma completed_io t : zlen (ios t) = 0 -> Forall (fun st => match st with Completed _ => False | _ => True end) (sendings t).
Proof.
  induction t as [|k t IH]; [constructor|]. pose proof (zlen_nonneg (ios t)).
  destruct k as [[]|[]|[]| | | | | | | | | | ]; autorewrite with conn_tokens; intros Hz; try (constructor; [done|]); try (apply IH; lia); lia.
Qed.

Lemma waited_inv s t :
  s_shutdown_started (n_session s) = true -> Session_shutdown_complete (n_session s) = true -> ConnInv t s ->
  ConnInv t (s <| n_session ::= wait_for_shutdown_conn |>).
Proof.
  intros Hs Hc HI. assert (zlen (ios t) = 0 /\ n_send s = None) as [Hio Hf].
  { unfold Session_shutdown_complete in Hc. bool_lia. rewrite (io_pending _ _ (ci_io _ _ HI)) in *.
    pose proof (flying_nonneg (n_send s)). pose proof (flying_nonneg (n_recv s)). pose proof (b2z_bounds (n_disconnect s)).
    pose proof (zlen_nonneg (ios t)). split; [lia|]. destruct (n_send s); [cbn in *; lia|done]. }
  pose proof (completed_io t Hio) as Hnc. unfold wait_for_shutdown_conn. open_inv t s HI. subst shut out.
  build_inv; rewrite ?SendEvent_clear_new, ?andb_false_r; count.
  - intros Ho. by destruct (Sfresh Ho) as (? & ? & _ & _ & ? & ? & ?).
  - eapply Forall_impl; [exact Hnc|]. by intros [].
  - intros Hb. destruct (Sorder Hb) as (rest & E & _). eexists. change (SendEvent_pending SendEvent_new) with ([] : bytes).
    rewrite drop_nil. cbn [app]. by split.
Qed.

Lemma conn_env_ok {utf8 : Utf8Check} {laws : PacketCodecLaws codec} : env_ok ConnInv ConnG conn_lim conn_env.
Proof.
  intros s s' p t Hst HI Hl. destruct Hst as [s s' p Hst|s Hp Hc|s n Hp Hc|s call Hc|s Hp|s Hs Hc].
  - by eapply conn_io_ok.
  - exists [TNew]. split; [apply process_connect_safe|]. rewrite (Permutation_app_comm t). by apply opening_inv.
  - exists [TNew]. split; [apply reject_connection_safe|]. rewrite (Permutation_app_comm t). by apply opening_inv.
  - exists []. rewrite app_nil_r. split; [|done]. destruct call; [by apply send_neutral|]. apply disconnect_safe. auto.
  - exists [TStop]. split; [apply begin_shutdown_safe|]. rewrite (Permutation_app_comm t). by apply conn_closing_inv.
  - exists []. rewrite app_nil_r. split; [reflexivity|]. by apply waited_inv.
Qed.

Lemma ConnInv_new : ConnInv [] Conn_new.
Proof.
  destruct (RecvBuffer_new_wf BUFFER_SIZE) as (Hwf & Hd & Hs); [done..|].
  constructor; constructor; try done; try (by intros; left); try constructor; try done.
  - exists [], [], []. by split_and!; auto.
  - intros _. by exists [].
Qed.

End Actions.
