(* ===== verification/ConnectionTheorems.v ===== *)
(** * What holds in every run of a server session

    A run starts with a fresh session that waits in an [AcceptEx].  The listener opens or
    rejects it, workers process its completions and its jobs, other threads call [send] and
    [disconnect], the server is shut down: all threads take their steps in any order
    ([nreachable]).  The theorems are about every state such a run can reach, as long as fewer
    than 2^31 jobs have been queued. *)

From stdpp Require Import base list numbers option relations.
From Stdlib Require Import ZArith Lia.
From S2P Require Import Prelude Interleaving Buffers SendEvents Framing JobQueues Wire Protocol Packets Sessions SessionSafety Connections ConnectionSafety.

Section ConnectionTheorems.
Context {utf8 : Utf8Check} {codec : PacketCodec} {laws : PacketCodecLaws codec}.

Definition conn_step (w w' : world Conn) : Prop := wstep conn_env w w' /\ conn_lim (w_state w').
Definition conn_start : world Conn := mkWorld Conn_new [].
Definition nreachable (w : world Conn) : Prop := rtc conn_step conn_start w.

(** ** Lemmas *)

Abbreviation conn_ok := (pool_ok ConnInv ConnG conn_lim).

Lemma nreachable_ok w : nreachable w -> conn_ok w /\ conn_lim (w_state w).
Proof using laws.
  intros Hr. assert (conn_ok conn_start /\ conn_lim (w_state conn_start)) as Hstart.
  { split; [|done]. exists []. split; [constructor|apply ConnInv_new]. }
  unfold nreachable in Hr. revert Hstart. induction Hr as [w|w w1 w2 [Hst Hl] _ IH]; [done|].
  intros [Hok _]. apply IH. split; [|done]. by apply (wstep_safe ConnInv ConnG conn_lim conn_env w w1 conn_env_ok).
Qed.

Lemma conn_rest w : conn_ok w -> exists t, ConnInv t (w_state w) /\ (w_threads w = [] -> t = []).
Proof using.
  intros (tss & Hts & HI). exists (concat tss). split; [done|]. intros Hw. rewrite Hw in Hts. by apply Forall2_nil_inv_l in Hts as ->.
Qed.

(** The tokens behind a reachable state; at rest there are none. *)
Lemma nreachable_inv w : nreachable w -> exists t, ConnInv t (w_state w) /\ (w_threads w = [] -> t = []).
Proof using laws. intros [Hok _]%nreachable_ok. by apply conn_rest. Qed.

(** *** Draining *)

Definition conn_drained (s : Conn) : Prop := s_logic_stopped (n_session s) = true /\ conn_lim s.

Definition conn_flights (s : Conn) : nat :=
  Z.to_nat (flying (n_send s) + flying (n_recv s) + b2z (n_disconnect s) + job_backlog s).

Lemma ConnG_drained s s' : ConnG s s' -> conn_drained s -> conn_drained s' /\ conn_flights s' = conn_flights s.
Proof.
  intros HG [Hs Hl]. destruct (HG Hs) as (Hs' & E1 & E2 & E3 & E4 & E5). unfold conn_drained, conn_lim, conn_flights in *.
  by rewrite E1, E2, E3, E4, E5.
Qed.

Lemma conn_io_drained s s' p :
  conn_io s s' p -> conn_drained s -> conn_drained s' /\ (conn_flights s' < conn_flights s)%nat.
Proof.
  intros Hst [Hs Hl]. unfold conn_drained, conn_lim, conn_flights, job_backlog, posted in *.
  destruct Hst as [s bs n Hb Hbs Hn|s len chunk Hb Hlen Hc Hbytes|s Hb Hd|s job rest calls Hr Hq Hc]; destruct s; fields in *; subst.
  all: fields in *; try rewrite Hq in *; rewrite <- ?app_assoc in *; cbn [app] in *; rewrite ?zlen_app, ?zlen_cons, ?@zlen_nil in *.
  all: repeat match goal with |- context [flying ?k] => lazymatch goal with H : 0 <= flying k |- _ => fail | _ => pose proof (flying_nonneg k) end end.
  all: repeat match goal with |- context [b2z ?k] => lazymatch goal with H : 0 <= b2z k <= 1 |- _ => fail | _ => pose proof (b2z_bounds k) end end.
  all: repeat match goal with |- context [zlen ?k] => lazymatch goal with H : 0 <= zlen k |- _ => fail | _ => pose proof (zlen_nonneg k) end end.
  all: split; [split; [done|lia]|lia].
Qed.

Lemma conn_drain_runs w w' :
  rtc (wstep conn_io) w w' -> conn_drained (w_state w) -> conn_ok w -> conn_drained (w_state w') /\ conn_ok w'.
Proof using.
  induction 1 as [w|w w1 w2 Hst _ IH]; [done|]. intros Hd Hok.
  destruct (drain_step ConnInv ConnG conn_lim conn_drained conn_flights conn_io ConnG_drained
              (fun s (H : conn_drained s) => proj2 H) conn_io_ok conn_io_drained w w1 Hst Hd Hok) as (Hd1 & Hok1 & _).
  by apply IH.
Qed.

(** What cannot make a step has nothing in flight and no job waiting. *)
Lemma conn_rest_empty s :
  ConnInv [] s -> (forall s' p, ~ conn_io s s' p) ->
  n_send s = None /\ n_recv s = None /\ n_disconnect s = false /\ s_logic_queue (n_session s) = [].
Proof using.
  intros HI Hr. destruct (io_busy _ _ (ci_io _ _ HI)) as [Hb _]. change (zlen (workers [])) with 0 in Hb.
  assert (n_busy s < THREAD_MAX) as Hb' by (unfold THREAD_MAX; lia). split_and!.
  - destruct (n_send s) as [bs|] eqn:E; [|done]. exfalso. pose proof (zlen_nonneg bs). eapply Hr, (io_send s bs 0); [done..|lia].
  - destruct (n_recv s) as [len|] eqn:E; [|done]. exfalso. destruct (ri_flight _ _ (ci_recv _ _ HI) len E) as (_ & Hl & _).
    eapply Hr, (io_recv s len []); [done..| |constructor]. unfold BUFFER_SIZE in Hl. rewrite @zlen_nil. lia.
  - destruct (n_disconnect s) eqn:E; [|done]. exfalso. by eapply Hr, (io_disconnect s).
  - destruct (s_logic_queue (n_session s)) as [|j q] eqn:E; [done|]. exfalso. pose proof (ji_running _ _ (ci_jobs _ _ HI)) as Hj.
    eapply Hr, (io_job s j q []); [by destruct (n_running s)|done|constructor].
Qed.

(** A session whose connection is over and that has come to rest has been cleaned up. *)
Lemma conn_cleaned s :
  ConnInv [] s -> n_send s = None -> n_recv s = None -> n_disconnect s = false -> s_logic_queue (n_session s) = [] ->
  gone s = true -> s_cleanup_done (n_session s) = true /\ Session_shutdown_complete (n_session s) = true.
Proof using.
  intros HI E1 E2 E3 E4 Hg. open_inv (@nil Token) s HI. subst out inc dfl lq.
  change (zlen (shuts [])) with 0 in *. change (zlen (stops [])) with 0 in *. change (zlen (closers [])) with 0 in *.
  change (zlen (jobs [])) with 0 in *. change (cleaning (jobs [])) with 0 in *. change (zlen (cleans [])) with 0 in *. change (zlen (ios [])) with 0 in *. cbn [b2z flying] in *.
  assert (disc = true) as -> by (destruct (Lgone Hg) as [?|[?|?]]; [done|lia|lia]). change (cleanups []) with 0 in *.
  assert (cdone = true) as -> by (destruct cdone; [done|]; cbn in *; lia). split; [done|].
  unfold Session_shutdown_complete. fields. rewrite Ipend, Jpend, <- Jrun. done.
Qed.

(** ** Properties *)

(** C2: no interleaving breaks a session.  Whatever the order in which workers, handlers of other
    sessions, the listener and the shutdown run, no assertion fails, no [OVERLAPPED] is used
    again while it is in flight and no buffer is read out of range.  An event in flight keeps its
    session alive, so that its completion is never discarded; when no thread runs [_pending_io] is
    exactly the number of operations in flight and [_pending_jobs] the number of jobs waiting. *)
Theorem conn_safe w :
  nreachable w ->
  let s := w_state w in
  Crash ∉ w_threads w /\
  (n_send s <> None -> s_send_owner (n_session s) = true) /\
  (n_recv s <> None -> s_recv_owner (n_session s) = true) /\
  (n_disconnect s = true -> s_disconnect_owner (n_session s) = true) /\
  (w_threads w = [] ->
     s_pending_io (n_session s) = flying (n_send s) + flying (n_recv s) + b2z (n_disconnect s) /\
     s_pending_jobs (n_session s) = zlen (s_logic_queue (n_session s))).
Proof using laws.
  intros Hr s. destruct (nreachable_inv w Hr) as (t & HI & Ht). fold s in HI. split_and!.
  - apply (pool_no_crash ConnInv ConnG conn_lim), nreachable_ok, Hr.
  - destruct (n_send s) as [bs|] eqn:E; [|done]. intros _. by destruct (si_flight _ _ (ci_send _ _ HI) bs E).
  - destruct (n_recv s) as [len|] eqn:E; [|done]. intros _. by destruct (ri_flight _ _ (ci_recv _ _ HI) len E) as (_ & _ & _ & _ & ?).
  - apply (li_owner _ _ (ci_life _ _ HI)).
  - intros Hw. rewrite (Ht Hw) in HI. rewrite (io_pending _ _ (ci_io _ _ HI)), (ji_pending _ _ (ci_jobs _ _ HI)).
    rewrite <- (ji_running _ _ (ci_jobs _ _ HI)). split; [done|]. by rewrite Z.add_0_r.
Qed.

(** C6: what is sent.  Until a send is given up after an error, the bytes transmitted are a prefix
    of the packets accepted by [send], in the order in which they were accepted, whichever
    threads called it and however the system split the sends.  And no packet is stranded: when no
    thread runs, a connected session that is not being shut down has a send in flight, or has
    transmitted every packet it accepted. *)
Theorem conn_send_order w :
  nreachable w ->
  let s := w_state w in
  (n_broken s = false -> n_sent s `prefix_of` payloads (n_accepted s)) /\
  (w_threads w = [] -> s_is_connect (n_session s) = true -> s_shutdown_started (n_session s) = false ->
     n_broken s = false /\ (n_send s = None -> n_sent s = payloads (n_accepted s))).
Proof using laws.
  intros Hr s. destruct (nreachable_inv w Hr) as (t & HI & Ht). fold s in HI. split.
  - intros Hb. destruct (si_order _ _ (ci_send _ _ HI) Hb) as (rest & -> & _). by eexists.
  - intros Hw Hc Hs. rewrite (Ht Hw) in HI. assert (live s = true) as Hl by (unfold live; by rewrite Hc, Hs).
    assert (n_broken s = false) as Hb.
    { destruct (n_broken s) eqn:E; [|done]. pose proof (si_broken _ _ (ci_send _ _ HI) E Hl) as Hd. change (zlen (discs [])) with 0 in Hd. lia. }
    split; [done|]. intros Hn. assert (senders [] s = 0) as Hz by (unfold senders; by rewrite Hn).
    destruct (si_order _ _ (ci_send _ _ HI) Hb) as (rest & E & Hrest). rewrite (Hrest Hs (or_introl Hc)) in E.
    destruct (si_idle _ _ (ci_send _ _ HI) Hl Hz) as [Hq|Hd]; [|change (zlen (discs [])) with 0 in Hd; lia].
    rewrite (si_clear _ _ (ci_send _ _ HI) Hl Hz), Hq in E. rewrite E. cbn. by rewrite app_nil_r.
Qed.

(** C7: what is received.  The packets handed to [on_recv_packet] are the packets of the received
    stream, each once and in order, and their jobs are queued in that order, every one of them
    unless the session is being shut down.  And a client is never left unheard: when no thread
    runs, a session that is connected, serves a client and is not being shut down has a receive in
    flight with room for the largest packet, and all that was received has been handed on except
    the beginning of the next packet. *)
Theorem conn_recv_order w :
  nreachable w ->
  let s := w_state w in
  Forall is_packet (n_framed s) /\ concat (n_framed s) `prefix_of` n_received s /\
  packets (posted s) `prefix_of` omap decode (n_framed s) /\
  (s_logic_stopped (n_session s) = false -> packets (posted s) = omap decode (n_framed s)) /\
  (w_threads w = [] -> s_is_connect (n_session s) = true -> s_shutdown_started (n_session s) = false -> n_phase s = Serving ->
     exists len tail, n_recv s = Some len /\ BUFFER_SIZE <= len /\ n_received s = concat (n_framed s) ++ tail /\ incomplete tail).
Proof using laws.
  intros Hr s. destruct (nreachable_inv w Hr) as (t & HI & Ht). fold s in HI.
  destruct (ri_framed _ _ (ci_recv _ _ HI)) as [H1 H2]. split_and!; [done|done|apply HI|apply HI|].
  intros Hw Hc Hs Hp. rewrite (Ht Hw) in HI. assert (live s = true) as Hl by (unfold live; by rewrite Hc, Hs).
  pose proof (ri_alive _ _ (ci_recv _ _ HI) Hl Hp) as Ha. unfold receivers in Ha. change (zlen (discs [])) with 0 in Ha.
  change (zlen (receivings [])) with 0 in Ha. destruct (n_recv s) as [len|] eqn:E; [|cbn in Ha; lia].
  destruct (ri_flight _ _ (ci_recv _ _ HI) len E) as (_ & ? & ? & ? & _). eauto 10.
Qed.


(** C13: shutting down ends.  Once [begin_shutdown] has stopped the logic of a session, no order of
    the remaining steps of its threads, completions and jobs goes on for ever, and when nothing
    more can happen all threads have returned, nothing is in flight, every queued job has been
    taken, the cleanup has run, and [wait_for_shutdown] returns. *)
Theorem conn_shutdown_drains w :
  nreachable w -> s_logic_stopped (n_session (w_state w)) = true ->
  Acc (fun w2 w1 => wstep conn_io w1 w2) w /\
  forall w', rtc (wstep conn_io) w w' -> (forall w'', ~ wstep conn_io w' w'') ->
    let s := w_state w' in
    w_threads w' = [] /\ n_send s = None /\ n_recv s = None /\ n_disconnect s = false /\
    s_logic_queue (n_session s) = [] /\ s_cleanup_done (n_session s) = true /\
    Session_shutdown_complete (n_session s) = true.
Proof using laws.
  intros [Hok Hl]%nreachable_ok Hs. assert (conn_drained (w_state w)) as Hd by by split. split.
  - eapply (drain_acc ConnInv ConnG conn_lim conn_drained conn_flights conn_io);
      eauto using ConnG_drained, conn_io_ok, conn_io_drained. by intros ? [_ ?].
  - intros w' Hr Hrest. destruct (conn_drain_runs w w' Hr Hd Hok) as [[Hs' _] Hok'].
    pose proof (rest_no_threads ConnInv ConnG conn_lim conn_io w' Hok' Hrest) as Hw.
    destruct (conn_rest w' Hok') as (t & HI & Ht). rewrite (Ht Hw) in HI. destruct w' as [s l]. cbn [w_state w_threads] in *. subst l.
    destruct (conn_rest_empty s HI) as (F1 & F2 & F3 & F4).
    { intros s' p Hio. eapply Hrest. by apply (wstep_env conn_io [] s s' p). }
    assert (gone s = true) as Hg.
    { apply (li_disconnected _ _ (ci_life _ _ HI)). rewrite (li_stop _ _ (ci_life _ _ HI)) in Hs'.
      destruct (li_shut _ _ (ci_life _ _ HI) Hs') as [?|Hx]; [done|]. change (zlen (shuts [])) with 0 in Hx. lia. }
    by destruct (conn_cleaned s HI F1 F2 F3 F4 Hg).
Qed.
End ConnectionTheorems.
