(* ===== verification/ConnectionDemo.v ===== *)
(** * Runs of a server session

    The programs of the file Connections executed on concrete inputs: two threads send at once,
    the system sends one of the packets in two parts, a request arrives in two pieces and its
    handler answers, the client leaves, the server shuts down.  The witnesses of the theorems of
    [ConnectionTheorems] are about these runs.  The last run shows an interleaving of the code in
    which the stream of a client has a gap. *)

From stdpp Require Import base list numbers option relations.
From Stdlib Require Import ZArith Lia.
From S2P Require Import Prelude Interleaving Buffers SendEvents Framing JobQueues Wire Protocol Messages Packets Runtime Sessions SessionSafety Connections ConnectionSafety ConnectionTheorems.

Section ConnectionRun.
Context {utf8 : Utf8Check} {codec : PacketCodec}.

(** What the environment does. *)
Inductive ConnEvent :=
| EConnect | EReject (max_session_count : Z) | ECall (call : ConnCall) | ESent (n : Z) | EReceived (chunk : bytes)
| EDisconnected | EJob (calls : list ConnCall) | EShut | EWait.

Definition conn_call_okb (call : ConnCall) : bool :=
  match call with
  | CallSend b => (0 <=? sb_write_size b) && (sb_write_size b <=? zlen (sb_buffer b)) && (sb_write_size b <? 2 ^ 16)
  | CallDisconnect => true
  end.

Definition phase_is (p q : Phase) : bool :=
  match p, q with Waiting, Waiting | Opening, Opening | Serving, Serving | Rejecting, Rejecting => true | _, _ => false end.

Definition guarded {A} (b : bool) (x : A) : option A := if b then Some x else None.

Definition conn_spawn (e : ConnEvent) (s : Conn) : option (Conn * nprog unit) :=
  match e with
  | EConnect => guarded (phase_is (n_phase s) Waiting && negb (n_closing s)) (s <| n_phase := Opening |>, Conn_process_connect)
  | EReject n => guarded (phase_is (n_phase s) Waiting && negb (n_closing s)) (s <| n_phase := Opening |>, Conn_reject_connection n)
  | ECall call => guarded (conn_call_okb call) (s, conn_call call)
  | ESent n =>
      match n_send s with
      | Some bs => guarded ((n_busy s <? THREAD_MAX) && (0 <=? n) && (n <=? zlen bs))
          (s <| n_busy ::= fun k => k + 1 |> <| n_send := None |> <| n_sent ::= fun l => l ++ take (Z.to_nat n) bs |>,
           Conn_iocp_dispatch (s_send_owner (n_session s)) EventType_send (i32 n))
      | None => None
      end
  | EReceived chunk =>
      match n_recv s with
      | Some len => guarded ((n_busy s <? THREAD_MAX) && (zlen chunk <=? len) && forallb (fun b => (0 <=? b) && (b <? 256)) chunk)
          (s <| n_busy ::= fun k => k + 1 |> <| n_recv := None |> <| n_received ::= fun l => l ++ chunk |>
             <| n_session ::= fun x => x <| s_recv_buffer ::= RecvBuffer_os_store chunk |> |>,
           Conn_iocp_dispatch (s_recv_owner (n_session s)) EventType_Recv (i32 (zlen chunk)))
      | None => None
      end
  | EDisconnected => guarded ((n_busy s <? THREAD_MAX) && n_disconnect s)
      (s <| n_busy ::= fun k => k + 1 |> <| n_disconnect := false |>,
       Conn_iocp_dispatch (s_disconnect_owner (n_session s)) EventType_disconnect 0)
  | EJob calls =>
      match s_logic_queue (n_session s) with
      | job :: rest => guarded (negb (n_running s) && forallb conn_call_okb calls)
          (s <| n_running := true |> <| n_popped ::= fun l => l ++ [job] |> <| n_session ::= fun x => x <| s_logic_queue := rest |> |>,
           Conn_run_job job calls)
      | [] => None
      end
  | EShut => guarded (negb (phase_is (n_phase s) Opening)) (s <| n_closing := true |>, Conn_begin_shutdown)
  | EWait => guarded (s_shutdown_started (n_session s) && Session_shutdown_complete (n_session s))
      (s <| n_session ::= wait_for_shutdown_conn |>, mret ())
  end.

Lemma guarded_some {A} b (x y : A) : guarded b x = Some y -> b = true /\ x = y.
Proof. destruct b; cbn; [|done]. by intros [= ->]. Qed.

Lemma phase_is_eq p q : phase_is p q = true -> p = q.
Proof. by destruct p, q. Qed.

Lemma conn_call_okb_sound call : conn_call_okb call = true -> conn_call_ok call.
Proof. destruct call; cbn; [|done]. intros H. bool_lia. unfold packet_buffer, SendBuffer_wf. lia. Qed.

Lemma conn_spawn_sound e s s' p : conn_spawn e s = Some (s', p) -> conn_env s s' p.
Proof.
  destruct e; cbn [conn_spawn]; intros H.
  - apply guarded_some in H as [H [= <- <-]]. bool_lia. by apply conn_connects; [apply phase_is_eq|].
  - apply guarded_some in H as [H [= <- <-]]. bool_lia. by apply conn_rejects; [apply phase_is_eq|].
  - apply guarded_some in H as [H [= <- <-]]. by apply conn_called, conn_call_okb_sound.
  - destruct (n_send s) as [bs|] eqn:E; [|done]. apply guarded_some in H as [H [= <- <-]]. bool_lia.
    by apply conn_completes, io_send.
  - destruct (n_recv s) as [len|] eqn:E; [|done]. apply guarded_some in H as [H [= <- <-]]. bool_lia.
    eapply conn_completes, io_recv; try done.
    apply List.Forall_forall. intros b Hb. match goal with H : forallb _ _ = true |- _ => rewrite forallb_forall in H; apply H in Hb end. bool_lia. done.
  - apply guarded_some in H as [H [= <- <-]]. bool_lia. by apply conn_completes, io_disconnect.
  - destruct (s_logic_queue (n_session s)) as [|job rest] eqn:E; [done|]. apply guarded_some in H as [H [= <- <-]]. bool_lia.
    apply conn_completes, io_job; try done.
    apply List.Forall_forall. intros c Hc. apply conn_call_okb_sound. match goal with H : forallb _ _ = true |- _ => rewrite forallb_forall in H; by apply H in Hc end.
  - apply guarded_some in H as [H [= <- <-]]. apply conn_shuts. intros Ho. by rewrite Ho in H.
  - apply guarded_some in H as [H [= <- <-]]. bool_lia. by apply conn_waits.
Qed.

Definition conn_limb (s : Conn) : bool := zlen (n_popped s) + job_backlog s <? 2 ^ 31.

Lemma conn_limb_sound s : conn_limb s = true -> conn_lim s.
Proof. unfold conn_limb. intros H. bool_lia. done. Qed.

Definition conn_run (scs : list (Sched ConnEvent)) (w : world Conn) : world Conn := wrun conn_limb conn_spawn scs w.

(** Every run from a fresh session leads to a reachable world. *)
Lemma conn_run_reach scs : nreachable (conn_run scs conn_start).
Proof. apply (wrun_steps conn_env conn_lim conn_limb conn_limb_sound conn_spawn conn_spawn_sound). done. Qed.
End ConnectionRun.

(** ** The runs *)

Definition calls_pend : Oracle := fun _ => WSA_IO_PENDING.

(** [WSAENOBUFS]. *)
Definition call_refused : Oracle := fun _ => 10055.

(** From its next action to its end. *)
Definition finish (i : nat) : Sched ConnEvent := Advance i 1000 calls_pend.

Definition first_packet : SendBuffer := mkSendBuffer [5; 0; 233; 3; 7] 5.
Definition second_packet : SendBuffer := mkSendBuffer [6; 0; 233; 3; 8; 9] 6.

Definition request : bytes := match MakeSendBuffer demo_login with Some sb => SendBuffer_payload sb | None => [] end.

(** The session is opened; two threads send, their actions interleaved; both packets go
    out in one send that is completed in two parts; a request arrives in two pieces and its
    handler sends an answer, which is sent. *)
Definition serve_sched : list (Sched ConnEvent) :=
  [Spawn EConnect; finish 0; Spawn (ECall (CallSend first_packet)); Spawn (ECall (CallSend second_packet));
   Advance 0 2 calls_pend; Advance 1 1 calls_pend; Advance 0 1 calls_pend; finish 1; finish 0;
   Spawn (ESent 3); finish 0; Spawn (ESent 8); finish 0;
   Spawn (EReceived (take 5 request)); finish 0; Spawn (EReceived (drop 5 request ++ [9])); finish 0;
   Spawn (EJob [CallSend first_packet]); finish 0; Spawn (ESent 5); finish 0].

(** The client closes the connection while another thread is about to send. *)
Definition leave_sched : list (Sched ConnEvent) :=
  [Spawn (ECall (CallSend second_packet)); Advance 0 2 calls_pend; Spawn (EReceived []); finish 1; finish 0;
   Spawn EDisconnected; finish 0; Spawn (EJob []); finish 0].

(** The server shuts down in the middle of a send. *)
Definition shut_sched : list (Sched ConnEvent) :=
  [Spawn (ECall (CallSend second_packet)); Advance 0 3 calls_pend; Spawn EShut; finish 1].

Definition demo_serving : world Conn := conn_run serve_sched conn_start.
Definition demo_left : world Conn := conn_run (serve_sched ++ leave_sched) conn_start.
Definition demo_shut : world Conn := conn_run (serve_sched ++ shut_sched) conn_start.

(** The send of the first packet is refused; before its thread disconnects, another thread sends. *)
Definition gap_sched : list (Sched ConnEvent) :=
  [Spawn EConnect; finish 0; Spawn (ECall (CallSend first_packet)); Advance 0 6 call_refused;
   Spawn (ECall (CallSend second_packet)); finish 1; Spawn (ESent 6); finish 1].

Definition demo_gap : world Conn := conn_run gap_sched conn_start.

Lemma demo_serving_reach : nreachable demo_serving.
Proof. apply conn_run_reach. Qed.

Lemma demo_left_reach : nreachable demo_left.
Proof. apply conn_run_reach. Qed.

Lemma demo_shut_reach : nreachable demo_shut.
Proof. apply conn_run_reach. Qed.

Lemma demo_gap_reach : nreachable demo_gap.
Proof. apply conn_run_reach. Qed.

#[local] Opaque demo_serving demo_left demo_shut demo_gap.

(** The order of the stream needs the premise of [conn_send_order]: [register_send] and
    [process_send] reset [_is_send_register] before they call [disconnect], so that after a refused
    send another thread can still transmit, and the client receives a packet without the one in
    front of it. *)
Theorem send_gap_after_refusal :
  exists w, nreachable w /\ n_broken (w_state w) = true /\ s_is_connect (n_session (w_state w)) = true /\
    n_accepted (w_state w) = [first_packet; second_packet] /\ n_sent (w_state w) = SendBuffer_payload second_packet.
Proof. exists demo_gap. split; [exact demo_gap_reach|]. vm_compute. done. Qed.

(** ** Witnesses *)

Lemma conn_safe_witness :
  s_pending_io (n_session (w_state demo_serving)) = 0 + 1 + 0 /\ n_recv (w_state demo_serving) = Some 655346.
Proof.
  split; [|vm_compute; reflexivity].
  destruct (conn_safe demo_serving demo_serving_reach) as (_ & _ & _ & _ & H). destruct H as [H _]; [vm_compute; reflexivity|].
  rewrite H. vm_compute. reflexivity.
Defined.

Lemma conn_send_order_witness :
  n_sent (w_state demo_serving) = payloads (n_accepted (w_state demo_serving)) /\
  n_accepted (w_state demo_serving) = [first_packet; second_packet; first_packet].
Proof.
  split; [|vm_compute; reflexivity].
  destruct (proj2 (conn_send_order demo_serving demo_serving_reach)) as [_ H]; [vm_compute; reflexivity..|].
  apply H. vm_compute. reflexivity.
Defined.

Lemma conn_recv_order_witness :
  packets (posted (w_state demo_serving)) = omap decode (n_framed (w_state demo_serving)) /\
  length (n_framed (w_state demo_serving)) = 1%nat.
Proof.
  split; [|vm_compute; reflexivity].
  destruct (conn_recv_order demo_serving demo_serving_reach) as (_ & _ & _ & H & _). apply H. vm_compute. reflexivity.
Defined.


Lemma conn_shutdown_drains_witness :
  length (w_threads demo_shut) = 1%nat /\ s_logic_queue (n_session (w_state demo_shut)) = [CleanupJob] /\
  Acc (fun w2 w1 => wstep conn_io w1 w2) demo_shut.
Proof.
  split; [vm_compute; reflexivity|]. split; [vm_compute; reflexivity|].
  apply (conn_shutdown_drains demo_shut demo_shut_reach). vm_compute. reflexivity.
Defined.
