(* ===== verification/ConnectionRefinement.v ===== *)
(** * The two models of a session

    The file Sessions runs a method of a session in one step; the file Connections runs it as a
    program whose actions interleave with those of other threads.  Here: what a method does in
    one step is what its program does when no other thread comes in between, so that the two
    translations of a method agree.  [dequeue] takes the completion of an operation without the
    history that [conn_env] keeps beside it, so that this compares the methods, one at a time, and
    not whole runs of the two models. *)

From stdpp Require Import base list numbers option relations.
From Stdlib Require Import ZArith Lia.
From S2P Require Import Prelude Interleaving Buffers SendEvents Framing JobQueues Wire Protocol Messages Packets Runtime Sessions SessionSafety SessionTheorems Connections ConnectionSafety.

(** ** One thread *)

Section Solo.
Context {St : Type}.

(** A program from its start to its end, each action with its own answers of the system. *)
Inductive solo {A} : prog St A -> St -> St -> A -> Prop :=
| solo_ret a s : solo (Ret a) s s a
| solo_act (B : Set) (f : Oracle -> St -> St * B) k o s s' a :
    solo (k (snd (f o s))) (fst (f o s)) s' a -> solo (Act f k) s s' a.

Lemma solo_bind {A B} (p : prog St A) (k : A -> prog St B) s s1 s2 a b :
  solo p s s1 a -> solo (k a) s1 s2 b -> solo (p ≫= k) s s2 b.
Proof. induction 1 as [|C f k' o s s1 a _ IH]; [done|]. intros H. apply (solo_act C f _ o). by apply IH. Qed.

Lemma solo_runs env (p : prog St unit) s s' l :
  solo p s s' tt -> rtc (wstep env) (mkWorld s (l ++ [p])) (mkWorld s' l).
Proof.
  intros H. remember tt as a eqn:Ea. induction H as [a s|B f k o s s' a _ IH].
  - apply rtc_once. pose proof (wstep_thread env l (Ret a) [] s [] s) as Hw. rewrite app_nil_r in Hw. apply Hw. constructor.
  - eapply rtc_l; [|by apply IH]. apply (wstep_thread env l (Act f k) [] s [k (snd (f o s))] (fst (f o s))). constructor.
Qed.

(** [Q] holds at the end of one way to run a program alone. *)
Definition ends {A} (p : prog St A) (s : St) (Q : A -> St -> Prop) : Prop := exists s' a, solo p s s' a /\ Q a s'.

Lemma ends_ret {A} (a : A) s (Q : A -> St -> Prop) : Q a s -> ends (Ret a) s Q.
Proof. intros H. exists s, a. by split; [constructor|]. Qed.

Lemma ends_atomic {B : Set} o (f : Oracle -> St -> option (St * B)) s s' b (Q : B -> St -> Prop) :
  f o s = Some (s', b) -> Q b s' -> ends (atomic f) s Q.
Proof.
  intros E HQ. exists s', b. split; [|done]. apply (solo_act _ _ _ o). rewrite E. constructor.
Qed.

Lemma ends_bind {A B} (p : prog St A) (k : A -> prog St B) s Q :
  ends p s (fun a s1 => ends (k a) s1 Q) -> ends (p ≫= k) s Q.
Proof. intros (s1 & a & Hr & s2 & b & Hk & HQ). exists s2, b. split; [|done]. by eapply solo_bind. Qed.

Lemma ends_step {A} {B : Set} o (f : Oracle -> St -> option (St * B)) (k : B -> prog St A) s s' b Q :
  f o s = Some (s', b) -> ends (k b) s' Q -> ends (atomic f ≫= k) s Q.
Proof. intros E HQ. apply ends_bind. by apply (ends_atomic o f s s' b). Qed.

Lemma ends_mono {A} (p : prog St A) s (Q Q' : A -> St -> Prop) : (forall a s', Q a s' -> Q' a s') -> ends p s Q -> ends p s Q'.
Proof. intros H (s' & a & Hr & HQ). exists s', a. auto. Qed.
End Solo.

Section Refinement.
Context {utf8 : Utf8Check} {codec : PacketCodec} {laws : PacketCodecLaws codec} {os : Os}.

(** The program of an operation. *)
Definition op_prog (op : SessionOp) : nprog unit :=
  match op with
  | OpConnect => Conn_process_connect
  | OpReject max_session_count => Conn_reject_connection max_session_count
  | OpSend sendBuffer => Conn_send sendBuffer
  | OpPing now => Conn_send_ping now
  | OpDisconnect => Conn_disconnect
  | OpShutdown => Conn_begin_shutdown
  | OpComplete (RecvCompletion chunk) failed => Conn_iocp_dispatch true EventType_Recv (if failed then 0 else zlen chunk)
  | OpComplete (SendCompletion n) failed => Conn_iocp_dispatch true EventType_send (if failed then 0 else n)
  | OpComplete DisconnectCompletion failed => Conn_iocp_dispatch true EventType_disconnect (if failed then 0 else 0)
  end.

(** What the system does before the program starts: a completion ends its operation. *)
Definition dequeue (op : SessionOp) (s : Conn) : Conn :=
  match op with
  | OpComplete (RecvCompletion chunk) _ =>
      s <| n_recv := None |> <| n_session ::= fun x => x <| s_recv_buffer ::= RecvBuffer_os_store chunk |> |>
  | OpComplete (SendCompletion _) _ => s <| n_send := None |>
  | OpComplete DisconnectCompletion _ => s <| n_disconnect := false |>
  | _ => s
  end.

(** The operations in flight are those whose event has an owner. *)
Definition agree (s : Conn) : Prop :=
  flying (n_send s) = b2z (s_send_owner (n_session s)) /\ flying (n_recv s) = b2z (s_recv_owner (n_session s)) /\
  n_disconnect s = s_disconnect_owner (n_session s).

(** The program ends where the method does. *)
Definition sim {A} (p : nprog A) (s : Conn) (m : SM A) (e : Env) : Prop :=
  forall a x' e', m (n_session s, e) = Some (a, (x', e')) ->
    ends p s (fun a' s' => a' = a /\ n_session s' = x' /\ n_stats s' = e_stats e' /\ agree s').

(** The answers that give the result [r] of an overlapped call. *)
Definition answers (r : IoResult) : Oracle :=
  fun _ => match r with IoDone => 0 | IoPending => WSA_IO_PENDING | IoError _ => 10054 end.

Lemma call_accepted_answers r : call_accepted (answers r) = match r with IoError _ => false | _ => true end.
Proof. by destruct r. Qed.

(** Runs a method as far as its conditions are known. *)
Ltac sm H :=
  unfold mbind, SM_bind, mret, SM_ret, get, modify, stat, crash, overlapped_call, begin_io, finish_io in H;
  cbn [fst snd e_io e_stats upd andb orb negb n_session n_stats s_socket_open s_pending_io
       s_shutdown_started s_was_connected s_pending_jobs s_logic_stopped s_cleanup_done
       s_logic_queue s_is_connect s_is_disconnect s_close_after_send s_account_idx s_enter_room_id
       s_user_name s_is_login s_recv_buffer s_send_queue s_is_send_register s_send_event
       s_recv_owner s_send_owner s_disconnect_owner s_last_pong_tick s_last_ping_tick s_waiting_pong] in H.

(** Runs the next action of the program, with the answer [r] of the system. *)
Ltac act :=
  unfold register_disconnect_conn, register_recv_conn, register_send_conn, begin_io_conn, finish_io_conn; fields;
  rewrite ?call_accepted_answers; fields; repeat match goal with H : ?b = _ |- context [if ?b then _ else _] => rewrite H end;
  cbn [mbind option_bind]; fields; reflexivity.
Ltac go r :=
  first [eapply (ends_step (answers r)); [act|] | eapply (ends_atomic (answers r)); [act|]]; cbv beta iota; cbn [negb].

(** The method and the program have both ended. *)
Ltac finish H := sm H; simplify_eq; cbv beta iota; try apply ends_ret; unfold agree; fields; destruct_and?; done.

Lemma process_disconnect_sim s e :
  n_stats s = e_stats e -> agree s -> sim Conn_process_disconnect s Session_process_disconnect e.
Proof.
  intros Hst Hag a x' e' H. destruct s as [[] ]. unfold agree in *. fields in *. unfold Session_process_disconnect in H.
  sm H. unfold Conn_process_disconnect. go IoDone. destruct s_is_disconnect; [finish H|].
  go IoDone. go IoDone. unfold Session_queue_logic in *. rewrite andb_false_r in H. sm H.
  go IoDone. rewrite andb_false_r. finish H.
Qed.

Lemma register_disconnect_sim s e :
  n_stats s = e_stats e -> agree s -> sim Conn_register_disconnect s Session_register_disconnect e.
Proof.
  intros Hst Hag a x' e' H. destruct s as [[] ]. unfold agree in *. fields in *. unfold Session_register_disconnect in H.
  sm H. unfold Conn_register_disconnect. destruct Hag as (E1 & E2 & ->).
  destruct s_shutdown_started; [go IoDone; finish H|].
  destruct s_disconnect_owner; [done|]. sm H. destruct (os (e_io e)) as [| |code].
  - go IoDone. finish H.
  - go IoPending. finish H.
  - sm H. destruct (_ >? 0) eqn:Ep in H; [|done]. go (IoError code). go IoDone. finish H.
Qed.

(** Both have come to the call of another method. *)
Ltac tail L H := sm H; eapply L; [| |exact H]; [fields; done|unfold agree; fields; destruct_and?; done].

Lemma disconnect_sim s e :
  n_stats s = e_stats e -> agree s -> sim Conn_disconnect s Session_disconnect e.
Proof.
  intros Hst Hag a x' e' H. destruct s as [[] ]. unfold agree in Hag. fields in *. subst n_stats. unfold Session_disconnect in H.
  sm H. unfold Conn_disconnect. go IoDone. destruct s_is_connect; [|finish H]. cbn [negb]. apply ends_bind.
  sm H. destruct (Session_register_disconnect (_, _)) as [[ok [x1 e1]]|] eqn:E1 in H; [|done].
  eapply ends_mono; [|by eapply register_disconnect_sim; [| |exact E1]]. cbv beta. intros ok' s1 (-> & <- & Hst1 & Hag1).
  destruct ok; [finish H|]. by apply (process_disconnect_sim s1 e1).
Qed.

Lemma register_recv_sim s e :
  n_stats s = e_stats e -> agree s -> sim Conn_register_recv s Session_register_recv e.
Proof.
  intros Hst Hag a x' e' H. destruct s as [[] ]. unfold agree in Hag. fields in *. subst n_stats. unfold Session_register_recv in H.
  sm H. unfold Conn_register_recv. go IoDone. destruct (s_shutdown_started || negb s_is_connect) eqn:Eg; [go IoDone; finish H|].
  destruct s_recv_owner; [done|]. destruct n_recv; [exfalso; fields in *; lia|]. sm H. destruct (os (e_io e)) as [| |code].
  - go IoDone. finish H.
  - go IoPending. finish H.
  - sm H. destruct (_ >? 0) eqn:Ep in H; [|done]. go (IoError code). go IoDone. tail disconnect_sim H.
Qed.

Lemma process_connect_sim s e :
  n_stats s = e_stats e -> agree s -> sim Conn_process_connect s Session_process_connect e.
Proof.
  intros Hst Hag a x' e' H. destruct s as [[] ]. unfold agree in Hag. fields in *. subst n_stats. unfold Session_process_connect in H.
  unfold Conn_process_connect, open_conn. do 3 go IoDone. sm H. tail register_recv_sim H.
Qed.

Lemma begin_shutdown_sim s e :
  n_stats s = e_stats e -> agree s -> sim Conn_begin_shutdown s Session_begin_shutdown e.
Proof.
  intros Hst Hag a x' e' H. destruct s as [[] ]. unfold agree in Hag. fields in *. subst n_stats. unfold Session_begin_shutdown in H. sm H.
  unfold Conn_begin_shutdown. destruct s_shutdown_started; go IoDone; [finish H|]. go IoDone. tail process_disconnect_sim H.
Qed.

Lemma register_send_sim s e :
  n_stats s = e_stats e -> agree s -> sim Conn_register_send s Session_register_send e.
Proof.
  intros Hst Hag a x' e' H. destruct s as [[] ]. unfold agree in Hag. fields in *. subst n_stats. unfold Session_register_send in H.
  sm H. unfold Conn_register_send. go IoDone. destruct s_shutdown_started; [go IoDone; finish H|].
  destruct s_is_connect; [|go IoDone; finish H]. destruct s_send_owner; [done|]. destruct n_send; [exfalso; fields in *; lia|].
  sm H. unfold Session_submit_send, Session_fill_send_event in H. sm H.
  destruct (negb (SendEvent_has_pending_data s_send_event)) eqn:Ef; sm H;
    destruct (SendEvent_build_wsabufs _) as [|buf bufs] eqn:Ew in H; sm H.
  1, 3: eapply (ends_step (answers IoDone)); [unfold register_send_conn, Session_fill_send_event; fields; rewrite Ef; fields; rewrite Ew; reflexivity|].
  1, 2: cbv beta iota; go IoDone; go IoDone; destruct s_close_after_send; [tail disconnect_sim H|finish H].
  all: destruct (os (e_io e)) as [| |code] eqn:Eo; sm H.
  all: eapply (ends_step (answers (os (e_io e)))); [unfold register_send_conn, Session_fill_send_event, begin_io_conn; fields; rewrite Ef; fields; rewrite Ew, call_accepted_answers, Eo; fields; reflexivity|].
  all: cbv beta iota.
  all: try finish H.
  all: destruct (_ >? 0) eqn:Ep in H; [|done].
  all: unfold abandon_send; go IoDone; tail disconnect_sim H.
Qed.

Lemma send_sim sendBuffer s e :
  n_stats s = e_stats e -> agree s -> sim (Conn_send sendBuffer) s (Session_send sendBuffer) e.
Proof.
  intros Hst Hag a x' e' H. destruct s as [[] ]. unfold agree in Hag. fields in *. subst n_stats. unfold Session_send in H.
  sm H. unfold Conn_send. go IoDone. destruct s_is_connect; [|finish H]. cbn [negb]. go IoDone. sm H.
  destruct (zlen s_send_queue >=? MAX_SEND_QUEUE_SIZE) eqn:Ez; sm H.
  - eapply (ends_step (answers IoDone)); [unfold send_conn; fields; rewrite Ez; reflexivity|]. tail disconnect_sim H.
  - eapply (ends_step (answers IoDone)); [unfold send_conn; fields; rewrite Ez; reflexivity|]. cbv beta iota.
    destruct s_is_send_register; cbn [negb]; [finish H|tail register_send_sim H].
Qed.

Lemma reject_connection_sim max_session_count s e :
  n_stats s = e_stats e -> agree s ->
  sim (Conn_reject_connection max_session_count) s (Session_reject_connection max_session_count) e.
Proof.
  intros Hst Hag a x' e' H. destruct s as [[] ]. unfold agree in Hag. fields in *. subst n_stats. unfold Session_reject_connection in H.
  sm H. unfold Conn_reject_connection, open_conn. go IoDone. destruct s_is_connect; sm H; [finish H|]. do 3 go IoDone.
  destruct (GameSession_make_server_full_notice _) as [notice|] eqn:En; [|done]. tail send_sim H.
Qed.

(** *** Completions

    The completion of an operation has been dequeued: it is no longer in flight, while its event
    still has its owner. *)

Definition completed (type : EventType) (s : Conn) : Prop :=
  match type with
  | EventType_send => n_send s = None /\ agree (s <| n_session ::= fun x => x <| s_send_owner := false |> |>)
  | EventType_Recv => n_recv s = None /\ agree (s <| n_session ::= fun x => x <| s_recv_owner := false |> |>)
  | EventType_disconnect => n_disconnect s = false /\ agree (s <| n_session ::= fun x => x <| s_disconnect_owner := false |> |>)
  | _ => agree s
  end.

Lemma process_send_sim numOfBytes s e :
  n_stats s = e_stats e -> completed EventType_send s -> sim (Conn_process_send numOfBytes) s (Session_process_send numOfBytes) e.
Proof.
  intros Hst [Hf Hag] a x' e' H. destruct s as [[] ]. unfold agree in Hag. fields in *. subst n_stats n_send. unfold Session_process_send in H.
  sm H. unfold Conn_process_send. do 2 go IoDone. destruct s_is_connect; sm H; [|go IoDone; finish H].
  destruct (SendEvent_consume_sent_bytes numOfBytes s_send_event) as [[ok ev]|] eqn:Ec in H; [|done].
  eapply (ends_step (answers IoDone)); [unfold consume_conn; fields; rewrite Ec; cbn [mbind option_bind fst snd]; fields; reflexivity|].
  cbv beta. destruct ok; cbn [negb]; sm H; [|unfold refuse_completion; go IoDone; tail disconnect_sim H].
  unfold GameSession_on_send in H. sm H. do 2 go IoDone. destruct (SendEvent_has_pending_data ev); sm H; [tail register_send_sim H|].
  do 2 go IoDone. destruct s_close_after_send; sm H; [go IoDone; tail disconnect_sim H|].
  destruct s_send_queue; (eapply (ends_step (answers IoDone)); [unfold need_register_conn; fields; reflexivity|]); cbv beta iota.
  - finish H.
  - tail register_send_sim H.
Qed.

(** A packet is at most a new job; the loop of [on_recv] does not use the receive buffer. *)
Lemma on_recv_packet_job p x : GameSession_on_recv_packet p x = x \/ exists job, GameSession_on_recv_packet p x = Session_post_logic job x.
Proof.
  unfold GameSession_on_recv_packet, HandlePacket. repeat case_match; cbn [snd]; eauto.
Qed.

Lemma on_recv_packet_buffer p rb x :
  GameSession_on_recv_packet p (x <| s_recv_buffer := rb |>) = GameSession_on_recv_packet p x <| s_recv_buffer := rb |>.
Proof.
  unfold GameSession_on_recv_packet, HandlePacket, Session_post_logic, Session_queue_logic. destruct x, s_logic_stopped; repeat case_match; done.
Qed.

Lemma on_recv_loop_sim fuel get_buffer len rb r processLen x x' s :
  on_recv_loop s_is_connect GameSession_on_recv_packet fuel get_buffer len processLen x = Some (r, x') ->
  n_session s = x <| s_recv_buffer := rb |> -> agree s ->
  ends (Conn_on_recv_loop fuel get_buffer len processLen) s
    (fun r' s' => r' = r /\ n_session s' = x' <| s_recv_buffer := rb |> /\ n_stats s' = n_stats s /\ agree s').
Proof.
  revert processLen x s. induction fuel as [|fuel IH]; intros processLen x s H Hx Hag; [done|]. cbn [on_recv_loop Conn_on_recv_loop] in *.
  destruct (_ <? _); [simplify_eq; by apply ends_ret|]. destruct (_ <? _); [simplify_eq; by apply ends_ret|].
  destruct (_ >? _); [simplify_eq; by apply ends_ret|]. destruct (_ <? _); [simplify_eq; by apply ends_ret|].
  set (p := slice _ _ _) in *. unfold Conn_on_recv_packet. eapply (ends_step (answers IoDone)); [reflexivity|]. cbv beta.
  set (s1 := s <| n_session ::= _ |> <| n_framed ::= _ |>).
  assert (n_session s1 = GameSession_on_recv_packet p x <| s_recv_buffer := rb |>) as Hx1.
  { change (n_session s1) with (GameSession_on_recv_packet p (n_session s)). by rewrite Hx, on_recv_packet_buffer. }
  assert (agree s1) as Hag1.
  { change (agree (s <| n_session ::= GameSession_on_recv_packet p |>)). destruct s as [x0]. fields in *. unfold agree in *. fields in *.
    destruct (on_recv_packet_job p x0) as [-> |[job ->]]; [done|]. unfold Session_post_logic, Session_queue_logic. destruct x0, s_logic_stopped; done. }
  eapply (ends_step (answers IoDone)); [reflexivity|]. cbv beta. change (s <| n_session ::= _ |> <| n_framed ::= _ |>) with s1.
  assert (s_is_connect (n_session s1) = s_is_connect (GameSession_on_recv_packet p x)) as Hc by by rewrite Hx1.
  change (s1 <| n_session := n_session s1 |>) with s1. rewrite Hc. destruct (s_is_connect _) in H |- *; cbn [negb] in *.
  - exact (IH _ (GameSession_on_recv_packet p x) s1 H Hx1 Hag1).
  - simplify_eq. by apply ends_ret.
Qed.

Lemma process_recv_sim numOfBytes s e :
  n_stats s = e_stats e -> completed EventType_Recv s -> sim (Conn_process_recv numOfBytes) s (Session_process_recv numOfBytes) e.
Proof.
  intros Hst [Hf Hag] a x' e' H. destruct s as [[] ]. unfold agree in Hag. fields in *. subst n_stats n_recv. unfold Session_process_recv in H.
  sm H. unfold Conn_process_recv. do 2 go IoDone. destruct s_is_connect; sm H; [|finish H]. cbn [negb].
  destruct (numOfBytes =? 0); [tail disconnect_sim H|]. unfold process_recv_buffer in H.
  destruct (RecvBuffer_on_write numOfBytes s_recv_buffer) as [ok rb1] eqn:Ew.
  eapply (ends_step (answers IoDone)); [fields; rewrite Ew; reflexivity|]. cbv beta. fields.
  destruct ok; cbn [negb]; [|tail disconnect_sim H]. do 2 go IoDone. apply ends_bind.
  destruct (on_recv _ _ _ _ _) as [[processLen x1]|] eqn:El in H; [|done].
  eapply ends_mono; [|eapply (on_recv_loop_sim _ _ _ rb1); [exact El|reflexivity|done]].
  cbv beta. intros r s1 (-> & Hx1 & Hst1 & Hag1). fields in *.
  destruct s1, x1. unfold agree in Hag1. fields in *. subst n_session. fields in *. subst n_stats.
  destruct (_ || _); [tail disconnect_sim H|].
  destruct (RecvBuffer_on_read processLen rb1) as [read rb2] eqn:Er.
  eapply (ends_step (answers IoDone)); [fields; rewrite Er; reflexivity|]. cbv beta. fields.
  destruct read; cbn [negb]; [|tail disconnect_sim H]. go IoDone. tail register_recv_sim H.
Qed.

Lemma dispatch_sim type numOfBytes s e :
  n_stats s = e_stats e -> completed type s -> sim (Conn_dispatch type numOfBytes) s (Session_dispatch type numOfBytes) e.
Proof.
  intros Hst Hc. destruct type; cbn [Conn_dispatch Session_dispatch completed] in *.
  - by apply process_connect_sim.
  - intros a x' e' H. destruct Hc as [Hf Hag], s as [[] ]. unfold agree in Hag. fields in *. subst n_stats n_disconnect. sm H.
    go IoDone. tail process_disconnect_sim H.
  - intros a x' e' H. sm H. simplify_eq. by apply ends_ret.
  - by apply process_recv_sim.
  - by apply process_send_sim.
Qed.

Lemma iocp_dispatch_sim type failed numOfBytes s e :
  n_stats s = e_stats e -> completed type s ->
  sim (Conn_iocp_dispatch true type (if (failed : bool) then 0 else numOfBytes)) s (IocpCore_dispatch type failed numOfBytes) e.
Proof.
  intros Hst Hc a x' e' H. unfold IocpCore_dispatch in H. sm H. unfold Conn_iocp_dispatch. cbn [negb]. apply ends_bind.
  destruct (Session_dispatch _ _ _) as [[[] [x1 e1]]|] eqn:Ed in H; [|done].
  eapply ends_mono; [|by apply (dispatch_sim _ _ s e Hst Hc _ _ _ Ed)]. cbv beta. intros [] s1 (_ & <- & Hst1 & Hag1).
  destruct s1. fields in *. unfold agree in Hag1. fields in *. sm H. destruct (_ >? 0) eqn:Ep in H; [|done]. go IoDone. finish H.
Qed.

Lemma send_ping_sim now s e :
  n_stats s = e_stats e -> agree s -> sim (Conn_send_ping now) s (GameSession_send_ping now) e.
Proof.
  intros Hst Hag a x' e' H. destruct s as [[] ]. unfold agree in Hag. fields in *. subst n_stats. unfold GameSession_send_ping, SEND_PACKET in H.
  sm H. unfold Conn_send_ping. do 2 go IoDone. destruct (MakeSendBuffer _) as [b|]; [|done]. tail send_sim H.
Qed.

Lemma op_sim op s e a x' e' :
  n_stats s = e_stats e -> agree s -> exec_op op (n_session s, e) = Some (a, (x', e')) ->
  ends (op_prog op) (dequeue op s) (fun a' s' => a' = a /\ n_session s' = x' /\ n_stats s' = e_stats e' /\ agree s').
Proof.
  intros Hst Hag H. destruct op as [|n|b|now| | |[chunk|n|] failed]; cbn [exec_op op_prog dequeue complete] in *.
  1-6: first [eapply process_connect_sim | eapply reject_connection_sim | eapply send_sim | eapply send_ping_sim
             | eapply disconnect_sim | eapply begin_shutdown_sim]; [exact Hst|exact Hag|exact H].
  all: destruct s as [[] ]; unfold agree in Hag; fields in *; subst n_stats; sm H.
  all: eapply iocp_dispatch_sim; [| |exact H]; [done|]; unfold completed, agree; fields; destruct_and?; done.
Qed.

(** ** The refinement *)

(** The one-step model of a session is what its programs do when nothing comes between.  From
    a state that satisfies the session invariant, with the operations in flight that its events
    record and fewer than 2^30 jobs queued, every operation that may happen (the listener opening or rejecting it, [send],
    [send_ping], [disconnect], [begin_shutdown], a completion) has a result in one step, and the
    program of that operation, added to any other threads [l], has a run in which only its thread
    moves and which ends with exactly that session and those statistics, again in such a state. *)
Theorem session_op_is_run env s e op l :
  n_stats s = e_stats e -> agree s ->
  session_inv (n_session s) -> zlen (s_logic_queue (n_session s)) < 2 ^ 30 -> op_ok op (n_session s) ->
  exists s' e', exec_op op (n_session s, e) = Some ((), (n_session s', e')) /\
    rtc (wstep env) (mkWorld (dequeue op s) (l ++ [op_prog op])) (mkWorld s' l) /\
    n_stats s' = e_stats e' /\ agree s' /\ session_inv (n_session s').
Proof using laws.
  intros Hst Hag Hi Hq Hok. destruct (exec_op_inv (n_session s) op e Hi Hq Hok) as ([] & x' & e' & Hx & Hi').
  destruct (op_sim op s e _ _ _ Hst Hag Hx) as (s' & a & Hr & -> & <- & Hst' & Hag'). exists s', e'. split_and!; [done| |done..].
  by apply solo_runs.
Qed.
End Refinement.

(** ** Witness *)

#[local] Existing Instance demo_os.

(** A session with a send and a receive in flight. *)
Definition demo_conn : Conn :=
  Conn_new <| n_session := demo_sending |> <| n_stats := e_stats demo_env |>
           <| n_recv := Some 655360 |> <| n_send := Some [5; 0; 232; 3; 7] |>.

Lemma session_op_is_run_witness :
  exists s' e', exec_op (OpComplete (SendCompletion 2) false) (demo_sending, demo_env) = Some ((), (n_session s', e')) /\
    rtc (wstep conn_env) (mkWorld (demo_conn <| n_send := None |>) [Conn_disconnect; Conn_iocp_dispatch true EventType_send 2])
      (mkWorld s' [Conn_disconnect]) /\ s_send_owner (n_session s') = true.
Proof.
  destruct (session_op_is_run conn_env demo_conn demo_env (OpComplete (SendCompletion 2) false) [Conn_disconnect])
    as (s' & e' & Hx & Hr & _).
  - reflexivity.
  - by split_and!.
  - exact demo_sending_inv.
  - reflexivity.
  - split; [reflexivity|lia].
  - exists s', e'. split; [exact Hx|]. split; [exact Hr|].
    assert (option_map (fun r => s_send_owner (fst (snd r)))
              (exec_op (OpComplete (SendCompletion 2) false) (demo_sending, demo_env)) = Some true) as E by (vm_compute; reflexivity).
    change (n_session demo_conn) with demo_sending in Hx. rewrite Hx in E. by injection E.
Defined.
